(* ===== verification/_CoqProject ===== *)
-Q . S2P
Prelude.v
Store.v
Js.v
Errors.v
Dates.v
Domain.v
Ticket.v
Customer.v
Tenant.v
User.v
Permissions.v
Notification.v
Schema.v
World.v
Outbox.v
OutboxSystem.v
Logs.v
Tokens.v
Auth.v
EventBus.v
Scheduler.v
Frames.v
Publish.v
Repositories.v
Accounts.v
TicketService.v
Members.v
MembersFacts.v
Invitations.v
InvitationFacts.v
Roles.v
RoleFacts.v
Webhooks.v
WebhookFacts.v
Operations.v
OperationsFacts.v
Gate.v
Admin.v
Notifications.v
NotificationFacts.v
Gateway.v
GatewayFacts.v
TicketFacts.v
TicketCommits.v
TicketInvariants.v
TicketWitnesses.v
Json.v
Customers.v
CustomerFacts.v
Channels.v
ChannelFacts.v
Storage.v
Reports.v
ReportFacts.v
Attachments.v
AttachmentFacts.v
FeatureFlags.v
Ai.v
AiFacts.v
OAuth.v
Search.v
Analytics.v
Jobs.v
