(* ===== verification/Prelude.v ===== *)
(** * OmniSupport: a verification development

    OmniSupport is a multi-tenant help desk: a TypeScript server (Express, Prisma on
    PostgreSQL, Redis) whose code is under [src/src].  This library translates its core
    into Rocq definitions that evaluate, and proves what they promise.

    ** How the program is modelled

    A function of the program that is asynchronous is a computation [W Tbl A] ([World]):
    it reads and changes a [World], the database, the clock, the random identifiers still
    to be drawn, the settings cache, the files in storage, and the calls made to queues, mail
    and realtime channels, and it returns a value or throws one of the errors of [Errors].  A function
    that only computes is a Rocq function; a method that mutates an object returns the new
    object.  Prisma, Redis, JWT signatures and password hashing are not part of the
    repository: they are the type classes [Prisma] ([Store]), [Redis] ([Scheduler]) and
    [Crypto] ([Tokens]), with the documented behaviour the program relies on as their laws,
    and a concrete instance of each shows that the laws can hold.  The AI provider, the
    Google client, the antivirus scanner and the full-text ranking of PostgreSQL are plain
    parameters, arbitrary functions without laws; storage is the interface [StorageProvider]
    ([Storage]), whose laws the local and the in-memory provider are proved to satisfy.  A table is a finite map
    from primary keys to rows; unique indexes and foreign keys are checked by the calls
    that may violate them.  A transaction runs its body and restores the database when the
    body throws.

    One request is one computation.  Where the interleaving of requests or processes is
    what makes the code hard, the model has a step relation between whose steps anything
    else may happen: outbox workers ([OutboxSystem]), the handlers of one event
    ([EventBus.deliver_step]), the schedulers of a cluster ([Scheduler.oc_step]), the
    rotation of a refresh token ([Tokens]), the awaited access checks of the realtime
    gateway ([Gateway.gw_step]), changes to the configuration of a channel while it is
    tested ([ChannelFacts]).  Where the code talks to Redis in several parts ([runJob]), the
    steps are runs of these parts.

    ** Files

    Shared: [Prelude] (record update, the result and state monads, tactics, generic
    lemmas), [Store] (the client interface), [Js] (strings, regular expressions and numbers
    of JavaScript), [Json] (its serialization), [Errors], [Dates], [Schema] (the rows and the world), [World] (one
    definition per client call), [Frames] (what a computation leaves alone, and the tactic
    that proves it).

    Domain ([src/src/domain]): [Domain], [Ticket], [Customer], [Tenant], [User],
    [Permissions], [Notification].

    Infrastructure ([src/src/infrastructure]): [Outbox] and [OutboxSystem], [Scheduler],
    [Repositories] and [Accounts], [Logs], [Gateway] and [GatewayFacts], [Storage], [Jobs]
    (the scheduled jobs).

    Application ([src/src/application]): [EventBus] and [Publish]; [Tokens] and [Auth];
    [TicketService] with [TicketFacts], [TicketCommits], [TicketInvariants] and
    [TicketWitnesses]; [Members], [Invitations], [Roles], [Webhooks], [Operations] and
    [Notifications], [Customers], [Channels], [Reports], [Attachments] and [Ai], each with a
    file of facts of the same name; [FeatureFlags], [OAuth], [Search] and [Analytics], whose
    facts follow the definitions.

    Presentation ([src/src/presentation]): [Gate] (the middlewares in front of every
    route), [Admin] (the administration routes); controllers with logic of their own are
    beside their services.

    ** What is proved

    - Tickets: every command is all or nothing (a queue that refuses a job is noticed after
      the commit), commits exactly the change, its log records and its events, and keeps the ticket tables consistent; a listing shows what
      the access guard would let the actor open.
    - Events: an outbox event follows its life cycle under any interleaving of workers, is
      claimed by one worker at a time, is retried a bounded number of times, is marked as
      processed only when every handler succeeded, and no later delivery runs a
      handler again that succeeded; batches run to their end; an occurrence of a scheduled
      job starts once within the time of its lock.
    - Access: who gets past the gate of a route; who may log in; at most one use of a
      refresh token; what ends sessions; nobody gains a permission by handing out roles;
      who may join an organization; whom a realtime event reaches; which audit records a
      manager sees.
    - Messages and operators: inbound messages are processed once, act for the right
      account only and always settle; settings are well typed whatever is stored;
      interventions are recorded; a purge removes nothing unfinished; redaction and the
      escaping of mails hide what they should.
    - Channels and customers: an enabled channel has passed a check of its present
      configuration; a business number belongs to one organization; what an update or a
      deletion of a customer commits.
    - Reports and files: a worker that completes a report has put exactly the rows asked for
      that its requester may see into its file, in a form that reads back; the states of a report; who downloads what, and
      that a link opens one file inside the storage directory for a limited time; what an
      upload has to satisfy.
    - AI jobs: they never fail, stay on the ticket of their organization, and escalate
      nothing unless it consented or the operator forced it; a gradual rollout only ever adds subjects.
    - Search, statistics and jobs: a search shows what the caller may see; the daily
      counts add up; a sweep flags every overdue ticket, where the organizations can be
      listed without ties.
    - Round trips of stored tickets and events, bounds of delays and lockouts.

    ** Bounds and fuel

    Recursion is structural almost everywhere.  The regular-expression matcher of [Js] is
    structural on the expression and the input; the decimal printers and [parseInt] use the
    length of their input.  Loops that ask the database for pages or batches carry a fuel
    that the theorems show to be enough: the pages of a report are bounded by its limit of
    200,000 rows ([Reports.PAGES]), those of a scheduled job by the number of
    organizations.  Numbers are unbounded integers (identifiers,
    counters and milliseconds stay far below 2^53 in the program); where a number can be
    fractional or not a number the model has [jsnum] or [Q].

    ** Not modelled

    Adapters that only call outside services (S3, SMTP, OpenAI, BullMQ, Twilio sending),
    the matching and ranking of full-text search (PostgreSQL and database triggers), rate
    limits and the cache (Redis), the deletion of cancelled organizations (it cascades over
    the schema inside the database), wiring, configuration, logging and metrics.
    Concurrent requests other than those above are modelled one after the other, so a race
    between the reads and the writes of one service call is visible only where the code
    itself guards against it with a conditional update.  Strings are Latin-1. *)

From stdpp Require Export base tactics option list list_monad gmap strings fin_maps sorting.
From Stdlib Require Export ZArith Lia.

#[global] Open Scope Z_scope.
#[export] Set Default Proof Using "Type".

Declare Scope omni_scope.
Delimit Scope omni_scope with omni.
#[global] Open Scope omni_scope.

(** ** Functional record update

    TypeScript code assigns one field of an object at a time.  [r <| f := v |>] is
    the record equal to [r] except at the projection [f].  A record opts in by giving
    its eta expansion; the setter of a projection is then found by rewriting the
    eta expansion at that projection. *)

Class Eta (R : Type) := eta_expand : R → R.
#[global] Hint Mode Eta ! : typeclass_instances.

Class Update {R T : Type} (proj : R → T) := update : (T → T) → R → R.
Arguments update {R T} proj {_} _ _ /.

(** The setter destructs its argument once, so nested updates stay linear in size. *)
Ltac derive_update :=
  match goal with
  | |- @Update ?R ?T ?proj =>
      let inst := constr:(_ : Eta R) in
      let setter := constr:(fun (f : T → T) (r : R) =>
        ltac:(
          let body := eval hnf in (inst r) in
          let gen := eval pattern (proj r) in body in
          match gen with
          | ?g _ =>
              let res := eval cbv beta in (g (f (proj r))) in
              let out := fresh "out" in
              pose (out := res); destruct r; exact out
          end)) in
      let setter := eval cbv beta iota zeta in setter in
      let setter := eval simpl in setter in
      unfold Update; exact setter
  end.
#[global] Hint Extern 0 (Update _) => derive_update : typeclass_instances.

Notation "r <| f := v |>" := (update f (λ _, v) r)
  (at level 1, left associativity, format "r  <| f  :=  v |>") : omni_scope.
Notation "r <| f ::= g |>" := (update f g r)
  (at level 1, left associativity, format "r  <| f  ::=  g |>") : omni_scope.

(** Reading a field after an assignment: of the same field, and of another one.  The
    instances are found by computation. *)
Class GetUpdate {R T} (proj : R → T) {U : Update proj} : Prop :=
  get_update f r : proj (update proj f r) = f (proj r).
Class UpdateFrame {R T T'} (proj : R → T) (other : R → T') {U : Update other} : Prop :=
  update_frame f r : proj (update other f r) = proj r.
#[global] Hint Extern 0 (GetUpdate _) =>
  let r := fresh in intros ? r; destruct r; reflexivity : typeclass_instances.
#[global] Hint Extern 0 (UpdateFrame _ _) =>
  let r := fresh in intros ? r; destruct r; reflexivity : typeclass_instances.

Ltac upd_simpl := repeat (rewrite get_update || rewrite update_frame).
Tactic Notation "upd_simpl" "in" hyp(H) :=
  repeat (rewrite get_update in H || rewrite update_frame in H).

(** ** Results: a value, or a thrown error *)

Inductive result (E A : Type) : Type :=
| Ok (a : A)
| Err (e : E).
Arguments Ok {E A} _.
Arguments Err {E A} _.

#[export] Instance result_ret {E} : MRet (result E) := λ A a, Ok a.
#[export] Instance result_bind {E} : MBind (result E) := λ A B f m,
  match m with Ok a => f a | Err e => Err e end.
#[export] Instance result_fmap {E} : FMap (result E) := λ A B f m,
  match m with Ok a => Ok (f a) | Err e => Err e end.

Definition is_ok {E A} (r : result E A) : bool :=
  match r with Ok _ => true | Err _ => false end.

(** [guard_err b e] throws [e] unless [b] holds. *)
Definition guard_err {E} (b : bool) (e : E) : result E unit :=
  if b then Ok () else Err e.

(** [opt_or e o] is [o], or throws [e] when [o] is undefined. *)
Definition opt_or {E A} (e : E) (o : option A) : result E A :=
  match o with Some a => Ok a | None => Err e end.

Lemma result_bind_ok {E A B} (m : result E A) (f : A → result E B) b :
  m ≫= f = Ok b ↔ ∃ a, m = Ok a ∧ f a = Ok b.
Proof. destruct m; naive_solver. Qed.

Lemma guard_err_ok {E} b (e : E) u : guard_err b e = Ok u ↔ b = true.
Proof. destruct b, u; naive_solver. Qed.

Lemma opt_or_ok {E A} (e : E) (o : option A) a : opt_or e o = Ok a ↔ o = Some a.
Proof. destruct o; naive_solver. Qed.

(** ** State and error: the effects of an asynchronous handler *)

Definition M (S E A : Type) : Type := S → result E A * S.

#[export] Instance M_ret {S E} : MRet (M S E) := λ A a s, (Ok a, s).
#[export] Instance M_bind {S E} : MBind (M S E) := λ A B f m s,
  match m s with
  | (Ok a, s') => f a s'
  | (Err e, s') => (Err e, s')
  end.

Definition throw {S E A} (e : E) : M S E A := λ s, (Err e, s).
Definition gets {S E A} (f : S → A) : M S E A := λ s, (Ok (f s), s).
Definition modify {S E} (f : S → S) : M S E unit := λ s, (Ok (), f s).
Definition lift {S E A} (r : result E A) : M S E A := λ s, (r, s).

(** [try_catch m h] is [try { m } catch (error) { h error }]: the effects of [m] stay. *)
Definition try_catch {S E A} (m : M S E A) (h : E → M S E A) : M S E A := λ s,
  match m s with
  | (Ok a, s') => (Ok a, s')
  | (Err e, s') => h e s'
  end.

(** [for (const x of xs) body] *)
Fixpoint for_each {S E A} (body : A → M S E unit) (xs : list A) : M S E unit :=
  match xs with
  | [] => mret ()
  | x :: xs => body x ≫= λ _, for_each body xs
  end.

Lemma M_bind_ok {S E A B} (m : M S E A) (f : A → M S E B) s b s' :
  (m ≫= f) s = (Ok b, s') ↔ ∃ a s1, m s = (Ok a, s1) ∧ f a s1 = (Ok b, s').
Proof. unfold mbind, M_bind. destruct (m s) as [[a|e] s1]; naive_solver. Qed.

Lemma M_bind_err {S E A B} (m : M S E A) (f : A → M S E B) s e s' :
  (m ≫= f) s = (Err e, s') ↔
  m s = (Err e, s') ∨ ∃ a s1, m s = (Ok a, s1) ∧ f a s1 = (Err e, s').
Proof. unfold mbind, M_bind. destruct (m s) as [[a|e'] s1]; naive_solver. Qed.

(** ** Preservation of a state invariant by a computation *)

Definition preserves {S E A} (I : S → Prop) (m : M S E A) : Prop :=
  ∀ s, I s → I (m s).2.

Lemma preserves_ret {S E A} (I : S → Prop) (a : A) : preserves (E:=E) I (mret a).
Proof. by intros s Hs. Qed.

Lemma preserves_throw {S E A} (I : S → Prop) (e : E) : preserves (A:=A) I (throw e).
Proof. by intros s Hs. Qed.

Lemma preserves_gets {S E A} (I : S → Prop) (f : S → A) : preserves (E:=E) I (gets f).
Proof. by intros s Hs. Qed.

Lemma preserves_lift {S E A} (I : S → Prop) (r : result E A) : preserves I (lift r).
Proof. by intros s Hs. Qed.

Lemma preserves_modify {S E} (I : S → Prop) (f : S → S) :
  (∀ s, I s → I (f s)) → preserves (E:=E) I (modify f).
Proof. intros Hf s Hs. by apply Hf. Qed.

Lemma preserves_bind {S E A B} (I : S → Prop) (m : M S E A) (f : A → M S E B) :
  preserves I m → (∀ a, preserves I (f a)) → preserves I (m ≫= f).
Proof.
  intros Hm Hf s Hs. specialize (Hm s Hs). unfold mbind, M_bind.
  destruct (m s) as [[a|e] s1]; [by apply Hf|done].
Qed.

Lemma preserves_try {S E A} (I : S → Prop) (m : M S E A) (h : E → M S E A) :
  preserves I m → (∀ e, preserves I (h e)) → preserves I (try_catch m h).
Proof.
  intros Hm Hh s Hs. specialize (Hm s Hs). unfold try_catch.
  destruct (m s) as [[a|e] s1]; [done|by apply Hh].
Qed.

Lemma preserves_for_each {S E A} (I : S → Prop) (body : A → M S E unit) xs :
  (∀ x, preserves I (body x)) → preserves I (for_each body xs).
Proof.
  intros Hb. induction xs as [|x xs IH]; [apply preserves_ret|].
  by apply preserves_bind.
Qed.

Lemma preserves_if {S E A} (I : S → Prop) (b : bool) (m1 m2 : M S E A) :
  preserves I m1 → preserves I m2 → preserves I (if b then m1 else m2).
Proof. by destruct b. Qed.

Create HintDb omni.
#[export] Hint Resolve preserves_ret preserves_throw preserves_gets preserves_lift : omni.

(** ** Tactics *)

(** Split every successful bind of a hypothesis into its steps. *)
Ltac inv_ok :=
  repeat match goal with
  | H : Ok _ = Ok _ |- _ => injection H as H; try subst
  | H : Err _ = Err _ |- _ => injection H as H; try subst
  | H : Ok _ = Err _ |- _ => discriminate H
  | H : Err _ = Ok _ |- _ => discriminate H
  | H : (_, _) = (_, _) |- _ =>
      let H1 := fresh H in
      pose proof (f_equal fst H) as H1; apply (f_equal snd) in H;
      cbn [fst snd] in H, H1; try subst
  | H : mret _ = Ok _ |- _ => injection H as H; try subst
  | H : guard_err _ _ = Ok _ |- _ => apply guard_err_ok in H
  | H : opt_or _ _ = Ok _ |- _ => apply opt_or_ok in H
  | H : _ ≫= _ = Ok _ |- _ =>
      let a := fresh "a" in let H1 := fresh H in
      apply result_bind_ok in H as (a & H1 & H)
  | H : (_ ≫= _) _ = (Ok _, _) |- _ =>
      let a := fresh "a" in let s := fresh "s" in let H1 := fresh H in
      apply M_bind_ok in H as (a & s & H1 & H)
  end.

(** Turn boolean tests of the code into propositions. *)
Ltac bool_to_prop :=
  repeat match goal with
  | H : (_ && _) = true |- _ => apply andb_true_iff in H as [? ?]
  | H : (_ || _) = false |- _ => apply orb_false_iff in H as [? ?]
  | H : negb _ = true |- _ => apply negb_true_iff in H
  | H : negb _ = false |- _ => apply negb_false_iff in H
  | H : bool_decide _ = true |- _ => apply bool_decide_eq_true in H
  | H : bool_decide _ = false |- _ => apply bool_decide_eq_false in H
  | H : (_ <? _) = true |- _ => apply Z.ltb_lt in H
  | H : (_ <? _) = false |- _ => apply Z.ltb_ge in H
  | H : (_ <=? _) = true |- _ => apply Z.leb_le in H
  | H : (_ <=? _) = false |- _ => apply Z.leb_gt in H
  | H : (_ =? _) = true |- _ => apply Z.eqb_eq in H
  | H : (_ =? _) = false |- _ => apply Z.eqb_neq in H
  end.

(** Case analysis on the scrutinee of a [match] or [if] of the goal. *)
Ltac split_cases :=
  repeat (case_match || case_decide || case_bool_decide); simplify_eq/=.
