(* ===== verification/Store.v ===== *)
(** * The database client the program is written against

    Prisma and PostgreSQL are not part of the repository.  [Prisma Tbl] lists the client
    calls the program makes on a table, [rows] being the contents of the table, with what
    the program relies on about each call.  [gmap string] is one implementation; it shows
    that the laws can hold and lets the definitions be evaluated. *)

From Stdlib Require Import String.
From S2P Require Import Prelude.

(** ** Tables *)

(** [pick orderBy take l res]: [res] is an [orderBy … take] of the rows [l]: the first
    [take] of a permutation of [l] sorted by the key [orderBy]. *)
Definition pick {R} (orderBy : string * R → Z) (take_ : option nat)
    (l res : list (string * R)) : Prop :=
  ∃ l', l' ≡ₚ l ∧ Sorted (λ a b, orderBy a <= orderBy b) l' ∧
        res = match take_ with Some n => take n l' | None => l' end.

Definition matching {R} (where_ : string → R → bool) (m : gmap string R)
  : gmap string R :=
  filter (λ kv, where_ kv.1 kv.2 = true) m.

Class Prisma (Tbl : Type → Type) := {
  rows {R} : Tbl R → gmap string R;
  (** [findUnique({ where: { id } })] *)
  findUnique {R} : string → Tbl R → option R;
  (** [findMany({ where, orderBy, take })] *)
  findMany {R} : (string → R → bool) → (string * R → Z) → option nat → Tbl R
    → list (string * R);
  (** [updateMany({ where, data })], with the number of rows changed *)
  updateMany {R} : (string → R → bool) → (R → R) → Tbl R → Z * Tbl R;
  (** [deleteMany({ where })] *)
  deleteMany {R} : (string → R → bool) → Tbl R → Z * Tbl R;
  (** [create({ data })]; [clash] holds of the rows that share a unique column with the
      new one.  [None] is the unique-constraint error P2002. *)
  create {R} : (string → R → bool) → string → R → Tbl R → option (Tbl R);
  (** What a column holds after an update whose [data] gives it [v]: a field that is
      [undefined] is left out of the update. *)
  assign_column {A} : option A → A → A;
  (** What [$transaction] leaves in the database: the state its callback reached when
      the callback returns, the state it started from when it throws. *)
  end_transaction {D} (committed : bool) (before after : D) : D;

  findUnique_rows {R} i (t : Tbl R) : findUnique i t = rows t !! i;
  findMany_rows {R} w o n (t : Tbl R) :
    pick o n (map_to_list (matching w (rows t))) (findMany w o n t);
  updateMany_rows {R} w d (t : Tbl R) i :
    rows (updateMany w d t).2 !! i = (λ r, if w i r then d r else r) <$> rows t !! i;
  updateMany_count {R} w d (t : Tbl R) :
    (updateMany w d t).1 = Z.of_nat (size (matching w (rows t)));
  deleteMany_rows {R} w (t : Tbl R) i :
    rows (deleteMany w t).2 !! i = rows t !! i ≫= λ r, if w i r then None else Some r;
  deleteMany_count {R} w (t : Tbl R) :
    (deleteMany w t).1 = Z.of_nat (size (matching w (rows t)));
  create_rows {R} clash i r (t t' : Tbl R) :
    create clash i r t = Some t' →
    rows t !! i = None ∧ matching clash (rows t) = ∅ ∧ rows t' = <[i := r]> (rows t);
  create_fresh {R} clash i r (t : Tbl R) :
    rows t !! i = None → matching clash (rows t) = ∅ → is_Some (create clash i r t);
  assign_undefined {A} (old : A) : assign_column None old = old;
  assign_value {A} (v old : A) : assign_column (Some v) old = v;
  commit {D} (before after : D) : end_transaction true before after = after;
  rollback {D} (before after : D) : end_transaction false before after = before;
}.

(** ** An implementation *)

Definition key_le {R} (o : string * R → Z) (a b : string * R) : Prop := o a <= o b.

#[local] Instance key_le_dec {R} (o : string * R → Z) : RelDecision (key_le o).
Proof. intros a b. unfold key_le. apply _. Defined.

Definition map_findMany {R} (w : string → R → bool) (o : string * R → Z)
    (n : option nat) (t : gmap string R) : list (string * R) :=
  let l := merge_sort (key_le o) (map_to_list (matching w t)) in
  match n with Some n => take n l | None => l end.

Definition map_create {R} (clash : string → R → bool) (i : string) (r : R)
    (t : gmap string R) : option (gmap string R) :=
  match t !! i with
  | Some _ => None
  | None => match map_to_list (matching clash t) with
            | [] => Some (<[i := r]> t)
            | _ => None
            end
  end.


Lemma map_findMany_pick {R} w o n (t : gmap string R) :
  pick o n (map_to_list (matching w t)) (map_findMany w o n t).
Proof.
  unfold map_findMany. exists (merge_sort (key_le o) (map_to_list (matching w t))).
  split; [apply merge_sort_Permutation|].
  split; [|destruct n; reflexivity].
  assert (Total (key_le o)) by (intros a b; unfold key_le; lia).
  apply (Sorted_merge_sort (key_le o)).
Qed.

#[export] Instance map_prisma : Prisma (gmap string).
Proof.
  refine {|
    rows := λ R t, t;
    findUnique := λ R i t, t !! i;
    findMany := λ R, map_findMany;
    updateMany := λ R w d t,
      (Z.of_nat (size (matching w t)),
       map_imap (λ i r, Some (if w i r then d r else r)) t);
    deleteMany := λ R w t,
      (Z.of_nat (size (matching w t)), map_imap (λ i r, if w i r then None else Some r) t);
    create := λ R, map_create;
    assign_column := λ A v old, match v with Some x => x | None => old end;
    end_transaction := λ D c before after, if c then after else before;
  |}; intros; simpl; try reflexivity.
  - apply map_findMany_pick.
  - rewrite map_lookup_imap. by destruct (t !! i).
  - by rewrite map_lookup_imap.
  - unfold map_create in *. destruct (t !! i) eqn:E; [done|].
    destruct (map_to_list (matching clash t)) eqn:E2; [|done].
    apply map_to_list_empty_iff in E2. naive_solver.
  - unfold map_create. rewrite H, H0, map_to_list_empty. eauto.
Defined.

(** ** Reading the result of a query *)

Section query_lemmas.
Context {Tbl : Type → Type} `{!Prisma Tbl} {R : Type}.
Implicit Types (t : Tbl R) (i : string) (r : R).

Lemma matching_lookup (w : string → R → bool) (m : gmap string R) i r :
  matching w m !! i = Some r ↔ m !! i = Some r ∧ w i r = true.
Proof. unfold matching. by rewrite map_lookup_filter_Some. Qed.

(** A clause that only the row with key [i] can satisfy matches at most one row. *)
Lemma size_matching_key (w : string → R → bool) (m : gmap string R) i :
  (∀ j r, w j r = true → j = i) →
  size (matching w m) =
    match m !! i with Some r => if w i r then 1%nat else 0%nat | None => 0%nat end.
Proof.
  intros Hkey. destruct (m !! i) as [r|] eqn:Hr; [destruct (w i r) eqn:Hp|].
  - replace (matching w m) with ({[i := r]} : gmap string R); [apply map_size_singleton|].
    apply map_eq. intros j. symmetry. destruct (decide (j = i)) as [->|Hne].
    + rewrite lookup_singleton_eq. by apply matching_lookup.
    + rewrite lookup_singleton_ne by done. apply map_lookup_filter_None. right.
      intros x _ Hx. by apply Hkey in Hx.
  - apply map_size_empty_iff, map_eq. intros j. rewrite lookup_empty.
    apply map_lookup_filter_None. right. intros x Hx Hw. simpl in Hw.
    apply Hkey in Hw as Hj. subst. congruence.
  - apply map_size_empty_iff, map_eq. intros j. rewrite lookup_empty.
    apply map_lookup_filter_None. right. intros x Hx Hw. simpl in Hw.
    apply Hkey in Hw as Hj. subst. congruence.
Qed.

Lemma pick_all (o : string * R → Z) l res : pick o None l res → res ≡ₚ l.
Proof. intros (l' & Hp & _ & ->). done. Qed.

Lemma pick_subset (o : string * R → Z) n l res x : pick o n l res → x ∈ res → x ∈ l.
Proof.
  intros (l' & Hp & _ & ->) Hx. rewrite <-Hp. destruct n; [|done].
  by apply elem_of_take in Hx as (i & ?%list_elem_of_lookup_2 & _).
Qed.

(** Every row a query returns satisfies its [where] clause and is in the table. *)
Lemma findMany_elem w o n t i r :
  (i, r) ∈ findMany w o n t → rows t !! i = Some r ∧ w i r = true.
Proof.
  intros H. eapply pick_subset in H; [|apply findMany_rows].
  apply elem_of_map_to_list, matching_lookup in H. done.
Qed.

(** Without a limit, every such row is returned. *)
Lemma findMany_all w o t i r :
  (i, r) ∈ findMany w o None t ↔ rows t !! i = Some r ∧ w i r = true.
Proof.
  rewrite (pick_all _ _ _ (findMany_rows w o None t)), elem_of_map_to_list.
  apply matching_lookup.
Qed.

Lemma findMany_NoDup w o n t : NoDup (findMany w o n t).*1.
Proof.
  destruct (findMany_rows w o n t) as (l' & Hp & _ & ->).
  assert (NoDup l'.*1) as Hn by (rewrite Hp; apply NoDup_fst_map_to_list).
  destruct n; [|done]. rewrite fmap_take. rewrite <-(take_drop n l'.*1) in Hn.
  by apply NoDup_app in Hn as [? _].
Qed.

(** The number of rows returned: the limit, or all of them. *)
Lemma findMany_length w o n t :
  length (findMany w o (Some n) t) = Nat.min n (size (matching w (rows t))).
Proof.
  destruct (findMany_rows w o (Some n) t) as (l' & Hp & _ & ->).
  rewrite length_take, Hp. by rewrite length_map_to_list.
Qed.

(** A limited query that leaves a row out returns rows that do not sort after it. *)
Lemma findMany_first w o n t i r :
  rows t !! i = Some r → w i r = true → (i, r) ∉ findMany w o (Some n) t →
  length (findMany w o (Some n) t) = n ∧
  ∀ x, x ∈ findMany w o (Some n) t → o x <= o (i, r).
Proof.
  intros Hi Hw Hout. destruct (findMany_rows w o (Some n) t) as (l' & Hp & Hs & Heq).
  rewrite Heq in *. assert ((i, r) ∈ l') as Hin.
  { rewrite Hp, elem_of_map_to_list. by apply matching_lookup. }
  rewrite <-(take_drop n l') in Hin. apply elem_of_app in Hin as [?|Hin]; [done|].
  split.
  - rewrite length_take. apply list_elem_of_lookup in Hin as [k Hk].
    rewrite lookup_drop in Hk. apply lookup_lt_Some in Hk. lia.
  - intros x Hx. apply Sorted_StronglySorted in Hs; [|intros a b c; simpl; lia].
    rewrite <-(take_drop n l') in Hs.
    by eapply (StronglySorted_app_1_elem_of (λ a b, o a <= o b)).
Qed.

(** When no two matching rows share a sort key, the order is determined, and a limited
    query returns a prefix of the unlimited one. *)
Lemma findMany_take w o n t :
  (∀ i r j r', rows t !! i = Some r → w i r = true → rows t !! j = Some r' → w j r' = true →
    o (i, r) = o (j, r') → i = j) →
  findMany w o (Some n) t = take n (findMany w o None t).
Proof.
  intros Hinj. destruct (findMany_rows w o (Some n) t) as (l1 & H1 & S1 & ->).
  destruct (findMany_rows w o None t) as (l2 & H2 & S2 & ->). f_equal.
  assert (Transitive (λ a b : string * R, o a <= o b)) by (intros a b c; lia).
  apply (StronglySorted_unique_strong (λ a b, o a <= o b)).
  - intros [i r] [j r'] Hx Hy Hle Hge. rewrite H1 in Hx. rewrite H2 in Hy.
    apply elem_of_map_to_list, matching_lookup in Hx as [Hi Hwi].
    apply elem_of_map_to_list, matching_lookup in Hy as [Hj Hwj].
    assert (i = j) as -> by (eapply Hinj; eauto; lia). by simplify_eq.
  - by apply Sorted_StronglySorted.
  - by apply Sorted_StronglySorted.
  - by rewrite H1, H2.
Qed.

Lemma update_lookup_same w d t i r :
  rows t !! i = Some r → w i r = true → rows (updateMany w d t).2 !! i = Some (d r).
Proof. intros Hi Hw. by rewrite updateMany_rows, Hi; simpl; rewrite Hw. Qed.

Lemma update_lookup_other w d t i r :
  rows t !! i = Some r → w i r = false → rows (updateMany w d t).2 !! i = Some r.
Proof. intros Hi Hw. by rewrite updateMany_rows, Hi; simpl; rewrite Hw. Qed.
End query_lemmas.
