(* ===== verification/Js.v ===== *)
(** * The JavaScript values the program computes with

    Strings are sequences of 8-bit (Latin-1) code units, dates are milliseconds since
    the epoch, numbers that may be fractional or non-finite are [jsnum].  This file
    translates the methods of [String], [Math], [Array] and the regular expressions
    the source uses. *)

From Stdlib Require Import Ascii String QArith Qround.
From S2P Require Import Prelude.

#[local] Open Scope Z_scope.

(** ** Code units *)

Definition code (c : ascii) : Z := Z.of_nat (nat_of_ascii c).
Definition of_code (z : Z) : ascii := ascii_of_nat (Z.to_nat z).
Definition between (lo hi : Z) (c : ascii) : bool := (lo <=? code c) && (code c <=? hi).

Definition is_upper (c : ascii) : bool := between 65 90 c.
Definition is_lower (c : ascii) : bool := between 97 122 c.
Definition is_digit (c : ascii) : bool := between 48 57 c.
Definition is_alnum (c : ascii) : bool := is_upper c || is_lower c || is_digit c.

(** [\s]: tab, line feed, vertical tab, form feed, carriage return, space, no-break space. *)
Definition is_space (c : ascii) : bool :=
  between 9 13 c || (code c =? 32) || (code c =? 160).

Definition lower_char (c : ascii) : ascii :=
  if is_upper c || (between 192 222 c && negb (code c =? 215))
  then of_code (code c + 32) else c.

(** [ß] becomes two code units; [µ] and [ÿ] map outside Latin-1 and are kept. *)
Definition upper_char (c : ascii) : string :=
  if is_lower c || (between 224 254 c && negb (code c =? 247))
  then String (of_code (code c - 32)) EmptyString
  else if code c =? 223 then "SS" else String c EmptyString.

(** ** Strings *)

Fixpoint str_map (f : ascii → ascii) (s : string) : string :=
  match s with
  | EmptyString => EmptyString
  | String c s => String (f c) (str_map f s)
  end.

Fixpoint str_flat_map (f : ascii → string) (s : string) : string :=
  match s with
  | EmptyString => EmptyString
  | String c s => (f c ++ str_flat_map f s)%string
  end.

Fixpoint str_forall (p : ascii → bool) (s : string) : bool :=
  match s with
  | EmptyString => true
  | String c s => p c && str_forall p s
  end.

Fixpoint str_exists (p : ascii → bool) (s : string) : bool :=
  match s with
  | EmptyString => false
  | String c s => p c || str_exists p s
  end.

Definition toLowerCase (s : string) : string := str_map lower_char s.
Definition toUpperCase (s : string) : string := str_flat_map upper_char s.

(** Remove the longest prefix (suffix) of characters in [p]. *)
Fixpoint drop_start (p : ascii → bool) (s : string) : string :=
  match s with
  | EmptyString => EmptyString
  | String c s' => if p c then drop_start p s' else s
  end.

Fixpoint drop_end (p : ascii → bool) (s : string) : string :=
  match s with
  | EmptyString => EmptyString
  | String c s' =>
      match drop_end p s' with
      | EmptyString => if p c then EmptyString else String c EmptyString
      | r => String c r
      end
  end.

Definition trim (s : string) : string := drop_end is_space (drop_start is_space s).

(** [s.replace(/p+/g, rep)]: every maximal run of characters in [p] becomes [rep]. *)
Fixpoint replace_runs_from (inside : bool) (p : ascii → bool) (rep s : string) : string :=
  match s with
  | EmptyString => EmptyString
  | String c s =>
      if p c
      then if inside then replace_runs_from true p rep s
           else (rep ++ replace_runs_from true p rep s)%string
      else String c (replace_runs_from false p rep s)
  end.
Definition replace_runs := replace_runs_from false.

Definition str_length (s : string) : Z := Z.of_nat (String.length s).

(** [s.slice(0, n)] for [n >= 0]. *)
Definition slice0 (n : Z) (s : string) : string := String.substring 0 (Z.to_nat n) s.

(** ** Truthiness *)

Definition str_truthy (s : string) : bool :=
  match s with EmptyString => false | _ => true end.

(** [Boolean(o)] for a [string | undefined]: the empty string is falsy. *)
Definition truthy (o : option string) : bool :=
  match o with Some s => str_truthy s | None => false end.

(** [o || d] for a [string | undefined]. *)
Definition or_else (o : option string) (d : string) : string :=
  if truthy o then default d o else d.

Definition includes (l : list string) (x : string) : bool := bool_decide (x ∈ l).

Lemma includes_true l x : includes l x = true ↔ x ∈ l.
Proof. apply bool_decide_eq_true. Qed.

(** [Array.from(new Set(l))]: first occurrences, in order. *)
Fixpoint dedup_from (seen l : list string) : list string :=
  match l with
  | [] => []
  | x :: l => if includes seen x then dedup_from seen l else x :: dedup_from (x :: seen) l
  end.
Definition dedup : list string → list string := dedup_from [].

(** [arr.join(sep)] *)
Definition join (sep : string) (l : list string) : string := String.concat sep l.

(** [s.split(sep)] for a one-character separator. *)
Fixpoint split_on (sep : ascii) (s : string) : list string :=
  match s with
  | EmptyString => [EmptyString]
  | String c s =>
      if Ascii.eqb c sep then EmptyString :: split_on sep s
      else match split_on sep s with
           | w :: ws => String c w :: ws
           | [] => [String c EmptyString]
           end
  end.

(** ** Numbers *)

Inductive jsnum : Type :=
| Fin (q : Q)
| PosInf
| NegInf
| NaN.

Definition isFinite (n : jsnum) : bool := match n with Fin _ => true | _ => false end.

(** [Math.round]: the closest integer, ties towards positive infinity. *)
Definition round (q : Q) : Z := Qfloor (q + (1 # 2)).

(** Truncation towards zero, as [new Date(number)] does. *)
Definition trunc (q : Q) : Z := if Qle_bool 0 q then Qfloor q else Qceiling q.

(** [Math.floor(a / b)] for integers with [b > 0]. *)
Definition floor_div (a b : Z) : Z := a / b.

(** ** JSON values *)

Inductive Json : Type :=
| JNull
| JBool (b : bool)
| JNum (q : Q)
| JStr (s : string)
| JArr (l : list Json)
| JObj (fields : list (string * Json)).

Definition jstr (s : string) : Json := JStr s.
Definition jnum (n : Z) : Json := JNum (inject_Z n).
Definition jstrs (l : list string) : Json := JArr (map JStr l).

(** The fields of an object literal whose value may be [undefined]; JSON leaves those out. *)
Definition opt_field (key : string) (o : option string) : list (string * Json) :=
  match o with Some s => [(key, jstr s)] | None => [] end.
Definition opt_num (key : string) (o : option Z) : list (string * Json) :=
  match o with Some n => [(key, jnum n)] | None => [] end.

(** [obj[key]] on the entries of an object: the last entry written under a key wins. *)
Fixpoint get_field {A} (key : string) (fields : list (string * A)) : option A :=
  match fields with
  | [] => None
  | (k, v) :: rest =>
      match get_field key rest with
      | Some w => Some w
      | None => if bool_decide (k = key) then Some v else None
      end
  end.

(** [{ ...base, [key]: v }]: an existing key keeps its position. *)
Fixpoint set_field {A} (key : string) (v : A) (fields : list (string * A))
  : list (string * A) :=
  match fields with
  | [] => [(key, v)]
  | (k, w) :: rest =>
      if bool_decide (k = key) then (k, v) :: rest else (k, w) :: set_field key v rest
  end.

(** [{ ...base, ...over }] *)
Definition spread {A} (base over : list (string * A)) : list (string * A) :=
  foldl (λ acc '(k, v), set_field k v acc) base over.

(** ** Regular expressions over code units *)

Inductive re : Type :=
| Nothing
| Eps
| Cls (p : ascii → bool)
| Seq (r1 r2 : re)
| Alt (r1 r2 : re)
| Star (r : re).

Definition Plus (r : re) : re := Seq r (Star r).
Fixpoint Times (n : nat) (r : re) : re :=
  match n with O => Eps | S n => Seq r (Times n r) end.
Definition Lit (c : ascii) : re := Cls (Ascii.eqb c).

Fixpoint nullable (r : re) : bool :=
  match r with
  | Nothing => false
  | Eps => true
  | Cls _ => false
  | Seq r1 r2 => nullable r1 && nullable r2
  | Alt r1 r2 => nullable r1 || nullable r2
  | Star _ => true
  end.

Fixpoint deriv (c : ascii) (r : re) : re :=
  match r with
  | Nothing => Nothing
  | Eps => Nothing
  | Cls p => if p c then Eps else Nothing
  | Seq r1 r2 =>
      if nullable r1 then Alt (Seq (deriv c r1) r2) (deriv c r2)
      else Seq (deriv c r1) r2
  | Alt r1 r2 => Alt (deriv c r1) (deriv c r2)
  | Star r => Seq (deriv c r) (Star r)
  end.

(** [/^r$/.test(s)] *)
Fixpoint matches (r : re) (s : string) : bool :=
  match s with
  | EmptyString => nullable r
  | String c s => matches (deriv c r) s
  end.

Inductive in_re : re → string → Prop :=
| in_eps : in_re Eps EmptyString
| in_cls p c : p c = true → in_re (Cls p) (String c EmptyString)
| in_seq r1 r2 s1 s2 : in_re r1 s1 → in_re r2 s2 → in_re (Seq r1 r2) (s1 ++ s2)
| in_alt_l r1 r2 s : in_re r1 s → in_re (Alt r1 r2) s
| in_alt_r r1 r2 s : in_re r2 s → in_re (Alt r1 r2) s
| in_star_nil r : in_re (Star r) EmptyString
| in_star_cons r s1 s2 : in_re r s1 → in_re (Star r) s2 → in_re (Star r) (s1 ++ s2).

(** ** Lemmas *)

#[export] Hint Constructors in_re : omni.
#[global] Arguments String.append !_ _ / : simpl nomatch.

Lemma str_app_nil_r (s : string) : (s ++ "")%string = s.
Proof. induction s as [|c s IH]; simpl; [done|]. by f_equal. Qed.

Lemma str_app_assoc (a b c : string) : (a ++ (b ++ c) = (a ++ b) ++ c)%string.
Proof. induction a as [|x a IH]; simpl; [done|]. by f_equal. Qed.

Lemma str_forall_app p a b : str_forall p (a ++ b) = str_forall p a && str_forall p b.
Proof. induction a as [|c a IH]; simpl; [done|]. by rewrite IH, andb_assoc. Qed.

Lemma str_app_inj_l (s t u : string) : (s ++ t = s ++ u)%string → t = u.
Proof. induction s as [|c s IH]; simpl; [done|]. intros [= H]. by apply IH. Qed.

Lemma str_exists_app p a b : str_exists p (a ++ b) = str_exists p a || str_exists p b.
Proof. induction a as [|c a IH]; simpl; [done|]. by rewrite IH, orb_assoc. Qed.

Lemma str_forall_impl (p q : ascii → bool) s :
  (∀ c, p c = true → q c = true) → str_forall p s = true → str_forall q s = true.
Proof. intros Hpq. induction s; simpl; [done|]. rewrite !andb_true_iff. naive_solver. Qed.

Lemma str_exists_forall p s : str_exists p s = negb (str_forall (λ c, negb (p c)) s).
Proof. induction s as [|c s IH]; simpl; [done|]. rewrite IH. by destruct (p c). Qed.

Lemma drop_start_forall p q s :
  str_forall q s = true → str_forall q (drop_start p s) = true.
Proof. induction s as [|c s IH]; simpl; [done|]. intros [? ?]%andb_true_iff.
  destruct (p c); simpl; [auto|by apply andb_true_iff]. Qed.

Lemma drop_end_forall p q s :
  str_forall q s = true → str_forall q (drop_end p s) = true.
Proof.
  induction s as [|c s IH]; simpl; [done|]. intros [Hc Hs]%andb_true_iff.
  specialize (IH Hs). destruct (drop_end p s) as [|d r]; simpl in *.
  - destruct (p c); simpl; [done|by rewrite Hc].
  - by rewrite Hc, IH.
Qed.

Lemma str_map_forall (f : ascii → ascii) q s :
  (∀ c, q (f c) = true) → str_forall q (str_map f s) = true.
Proof. intros Hq. induction s; simpl; [done|]. by rewrite Hq. Qed.

Lemma nullable_complete r s : in_re r s → s = EmptyString → nullable r = true.
Proof.
  induction 1; intros Hs; simpl; try done.
  - destruct s1; simplify_eq/=. rewrite IHin_re1, IHin_re2; done.
  - by rewrite IHin_re.
  - rewrite IHin_re by done. by rewrite orb_true_r.
Qed.

Lemma deriv_complete r s : in_re r s → ∀ c s', s = String c s' → in_re (deriv c r) s'.
Proof.
  induction 1 as [|p d Hd|r1 r2 s1 s2 H1 IH1 H2 IH2|r1 r2 s H1 IH1|r1 r2 s H1 IH1| |
    r s1 s2 H1 IH1 H2 IH2]; intros c s' Hs; simpl.
  - done.
  - injection Hs as -> <-. rewrite Hd. constructor.
  - destruct s1 as [|d s1]; simpl in Hs.
    + rewrite (nullable_complete _ _ H1) by done. apply in_alt_r. by apply IH2.
    + injection Hs as -> <-.
      destruct (nullable r1); [apply in_alt_l|]; apply in_seq; auto.
  - apply in_alt_l; auto.
  - apply in_alt_r; auto.
  - done.
  - destruct s1 as [|d s1]; simpl in Hs; [by apply IH2|].
    injection Hs as -> <-. apply in_seq; auto.
Qed.

Lemma nullable_sound r : nullable r = true → in_re r EmptyString.
Proof.
  induction r as [| |p|r1 IH1 r2 IH2|r1 IH1 r2 IH2|r IH]; simpl; try done.
  - intros _. constructor.
  - intros [? ?]%andb_true_iff.
    change EmptyString with (EmptyString ++ EmptyString)%string. constructor; auto.
  - intros [?|?]%orb_true_iff; auto with omni.
  - intros _. constructor.
Qed.

Lemma deriv_sound r c : ∀ s, in_re (deriv c r) s → in_re r (String c s).
Proof.
  induction r as [| |p|r1 IH1 r2 IH2|r1 IH1 r2 IH2|r IH]; simpl; intros s Hs.
  - inversion Hs.
  - inversion Hs.
  - destruct (p c) eqn:Hp; inversion Hs; subst. by constructor.
  - assert (Hl : ∀ s, in_re (Seq (deriv c r1) r2) s → in_re (Seq r1 r2) (String c s)).
    { intros t Ht. inversion Ht; subst.
      change (String c (s1 ++ s2)) with (String c s1 ++ s2)%string. constructor; auto. }
    destruct (nullable r1) eqn:Hn; [|auto].
    inversion Hs; subst; [by apply Hl|].
    change (String c s) with (EmptyString ++ String c s)%string.
    constructor; [by apply nullable_sound|auto].
  - inversion Hs; subst; auto with omni.
  - inversion Hs; subst.
    change (String c (s1 ++ s2)) with (String c s1 ++ s2)%string. constructor; auto.
Qed.

(** The derivative matcher decides the inductive semantics of regular expressions. *)
Lemma matches_spec r s : matches r s = true ↔ in_re r s.
Proof.
  revert r. induction s as [|c s IH]; intros r; simpl.
  - split; [apply nullable_sound|]. intros H. by eapply nullable_complete.
  - rewrite IH. split; [apply deriv_sound|]. intros H. by eapply deriv_complete.
Qed.

Lemma in_re_star_cls p s : in_re (Star (Cls p)) s ↔ str_forall p s = true.
Proof.
  split.
  - remember (Star (Cls p)) as r eqn:Hr. induction 1; simplify_eq/=; [done|].
    match goal with H : in_re (Cls _) _ |- _ => inversion H; subst end. simpl.
    rewrite IHin_re2 by done. by rewrite andb_true_r.
  - induction s as [|c s IH]; simpl; [constructor|]. intros [? ?]%andb_true_iff.
    change (String c s) with (String c EmptyString ++ s)%string.
    apply in_star_cons; [by constructor|auto].
Qed.

Lemma in_re_plus_cls p s :
  in_re (Plus (Cls p)) s ↔ s ≠ EmptyString ∧ str_forall p s = true.
Proof.
  split.
  - inversion 1 as [| |r1 r2 s1 s2 H1 H2 E1 E2| | | |]; subst.
    inversion H1; subst. apply in_re_star_cls in H2. simpl.
    split; [done|]. by apply andb_true_iff.
  - intros [Hne Hs]. destruct s as [|c s]; [done|].
    simpl in Hs. apply andb_true_iff in Hs as [? ?].
    change (String c s) with (String c EmptyString ++ s)%string.
    constructor; [by constructor|by apply in_re_star_cls].
Qed.

Lemma dedup_from_spec seen l x : x ∈ dedup_from seen l ↔ x ∈ l ∧ x ∉ seen.
Proof.
  revert seen. induction l as [|y l IH]; intros seen; simpl; [set_solver|].
  destruct (includes seen y) eqn:Hy.
  - apply includes_true in Hy. rewrite IH. set_solver.
  - assert (y ∉ seen) by (rewrite <- includes_true, Hy; done).
    rewrite elem_of_cons, IH. destruct (decide (x = y)); set_solver.
Qed.

Lemma dedup_from_NoDup seen l : NoDup (dedup_from seen l).
Proof.
  revert seen. induction l as [|y l IH]; intros seen; simpl; [constructor|].
  destruct (includes seen y); [done|]. constructor; [|done].
  rewrite dedup_from_spec. set_solver.
Qed.

Lemma elem_of_dedup l x : x ∈ dedup l ↔ x ∈ l.
Proof. unfold dedup. rewrite dedup_from_spec. set_solver. Qed.

Lemma NoDup_dedup l : NoDup (dedup l).
Proof. apply dedup_from_NoDup. Qed.

#[export] Hint Resolve NoDup_dedup : omni.

Lemma lower_char_idem c : lower_char (lower_char c) = lower_char c.
Proof. destruct c as [[] [] [] [] [] [] [] []]; reflexivity. Qed.

(** A string that lower-casing leaves alone, character by character. *)
Definition lowered (s : string) : bool := str_forall (λ c, Ascii.eqb (lower_char c) c) s.

Lemma toLowerCase_lowered s : lowered (toLowerCase s) = true.
Proof. apply str_map_forall. intros c. rewrite lower_char_idem. apply Ascii.eqb_refl. Qed.

Lemma lowered_id s : lowered s = true → toLowerCase s = s.
Proof.
  unfold lowered, toLowerCase. induction s as [|c s IH]; simpl; [done|].
  intros [Hc%Ascii.eqb_eq Hs]%andb_true_iff. by rewrite Hc, IH.
Qed.

Lemma drop_start_id p s : str_forall (λ c, negb (p c)) s = true → drop_start p s = s.
Proof. destruct s as [|c s]; simpl; [done|]. by destruct (p c). Qed.

Lemma drop_end_id p s : str_forall (λ c, negb (p c)) s = true → drop_end p s = s.
Proof.
  induction s as [|c s IH]; simpl; [done|]. intros [Hc Hs]%andb_true_iff.
  rewrite IH by done. destruct s; [|done]. by destruct (p c).
Qed.

Lemma trim_id s : str_forall (λ c, negb (is_space c)) s = true → trim s = s.
Proof. intros H. unfold trim. by rewrite (drop_start_id _ s), drop_end_id. Qed.

Lemma trim_forall q s : str_forall q s = true → str_forall q (trim s) = true.
Proof. intros H. by apply drop_end_forall, drop_start_forall. Qed.
