(* ===== verification/Errors.v ===== *)
(** * Errors and the HTTP error handler

    [src/shared/errors] and [src/presentation/http/middlewares/error-handler.middleware.ts]:
    the error classes the services throw, and the response each one becomes. *)

From Stdlib Require Import Ascii String.
From S2P Require Import Prelude Js.

#[local] Open Scope string_scope.

(** The classes that extend [BaseError], the errors of the libraries the handler knows
    by name, and a plain [Error]. *)
Inductive error : Type :=
| DomainError (message code : string)
| NotFoundError (resource : string) (id : option string)
| ConflictError (message : string)
| ValidationError (message : string) (errors : list (string * list string))
| UnauthorizedError (message : string)
| ForbiddenError (message : string)
| TooManyRequestsError (message : string)
| TenantSuspendedError
| InfrastructureError (message : string)
| ZodError (issues : list (string * string))
| PrismaError (code message : string)
| PlainError (message : string).

#[export] Instance error_eq_dec : EqDecision error.
Proof. solve_decision. Defined.

(** [new DomainError(message)] *)
Definition domain_error (message : string) : error := DomainError message "DOMAIN_ERROR".
(** [new ValidationError(message)] *)
Definition validation_error (message : string) : error := ValidationError message [].

(** [error instanceof BaseError] *)
Definition is_base_error (e : error) : bool :=
  match e with
  | ZodError _ | PrismaError _ _ | PlainError _ => false
  | _ => true
  end.

Definition message (e : error) : string :=
  match e with
  | DomainError m _ | ConflictError m | ValidationError m _ | UnauthorizedError m
  | ForbiddenError m | TooManyRequestsError m | InfrastructureError m
  | PrismaError _ m | PlainError m => m
  | NotFoundError resource id =>
      if truthy id
      then resource ++ " with id '" ++ default "" id ++ "' not found"
      else resource ++ " not found"
  | TenantSuspendedError => "Your organization account has been suspended"
  | ZodError _ => ""
  end.

(** The [statusCode] field of each class. *)
Definition statusCode (e : error) : option Z :=
  match e with
  | DomainError _ _ => Some 422%Z
  | NotFoundError _ _ => Some 404%Z
  | ConflictError _ => Some 409%Z
  | ValidationError _ _ => Some 400%Z
  | UnauthorizedError _ => Some 401%Z
  | ForbiddenError _ => Some 403%Z
  | TooManyRequestsError _ => Some 429%Z
  | TenantSuspendedError => Some 403%Z
  | InfrastructureError _ => Some 500%Z
  | ZodError _ | PrismaError _ _ | PlainError _ => None
  end.

(** The [errorCode] field of each class. *)
Definition errorCode (e : error) : option string :=
  match e with
  | DomainError _ code => Some code
  | NotFoundError _ _ => Some "NOT_FOUND"
  | ConflictError _ => Some "CONFLICT"
  | ValidationError _ _ => Some "VALIDATION_ERROR"
  | UnauthorizedError _ => Some "UNAUTHORIZED"
  | ForbiddenError _ => Some "FORBIDDEN"
  | TooManyRequestsError _ => Some "RATE_LIMIT_EXCEEDED"
  | TenantSuspendedError => Some "TENANT_SUSPENDED"
  | InfrastructureError _ => Some "INFRASTRUCTURE_ERROR"
  | ZodError _ | PrismaError _ _ | PlainError _ => None
  end.

Definition isOperational (e : error) : bool :=
  match e with InfrastructureError _ => false | _ => true end.

(** ** The handler *)

Record HttpError := mkHttpError {
  he_type : string;
  he_title : string;
  he_status : Z;
  he_detail : string;
  he_errors : option (list (string * list string));
}.

Definition titles : list (string * string) :=
  [("NOT_FOUND", "Not Found"); ("CONFLICT", "Conflict");
   ("VALIDATION_ERROR", "Validation Error"); ("UNAUTHORIZED", "Unauthorized");
   ("FORBIDDEN", "Forbidden"); ("DOMAIN_ERROR", "Business Rule Violation");
   ("INFRASTRUCTURE_ERROR", "Service Error"); ("RATE_LIMIT_EXCEEDED", "Too Many Requests");
   ("TENANT_SUSPENDED", "Account Suspended")].

Definition getTitleFromCode (code : string) : string :=
  default "Error" (get_field code titles).

(** [code.toLowerCase().replace(/_/g, '-')] *)
Definition kebab (code : string) : string :=
  str_map (λ c, if Ascii.eqb c "_" then "-"%char else c) (toLowerCase code).

Definition error_url (slug : string) : string := "https://omnisupport.io/errors/" ++ slug.

(** [errors[path].push(message)], creating the list on its first use. *)
Fixpoint push_issue (path msg : string) (acc : list (string * list string))
  : list (string * list string) :=
  match acc with
  | [] => [(path, [msg])]
  | (p, ms) :: rest =>
      if bool_decide (p = path) then (p, (ms ++ [msg])%list) :: rest
      else (p, ms) :: push_issue path msg rest
  end.

Definition group_issues (issues : list (string * string)) : list (string * list string) :=
  foldl (λ acc '(p, m), push_issue p m acc) [] issues.

Definition internal_error (production : bool) (e : error) : HttpError :=
  mkHttpError (error_url "internal-server-error") "Internal Server Error" 500
    (if production then "An unexpected error occurred. Please try again later."
     else message e) None.

Definition errorHandlerMiddleware (production : bool) (e : error) : HttpError :=
  match statusCode e, errorCode e with
  | Some status, Some code =>
      mkHttpError (error_url (kebab code)) (getTitleFromCode code) status (message e)
        (match e with ValidationError _ errs => Some errs | _ => None end)
  | _, _ =>
      match e with
      | ZodError issues =>
          mkHttpError (error_url "validation-error") "Validation Error" 400
            "Request validation failed" (Some (group_issues issues))
      | PrismaError code _ =>
          if bool_decide (code = "P2002") then
            mkHttpError (error_url "conflict") "Conflict" 409
              "A record with this data already exists" None
          else if bool_decide (code = "P2025") then
            mkHttpError (error_url "not-found") "Not Found" 404
              "The requested record was not found" None
          else internal_error production e
      | _ => internal_error production e
      end
  end.

(** ** Properties *)

(** In production, a response with status 500 is either that of an infrastructure error or
    one fixed response, whatever the error was: nothing of an unknown error leaks. *)
Lemma handler_opaque e :
  he_status (errorHandlerMiddleware true e) = 500%Z →
  (∃ m, e = InfrastructureError m) ∨
  errorHandlerMiddleware true e = internal_error true (PlainError "").
Proof.
  destruct e as [| | | | | | | | |issues|code m|]; intros H; try discriminate H;
    try (by eauto); try (by right).
  revert H. unfold errorHandlerMiddleware; simpl.
  destruct (bool_decide (code = "P2002")), (bool_decide (code = "P2025"));
    try discriminate; by right.
Qed.

Lemma handler_base_status production e :
  is_base_error e = true →
  statusCode e = Some (he_status (errorHandlerMiddleware production e)).
Proof. by destruct e. Qed.
