(* ===== verification/Dates.v ===== *)
(** * Dates

    The [Date] methods the source calls, on milliseconds since the epoch in the proleptic
    Gregorian calendar, and the helpers of [src/shared/utils/date.util.ts]. *)

From Stdlib Require Import Ascii String.
From S2P Require Import Prelude Js.

Definition MS_PER_DAY : Z := 86400000.

(** ** Calendar

    The functions of the ECMAScript specification on day numbers (1970-01-01 is day 0). *)

Definition DayFromYear (y : Z) : Z :=
  365 * (y - 1970) + (y - 1969) / 4 - (y - 1901) / 100 + (y - 1601) / 400.

(** 1 when [y] is a leap year, else 0. *)
Definition leap (y : Z) : Z := DayFromYear (y + 1) - DayFromYear y - 365.

(** The year that contains a day: an estimate by the mean year length, then a
    correction by at most one year. *)
Definition YearFromDay (day : Z) : Z :=
  let y := 1970 + day * 400 / 146097 in
  if DayFromYear (y + 1) <=? day then y + 1
  else if day <? DayFromYear y then y - 1 else y.

(** Days of the year before the first of month [m] (0-based). *)
Definition days_before (l m : Z) : Z :=
  match m with
  | 0 => 0 | 1 => 31 | 2 => 59 + l | 3 => 90 + l | 4 => 120 + l | 5 => 151 + l
  | 6 => 181 + l | 7 => 212 + l | 8 => 243 + l | 9 => 273 + l | 10 => 304 + l
  | _ => 334 + l
  end.

Definition MonthFromDay (day : Z) : Z :=
  let y := YearFromDay day in
  let d := day - DayFromYear y in
  let l := leap y in
  if d <? 31 then 0 else if d <? 59 + l then 1 else if d <? 90 + l then 2
  else if d <? 120 + l then 3 else if d <? 151 + l then 4 else if d <? 181 + l then 5
  else if d <? 212 + l then 6 else if d <? 243 + l then 7 else if d <? 273 + l then 8
  else if d <? 304 + l then 9 else if d <? 334 + l then 10 else 11.

Definition DateFromDay (day : Z) : Z :=
  let y := YearFromDay day in
  day - DayFromYear y - days_before (leap y) (MonthFromDay day) + 1.

(** MakeDay for a month in [0, 11]. *)
Definition MakeDay (y m d : Z) : Z := DayFromYear y + days_before (leap y) m + d - 1.

(** [Date.UTC(y, m, d)] with a 0-based month in [0, 11] and a year outside [0, 99]. *)
Definition Date_UTC (y m d : Z) : Z := MakeDay y m d * MS_PER_DAY.

Definition utc_days (t : Z) : Z := t / MS_PER_DAY.
Definition getUTCFullYear (t : Z) : Z := YearFromDay (utc_days t).
Definition getUTCMonth (t : Z) : Z := MonthFromDay (utc_days t).
Definition getUTCDate (t : Z) : Z := DateFromDay (utc_days t).
Definition getUTCDay (t : Z) : Z := (utc_days t + 4) mod 7.
Definition getUTCHours (t : Z) : Z := t / 3600000 mod 24.
Definition getUTCMinutes (t : Z) : Z := t / 60000 mod 60.

(** ** date.util.ts *)

Definition addDays (date days : Z) : Z := date + days * 24 * 60 * 60 * 1000.
Definition addMinutes (date minutes : Z) : Z := date + minutes * 60 * 1000.
Definition differenceInMinutes (later earlier : Z) : Z :=
  floor_div (later - earlier) 60000.
Definition isExpired (expiresAt reference : Z) : bool := expiresAt <=? reference.
Definition startOfUtcDay (date : Z) : Z :=
  Date_UTC (getUTCFullYear date) (getUTCMonth date) (getUTCDate date).

(** ** The calendar round trip *)

Lemma YearFromDay_spec day :
  DayFromYear (YearFromDay day) <= day < DayFromYear (YearFromDay day + 1).
Proof.
  unfold YearFromDay. set (y := 1970 + day * 400 / 146097).
  assert (Hy : DayFromYear (y - 1) <= day < DayFromYear (y + 2)).
  { unfold DayFromYear, y. Z.to_euclidean_division_equations. lia. }
  destruct (Z.leb_spec (DayFromYear (y + 1)) day).
  - replace (y + 1 + 1) with (y + 2) by lia. lia.
  - destruct (Z.ltb_spec day (DayFromYear y)); [|lia].
    replace (y - 1 + 1) with y by lia. lia.
Qed.

Lemma leap_bounds y : 0 <= leap y <= 1.
Proof. unfold leap, DayFromYear. Z.to_euclidean_division_equations. lia. Qed.

(** Every day has a month in 0..11 and a day of month in 1..31, and they give the day back. *)
Lemma calendar_roundtrip day :
  MakeDay (YearFromDay day) (MonthFromDay day) (DateFromDay day) = day ∧
  0 <= MonthFromDay day <= 11 ∧ 1 <= DateFromDay day <= 31.
Proof.
  pose proof (YearFromDay_spec day) as Hy.
  pose proof (leap_bounds (YearFromDay day)) as Hl.
  assert (Hn : DayFromYear (YearFromDay day + 1)
             = DayFromYear (YearFromDay day) + 365 + leap (YearFromDay day))
    by (unfold leap; lia).
  unfold MakeDay, DateFromDay. split; [lia|].
  unfold MonthFromDay. remember (leap (YearFromDay day)) as l.
  remember (DayFromYear (YearFromDay day)) as d0.
  repeat match goal with |- context [?a <? ?b] => destruct (Z.ltb_spec a b) end;
    simpl; lia.
Qed.

(** [startOfUtcDay] goes through the calendar fields of the date; the result is the
    last multiple of a day not after the date. *)
Lemma startOfUtcDay_floor date : startOfUtcDay date = date - date mod MS_PER_DAY.
Proof.
  unfold startOfUtcDay, Date_UTC, getUTCFullYear, getUTCMonth, getUTCDate.
  destruct (calendar_roundtrip (utc_days date)) as [-> _]. unfold utc_days, MS_PER_DAY.
  pose proof (Z.div_mod date 86400000). lia.
Qed.

Lemma startOfUtcDay_bounds date :
  startOfUtcDay date <= date < startOfUtcDay date + MS_PER_DAY.
Proof.
  rewrite startOfUtcDay_floor. unfold MS_PER_DAY.
  pose proof (Z.mod_pos_bound date 86400000). lia.
Qed.
