(* ===== verification/Domain.v ===== *)
(** * Shared domain base: entities, aggregate roots, domain events

    [src/domain/shared] and the event classes of [src/domain/*/events]. *)

From Stdlib Require Import Ascii String.
From S2P Require Import Prelude Js Errors.

#[local] Open Scope string_scope.

(** What a synchronous call reads from its runtime: the clock ([new Date()],
    [Date.now()]) and the UUIDs it draws, in the order it draws them. *)
Record Rt := mkRt {
  now : Z;
  uuid : nat → string;
}.

(** ** Domain events *)

Inductive EventBody : Type :=
| CommentAddedEvent (ticketId tenantId commentId authorId commentType : string)
| TicketAssignedEvent (ticketId tenantId customerId agentId : string)
    (previousAgentId : option string) (assignedById : string)
| TicketCreatedEvent (ticketId tenantId customerId createdById priority category : string)
| TicketEscalatedEvent (ticketId tenantId customerId : string)
    (assignedAgentId : option string) (reason escalatedById : string)
| TicketResolvedEvent (ticketId tenantId customerId : string)
    (agentId : option string) (resolvedById : string)
| TicketStatusChangedEvent (ticketId tenantId oldStatus newStatus changedById : string)
| CustomerCreatedEvent (customerId tenantId email fullName : string)
| CustomerRiskUpdatedEvent (customerId tenantId : string) (previousScore newScore : Z)
    (riskLabel : string)
| TenantCreatedEvent (tenantId name slug : string)
| TenantSuspendedEvent (tenantId reason : string)
| UserCreatedEvent (userId email role : string)
| UserRoleChangedEvent (userId : string) (tenantId : option string)
    (previousRole nextRole : string) (changedById changedByRole : option string).

#[export] Instance EventBody_eq_dec : EqDecision EventBody.
Proof. solve_decision. Defined.

(** The string each event class passes to [super]. *)
Definition bodyType (b : EventBody) : string :=
  match b with
  | CommentAddedEvent _ _ _ _ _ => "COMMENT_ADDED"
  | TicketAssignedEvent _ _ _ _ _ _ => "TICKET_ASSIGNED"
  | TicketCreatedEvent _ _ _ _ _ _ => "TICKET_CREATED"
  | TicketEscalatedEvent _ _ _ _ _ _ => "TICKET_ESCALATED"
  | TicketResolvedEvent _ _ _ _ _ => "TICKET_RESOLVED"
  | TicketStatusChangedEvent _ _ _ _ _ => "TICKET_STATUS_CHANGED"
  | CustomerCreatedEvent _ _ _ _ => "CUSTOMER_CREATED"
  | CustomerRiskUpdatedEvent _ _ _ _ _ => "CUSTOMER_RISK_UPDATED"
  | TenantCreatedEvent _ _ _ => "TENANT_CREATED"
  | TenantSuspendedEvent _ _ => "TENANT_SUSPENDED"
  | UserCreatedEvent _ _ _ => "USER_CREATED"
  | UserRoleChangedEvent _ _ _ _ _ _ => "USER_ROLE_CHANGED"
  end.

Record DomainEvent := mkEvent {
  ev_id : string;
  ev_occurredAt : Z;
  ev_body : EventBody;
}.

Definition eventType (e : DomainEvent) : string := bodyType (ev_body e).

(** [new BaseDomainEvent]: the [k]-th UUID of the call and the current time. *)
Definition new_event (rt : Rt) (k : nat) (b : EventBody) : DomainEvent :=
  mkEvent (uuid rt k) (now rt) b.

(** ** Base entity *)

(** The fields of [BaseEntity] and [AggregateRoot]. *)
Record Base := mkBase {
  b_id : string;
  b_createdAt : Z;
  b_updatedAt : Z;
  b_domainEvents : list DomainEvent;
}.
#[export] Instance Base_eta : Eta Base :=
  λ b, mkBase (b_id b) (b_createdAt b) (b_updatedAt b) (b_domainEvents b).

Definition new_base (rt : Rt) (i : string) (created updated : option Z) : Base :=
  mkBase i (default (now rt) created) (default (now rt) updated) [].

(** [equals]: entities are compared by identity. *)
Definition base_equals (a b : Base) : bool := bool_decide (b_id a = b_id b).

Definition addDomainEvent (e : DomainEvent) (b : Base) : Base :=
  b <| b_domainEvents ::= λ l, (l ++ [e])%list |>.

Definition pullDomainEvents (b : Base) : list DomainEvent * Base :=
  (b_domainEvents b, b <| b_domainEvents := [] |>).

(** ** Enumerations

    Value objects are built from strings: [create] accepts exactly the enumerated
    strings.  An enumeration gives its values and their strings. *)

Class Enum (T : Type) := {
  enum_values : list T;
  enum_string : T → string;
  enum_all : ∀ t, t ∈ enum_values;
  enum_inj : ∀ t u, enum_string t = enum_string u → t = u;
}.

(** [Object.values(E).includes(value)], then the cast [value as E]. *)
Fixpoint enum_find {T} (str : T → string) (s : string) (l : list T) : option T :=
  match l with
  | [] => None
  | t :: l => if bool_decide (str t = s) then Some t else enum_find str s l
  end.

Definition of_string {T} `{Enum T} (s : string) : option T :=
  enum_find enum_string s enum_values.

Lemma enum_find_some {T} (str : T → string) s l t :
  enum_find str s l = Some t → str t = s.
Proof. induction l; simpl; [done|]. case_bool_decide; naive_solver. Qed.

Lemma enum_find_in {T} (str : T → string) l t :
  (∀ u, str u = str t → u = t) → t ∈ l → enum_find str (str t) l = Some t.
Proof.
  intros Hinj. induction l as [|u l IH]; simpl; [set_solver|].
  intros [->|?]%elem_of_cons; [by rewrite bool_decide_eq_true_2|].
  case_bool_decide; [by f_equal; apply Hinj|auto].
Qed.

(** Parsing is the inverse of printing. *)
Lemma of_string_spec {T} `{Enum T} s t : of_string s = Some t ↔ enum_string t = s.
Proof.
  split; [apply enum_find_some|]. intros <-.
  apply enum_find_in; [|apply enum_all]. intros u. apply enum_inj.
Qed.

Ltac enum_complete :=
  let t := fresh in intros t; destruct t; apply (bool_decide_unpack _); exact I.
Ltac enum_injective :=
  let t := fresh in let u := fresh in
  intros t u; destruct t, u; simpl; intros; first [reflexivity|discriminate].
