(* ===== verification/Ticket.v ===== *)
(** * Tickets

    [src/domain/ticket]: the status, priority and category value objects, the ticket and
    comment aggregates, and the specifications over tickets of [src/domain/specifications].
    A method that mutates its object returns the new object; one that throws returns [Err]. *)

From Stdlib Require Import Ascii String.
From S2P Require Import Prelude Js Errors Dates Domain.

#[local] Open Scope string_scope.

(** ** TicketStatus *)

Inductive TicketStatus := OPEN | IN_PROGRESS | PENDING_CUSTOMER | RESOLVED | CLOSED.

#[export] Instance TicketStatus_eq_dec : EqDecision TicketStatus.
Proof. solve_decision. Defined.

Definition status_string (s : TicketStatus) : string :=
  match s with
  | OPEN => "OPEN"
  | IN_PROGRESS => "IN_PROGRESS"
  | PENDING_CUSTOMER => "PENDING_CUSTOMER"
  | RESOLVED => "RESOLVED"
  | CLOSED => "CLOSED"
  end.

#[export] Instance TicketStatus_enum : Enum TicketStatus :=
  Build_Enum TicketStatus [OPEN; IN_PROGRESS; PENDING_CUSTOMER; RESOLVED; CLOSED]
    status_string ltac:(enum_complete) ltac:(enum_injective).

(** [TicketStatus.create] *)
Definition status_create (value : string) : result error TicketStatus :=
  opt_or (PlainError ("Invalid ticket status: " ++ value)) (of_string value).

(** The transition table of [canTransitionTo]. *)
Definition transitions (s : TicketStatus) : list TicketStatus :=
  match s with
  | OPEN => [IN_PROGRESS; CLOSED]
  | IN_PROGRESS => [PENDING_CUSTOMER; RESOLVED; OPEN]
  | PENDING_CUSTOMER => [IN_PROGRESS; RESOLVED; CLOSED]
  | RESOLVED => [CLOSED; OPEN]
  | CLOSED => []
  end.

Definition canTransitionTo (s next : TicketStatus) : bool :=
  bool_decide (next ∈ transitions s).

Definition isResolved (s : TicketStatus) : bool := bool_decide (s = RESOLVED).
Definition isClosed (s : TicketStatus) : bool := bool_decide (s = CLOSED).
Definition isOpen (s : TicketStatus) : bool := bool_decide (s = OPEN).
Definition status_isActive (s : TicketStatus) : bool :=
  bool_decide (s ∈ [OPEN; IN_PROGRESS; PENDING_CUSTOMER]).

(** ** TicketPriority *)

Inductive TicketPriority := LOW | MEDIUM | HIGH | CRITICAL.

#[export] Instance TicketPriority_eq_dec : EqDecision TicketPriority.
Proof. solve_decision. Defined.

Definition priority_string (p : TicketPriority) : string :=
  match p with LOW => "LOW" | MEDIUM => "MEDIUM" | HIGH => "HIGH" | CRITICAL => "CRITICAL" end.

#[export] Instance TicketPriority_enum : Enum TicketPriority :=
  Build_Enum TicketPriority [LOW; MEDIUM; HIGH; CRITICAL]
    priority_string ltac:(enum_complete) ltac:(enum_injective).

(** [TicketPriority.create] *)
Definition priority_create (value : string) : result error TicketPriority :=
  opt_or (PlainError ("Invalid ticket priority: " ++ value)) (of_string value).

Definition numericValue (p : TicketPriority) : Z :=
  match p with LOW => 1 | MEDIUM => 2 | HIGH => 3 | CRITICAL => 4 end%Z.

Definition isCritical (p : TicketPriority) : bool := bool_decide (p = CRITICAL).
Definition isHigherThan (p q : TicketPriority) : bool := (numericValue q <? numericValue p)%Z.

(** ** TicketCategory *)

Inductive TicketCategory := GENERAL | BILLING | TECHNICAL | ACCOUNT | FEATURE_REQUEST | BUG.

#[export] Instance TicketCategory_eq_dec : EqDecision TicketCategory.
Proof. solve_decision. Defined.

Definition category_string (c : TicketCategory) : string :=
  match c with
  | GENERAL => "GENERAL"
  | BILLING => "BILLING"
  | TECHNICAL => "TECHNICAL"
  | ACCOUNT => "ACCOUNT"
  | FEATURE_REQUEST => "FEATURE_REQUEST"
  | BUG => "BUG"
  end.

#[export] Instance TicketCategory_enum : Enum TicketCategory :=
  Build_Enum TicketCategory [GENERAL; BILLING; TECHNICAL; ACCOUNT; FEATURE_REQUEST; BUG]
    category_string ltac:(enum_complete) ltac:(enum_injective).

(** [TicketCategory.create]: trim, upper-case, runs of blanks and hyphens to [_]. *)
Definition category_create (value : string) : result error TicketCategory :=
  let normalized :=
    replace_runs (λ c, is_space c || Ascii.eqb c "-") "_" (toUpperCase (trim value)) in
  opt_or (PlainError ("Invalid ticket category: " ++ value)) (of_string normalized).

(** ** TicketEntity *)

Record TicketProps := mkTicketProps {
  tp_tenantId : string;
  tp_ticketNumber : Z;
  tp_customerId : string;
  tp_assignedAgentId : option string;
  tp_createdById : string;
  tp_title : string;
  tp_description : string;
  tp_status : TicketStatus;
  tp_priority : TicketPriority;
  tp_category : string;
  tp_tags : list string;
  tp_source : string;
  tp_isEscalated : bool;
  tp_escalatedAt : option Z;
  tp_escalatedReason : option string;
  tp_resolvedAt : option Z;
  tp_closedAt : option Z;
  tp_firstResponseAt : option Z;
  tp_dueAt : option Z;
  tp_slaBreached : bool;
  tp_metadata : list (string * Json);
  tp_createdAt : option Z;
  tp_updatedAt : option Z;
}.

Record TicketEntity := mkTicket {
  t_base : Base;
  t_tenantId : string;
  t_ticketNumber : Z;
  t_customerId : string;
  t_assignedAgentId : option string;
  t_createdById : string;
  t_title : string;
  t_description : string;
  t_status : TicketStatus;
  t_priority : TicketPriority;
  t_category : string;
  t_tags : list string;
  t_source : string;
  t_isEscalated : bool;
  t_escalatedAt : option Z;
  t_escalatedReason : option string;
  t_resolvedAt : option Z;
  t_closedAt : option Z;
  t_firstResponseAt : option Z;
  t_dueAt : option Z;
  t_slaBreached : bool;
  t_metadata : list (string * Json);
}.
#[export] Instance TicketEntity_eta : Eta TicketEntity := λ t,
  mkTicket (t_base t) (t_tenantId t) (t_ticketNumber t) (t_customerId t)
    (t_assignedAgentId t) (t_createdById t) (t_title t) (t_description t) (t_status t)
    (t_priority t) (t_category t) (t_tags t) (t_source t) (t_isEscalated t)
    (t_escalatedAt t) (t_escalatedReason t) (t_resolvedAt t) (t_closedAt t)
    (t_firstResponseAt t) (t_dueAt t) (t_slaBreached t) (t_metadata t).

(** The private constructor. *)
Definition ticket_new (rt : Rt) (i : string) (p : TicketProps) : TicketEntity :=
  mkTicket (new_base rt i (tp_createdAt p) (tp_updatedAt p))
    (tp_tenantId p) (tp_ticketNumber p) (tp_customerId p) (tp_assignedAgentId p)
    (tp_createdById p) (tp_title p) (tp_description p) (tp_status p) (tp_priority p)
    (tp_category p) (tp_tags p) (tp_source p) (tp_isEscalated p) (tp_escalatedAt p)
    (tp_escalatedReason p) (tp_resolvedAt p) (tp_closedAt p) (tp_firstResponseAt p)
    (tp_dueAt p) (tp_slaBreached p) (tp_metadata p).

Definition t_id (t : TicketEntity) : string := b_id (t_base t).
Definition t_events (t : TicketEntity) : list DomainEvent := b_domainEvents (t_base t).

(** [this.addDomainEvent(new Event(...))], drawing the [k]-th UUID of the call. *)
Definition t_raise (rt : Rt) (k : nat) (e : EventBody) (t : TicketEntity) : TicketEntity :=
  t <| t_base ::= addDomainEvent (new_event rt k e) |>.

Definition ticket_create (rt : Rt) (i : string) (p : TicketProps) : TicketEntity :=
  t_raise rt 0
    (TicketCreatedEvent i (tp_tenantId p) (tp_customerId p) (tp_createdById p)
       (priority_string (tp_priority p)) (tp_category p))
    (ticket_new rt i p).

Definition ticket_reconstitute (rt : Rt) (i : string) (p : TicketProps) : TicketEntity :=
  ticket_new rt i p.

Definition changeStatus (rt : Rt) (newStatus : TicketStatus) (changedById : string)
    (t : TicketEntity) : result error TicketEntity :=
  if canTransitionTo (t_status t) newStatus then
    let oldStatus := status_string (t_status t) in
    let t := t <| t_status := newStatus |> in
    (* Reopened: previous resolution/closure no longer applies. *)
    let t := if status_isActive newStatus
             then t <| t_resolvedAt := None |> <| t_closedAt := None |> else t in
    let t := if isResolved newStatus && negb (bool_decide (is_Some (t_resolvedAt t)))
             then t <| t_resolvedAt := Some (now rt) |> else t in
    let t := if isClosed newStatus && negb (bool_decide (is_Some (t_closedAt t)))
             then t <| t_closedAt := Some (now rt) |> else t in
    Ok (t_raise rt 0
          (TicketStatusChangedEvent (t_id t) (t_tenantId t) oldStatus
             (status_string newStatus) changedById) t)
  else Err (domain_error ("Cannot transition from " ++ status_string (t_status t) ++ " to "
                            ++ status_string newStatus)).

Definition assign (rt : Rt) (agentId assignedById : string) (t : TicketEntity)
  : TicketEntity :=
  let previousAgentId := t_assignedAgentId t in
  let t := t <| t_assignedAgentId := Some agentId |> in
  let t := match t_firstResponseAt t with
           | None => t <| t_firstResponseAt := Some (now rt) |>
           | Some _ => t
           end in
  t_raise rt 0
    (TicketAssignedEvent (t_id t) (t_tenantId t) (t_customerId t) agentId
       previousAgentId assignedById) t.

Definition escalate (rt : Rt) (reason escalatedById : string) (t : TicketEntity)
  : result error TicketEntity :=
  if t_isEscalated t then Err (domain_error "Ticket is already escalated")
  else
    let t := t <| t_isEscalated := true |> <| t_escalatedAt := Some (now rt) |>
               <| t_escalatedReason := Some reason |> <| t_priority := CRITICAL |> in
    Ok (t_raise rt 0
          (TicketEscalatedEvent (t_id t) (t_tenantId t) (t_customerId t)
             (t_assignedAgentId t) reason escalatedById) t).

(** The second event draws the second UUID of the call. *)
Definition resolve (rt : Rt) (resolvedById : string) (t : TicketEntity)
  : result error TicketEntity :=
  t ← changeStatus rt RESOLVED resolvedById t;
  Ok (t_raise rt 1
        (TicketResolvedEvent (t_id t) (t_tenantId t) (t_customerId t)
           (t_assignedAgentId t) resolvedById) t).

Definition markSlaBreached (t : TicketEntity) : TicketEntity := t <| t_slaBreached := true |>.
Definition updatePriority (p : TicketPriority) (t : TicketEntity) : TicketEntity :=
  t <| t_priority := p |>.

Record TicketDetails := mkTicketDetails {
  td_title : option string;
  td_description : option string;
  td_tags : option (list string);
  td_dueAt : option Z;
}.

(** [updateDetails]: the title is stored before the description is checked. *)
Definition updateDetails (input : TicketDetails) (t : TicketEntity)
  : result error TicketEntity :=
  t ← match td_title input with
      | None => Ok t
      | Some title =>
          if str_truthy (trim title) then Ok (t <| t_title := trim title |>)
          else Err (domain_error "Ticket title cannot be empty")
      end;
  t ← match td_description input with
      | None => Ok t
      | Some d =>
          if str_truthy (trim d) then Ok (t <| t_description := trim d |>)
          else Err (domain_error "Ticket description cannot be empty")
      end;
  let t := match td_tags input with
           | None => t
           | Some tags => t <| t_tags := dedup tags |>
           end in
  Ok match td_dueAt input with
     | None => t
     | Some d => t <| t_dueAt := Some d |>
     end.

Definition updateCategory (category : string) (t : TicketEntity) : result error TicketEntity :=
  c ← category_create category;
  Ok (t <| t_category := category_string c |>).

Definition addTag (tag : string) (t : TicketEntity) : TicketEntity :=
  if includes (t_tags t) tag then t else t <| t_tags ::= λ l, (l ++ [tag])%list |>.

Definition ticket_isActive (t : TicketEntity) : bool := status_isActive (t_status t).
Definition ticket_isCritical (t : TicketEntity) : bool := isCritical (t_priority t).

(** ** TicketCommentEntity *)

Inductive CommentType := PUBLIC | INTERNAL.

#[export] Instance CommentType_eq_dec : EqDecision CommentType.
Proof. solve_decision. Defined.

Definition comment_type_string (c : CommentType) : string :=
  match c with PUBLIC => "PUBLIC" | INTERNAL => "INTERNAL" end.

#[export] Instance CommentType_enum : Enum CommentType :=
  Build_Enum CommentType [PUBLIC; INTERNAL]
    comment_type_string ltac:(enum_complete) ltac:(enum_injective).

Record TicketCommentProps := mkCommentProps {
  cp_tenantId : string;
  cp_ticketId : string;
  cp_authorId : string;
  cp_content : string;
  cp_type : string;
  cp_isAiDraft : bool;
  cp_aiDraftId : option string;
  cp_editedAt : option Z;
  cp_metadata : list (string * Json);
  cp_createdAt : option Z;
  cp_updatedAt : option Z;
}.

Record TicketCommentEntity := mkComment {
  c_base : Base;
  c_tenantId : string;
  c_ticketId : string;
  c_authorId : string;
  c_content : string;
  c_type : CommentType;
  c_isAiDraft : bool;
  c_aiDraftId : option string;
  c_editedAt : option Z;
  c_metadata : list (string * Json);
}.
#[export] Instance TicketCommentEntity_eta : Eta TicketCommentEntity := λ c,
  mkComment (c_base c) (c_tenantId c) (c_ticketId c) (c_authorId c) (c_content c)
    (c_type c) (c_isAiDraft c) (c_aiDraftId c) (c_editedAt c) (c_metadata c).

(** The constructor; an unknown type falls back to PUBLIC. *)
Definition comment_new (rt : Rt) (i : string) (p : TicketCommentProps) : TicketCommentEntity :=
  mkComment (new_base rt i (cp_createdAt p) (cp_updatedAt p))
    (cp_tenantId p) (cp_ticketId p) (cp_authorId p) (cp_content p)
    (default PUBLIC (of_string (cp_type p))) (cp_isAiDraft p) (cp_aiDraftId p)
    (cp_editedAt p) (cp_metadata p).

Definition comment_create (rt : Rt) (i : string) (p : TicketCommentProps)
  : TicketCommentEntity :=
  let c := comment_new rt i p in
  c <| c_base ::= addDomainEvent (new_event rt 0
         (CommentAddedEvent (cp_ticketId p) (cp_tenantId p) i (cp_authorId p)
            (comment_type_string (c_type c)))) |>.

Definition comment_reconstitute (rt : Rt) (i : string) (p : TicketCommentProps)
  : TicketCommentEntity := comment_new rt i p.

Definition comment_edit (rt : Rt) (content : string) (c : TicketCommentEntity)
  : result error TicketCommentEntity :=
  if str_truthy (trim content)
  then Ok (c <| c_content := trim content |> <| c_editedAt := Some (now rt) |>)
  else Err (domain_error "Comment content cannot be empty").

Definition markAsAiDraft (aiDraftId : option string) (c : TicketCommentEntity)
  : TicketCommentEntity := c <| c_isAiDraft := true |> <| c_aiDraftId := aiDraftId |>.

Definition clearAiDraft (c : TicketCommentEntity) : TicketCommentEntity :=
  c <| c_isAiDraft := false |> <| c_aiDraftId := None |>.

(** ** Specifications *)

(** [EscalatedTicketSpecification] *)
Definition escalated_satisfied (t : TicketEntity) : bool :=
  t_isEscalated t && ticket_isActive t.

(** [OverdueTicketSpecification] *)
Definition overdue_satisfied (referenceDate : Z) (t : TicketEntity) : bool :=
  match t_dueAt t with
  | Some due => (due <? referenceDate)%Z && ticket_isActive t && negb (t_slaBreached t)
  | None => false
  end.

(** ** The aggregate as a state machine *)

(** One call of a mutating method, with the runtime it runs in. *)
Inductive TicketOp : Type :=
| OpChangeStatus (rt : Rt) (s : TicketStatus) (by_ : string)
| OpAssign (rt : Rt) (agent by_ : string)
| OpEscalate (rt : Rt) (reason by_ : string)
| OpResolve (rt : Rt) (by_ : string)
| OpMarkSlaBreached
| OpUpdatePriority (p : TicketPriority)
| OpUpdateDetails (d : TicketDetails)
| OpUpdateCategory (c : string)
| OpAddTag (tag : string).

Definition ticket_apply (op : TicketOp) (t : TicketEntity) : result error TicketEntity :=
  match op with
  | OpChangeStatus rt s u => changeStatus rt s u t
  | OpAssign rt a u => Ok (assign rt a u t)
  | OpEscalate rt r u => escalate rt r u t
  | OpResolve rt u => resolve rt u t
  | OpMarkSlaBreached => Ok (markSlaBreached t)
  | OpUpdatePriority p => Ok (updatePriority p t)
  | OpUpdateDetails d => updateDetails d t
  | OpUpdateCategory c => updateCategory c t
  | OpAddTag tag => Ok (addTag tag t)
  end.

Fixpoint ticket_run (ops : list TicketOp) (t : TicketEntity) : result error TicketEntity :=
  match ops with
  | [] => Ok t
  | op :: ops => t ← ticket_apply op t; ticket_run ops t
  end.

(** A ticket whose timestamps agree with its status and escalation flag. *)
Record TicketWf (t : TicketEntity) : Prop := {
  wf_active : status_isActive (t_status t) = true → t_resolvedAt t = None ∧ t_closedAt t = None;
  wf_resolved : t_status t = RESOLVED → is_Some (t_resolvedAt t) ∧ t_closedAt t = None;
  wf_closed : t_status t = CLOSED → is_Some (t_closedAt t);
  wf_escalated : t_isEscalated t = true ↔ is_Some (t_escalatedAt t);
  wf_reason : t_isEscalated t = true ↔ is_Some (t_escalatedReason t);
}.

(** The status a reader of the event log computes, starting from [s]. *)
Definition replay_status (s : string) (evs : list DomainEvent) : option string :=
  foldl (λ acc e,
    match ev_body e with
    | TicketStatusChangedEvent _ _ old new _ =>
        cur ← acc; if bool_decide (cur = old) then Some new else None
    | _ => acc
    end) (Some s) evs.

(** One allowed transition of the status machine. *)
Definition status_step (s s' : TicketStatus) : Prop := canTransitionTo s s' = true.

(** ** Lemmas *)

Lemma transition_closed s' : canTransitionTo CLOSED s' = false.
Proof. by destruct s'. Qed.

Lemma replay_status_app s evs e :
  replay_status s (evs ++ [e]) =
    match ev_body e with
    | TicketStatusChangedEvent _ _ old new _ =>
        cur ← replay_status s evs; if bool_decide (cur = old) then Some new else None
    | _ => replay_status s evs
    end.
Proof. unfold replay_status. by rewrite foldl_app. Qed.

(** [changeStatus] on an allowed transition: everything it writes. *)
Lemma changeStatus_ok rt s u t t' :
  changeStatus rt s u t = Ok t' →
  canTransitionTo (t_status t) s = true ∧ t_status t' = s ∧
  t_resolvedAt t' = (if status_isActive s then None
                     else if isResolved s then Some (default (now rt) (t_resolvedAt t))
                     else t_resolvedAt t) ∧
  t_closedAt t' = (if status_isActive s then None
                   else if isClosed s then Some (default (now rt) (t_closedAt t))
                   else t_closedAt t) ∧
  t_events t' = (t_events t ++ [mkEvent (uuid rt 0) (now rt)
     (TicketStatusChangedEvent (t_id t) (t_tenantId t) (status_string (t_status t))
        (status_string s) u)])%list ∧
  t_isEscalated t' = t_isEscalated t ∧ t_escalatedAt t' = t_escalatedAt t ∧
  t_escalatedReason t' = t_escalatedReason t ∧ t_id t' = t_id t ∧
  t_tenantId t' = t_tenantId t ∧ t_assignedAgentId t' = t_assignedAgentId t ∧
  t_priority t' = t_priority t ∧ t_customerId t' = t_customerId t.
Proof.
  unfold changeStatus. destruct (canTransitionTo (t_status t) s) eqn:Hc; [|done].
  intros H. injection H as H. subst t'. split; [done|].
  clear Hc. destruct t as [b ? ? ? ? ? ? ? st ? ? ? ? ? ? ? res clo ? ? ? ?], b; simpl.
  destruct s, res, clo; simpl; repeat split.
Qed.

Lemma changeStatus_wf rt s u t t' :
  TicketWf t → changeStatus rt s u t = Ok t' → TicketWf t'.
Proof.
  intros [Ha Hr Hc He Hs] (Ht & Est & Er & Ecl & _ & Ee & Eea & Ees & _)%changeStatus_ok.
  constructor; rewrite ?Est, ?Er, ?Ecl, ?Ee, ?Eea, ?Ees; try done.
  - by intros ->.
  - intros ->. simpl. split; [eauto|].
    destruct (t_status t); vm_compute in Ht; try discriminate Ht; by apply Ha.
  - intros ->. simpl. eauto.
Qed.

Lemma updateDetails_frame d t t' :
  updateDetails d t = Ok t' →
  t_status t' = t_status t ∧ t_resolvedAt t' = t_resolvedAt t ∧
  t_closedAt t' = t_closedAt t ∧ t_isEscalated t' = t_isEscalated t ∧
  t_escalatedAt t' = t_escalatedAt t ∧ t_escalatedReason t' = t_escalatedReason t ∧
  t_base t' = t_base t.
Proof.
  destruct d as [ti de ta du], t; unfold updateDetails; simpl.
  destruct ti as [x|]; [destruct (str_truthy (trim x)); [|done]|]; simpl;
    (destruct de as [y|]; [destruct (str_truthy (trim y)); [|done]|]; simpl;
      destruct ta, du; intros H; injection H as H; subst t'; repeat split).
Qed.

(** An operation that keeps the status, the timestamps and the escalation fields. *)
Definition same_lifecycle (t t' : TicketEntity) : Prop :=
  t_status t' = t_status t ∧ t_resolvedAt t' = t_resolvedAt t ∧
  t_closedAt t' = t_closedAt t ∧ t_isEscalated t' = t_isEscalated t ∧
  t_escalatedAt t' = t_escalatedAt t ∧ t_escalatedReason t' = t_escalatedReason t.

Lemma same_lifecycle_wf t t' : same_lifecycle t t' → TicketWf t → TicketWf t'.
Proof.
  intros (E1 & E2 & E3 & E4 & E5 & E6) [].
  constructor; rewrite ?E1, ?E2, ?E3, ?E4, ?E5, ?E6; done.
Qed.

Lemma t_raise_same rt k e t : same_lifecycle t (t_raise rt k e t).
Proof. destruct t. repeat split. Qed.

Lemma assign_same rt a u t : same_lifecycle t (assign rt a u t).
Proof. destruct t as [? ? ? ? ? ? ? ? ? ? ? ? ? ? ? ? ? ? fr ? ? ?], fr; repeat split. Qed.

Lemma escalate_wf rt r u t t' : TicketWf t → escalate rt r u t = Ok t' → TicketWf t'.
Proof.
  unfold escalate. destruct t as [? ? ? ? ? ? ? ? ? ? ? ? ? esc ? ? ? ? ? ? ? ?]; simpl.
  destruct esc; [done|]. intros [Ha Hr Hc _ _] H. inv_ok.
  constructor; simpl in *; try done; eauto.
Qed.

(** Any successful method call keeps the timestamps consistent. *)
Lemma ticket_apply_wf op t t' : TicketWf t → ticket_apply op t = Ok t' → TicketWf t'.
Proof.
  intros Hwf. destruct op as [rt s u|rt a u|rt r u|rt u| |p|d|c|tag]; simpl; intros H.
  - by eapply changeStatus_wf.
  - inv_ok. eapply same_lifecycle_wf; [apply assign_same|done].
  - by eapply escalate_wf.
  - unfold resolve in H. inv_ok.
    eapply same_lifecycle_wf; [apply t_raise_same|by eapply changeStatus_wf].
  - inv_ok. eapply same_lifecycle_wf; [|done]. destruct t; repeat split.
  - inv_ok. eapply same_lifecycle_wf; [|done]. destruct t; repeat split.
  - apply updateDetails_frame in H. eapply same_lifecycle_wf; [|done].
    unfold same_lifecycle. tauto.
  - unfold updateCategory in H. inv_ok.
    eapply same_lifecycle_wf; [|done]. destruct t; repeat split.
  - inv_ok. eapply same_lifecycle_wf; [|done]. unfold addTag. case_match; destruct t; repeat split.
Qed.

Lemma ticket_run_wf ops t t' : TicketWf t → ticket_run ops t = Ok t' → TicketWf t'.
Proof.
  revert t. induction ops as [|op ops IH]; simpl; intros t Hwf H; inv_ok; [done|].
  eapply IH; [|done]. by eapply ticket_apply_wf.
Qed.

Lemma changeStatus_replay rt s u t t' s0 :
  changeStatus rt s u t = Ok t' →
  replay_status s0 (t_events t) = Some (status_string (t_status t)) →
  replay_status s0 (t_events t') = Some (status_string (t_status t')).
Proof.
  intros (_ & Es & _ & _ & Ee & _)%changeStatus_ok Hr.
  rewrite Ee, replay_status_app, Hr, Es; simpl. by rewrite bool_decide_eq_true_2.
Qed.

Lemma t_raise_replay rt k e t s0 :
  (∀ i tn old new u, e ≠ TicketStatusChangedEvent i tn old new u) →
  replay_status s0 (t_events (t_raise rt k e t)) = replay_status s0 (t_events t).
Proof.
  intros He. destruct t as [[]]; simpl.
  unfold t_events; simpl. rewrite replay_status_app; simpl. destruct e; naive_solver.
Qed.

(** Every operation keeps the event log in step with the status. *)
Lemma ticket_apply_replay op t t' s0 :
  ticket_apply op t = Ok t' →
  replay_status s0 (t_events t) = Some (status_string (t_status t)) →
  replay_status s0 (t_events t') = Some (status_string (t_status t')).
Proof.
  destruct op as [rt s u|rt a u|rt r u|rt u| |p|d|c|tag]; simpl; intros H Hr.
  - by eapply changeStatus_replay.
  - inv_ok. unfold assign. rewrite t_raise_replay by done.
    destruct t as [? ? ? ? ? ? ? ? ? ? ? ? ? ? ? ? ? ? fr ? ? ?], fr; done.
  - unfold escalate in H. destruct (t_isEscalated t); [done|]. inv_ok.
    rewrite t_raise_replay by done. by destruct t.
  - unfold resolve in H. inv_ok. rewrite t_raise_replay by done.
    rewrite (changeStatus_replay _ _ _ _ _ _ H0) by done. by destruct a.
  - inv_ok. by destruct t.
  - inv_ok. by destruct t.
  - apply updateDetails_frame in H as (Es & _ & _ & _ & _ & _ & Eb).
    unfold t_events in *. by rewrite Es, Eb.
  - unfold updateCategory in H. inv_ok. by destruct t.
  - inv_ok. unfold addTag. case_match; by destruct t.
Qed.

Lemma status_step_dec_rtc s s' : s ≠ CLOSED → rtc status_step s s'.
Proof.
  assert (H1 : rtc status_step OPEN RESOLVED).
  { apply rtc_l with IN_PROGRESS; [done|]. by apply rtc_once. }
  assert (H2 : rtc status_step OPEN PENDING_CUSTOMER).
  { apply rtc_l with IN_PROGRESS; [done|]. by apply rtc_once. }
  assert (Ho : ∀ x, rtc status_step OPEN x).
  { intros []; [done|by apply rtc_once|done|done|by apply rtc_once]. }
  intros Hs. transitivity OPEN; [|apply Ho].
  destruct s; try done; try by apply rtc_once.
  apply rtc_l with IN_PROGRESS; [done|by apply rtc_once].
Qed.

(** ** Properties *)

(** Whatever sequence of method calls succeeds on a ticket freshly created by
    [createTicket] (open, not escalated, no timestamps), the timestamps agree with the
    status and the escalation flag. *)
Theorem ticket_lifecycle_wf rt i p ops t :
  tp_status p = OPEN → tp_isEscalated p = false → tp_escalatedAt p = None →
  tp_escalatedReason p = None → tp_resolvedAt p = None → tp_closedAt p = None →
  ticket_run ops (ticket_create rt i p) = Ok t → TicketWf t.
Proof.
  intros E1 E2 E3 E4 E5 E6. apply ticket_run_wf.
  destruct p; simpl in *; subst. constructor; simpl; try done; split; try done; by intros [].
Qed.

(** The status of a ticket is exactly what a reader of its pending domain events
    computes: each status event starts from the status the previous one ended in. *)
Theorem ticket_events_replay rt i p ops t :
  ticket_run ops (ticket_create rt i p) = Ok t →
  replay_status (status_string (tp_status p)) (t_events t)
    = Some (status_string (t_status t)).
Proof.
  assert (H0 : replay_status (status_string (tp_status p)) (t_events (ticket_create rt i p))
             = Some (status_string (t_status (ticket_create rt i p)))) by done.
  revert H0. generalize (ticket_create rt i p) as t0.
  induction ops as [|op ops IH]; simpl; intros t0 H0 H; inv_ok; [done|].
  eapply IH; [|done]. by eapply ticket_apply_replay.
Qed.

(** The status machine.  CLOSED is final, and from every other status every status
    can be reached. *)
Theorem status_machine s s' : rtc status_step s s' ↔ s ≠ CLOSED ∨ s' = s.
Proof.
  split.
  - intros H. destruct (decide (s = CLOSED)) as [->|]; [right|by left].
    inversion H as [|? y ? Hs]; [done|]. unfold status_step in Hs.
    by rewrite transition_closed in Hs.
  - intros [Hs| ->]; [by apply status_step_dec_rtc|done].
Qed.

(** [resolve] succeeds exactly from IN_PROGRESS and PENDING_CUSTOMER; it stamps the
    resolution time and raises the status event and then the resolution event. *)
Theorem resolve_spec rt u t :
  match resolve rt u t with
  | Ok t' =>
      (t_status t = IN_PROGRESS ∨ t_status t = PENDING_CUSTOMER) ∧
      t_status t' = RESOLVED ∧
      t_resolvedAt t' = Some (default (now rt) (t_resolvedAt t)) ∧
      t_events t' = (t_events t ++
        [mkEvent (uuid rt 0) (now rt) (TicketStatusChangedEvent (t_id t) (t_tenantId t)
            (status_string (t_status t)) "RESOLVED" u);
         mkEvent (uuid rt 1) (now rt) (TicketResolvedEvent (t_id t) (t_tenantId t)
            (t_customerId t) (t_assignedAgentId t) u)])%list
  | Err e =>
      t_status t ≠ IN_PROGRESS ∧ t_status t ≠ PENDING_CUSTOMER ∧ statusCode e = Some 422%Z
  end.
Proof.
  unfold resolve. destruct (changeStatus rt RESOLVED u t) as [t1|e] eqn:H; simpl.
  - apply changeStatus_ok in H
      as (Hc & Es & Er & _ & Ee & _ & _ & _ & Ei & Et & Ea & _ & Ecu).
    split; [by destruct (t_status t); auto|].
    rewrite <- Ei, <- Et, <- Ea, <- Ecu in *.
    destruct t1 as [[]]; unfold t_events, t_id in *; simpl in *. subst.
    split_and!; try done. by rewrite <- app_assoc.
  - unfold changeStatus in H. destruct (canTransitionTo (t_status t) RESOLVED) eqn:Hc; [done|].
    inv_ok. by destruct (t_status t).
Qed.

(** ** Concrete runs *)

Definition demo_props : TicketProps :=
  mkTicketProps "t1" 1 "c1" None "u1" "Printer" "It is on fire" OPEN MEDIUM "GENERAL" []
    "web" false None None None None None None false [] None None.
Definition demo_rt (t : Z) : Rt := mkRt t (λ k, if Nat.eqb k 0 then "e0" else "e1").
Definition demo_ops : list TicketOp :=
  [OpChangeStatus (demo_rt 10) IN_PROGRESS "u1"; OpEscalate (demo_rt 20) "angry" "u1";
   OpResolve (demo_rt 30) "u1"; OpChangeStatus (demo_rt 40) OPEN "u1"].

Lemma ticket_lifecycle_wf_witness :
  ∃ t, ticket_run demo_ops (ticket_create (demo_rt 5) "k1" demo_props) = Ok t ∧ TicketWf t.
Proof.
  eexists. split; [vm_compute; reflexivity|].
  apply (ticket_lifecycle_wf (demo_rt 5) "k1" demo_props demo_ops); vm_compute; reflexivity.
Defined.

Lemma ticket_events_replay_witness :
  ∃ t, ticket_run demo_ops (ticket_create (demo_rt 5) "k1" demo_props) = Ok t ∧
       replay_status "OPEN" (t_events t) = Some (status_string (t_status t)).
Proof.
  eexists. split; [vm_compute; reflexivity|].
  apply (ticket_events_replay (demo_rt 5) "k1" demo_props demo_ops); vm_compute; reflexivity.
Defined.
