(* ===== verification/Customer.v ===== *)
(** * Customers

    [src/domain/customer]: the risk score value object and the customer aggregate, the
    e-mail value object of [src/domain/user], and the high-risk specification. *)

From Stdlib Require Import Ascii String QArith Qround.
From S2P Require Import Prelude Js Errors Domain.

#[local] Open Scope string_scope.
#[local] Open Scope Z_scope.

(** ** Email *)

(** [[^\s@]] *)
Definition email_char (c : ascii) : bool := negb (is_space c) && negb (Ascii.eqb c "@").

(** [/^[^\s@]+@[^\s@]+\.[^\s@]+$/] *)
Definition email_re : re :=
  Seq (Plus (Cls email_char)) (Seq (Lit "@")
    (Seq (Plus (Cls email_char)) (Seq (Lit ".") (Plus (Cls email_char))))).

Definition email_isValid (email : string) : bool := matches email_re email.

(** [Email.create]: the normalized address. *)
Definition email_create (input : string) : result error string :=
  let normalized := trim (toLowerCase input) in
  if email_isValid normalized then Ok normalized
  else Err (PlainError ("Invalid email address: " ++ input)).

(** [getDomain]: the part after the first [@]. *)
Definition getDomain (value : string) : option string := split_on "@" value !! 1%nat.

(** ** RiskScore *)

Inductive RiskLabel := RLow | RMedium | RHigh | RCritical.

#[export] Instance RiskLabel_eq_dec : EqDecision RiskLabel.
Proof. solve_decision. Defined.

Definition risk_label_string (l : RiskLabel) : string :=
  match l with
  | RLow => "LOW" | RMedium => "MEDIUM" | RHigh => "HIGH" | RCritical => "CRITICAL"
  end.

#[export] Instance RiskLabel_enum : Enum RiskLabel :=
  Build_Enum RiskLabel [RLow; RMedium; RHigh; RCritical]
    risk_label_string ltac:(enum_complete) ltac:(enum_injective).

Record RiskScore := mkRisk { rs_score : Z; rs_label : RiskLabel }.

Definition labelForScore (score : Z) : RiskLabel :=
  if 90 <=? score then RCritical
  else if 70 <=? score then RHigh
  else if 40 <=? score then RMedium
  else RLow.

Definition normalizeLabel (label : string) : result error RiskLabel :=
  opt_or (PlainError ("Invalid risk label: " ++ label)) (of_string (toUpperCase label)).

Definition risk_create (score : jsnum) (label : option string) : result error RiskScore :=
  match score with
  | Fin q =>
      let normalizedScore := Z.max 0 (Z.min 100 (round q)) in
      l ← normalizeLabel (default (risk_label_string (labelForScore normalizedScore)) label);
      Ok (mkRisk normalizedScore l)
  | _ => Err (PlainError "Risk score must be a finite number")
  end.

(** ** CustomerEntity *)

Inductive CustomerStatus := CActive | CInactive | CBlocked.

#[export] Instance CustomerStatus_eq_dec : EqDecision CustomerStatus.
Proof. solve_decision. Defined.

Definition customer_status_string (s : CustomerStatus) : string :=
  match s with CActive => "ACTIVE" | CInactive => "INACTIVE" | CBlocked => "BLOCKED" end.

#[export] Instance CustomerStatus_enum : Enum CustomerStatus :=
  Build_Enum CustomerStatus [CActive; CInactive; CBlocked]
    customer_status_string ltac:(enum_complete) ltac:(enum_injective).

Record CustomerProps := mkCustomerProps {
  kp_tenantId : string;
  kp_assignedAgentId : option string;
  kp_fullName : string;
  kp_email : string;
  kp_phone : option string;
  kp_company : option string;
  kp_notes : option string;
  kp_status : CustomerStatus;
  kp_riskScore : Z;
  kp_riskLabel : option string;
  kp_metadata : list (string * Json);
  kp_externalId : option string;
  kp_lastActivityAt : option Z;
  kp_createdAt : option Z;
  kp_updatedAt : option Z;
}.

Record CustomerEntity := mkCustomer {
  k_base : Base;
  k_tenantId : string;
  k_assignedAgentId : option string;
  k_fullName : string;
  k_email : string;
  k_phone : option string;
  k_company : option string;
  k_notes : option string;
  k_status : CustomerStatus;
  k_riskScore : Z;
  k_riskLabel : option string;
  k_metadata : list (string * Json);
  k_externalId : option string;
  k_lastActivityAt : option Z;
}.
#[export] Instance CustomerEntity_eta : Eta CustomerEntity := λ k,
  mkCustomer (k_base k) (k_tenantId k) (k_assignedAgentId k) (k_fullName k) (k_email k)
    (k_phone k) (k_company k) (k_notes k) (k_status k) (k_riskScore k) (k_riskLabel k)
    (k_metadata k) (k_externalId k) (k_lastActivityAt k).

Definition customer_new (rt : Rt) (i : string) (p : CustomerProps) : CustomerEntity :=
  mkCustomer (new_base rt i (kp_createdAt p) (kp_updatedAt p))
    (kp_tenantId p) (kp_assignedAgentId p) (kp_fullName p) (kp_email p) (kp_phone p)
    (kp_company p) (kp_notes p) (kp_status p) (kp_riskScore p) (kp_riskLabel p)
    (kp_metadata p) (kp_externalId p) (kp_lastActivityAt p).

Definition k_id (k : CustomerEntity) : string := b_id (k_base k).
Definition k_events (k : CustomerEntity) : list DomainEvent := b_domainEvents (k_base k).

Definition customer_create (rt : Rt) (i : string) (p : CustomerProps) : CustomerEntity :=
  (customer_new rt i p)
    <| k_base ::= addDomainEvent (new_event rt 0
         (CustomerCreatedEvent i (kp_tenantId p) (kp_email p) (kp_fullName p))) |>.

Definition customer_reconstitute (rt : Rt) (i : string) (p : CustomerProps) : CustomerEntity :=
  customer_new rt i p.

Definition updateRiskScore (rt : Rt) (score : jsnum) (label : string) (k : CustomerEntity)
  : result error CustomerEntity :=
  let previousScore := k_riskScore k in
  rs ← risk_create score (Some label);
  Ok (k <| k_riskScore := rs_score rs |>
        <| k_riskLabel := Some (risk_label_string (rs_label rs)) |>
        <| k_base ::= addDomainEvent (new_event rt 0
             (CustomerRiskUpdatedEvent (k_id k) (k_tenantId k) previousScore (rs_score rs)
                (risk_label_string (rs_label rs)))) |>).

Definition assignAgent (agentId : string) (k : CustomerEntity) : CustomerEntity :=
  k <| k_assignedAgentId := Some agentId |>.

Record CustomerProfile := mkCustomerProfile {
  pf_fullName : option string;
  pf_phone : option string;
  pf_company : option string;
  pf_notes : option string;
}.

(** [if (v !== undefined) field = v] for an optional field. *)
Definition set_defined {A} (v : option A) (old : option A) : option A :=
  match v with Some _ => v | None => old end.

Definition customer_updateProfile (input : CustomerProfile) (k : CustomerEntity)
  : CustomerEntity :=
  k <| k_fullName := match pf_fullName input with
                     | Some n => trim n
                     | None => k_fullName k
                     end |>
    <| k_phone := set_defined (pf_phone input) (k_phone k) |>
    <| k_company := set_defined (pf_company input) (k_company k) |>
    <| k_notes := set_defined (pf_notes input) (k_notes k) |>.

Definition customer_deactivate (k : CustomerEntity) : CustomerEntity :=
  k <| k_status := CInactive |>.
Definition recordActivity (rt : Rt) (k : CustomerEntity) : CustomerEntity :=
  k <| k_lastActivityAt := Some (now rt) |>.
Definition block (k : CustomerEntity) : CustomerEntity := k <| k_status := CBlocked |>.
Definition customer_activate (k : CustomerEntity) : CustomerEntity := k <| k_status := CActive |>.
Definition isBlocked (k : CustomerEntity) : bool := bool_decide (k_status k = CBlocked).
Definition isHighRisk (k : CustomerEntity) : bool := 70 <=? k_riskScore k.

(** [HighRiskCustomerSpecification] *)
Definition high_risk_satisfied (threshold : Z) (k : CustomerEntity) : bool :=
  (threshold <=? k_riskScore k) || isHighRisk k.

(** ** Lemmas *)

Lemma email_char_no_space s :
  str_forall email_char s = true → str_forall (λ c, negb (is_space c)) s = true.
Proof. apply str_forall_impl. unfold email_char. intros c. by destruct (is_space c). Qed.

Lemma email_valid_no_space s :
  email_isValid s = true → str_forall (λ c, negb (is_space c)) s = true.
Proof.
  unfold email_isValid. rewrite matches_spec. unfold email_re. intros H.
  inversion H as [| |r1 r2 a t Ha Ht| | | |]; subst.
  inversion Ht as [| |r1 r2 at_ u Hat Hu| | | |]; subst.
  inversion Hu as [| |r1 r2 b v Hb Hv| | | |]; subst.
  inversion Hv as [| |r1 r2 dot w Hd Hw| | | |]; subst.
  apply in_re_plus_cls in Ha as [_ Ha], Hb as [_ Hb], Hw as [_ Hw].
  inversion Hat as [|p c Hc| | | | |]; inversion Hd as [|p' c' Hc'| | | | |]; subst.
  apply Ascii.eqb_eq in Hc, Hc'. subst.
  rewrite str_forall_app, (email_char_no_space a) by done; simpl.
  rewrite str_forall_app, (email_char_no_space b) by done; simpl.
  by apply email_char_no_space.
Qed.

(** ** Properties *)

(** An accepted e-mail address is in normal form (lower case, no blanks), so creating
    the value object again changes nothing. *)
Theorem email_create_idempotent input e :
  email_create input = Ok e → email_create e = Ok e.
Proof.
  unfold email_create. destruct (email_isValid (trim (toLowerCase input))) eqn:Hv; [|done].
  intros H. inv_ok.
  rewrite lowered_id by apply trim_forall, toLowerCase_lowered.
  rewrite trim_id by by apply email_valid_no_space. by rewrite Hv.
Qed.

Lemma email_create_idempotent_witness :
  email_create "  Ada@Example.ORG" = Ok "ada@example.org" ∧
  email_create "ada@example.org" = Ok "ada@example.org".
Proof.
  split; [vm_compute; reflexivity|].
  apply (email_create_idempotent "  Ada@Example.ORG"). vm_compute. reflexivity.
Defined.

(** [RiskScore.create].  A stored score is an integer between 0 and 100 whatever the
    finite input, non-finite input is refused, a label is accepted in any case, and
    without a label the score's band decides. *)
Theorem risk_create_spec score label :
  match risk_create score label with
  | Ok r =>
      ∃ q, score = Fin q ∧ rs_score r = Z.max 0 (Z.min 100 (round q)) ∧
      0 <= rs_score r <= 100 ∧
      match label with
      | Some l => risk_label_string (rs_label r) = toUpperCase l
      | None => rs_label r = labelForScore (rs_score r)
      end
  | Err _ => isFinite score = false ∨ ∃ l, label = Some l ∧ of_string (T:=RiskLabel) (toUpperCase l) = None
  end.
Proof.
  unfold risk_create. destruct score as [q| | |]; simpl; try by left.
  unfold normalizeLabel. destruct label as [l|]; simpl.
  - destruct (of_string (toUpperCase l)) as [lab|] eqn:Hl; simpl; [|by right; eauto].
    apply of_string_spec in Hl. exists q. split_and!; try done; lia.
  - destruct (labelForScore _) eqn:Hs; simpl; exists q; split_and!; done || lia.
Qed.
