(* ===== verification/Tenant.v ===== *)
(** * Organizations (tenants)

    [src/domain/tenant], the mapper of [src/infrastructure/database/mappers], the SLA and
    limits policies over tenants, and the active-tenant specification. *)

From Stdlib Require Import Ascii String QArith Qround.
From S2P Require Import Prelude Js Errors Domain.

#[local] Open Scope string_scope.
#[local] Open Scope Z_scope.

(** ** TenantSlug *)

(** [[a-z0-9]] *)
Definition slug_char (c : ascii) : bool := is_lower c || is_digit c.
Definition is_hyphen (c : ascii) : bool := Ascii.eqb c "-".

(** [/^[a-z0-9][a-z0-9-]*[a-z0-9]$/] *)
Definition slug_re : re :=
  Seq (Cls slug_char) (Seq (Star (Cls (λ c, slug_char c || is_hyphen c))) (Cls slug_char)).

(** The normalization of [TenantSlug.create]. *)
Definition slug_normalize (input : string) : string :=
  drop_end is_hyphen (drop_start is_hyphen
    (replace_runs (λ c, negb (slug_char c)) "-" (trim (toLowerCase input)))).

Definition slug_create (input : string) : result error string :=
  let slug := slug_normalize input in
  if str_length slug <? 3 then
    Err (PlainError "Tenant slug must be at least 3 characters")
  else if 63 <? str_length slug then
    Err (PlainError "Tenant slug must not exceed 63 characters")
  else if negb (matches slug_re slug) then
    Err (PlainError "Tenant slug must start and end with alphanumeric character")
  else Ok slug.

(** ** TenantStatus *)

Inductive TenantStatus := TActive | TSuspended | TTrial | TCancelled.

#[export] Instance TenantStatus_eq_dec : EqDecision TenantStatus.
Proof. solve_decision. Defined.

Definition tenant_status_string (s : TenantStatus) : string :=
  match s with
  | TActive => "ACTIVE"
  | TSuspended => "SUSPENDED"
  | TTrial => "TRIAL"
  | TCancelled => "CANCELLED"
  end.

#[export] Instance TenantStatus_enum : Enum TenantStatus :=
  Build_Enum TenantStatus [TActive; TSuspended; TTrial; TCancelled]
    tenant_status_string ltac:(enum_complete) ltac:(enum_injective).

(** [TenantStatus.create] *)
Definition tenant_status_create (value : string) : result error TenantStatus :=
  opt_or (PlainError ("Invalid tenant status: " ++ value)) (of_string value).

(** ** TenantEntity *)

Record TenantProps := mkTenantProps {
  np_name : string;
  np_slug : string;
  np_status : TenantStatus;
  np_plan : string;
  np_domain : option string;
  np_logoUrl : option string;
  np_maxAgents : Z;
  np_maxCustomers : Z;
  np_maxTicketsPerDay : Z;
  np_settings : list (string * Json);
  np_createdAt : option Z;
  np_updatedAt : option Z;
  np_suspendedAt : option Z;
  np_suspendedReason : option string;
}.

Record TenantEntity := mkTenant {
  n_base : Base;
  n_name : string;
  n_slug : string;
  n_status : TenantStatus;
  n_plan : string;
  n_domain : option string;
  n_logoUrl : option string;
  n_maxAgents : Z;
  n_maxCustomers : Z;
  n_maxTicketsPerDay : Z;
  n_settings : list (string * Json);
  n_suspendedAt : option Z;
  n_suspendedReason : option string;
}.
#[export] Instance TenantEntity_eta : Eta TenantEntity := λ n,
  mkTenant (n_base n) (n_name n) (n_slug n) (n_status n) (n_plan n) (n_domain n)
    (n_logoUrl n) (n_maxAgents n) (n_maxCustomers n) (n_maxTicketsPerDay n)
    (n_settings n) (n_suspendedAt n) (n_suspendedReason n).

Definition tenant_new (rt : Rt) (i : string) (p : TenantProps) : TenantEntity :=
  mkTenant (new_base rt i (np_createdAt p) (np_updatedAt p))
    (np_name p) (np_slug p) (np_status p) (np_plan p) (np_domain p) (np_logoUrl p)
    (np_maxAgents p) (np_maxCustomers p) (np_maxTicketsPerDay p) (np_settings p)
    (np_suspendedAt p) (np_suspendedReason p).

Definition n_id (n : TenantEntity) : string := b_id (n_base n).
Definition n_events (n : TenantEntity) : list DomainEvent := b_domainEvents (n_base n).

Definition tenant_create (rt : Rt) (i : string) (p : TenantProps) : TenantEntity :=
  (tenant_new rt i p)
    <| n_base ::= addDomainEvent (new_event rt 0
         (TenantCreatedEvent i (np_name p) (np_slug p))) |>.

Definition tenant_reconstitute (rt : Rt) (i : string) (p : TenantProps) : TenantEntity :=
  tenant_new rt i p.

Definition suspend (rt : Rt) (reason : string) (n : TenantEntity) : result error TenantEntity :=
  if bool_decide (n_status n = TSuspended) then
    Err (PlainError "Tenant is already suspended")
  else
    Ok (n <| n_status := TSuspended |> <| n_suspendedAt := Some (now rt) |>
          <| n_suspendedReason := Some reason |>
          <| n_base ::= addDomainEvent (new_event rt 0 (TenantSuspendedEvent (n_id n) reason)) |>).

Definition tenant_activate (n : TenantEntity) : TenantEntity :=
  n <| n_status := TActive |> <| n_suspendedAt := None |> <| n_suspendedReason := None |>.

Definition updateSettings (settings : list (string * Json)) (n : TenantEntity) : TenantEntity :=
  n <| n_settings ::= λ old, spread old settings |>.

Record TenantDetails := mkTenantDetails {
  nd_name : option string;
  nd_domain : option string;
  nd_plan : option string;
  nd_maxAgents : option Z;
  nd_maxCustomers : option Z;
  nd_maxTicketsPerDay : option Z;
}.

Definition tenant_updateDetails (d : TenantDetails) (n : TenantEntity) : TenantEntity :=
  n <| n_name ::= λ v, default v (nd_name d) |>
    <| n_domain ::= λ v, match nd_domain d with Some _ => nd_domain d | None => v end |>
    <| n_plan ::= λ v, default v (nd_plan d) |>
    <| n_maxAgents ::= λ v, default v (nd_maxAgents d) |>
    <| n_maxCustomers ::= λ v, default v (nd_maxCustomers d) |>
    <| n_maxTicketsPerDay ::= λ v, default v (nd_maxTicketsPerDay d) |>.

Definition tenant_isActive (n : TenantEntity) : bool := bool_decide (n_status n = TActive).
Definition tenant_canCreateTicket (n : TenantEntity) : bool :=
  bool_decide (n_status n = TActive) || bool_decide (n_status n = TTrial).

(** [TenantActiveSpecification] *)
Definition tenant_active_satisfied (n : TenantEntity) : bool :=
  negb (bool_decide (n_status n = TSuspended)) && negb (bool_decide (n_status n = TCancelled)).

(** ** mapPrismaTenantToEntity *)

(** A tenant row: nullable columns are [None] when null. *)
Record TenantRecord := mkTenantRecord {
  nr_name : string;
  nr_slug : string;
  nr_status : string;
  nr_plan : string;
  nr_domain : option string;
  nr_logoUrl : option string;
  nr_maxAgents : Z;
  nr_maxCustomers : Z;
  nr_maxTicketsPerDay : Z;
  nr_settings : Json;
  nr_suspendedAt : option Z;
  nr_suspendedReason : option string;
  nr_createdAt : Z;
  nr_updatedAt : Z;
}.
#[export] Instance TenantRecord_eta : Eta TenantRecord := λ r,
  mkTenantRecord (nr_name r) (nr_slug r) (nr_status r) (nr_plan r) (nr_domain r)
    (nr_logoUrl r) (nr_maxAgents r) (nr_maxCustomers r) (nr_maxTicketsPerDay r)
    (nr_settings r) (nr_suspendedAt r) (nr_suspendedReason r) (nr_createdAt r)
    (nr_updatedAt r).

(** The own properties of a JSON object; those of an array are its indices, which no
    setting is named after. *)
Definition settings_of (j : Json) : list (string * Json) :=
  match j with JObj fields => fields | _ => [] end.

Definition mapPrismaTenantToEntity (rt : Rt) (i : string) (r : TenantRecord)
  : result error TenantEntity :=
  slug ← slug_create (nr_slug r);
  status ← tenant_status_create (nr_status r);
  Ok (tenant_reconstitute rt i
        (mkTenantProps (nr_name r) slug status (nr_plan r) (nr_domain r) (nr_logoUrl r)
           (nr_maxAgents r) (nr_maxCustomers r) (nr_maxTicketsPerDay r)
           (settings_of (nr_settings r)) (Some (nr_createdAt r)) (Some (nr_updatedAt r))
           (nr_suspendedAt r) (nr_suspendedReason r))).

(** ** TenantLimitsPolicy *)

Definition canCreateTicket (n : TenantEntity) (ticketsCreatedToday : Z) : bool :=
  tenant_canCreateTicket n && (ticketsCreatedToday <? n_maxTicketsPerDay n).
Definition canInviteAgent (n : TenantEntity) (currentAgents : Z) : bool :=
  tenant_isActive n && (currentAgents <? n_maxAgents n).
Definition canAddCustomer (n : TenantEntity) (currentCustomers : Z) : bool :=
  tenant_isActive n && (currentCustomers <? n_maxCustomers n).

(** ** SlaPolicy *)

Definition DEFAULT_SLA_HOURS : list (string * Q) :=
  [("CRITICAL", 4%Q); ("HIGH", 8%Q); ("MEDIUM", 24%Q); ("LOW", 72%Q)].

(** The hours for a priority; [settings] is [None] when no tenant is given. *)
Definition resolveHours (priority : string) (settings : option (list (string * Json))) : Q :=
  let fallback := default 24%Q (get_field priority DEFAULT_SLA_HOURS) in
  match settings ≫= get_field "slaHours" with
  | Some (JObj overrides) =>
      match get_field priority overrides with
      | Some (JNum value) => if negb (Qle_bool value 0) then value else fallback
      | _ => fallback
      end
  | _ => fallback
  end.

(** [createdAt.getTime() + hours * 3_600_000], truncated by [new Date]; beyond the range
    of a date the result is an Invalid Date. *)
Definition computeDueAt (priority : string) (createdAt : Z)
    (settings : option (list (string * Json))) : option Z :=
  let t := trunc (inject_Z createdAt + resolveHours priority settings * 3600000)%Q in
  if Z.abs t <=? 8640000000000000 then Some t else None.

(** ** Lemmas *)

Lemma replace_runs_chars inside p rep q s :
  str_forall q rep = true → (∀ c, p c = false → q c = true) →
  str_forall q (replace_runs_from inside p rep s) = true.
Proof.
  intros Hr Hq. revert inside. induction s as [|c s IH]; intros inside; simpl; [done|].
  destruct (p c) eqn:Hp; [destruct inside|]; simpl; [done| |].
  - by rewrite str_forall_app, Hr, IH.
  - by rewrite (Hq _ Hp), IH.
Qed.

(** The last character of a string. *)
Fixpoint last_char (s : string) : option ascii :=
  match s with
  | EmptyString => None
  | String c EmptyString => Some c
  | String _ s => last_char s
  end.

Lemma drop_start_head p s c s' : drop_start p s = String c s' → p c = false.
Proof.
  induction s as [|d s IH]; simpl; [done|]. destruct (p d) eqn:Hd; [done|].
  by intros [= -> ->].
Qed.

Lemma drop_end_last p s c : last_char (drop_end p s) = Some c → p c = false.
Proof.
  induction s as [|d s IH]; simpl; [done|].
  destruct (drop_end p s) as [|e r]; [|done].
  destruct (p d) eqn:Hd; simpl; [done|]. by intros [= ->].
Qed.

Lemma drop_end_head p s c s' :
  drop_end p s = String c s' → ∃ t, s = String c t.
Proof.
  destruct s as [|d s]; simpl; [done|].
  destruct (drop_end p s) as [|e r]; [|by intros [= -> <-]; eauto].
  destruct (p d); [done|]. intros [= -> <-]; eauto.
Qed.

Lemma split_last c s :
  ∃ m d, String c s = (m ++ String d EmptyString)%string ∧ last_char (String c s) = Some d.
Proof.
  revert c. induction s as [|e s IH]; intros c.
  - by exists EmptyString, c.
  - destruct (IH e) as (m & d & Hm & Hl). exists (String c m), d. split.
    + by rewrite Hm.
    + done.
Qed.

(** What normalization leaves only needs the length checks: it always has the shape the
    last check of [create] looks for. *)
Lemma slug_normalize_matches input :
  2 <= str_length (slug_normalize input) → matches slug_re (slug_normalize input) = true.
Proof.
  intros Hlen. set (q := λ c, slug_char c || is_hyphen c).
  assert (Hq : str_forall q (slug_normalize input) = true).
  { apply drop_end_forall, drop_start_forall, replace_runs_chars; [done|].
    unfold q. intros c Hc. by destruct (slug_char c). }
  destruct (slug_normalize input) as [|c s] eqn:E; [done|].
  assert (Hc : is_hyphen c = false).
  { unfold slug_normalize in E. apply drop_end_head in E as [t E]. by apply drop_start_head in E. }
  destruct s as [|d s]; [done|].
  destruct (split_last d s) as (m & e & Hm & Hl).
  assert (He : is_hyphen e = false).
  { apply (drop_end_last is_hyphen) with
      (s := drop_start is_hyphen (replace_runs (λ c, negb (slug_char c)) "-"
        (trim (toLowerCase input)))).
    fold (slug_normalize input). rewrite E. done. }
  rewrite matches_spec. rewrite Hm in *. simpl in Hq.
  apply andb_true_iff in Hq as [Hqc Hqm].
  rewrite str_forall_app in Hqm. simpl in Hqm. rewrite andb_true_r in Hqm.
  apply andb_true_iff in Hqm as [Hqm Hqe]. unfold q in *.
  change (String c (m ++ String e "")) with (String c "" ++ (m ++ String e ""))%string.
  repeat constructor.
  - by rewrite Hc, orb_false_r in Hqc.
  - by apply in_re_star_cls.
  - by rewrite He, orb_false_r in Hqe.
Qed.

(** No two neighbouring characters in [p] (and none at the start when [inside]). *)
Fixpoint single_runs (inside : bool) (p : ascii → bool) (s : string) : bool :=
  match s with
  | EmptyString => true
  | String c s => if p c then negb inside && single_runs true p s else single_runs false p s
  end.

Lemma single_runs_weaken inside p s :
  single_runs true p s = true → single_runs inside p s = true.
Proof. destruct s as [|c s], inside; simpl; try done. by destruct (p c). Qed.

Lemma replace_runs_single inside p d s :
  p d = true →
  single_runs inside p (replace_runs_from inside p (String d EmptyString) s) = true.
Proof.
  intros Hd. revert inside. induction s as [|c s IH]; intros inside; simpl; [done|].
  destruct (p c) eqn:Hc; [destruct inside; simpl; [apply IH|]|simpl; by rewrite Hc].
  rewrite Hd. simpl. apply IH.
Qed.

Lemma drop_start_single p q s :
  single_runs false p s = true → single_runs false p (drop_start q s) = true.
Proof.
  induction s as [|c s IH]; simpl; [done|]. destruct (q c); simpl; [|done].
  intros H. apply IH. destruct (p c); [|done]. by apply single_runs_weaken.
Qed.

Lemma drop_end_single inside p q s :
  single_runs inside p s = true → single_runs inside p (drop_end q s) = true.
Proof.
  revert inside. induction s as [|c s IH]; intros inside; simpl; [done|].
  assert (Hgen : ∀ r, (∀ b, single_runs b p s = true → single_runs b p r = true) →
    single_runs inside p (String c s) = true → single_runs inside p (String c r) = true).
  { intros r Hr. simpl. destruct (p c); [|auto].
    intros [-> ?]%andb_true_iff. simpl. auto. }
  intros H. destruct (drop_end q s) as [|e r] eqn:E.
  - destruct (q c); [done|]. apply Hgen; [done|exact H].
  - apply Hgen; [|exact H]. intros b Hb. by apply IH.
Qed.

Lemma replace_runs_id inside p d s :
  str_forall (λ c, negb (p c) || Ascii.eqb d c) s = true → single_runs inside p s = true →
  replace_runs_from inside p (String d EmptyString) s = s.
Proof.
  revert inside. induction s as [|c s IH]; intros inside; simpl; [done|].
  intros [Hc Hs]%andb_true_iff. destruct (p c); simpl in *.
  - apply Ascii.eqb_eq in Hc as ->. intros [? ?]%andb_true_iff.
    destruct inside; [done|]. by rewrite IH.
  - intros ?. by rewrite IH.
Qed.

Lemma drop_end_idem p s : drop_end p (drop_end p s) = drop_end p s.
Proof.
  induction s as [|c s IH]; simpl; [done|].
  destruct (drop_end p s) as [|e r] eqn:E.
  - destruct (p c) eqn:Hc; simpl; [done|by rewrite Hc].
  - simpl in IH |- *. by rewrite IH.
Qed.

Lemma slug_char_lowered c : slug_char c || is_hyphen c = true →
  Ascii.eqb (lower_char c) c && negb (is_space c) &&
  (negb (negb (slug_char c)) || Ascii.eqb "-" c) = true.
Proof. destruct c as [[] [] [] [] [] [] [] []]; vm_compute; done. Qed.

Lemma str_forall_and p q s :
  str_forall (λ c, p c && q c) s = str_forall p s && str_forall q s.
Proof. induction s as [|c s IH]; simpl; [done|]. rewrite IH. by destruct (p c), (q c), (str_forall p s). Qed.

(** Normalization is idempotent. *)
Lemma slug_normalize_idem input : slug_normalize (slug_normalize input) = slug_normalize input.
Proof.
  set (s := slug_normalize input).
  assert (Hq : str_forall (λ c, slug_char c || is_hyphen c) s = true).
  { apply drop_end_forall, drop_start_forall, replace_runs_chars; [done|].
    intros c Hc. by destruct (slug_char c). }
  apply (str_forall_impl _ _ _ slug_char_lowered) in Hq.
  rewrite !str_forall_and in Hq. bool_to_prop.
  assert (Hsingle : single_runs false (λ c, negb (slug_char c)) s = true).
  { apply drop_end_single, drop_start_single. by apply replace_runs_single. }
  assert (Hstart : drop_start is_hyphen s = s).
  { destruct s as [|c t] eqn:E; [done|]. simpl.
    unfold s, slug_normalize in E. apply drop_end_head in E as [t' E].
    apply drop_start_head in E. by rewrite E. }
  unfold slug_normalize at 1.
  rewrite lowered_id, trim_id by done. unfold replace_runs.
  rewrite replace_runs_id, Hstart by done. apply drop_end_idem.
Qed.

(** ** Properties *)

(** [TenantSlug.create] accepts an input exactly when its normal form has 3 to 63
    characters (the format check after the length checks never fails); an accepted slug
    has the documented format, and creating a slug from it again (as the mapper does with the
    stored column) gives the same slug. *)
Theorem slug_create_spec input :
  match slug_create input with
  | Ok s => s = slug_normalize input ∧ 3 <= str_length s <= 63 ∧ in_re slug_re s ∧
            slug_create s = Ok s
  | Err _ => str_length (slug_normalize input) < 3 ∨ 63 < str_length (slug_normalize input)
  end.
Proof.
  assert (Hc : ∀ s, slug_normalize s = s → 3 <= str_length s <= 63 → slug_create s = Ok s).
  { intros s Hs Hl. pose proof (slug_normalize_matches s) as Hm. unfold slug_create.
    rewrite Hs in *. destruct (Z.ltb_spec (str_length s) 3), (Z.ltb_spec 63 (str_length s)); try lia.
    by rewrite Hm by lia. }
  unfold slug_create at 1.
  destruct (Z.ltb_spec (str_length (slug_normalize input)) 3); [by left|].
  destruct (Z.ltb_spec 63 (str_length (slug_normalize input))); [by right|].
  pose proof (slug_normalize_matches input) as Hm. rewrite Hm by lia. simpl.
  split_and!; [done|lia|lia|apply matches_spec, Hm; lia|].
  apply Hc; [apply slug_normalize_idem|lia].
Qed.

(** SLA deadlines.  The hours are always positive: a tenant override is used only when it
    is a positive number, anything else falls back to the default hours.  The deadline is never before the creation time. *)
Theorem sla_deadline_spec priority createdAt settings :
  (0 < resolveHours priority settings)%Q ∧
  (∀ v overrides, settings ≫= get_field "slaHours" = Some (JObj overrides) →
     get_field priority overrides = Some (JNum v) → (0 < v)%Q →
     resolveHours priority settings = v) ∧
  match computeDueAt priority createdAt settings with
  | Some due => createdAt <= due
  | None => 8640000000000000 < Z.abs
      (trunc (inject_Z createdAt + resolveHours priority settings * 3600000)%Q)
  end.
Proof.
  assert (Hpos : (0 < resolveHours priority settings)%Q).
  { assert (Hf : (0 < default 24 (get_field priority DEFAULT_SLA_HOURS))%Q).
    { unfold DEFAULT_SLA_HOURS; simpl. repeat case_bool_decide; simpl; reflexivity. }
    unfold resolveHours. repeat (case_match; try exact Hf).
    bool_to_prop. apply Qnot_le_lt. intros Hle. apply Qle_bool_iff in Hle. congruence. }
  split; [done|]. split.
  - intros v ov Ho Hv Hp. unfold resolveHours. rewrite Ho, Hv.
    destruct (Qle_bool v 0) eqn:Hle; simpl; [|done].
    apply Qle_bool_iff in Hle. by apply Qle_not_lt in Hle.
  - unfold computeDueAt.
    set (x := (inject_Z createdAt + resolveHours priority settings * 3600000)%Q).
    destruct (Z.leb_spec (Z.abs (trunc x)) 8640000000000000); [|lia].
    assert (Hx : (inject_Z createdAt <= x)%Q).
    { unfold x. rewrite <- (Qplus_0_r (inject_Z createdAt)) at 1.
      apply Qplus_le_compat; [apply Qle_refl|].
      apply Qmult_le_0_compat; [by apply Qlt_le_weak|done]. }
    unfold trunc. destruct (Qle_bool 0 x).
    + rewrite <- (Qfloor_Z createdAt). by apply Qfloor_resp_le.
    + rewrite <- (Qceiling_Z createdAt). by apply Qceiling_resp_le.
Qed.
