(* ===== verification/User.v ===== *)
(** * Users

    [src/domain/user]: roles, passwords, the user aggregate, and
    [src/domain/policies/role-assignment.policy.ts]. *)

From Stdlib Require Import Ascii String.
From S2P Require Import Prelude Js Errors Domain Customer.

#[local] Open Scope string_scope.
#[local] Open Scope Z_scope.

(** ** UserRole *)

Inductive UserRole := PLATFORM_ADMIN | TENANT_MANAGER | AGENT | CUSTOMER.

#[export] Instance UserRole_eq_dec : EqDecision UserRole.
Proof. solve_decision. Defined.

Definition role_string (r : UserRole) : string :=
  match r with
  | PLATFORM_ADMIN => "PLATFORM_ADMIN"
  | TENANT_MANAGER => "TENANT_MANAGER"
  | AGENT => "AGENT"
  | CUSTOMER => "CUSTOMER"
  end.

#[export] Instance UserRole_enum : Enum UserRole :=
  Build_Enum UserRole [PLATFORM_ADMIN; TENANT_MANAGER; AGENT; CUSTOMER]
    role_string ltac:(enum_complete) ltac:(enum_injective).

(** [UserRole.create] *)
Definition role_create (value : string) : result error UserRole :=
  opt_or (PlainError ("Invalid user role: " ++ value)) (of_string value).

Definition isTenantScoped (r : UserRole) : bool := negb (bool_decide (r = PLATFORM_ADMIN)).

(** ** Password *)

(** The checks of [Password.create], in order, each with the message it pushes. *)
Definition password_errors (s : string) : list string :=
  (if str_length s <? 8 then ["Password must be at least 8 characters"] else []) ++
  (if negb (str_exists is_upper s)
   then ["Password must contain at least one uppercase letter"] else []) ++
  (if negb (str_exists is_lower s)
   then ["Password must contain at least one lowercase letter"] else []) ++
  (if negb (str_exists is_digit s)
   then ["Password must contain at least one number"] else []) ++
  (if negb (str_exists (λ c, negb (is_alnum c)) s)
   then ["Password must contain at least one special character"] else []).

(** [Password.create] *)
Definition password_create (plainText : string) : result error string :=
  match password_errors plainText with
  | [] => Ok plainText
  | errors =>
      Err (ValidationError "Password does not meet requirements" [("password", errors)])
  end.

(** ** UserEntity *)

Inductive UserStatus := UActive | UInactive | USuspended | UPendingVerification.

#[export] Instance UserStatus_eq_dec : EqDecision UserStatus.
Proof. solve_decision. Defined.

Definition user_status_string (s : UserStatus) : string :=
  match s with
  | UActive => "ACTIVE"
  | UInactive => "INACTIVE"
  | USuspended => "SUSPENDED"
  | UPendingVerification => "PENDING_VERIFICATION"
  end.

#[export] Instance UserStatus_enum : Enum UserStatus :=
  Build_Enum UserStatus [UActive; UInactive; USuspended; UPendingVerification]
    user_status_string ltac:(enum_complete) ltac:(enum_injective).

Record UserProps := mkUserProps {
  up_tenantId : option string;
  up_email : string;
  up_passwordHash : option string;
  up_firstName : string;
  up_lastName : string;
  up_role : UserRole;
  up_status : UserStatus;
  up_avatarUrl : option string;
  up_phone : option string;
  up_timezone : string;
  up_locale : string;
  up_emailVerifiedAt : option Z;
  up_lastLoginAt : option Z;
  up_lastLoginIp : option string;
  up_failedLoginAttempts : Z;
  up_lockedUntil : option Z;
  up_createdAt : option Z;
  up_updatedAt : option Z;
}.

Record UserEntity := mkUser {
  u_base : Base;
  u_tenantId : option string;
  u_email : string;
  u_passwordHash : option string;
  u_firstName : string;
  u_lastName : string;
  u_role : UserRole;
  u_status : UserStatus;
  u_avatarUrl : option string;
  u_phone : option string;
  u_timezone : string;
  u_locale : string;
  u_emailVerifiedAt : option Z;
  u_lastLoginAt : option Z;
  u_lastLoginIp : option string;
  u_failedLoginAttempts : Z;
  u_lockedUntil : option Z;
}.
#[export] Instance UserEntity_eta : Eta UserEntity := λ u,
  mkUser (u_base u) (u_tenantId u) (u_email u) (u_passwordHash u) (u_firstName u)
    (u_lastName u) (u_role u) (u_status u) (u_avatarUrl u) (u_phone u) (u_timezone u)
    (u_locale u) (u_emailVerifiedAt u) (u_lastLoginAt u) (u_lastLoginIp u)
    (u_failedLoginAttempts u) (u_lockedUntil u).

Definition user_new (rt : Rt) (i : string) (p : UserProps) : UserEntity :=
  mkUser (new_base rt i (up_createdAt p) (up_updatedAt p))
    (up_tenantId p) (up_email p) (up_passwordHash p) (up_firstName p) (up_lastName p)
    (up_role p) (up_status p) (up_avatarUrl p) (up_phone p) (up_timezone p) (up_locale p)
    (up_emailVerifiedAt p) (up_lastLoginAt p) (up_lastLoginIp p)
    (up_failedLoginAttempts p) (up_lockedUntil p).

Definition u_id (u : UserEntity) : string := b_id (u_base u).
Definition u_events (u : UserEntity) : list DomainEvent := b_domainEvents (u_base u).

Definition user_create (rt : Rt) (i : string) (p : UserProps) : UserEntity :=
  (user_new rt i p)
    <| u_base ::= addDomainEvent (new_event rt 0
         (UserCreatedEvent i (up_email p) (role_string (up_role p)))) |>.

Definition user_reconstitute (rt : Rt) (i : string) (p : UserProps) : UserEntity :=
  user_new rt i p.

Definition verifyEmail (rt : Rt) (u : UserEntity) : UserEntity :=
  match u_emailVerifiedAt u with
  | Some _ => u
  | None => u <| u_emailVerifiedAt := Some (now rt) |> <| u_status := UActive |>
  end.

(** [avatarUrl] and [phone] may be undefined (keep), null (clear) or a string. *)
Record ProfileInput := mkProfileInput {
  pi_firstName : option string;
  pi_lastName : option string;
  pi_avatarUrl : option (option string);
  pi_phone : option (option string);
  pi_timezone : option string;
  pi_locale : option string;
}.

Definition updateProfile (input : ProfileInput) (u : UserEntity) : UserEntity :=
  u <| u_firstName ::= λ v, from_option trim v (pi_firstName input) |>
    <| u_lastName ::= λ v, from_option trim v (pi_lastName input) |>
    <| u_avatarUrl ::= λ v, default v (pi_avatarUrl input) |>
    <| u_phone ::= λ v, default v (pi_phone input) |>
    <| u_timezone ::= λ v, from_option trim v (pi_timezone input) |>
    <| u_locale ::= λ v, from_option trim v (pi_locale input) |>.

Definition changeRole (rt : Rt) (nextRole : UserRole) (changedById changedByRole : option string)
    (u : UserEntity) : UserEntity :=
  let previousRole := role_string (u_role u) in
  let nextRoleValue := role_string nextRole in
  if bool_decide (previousRole = nextRoleValue) then u
  else
    u <| u_role := nextRole |>
      <| u_base ::= addDomainEvent (new_event rt 0
           (UserRoleChangedEvent (u_id u) (u_tenantId u) previousRole nextRoleValue
              changedById changedByRole)) |>.

Definition recordLogin (rt : Rt) (ipAddress : string) (u : UserEntity) : UserEntity :=
  u <| u_lastLoginAt := Some (now rt) |> <| u_lastLoginIp := Some ipAddress |>
    <| u_failedLoginAttempts := 0 |> <| u_lockedUntil := None |>.

Definition recordFailedLogin (rt : Rt) (u : UserEntity) : UserEntity :=
  let u := u <| u_failedLoginAttempts ::= λ n, n + 1 |> in
  if 5 <=? u_failedLoginAttempts u
  then u <| u_lockedUntil := Some (now rt + 15 * 60 * 1000) |>
  else u.

Definition isLocked (rt : Rt) (u : UserEntity) : bool :=
  match u_lockedUntil u with None => false | Some t => now rt <? t end.

Definition user_isActive (u : UserEntity) : bool := bool_decide (u_status u = UActive).
Definition isEmailVerified (u : UserEntity) : bool := bool_decide (is_Some (u_emailVerifiedAt u)).
Definition fullName (u : UserEntity) : string := u_firstName u ++ " " ++ u_lastName u.

(** ** RoleAssignmentPolicy *)

(** [RoleAssignmentActor] and [RoleAssignmentTarget]. *)
Record RoleParty := mkParty {
  rp_id : string;
  rp_role : string;
  rp_tenantId : option string;
}.

(** [RoleAssignmentDecision]: allowed, or refused with a reason. *)
Inductive Decision_ := Allowed | Refused (reason : string).

Definition TENANT_MANAGER_ASSIGNABLE : list string := ["AGENT"; "CUSTOMER"].

Definition role_assignment_evaluate (actor target : RoleParty) (newRole : string) : Decision_ :=
  if bool_decide (rp_id actor = rp_id target) then
    Refused "You cannot change your own role"
  else
    let grantsPlatformAdmin := bool_decide (newRole = "PLATFORM_ADMIN") in
    let targetIsPlatformAdmin := bool_decide (rp_role target = "PLATFORM_ADMIN") in
    if bool_decide (rp_role actor = "PLATFORM_ADMIN") then
      if grantsPlatformAdmin && truthy (rp_tenantId target) then
        Refused "Tenant users cannot be granted the PLATFORM_ADMIN role"
      else if negb grantsPlatformAdmin && negb (truthy (rp_tenantId target)) then
        Refused "Users without an organization can only hold the PLATFORM_ADMIN role"
      else Allowed
    else if bool_decide (rp_role actor = "TENANT_MANAGER") then
      if negb (truthy (rp_tenantId actor)) ||
         negb (bool_decide (rp_tenantId actor = rp_tenantId target)) then
        Refused "User does not belong to your organization"
      else if targetIsPlatformAdmin ||
              negb (includes TENANT_MANAGER_ASSIGNABLE (rp_role target)) then
        Refused "Only a platform administrator can change this user role"
      else if negb (includes TENANT_MANAGER_ASSIGNABLE newRole) then
        Refused "Tenant managers can only assign the AGENT or CUSTOMER roles"
      else Allowed
    else Refused "You do not have permission to change user roles".

(** ** Lemmas *)

Lemma recordFailedLogin_count rt u :
  u_failedLoginAttempts (recordFailedLogin rt u) = u_failedLoginAttempts u + 1.
Proof. unfold recordFailedLogin. destruct u; simpl. by case_match. Qed.

(** Failed logins, one after another, each at its own time. *)
Definition fail_logins (rts : list Rt) (u : UserEntity) : UserEntity :=
  foldl (λ u rt, recordFailedLogin rt u) u rts.

Lemma fail_logins_count rts u :
  u_failedLoginAttempts (fail_logins rts u) = u_failedLoginAttempts u + Z.of_nat (length rts).
Proof.
  unfold fail_logins. revert u. induction rts as [|rt rts IH]; intros u; simpl; [lia|].
  rewrite IH, recordFailedLogin_count. lia.
Qed.

(** ** Properties *)

(** A password is accepted exactly when it meets all five requirements, and
    a refusal lists every requirement that is missed under the [password] key. *)
Theorem password_create_spec s :
  match password_create s with
  | Ok p => p = s ∧ 8 <= str_length s ∧ str_exists is_upper s = true ∧
      str_exists is_lower s = true ∧ str_exists is_digit s = true ∧
      str_exists (λ c, negb (is_alnum c)) s = true
  | Err e => e = ValidationError "Password does not meet requirements"
                   [("password", password_errors s)] ∧ password_errors s ≠ []
  end.
Proof.
  unfold password_create, password_errors. destruct (Z.ltb_spec (str_length s) 8); [done|].
  destruct (str_exists is_upper s); [|done]. destruct (str_exists is_lower s); [|done].
  destruct (str_exists is_digit s); [|done].
  destruct (str_exists (λ c, negb (is_alnum c)) s); done.
Qed.

(** Who may change whose role.  Nobody changes their own role; a role change by
    anyone but a platform admin stays inside the actor's organization, between AGENT and
    CUSTOMER; PLATFORM_ADMIN is only ever granted by a platform admin, and only to users
    without an organization. *)
Theorem role_assignment_safe actor target newRole :
  role_assignment_evaluate actor target newRole = Allowed →
  rp_id actor ≠ rp_id target ∧
  (newRole = "PLATFORM_ADMIN" →
     rp_role actor = "PLATFORM_ADMIN" ∧ truthy (rp_tenantId target) = false) ∧
  (rp_role actor ≠ "PLATFORM_ADMIN" →
     rp_role actor = "TENANT_MANAGER" ∧ rp_tenantId actor = rp_tenantId target ∧
     truthy (rp_tenantId target) = true ∧
     rp_role target ∈ TENANT_MANAGER_ASSIGNABLE ∧ newRole ∈ TENANT_MANAGER_ASSIGNABLE).
Proof.
  unfold role_assignment_evaluate. case_bool_decide as Hid; [done|].
  case_bool_decide as Ha.
  - destruct (bool_decide (newRole = "PLATFORM_ADMIN")) eqn:Hn; simpl.
    + destruct (truthy (rp_tenantId target)) eqn:Ht; [done|]. done.
    + intros _. apply bool_decide_eq_false in Hn. done.
  - case_bool_decide as Hm; [|done].
    destruct (truthy (rp_tenantId actor)) eqn:Hta; simpl; [|done].
    case_bool_decide as Ht; simpl; [|done].
    destruct (includes TENANT_MANAGER_ASSIGNABLE (rp_role target)) eqn:Hr; simpl;
      [|by rewrite orb_true_r].
    rewrite orb_false_r. case_bool_decide; [done|].
    destruct (includes TENANT_MANAGER_ASSIGNABLE newRole) eqn:Hn; simpl; [|done].
    intros _. apply includes_true in Hr, Hn. rewrite <- Ht.
    split_and!; try done. intros ->. unfold TENANT_MANAGER_ASSIGNABLE in Hn. set_solver.
Qed.

Lemma role_assignment_safe_witness :
  let actor := mkParty "m" "TENANT_MANAGER" (Some "t1") in
  let target := mkParty "a" "AGENT" (Some "t1") in
  role_assignment_evaluate actor target "CUSTOMER" = Allowed ∧
  rp_id actor ≠ rp_id target.
Proof.
  split; [vm_compute; reflexivity|].
  apply (role_assignment_safe (mkParty "m" "TENANT_MANAGER" (Some "t1"))
           (mkParty "a" "AGENT" (Some "t1")) "CUSTOMER").
  vm_compute. reflexivity.
Defined.

(** Five failed logins in a row lock the account for 15 minutes after the last. *)
Theorem lockout_after_five rts rt u :
  0 <= u_failedLoginAttempts u → 4 <= Z.of_nat (length rts) →
  u_lockedUntil (fail_logins (rts ++ [rt]) u) = Some (now rt + 900000) ∧
  ∀ rt', isLocked rt' (fail_logins (rts ++ [rt]) u) = (now rt' <? now rt + 900000).
Proof.
  intros H0 Hl. unfold fail_logins. rewrite foldl_app; simpl.
  fold (fail_logins rts u). unfold isLocked.
  assert (Hu : u_lockedUntil (recordFailedLogin rt (fail_logins rts u))
               = Some (now rt + 900000)).
  { pose proof (fail_logins_count rts u) as Hc. unfold recordFailedLogin.
    destruct (fail_logins rts u); simpl in *.
    rewrite (proj2 (Z.leb_le _ _)) by lia. done. }
  by rewrite Hu.
Qed.

(** The policy never takes the PLATFORM_ADMIN role away from a user without an
    organization: every other role is refused for such a user. *)
Lemma tenantless_only_platform_admin actor target newRole :
  truthy (rp_tenantId target) = false →
  role_assignment_evaluate actor target newRole = Allowed →
  newRole = "PLATFORM_ADMIN".
Proof.
  unfold role_assignment_evaluate. intros Ht. rewrite Ht. case_bool_decide; [done|].
  case_bool_decide.
  - destruct (bool_decide (newRole = "PLATFORM_ADMIN")) eqn:Hn; [|done].
    by apply bool_decide_eq_true in Hn.
  - case_bool_decide; [|done].
    destruct (truthy (rp_tenantId actor)) eqn:Ha; simpl; [|done].
    case_bool_decide as He; simpl; [|done]. rewrite He in Ha. congruence.
Qed.

Definition demo_user : UserEntity :=
  user_new (mkRt 0 (λ _, "")) "u1"
    (mkUserProps None "ada@example.org" None "Ada" "L" AGENT UActive None None "UTC" "en"
       None None None 0 None None None).

Lemma lockout_after_five_witness :
  let rt t := mkRt t (λ _, "") in
  u_lockedUntil (fail_logins ([rt 1; rt 2; rt 3; rt 4] ++ [rt 5]) demo_user) = Some 900005.
Proof.
  apply (lockout_after_five [mkRt 1 (λ _, ""); mkRt 2 (λ _, ""); mkRt 3 (λ _, "");
           mkRt 4 (λ _, "")] (mkRt 5 (λ _, "")) demo_user); vm_compute; discriminate.
Defined.
