(* ===== verification/Permissions.v ===== *)
(** * Permissions and access policies

    [src/domain/policies]: the permission catalog with its class defaults and boundaries,
    and the row-level and action policies on tickets. *)

From Stdlib Require Import Ascii String QArith.
From S2P Require Import Prelude Js Errors Domain Ticket Tenant User.

#[local] Open Scope string_scope.
#[local] Open Scope Z_scope.

(** ** Catalog *)

Definition TENANT_PERMISSIONS : list string :=
  ["tickets:create"; "tickets:update"; "tickets:assign"; "tickets:escalate";
   "customers:read"; "customers:write"; "customers:delete"; "customers:risk";
   "ai:use"; "analytics:read"; "dashboard:read"; "search:use"; "reports:create";
   "users:read"; "users:manage"; "invitations:manage"; "roles:manage";
   "integrations:manage"; "audit:read"; "tenant:read"; "realtime:tenant"].

Definition PLATFORM_PERMISSIONS : list string :=
  ["platform:tenants"; "platform:analytics"; "platform:operations"; "platform:invitations"].

Definition ALL_PERMISSIONS : list string := TENANT_PERMISSIONS ++ PLATFORM_PERMISSIONS.

Definition DEFAULT_GRANTS (c : UserRole) : list string :=
  match c with
  | PLATFORM_ADMIN =>
      PLATFORM_PERMISSIONS ++ ["users:read"; "users:manage"; "audit:read"; "tenant:read"]
  | TENANT_MANAGER => TENANT_PERMISSIONS
  | AGENT =>
      ["tickets:create"; "tickets:update"; "tickets:escalate"; "customers:read";
       "customers:write"; "ai:use"; "dashboard:read"; "search:use"; "reports:create";
       "users:read"]
  | CUSTOMER => ["tickets:create"]
  end.

(** Permissions that only a tenant manager account may ever hold. *)
Definition MANAGER_ONLY : list string :=
  ["users:manage"; "invitations:manage"; "roles:manage"; "integrations:manage"].

Definition CLASS_BOUNDARY (c : UserRole) : list string :=
  match c with
  | PLATFORM_ADMIN => DEFAULT_GRANTS PLATFORM_ADMIN
  | TENANT_MANAGER => TENANT_PERMISSIONS
  | AGENT => filter (λ p, p ∉ MANAGER_ONLY) TENANT_PERMISSIONS
  | CUSTOMER => DEFAULT_GRANTS CUSTOMER
  end.

Definition isPermission (value : string) : bool := includes ALL_PERMISSIONS value.
Definition isTenantPermission (value : string) : bool := includes TENANT_PERMISSIONS value.

(** [value in DEFAULT_GRANTS]; the keys are the four account classes.  ([in] also finds
    the names every object inherits, such as [toString]; no account class is named so.) *)
Definition account_class (value : string) : option UserRole := of_string value.

(** [computeEffectivePermissions] *)
Definition computeEffectivePermissions (accountClass : string) (tenantGrants : list string)
  : gset string :=
  match account_class accountClass with
  | None => ∅
  | Some c =>
      foldl (λ effective grant,
               if includes (CLASS_BOUNDARY c) grant && isPermission grant
               then {[grant]} ∪ effective else effective)
        (list_to_set (DEFAULT_GRANTS c)) tenantGrants
  end.

(** [grantsOutsideBoundary] *)
Definition grantsOutsideBoundary (accountClass : string) (grants : list string) : list string :=
  let boundary := match account_class accountClass with
                  | Some c => CLASS_BOUNDARY c
                  | None => []
                  end in
  filter (λ g, includes boundary g = false) grants.

(** ** Ticket access *)

(** [TicketViewer] *)
Record TicketViewer := mkViewer {
  tv_id : string;
  tv_role : string;
  tv_customerId : option string;
}.

(** [TicketAccessPolicy.canView] on the [AccessibleTicket] fields of a ticket. *)
Definition canView (v : TicketViewer) (assignedAgentId : option string) (customerId : string)
  : bool :=
  if bool_decide (tv_role v = "TENANT_MANAGER") then true
  else if bool_decide (tv_role v = "AGENT") then
    bool_decide (assignedAgentId = Some (tv_id v))
  else if bool_decide (tv_role v = "CUSTOMER") then
    match tv_customerId v with
    | Some c => bool_decide (customerId = c)
    | None => false
    end
  else false.

(** ** TicketAssignmentPolicy, TicketEscalationPolicy, AiPolicy *)

Definition canAssign (t : TicketEntity) (assigneeRole : string) : bool :=
  ticket_isActive t && includes ["AGENT"; "TENANT_MANAGER"; "PLATFORM_ADMIN"] assigneeRole.

Definition needsReassignmentNotification (previousAgentId : option string) : bool :=
  truthy previousAgentId.

Definition canEscalate (t : TicketEntity) : bool := ticket_isActive t && negb (t_isEscalated t).

Definition shouldAutoEscalateFromSentiment (label : string) (confidence : Q) : bool :=
  bool_decide (label = "FRUSTRATED") && Qle_bool (8 # 10) confidence.

Definition shouldAutoEscalateFromUrgency (score threshold : Q) : bool :=
  Qle_bool threshold score.

Definition shouldProcess (featureEnabled tenantActive : bool) (contentLength : Z) : bool :=
  featureEnabled && tenantActive && (8 <=? contentLength).

Definition shouldPersistResult (confidence threshold : Q) : bool := Qle_bool threshold confidence.

(** ** Lemmas *)

Lemma effective_fold c grants acc p :
  p ∈ foldl (λ effective grant,
        if includes (CLASS_BOUNDARY c) grant && isPermission grant
        then {[grant]} ∪ effective else effective) (acc : gset string) grants ↔
  p ∈ acc ∨ (p ∈ grants ∧ p ∈ CLASS_BOUNDARY c ∧ p ∈ ALL_PERMISSIONS).
Proof.
  unfold isPermission. generalize (CLASS_BOUNDARY c), ALL_PERMISSIONS. intros B A.
  revert acc. induction grants as [|g grants IH]; intros acc; simpl; [set_solver|].
  rewrite IH, elem_of_cons. destruct (includes B g && includes A g) eqn:Hg.
  - bool_to_prop. rewrite !includes_true in *. set_solver.
  - apply andb_false_iff in Hg.
    split; [naive_solver|]. intros [?|([->|Hp] & Hb & Ha)]; [by left| |naive_solver].
    apply includes_true in Hb, Ha. naive_solver congruence.
Qed.

Lemma effective_spec c grants p :
  p ∈ computeEffectivePermissions (role_string c) grants ↔
  p ∈ DEFAULT_GRANTS c ∨ (p ∈ grants ∧ p ∈ CLASS_BOUNDARY c ∧ p ∈ ALL_PERMISSIONS).
Proof.
  unfold computeEffectivePermissions, account_class.
  assert (Hc : of_string (role_string c) = Some c) by by destruct c. rewrite Hc.
  rewrite effective_fold. by rewrite elem_of_list_to_set.
Qed.

Lemma defaults_within_boundary c p : p ∈ DEFAULT_GRANTS c → p ∈ CLASS_BOUNDARY c.
Proof.
  assert (H : ∀ c, forallb (includes (CLASS_BOUNDARY c)) (DEFAULT_GRANTS c) = true)
    by by intros [].
  intros Hp. specialize (H c). rewrite forallb_forall in H.
  apply includes_true, H. by apply list_elem_of_In.
Qed.

Lemma boundary_in_catalog c p : p ∈ CLASS_BOUNDARY c → p ∈ ALL_PERMISSIONS.
Proof.
  assert (H : ∀ c, forallb (includes ALL_PERMISSIONS) (CLASS_BOUNDARY c) = true)
    by by intros [].
  intros Hp. specialize (H c). rewrite forallb_forall in H.
  apply includes_true, H. by apply list_elem_of_In.
Qed.

#[export] Hint Resolve defaults_within_boundary boundary_in_catalog : omni.

(** The effective permissions of a class never leave its boundary. *)
Lemma effective_within_boundary c grants p :
  p ∈ computeEffectivePermissions (role_string c) grants → p ∈ CLASS_BOUNDARY c.
Proof. rewrite effective_spec. naive_solver eauto with omni. Qed.

(** ** Properties *)

(** The effective permissions are the union of the class defaults and the
    role grants clipped to the class boundary; an account that is not a platform admin
    never holds a platform permission, whatever its roles grant, and only
    tenant managers (and platform admins, for [users:manage]) hold management permissions. *)
Theorem effective_permissions_spec c grants p :
  (p ∈ computeEffectivePermissions (role_string c) grants ↔
     p ∈ DEFAULT_GRANTS c ∨ (p ∈ grants ∧ p ∈ CLASS_BOUNDARY c)) ∧
  (c ≠ PLATFORM_ADMIN → p ∈ PLATFORM_PERMISSIONS →
     p ∉ computeEffectivePermissions (role_string c) grants) ∧
  (c ≠ PLATFORM_ADMIN → c ≠ TENANT_MANAGER → p ∈ MANAGER_ONLY →
     p ∉ computeEffectivePermissions (role_string c) grants).
Proof.
  split_and!.
  - rewrite effective_spec. naive_solver eauto with omni.
  - intros Hc Hp He%effective_within_boundary.
    assert (H : ∀ c, c ≠ PLATFORM_ADMIN →
      forallb (λ p, negb (includes (CLASS_BOUNDARY c) p)) PLATFORM_PERMISSIONS = true)
      by by intros [].
    specialize (H c Hc). rewrite forallb_forall in H.
    apply list_elem_of_In, H in Hp. apply includes_true in He. by rewrite He in Hp.
  - intros Hc Hm Hp He%effective_within_boundary.
    assert (H : ∀ c, c ≠ PLATFORM_ADMIN → c ≠ TENANT_MANAGER →
      forallb (λ p, negb (includes (CLASS_BOUNDARY c) p)) MANAGER_ONLY = true)
      by by intros [].
    specialize (H c Hc Hm). rewrite forallb_forall in H.
    apply list_elem_of_In, H in Hp. apply includes_true in He. by rewrite He in Hp.
Qed.

(** A role can be given to a class exactly when none of its grants would be clipped. *)
Theorem outside_boundary_nil c grants :
  (∀ g, g ∈ grants → isPermission g = true) →
  grantsOutsideBoundary (role_string c) grants = [] ↔
  ∀ g, g ∈ grants → g ∈ computeEffectivePermissions (role_string c) grants.
Proof.
  intros Hperm. unfold grantsOutsideBoundary, account_class.
  assert (Hc : of_string (role_string c) = Some c) by by destruct c. rewrite Hc.
  split.
  - intros Hnil g Hg. rewrite effective_spec. right. split; [done|].
    destruct (includes (CLASS_BOUNDARY c) g) eqn:Hb.
    + apply includes_true in Hb. eauto with omni.
    + assert (Hin : g ∈ filter (λ g, includes (CLASS_BOUNDARY c) g = false) grants)
        by by apply list_elem_of_filter.
      rewrite Hnil in Hin. by apply not_elem_of_nil in Hin.
  - intros H. destruct (filter _ grants) as [|g l] eqn:Hf; [done|].
    assert (Hin : g ∈ filter (λ g, includes (CLASS_BOUNDARY c) g = false) grants)
      by (rewrite Hf; by left).
    apply list_elem_of_filter in Hin as [Hb Hg].
    specialize (H g Hg). apply effective_within_boundary, includes_true in H. congruence.
Qed.

(** Auto-escalation never fires below its thresholds or for another label. *)
Lemma escalation_label label confidence :
  shouldAutoEscalateFromSentiment label confidence = true →
  label = "FRUSTRATED" ∧ (8 # 10 <= confidence)%Q.
Proof.
  unfold shouldAutoEscalateFromSentiment. intros H. bool_to_prop. split; [done|].
  by apply Qle_bool_iff.
Qed.
