(* ===== verification/Notification.v ===== *)
(** * Notifications

    [src/domain/notification]: channels and the notification entity with its delivery
    state and retry budget. *)

From Stdlib Require Import Ascii String.
From S2P Require Import Prelude Js Errors Domain.

#[local] Open Scope string_scope.
#[local] Open Scope Z_scope.

Inductive NotificationChannel := IN_APP | EMAIL | WHATSAPP.

#[export] Instance NotificationChannel_eq_dec : EqDecision NotificationChannel.
Proof. solve_decision. Defined.

Definition channel_string (c : NotificationChannel) : string :=
  match c with IN_APP => "IN_APP" | EMAIL => "EMAIL" | WHATSAPP => "WHATSAPP" end.

#[export] Instance NotificationChannel_enum : Enum NotificationChannel :=
  Build_Enum NotificationChannel [IN_APP; EMAIL; WHATSAPP]
    channel_string ltac:(enum_complete) ltac:(enum_injective).

(** [NotificationChannel.create] *)
Definition channel_create (value : string) : result error NotificationChannel :=
  opt_or (PlainError ("Invalid notification channel: " ++ value))
    (of_string (toUpperCase (trim value))).

Definition isExternal (c : NotificationChannel) : bool := negb (bool_decide (c = IN_APP)).

Inductive NotificationStatus := NPending | NSent | NDelivered | NFailed | NRead.

#[export] Instance NotificationStatus_eq_dec : EqDecision NotificationStatus.
Proof. solve_decision. Defined.

Definition notification_status_string (s : NotificationStatus) : string :=
  match s with
  | NPending => "PENDING"
  | NSent => "SENT"
  | NDelivered => "DELIVERED"
  | NFailed => "FAILED"
  | NRead => "READ"
  end.

#[export] Instance NotificationStatus_enum : Enum NotificationStatus :=
  Build_Enum NotificationStatus [NPending; NSent; NDelivered; NFailed; NRead]
    notification_status_string ltac:(enum_complete) ltac:(enum_injective).

Record NotificationProps := mkNotificationProps {
  op_tenantId : string;
  op_userId : option string;
  op_customerId : option string;
  op_ticketId : option string;
  op_channel : NotificationChannel;
  op_status : string;
  op_subject : option string;
  op_content : string;
  op_metadata : list (string * Json);
  op_scheduledAt : option Z;
  op_sentAt : option Z;
  op_deliveredAt : option Z;
  op_failedAt : option Z;
  op_failReason : option string;
  op_retryCount : Z;
  op_maxRetries : Z;
  op_readAt : option Z;
  op_createdAt : option Z;
}.

Record NotificationEntity := mkNotification {
  o_base : Base;
  o_tenantId : string;
  o_userId : option string;
  o_customerId : option string;
  o_ticketId : option string;
  o_channel : NotificationChannel;
  o_status : NotificationStatus;
  o_subject : option string;
  o_content : string;
  o_metadata : list (string * Json);
  o_scheduledAt : option Z;
  o_sentAt : option Z;
  o_deliveredAt : option Z;
  o_failedAt : option Z;
  o_failReason : option string;
  o_retryCount : Z;
  o_maxRetries : Z;
  o_readAt : option Z;
}.
#[export] Instance NotificationEntity_eta : Eta NotificationEntity := λ o,
  mkNotification (o_base o) (o_tenantId o) (o_userId o) (o_customerId o) (o_ticketId o)
    (o_channel o) (o_status o) (o_subject o) (o_content o) (o_metadata o)
    (o_scheduledAt o) (o_sentAt o) (o_deliveredAt o) (o_failedAt o) (o_failReason o)
    (o_retryCount o) (o_maxRetries o) (o_readAt o).

(** The constructor: an unknown status falls back to PENDING. *)
Definition notification_new (rt : Rt) (i : string) (p : NotificationProps)
  : NotificationEntity :=
  mkNotification (new_base rt i (op_createdAt p) None)
    (op_tenantId p) (op_userId p) (op_customerId p) (op_ticketId p) (op_channel p)
    (default NPending (of_string (op_status p))) (op_subject p) (op_content p)
    (op_metadata p) (op_scheduledAt p) (op_sentAt p) (op_deliveredAt p) (op_failedAt p)
    (op_failReason p) (op_retryCount p) (op_maxRetries p) (op_readAt p).

Definition touch (at_ : Z) (o : NotificationEntity) : NotificationEntity :=
  o <| o_base ::= λ b, b <| b_updatedAt := at_ |> |>.

Definition markAsSent (sentAt : Z) (o : NotificationEntity) : NotificationEntity :=
  touch sentAt (o <| o_status := NSent |> <| o_sentAt := Some sentAt |>).

Definition markAsDelivered (deliveredAt : Z) (o : NotificationEntity) : NotificationEntity :=
  touch deliveredAt (o <| o_status := NDelivered |> <| o_deliveredAt := Some deliveredAt |>).

Definition markAsFailed (reason : string) (failedAt : Z) (o : NotificationEntity)
  : NotificationEntity :=
  touch failedAt (o <| o_status := NFailed |> <| o_failedAt := Some failedAt |>
                    <| o_failReason := Some reason |> <| o_retryCount ::= λ n, n + 1 |>).

Definition markAsRead (readAt : Z) (o : NotificationEntity) : NotificationEntity :=
  touch readAt (o <| o_status := NRead |> <| o_readAt := Some readAt |>).

Definition schedule (scheduledAt : Z) (o : NotificationEntity) : NotificationEntity :=
  touch scheduledAt (o <| o_scheduledAt := Some scheduledAt |> <| o_status := NPending |>).

Definition canRetry (o : NotificationEntity) : bool :=
  bool_decide (o_status o = NFailed) && (o_retryCount o <? o_maxRetries o).

Definition isRead (o : NotificationEntity) : bool := bool_decide (is_Some (o_readAt o)).

(** ** Properties *)

(** A notification that has just failed is retried exactly while its failures are fewer
    than its maximum. *)
Lemma canRetry_failed reason at_ o :
  canRetry (markAsFailed reason at_ o) = (o_retryCount o + 1 <? o_maxRetries o).
Proof. by destruct o. Qed.
