(* ===== verification/Schema.v ===== *)
(** * The rows of the database and the state a request runs in

    The models of [prisma/schema.prisma] the modelled components read and write, one
    record per model (the primary key is the key of the table), and [World]: the
    database, the clock, the identifiers still to be drawn and the calls made to the
    queues. *)

From Stdlib Require Import String QArith.
From S2P Require Import Prelude Store Js Errors Domain Ticket Customer Tenant User Notification.

#[local] Open Scope string_scope.
#[local] Open Scope Z_scope.

(** ** Rows *)

(** [model OutboxEvent] *)
Inductive OutboxStatus :=
  OPending | OProcessing | OProcessed | OFailed | ODeadLetter | OCancelled.

#[export] Instance OutboxStatus_eq_dec : EqDecision OutboxStatus.
Proof. solve_decision. Defined.

Record OutboxRow := mkOutboxRow {
  ob_tenantId : option string;
  ob_aggregateType : option string;
  ob_aggregateId : option string;
  ob_eventType : string;
  ob_eventId : string;
  ob_occurredAt : Z;
  ob_payload : list (string * Json);
  ob_status : OutboxStatus;
  ob_attempts : Z;
  ob_maxAttempts : Z;
  ob_availableAt : Z;
  ob_lockedAt : option Z;
  ob_lockedBy : option string;
  ob_processedAt : option Z;
  ob_failedAt : option Z;
  ob_deadLetterReason : option string;
  ob_replayOfId : option string;
  ob_createdAt : Z;
  ob_updatedAt : Z;
}.
#[export] Instance OutboxRow_eta : Eta OutboxRow := λ r,
  mkOutboxRow (ob_tenantId r) (ob_aggregateType r) (ob_aggregateId r) (ob_eventType r)
    (ob_eventId r) (ob_occurredAt r) (ob_payload r) (ob_status r) (ob_attempts r)
    (ob_maxAttempts r) (ob_availableAt r) (ob_lockedAt r) (ob_lockedBy r)
    (ob_processedAt r) (ob_failedAt r) (ob_deadLetterReason r) (ob_replayOfId r)
    (ob_createdAt r) (ob_updatedAt r).

(** [model User] *)
Record UserRow := mkUserRow {
  us_tenantId : option string;
  us_email : string;
  us_passwordHash : option string;
  us_firstName : string;
  us_lastName : string;
  us_role : UserRole;
  us_status : UserStatus;
  us_avatarUrl : option string;
  us_phone : option string;
  us_timezone : string;
  us_locale : string;
  us_emailVerifiedAt : option Z;
  us_lastLoginAt : option Z;
  us_lastLoginIp : option string;
  us_failedLoginAttempts : Z;
  us_lockedUntil : option Z;
  us_metadata : Json;
  us_createdAt : Z;
  us_updatedAt : Z;
}.
#[export] Instance UserRow_eta : Eta UserRow := λ r,
  mkUserRow (us_tenantId r) (us_email r) (us_passwordHash r) (us_firstName r)
    (us_lastName r) (us_role r) (us_status r) (us_avatarUrl r) (us_phone r)
    (us_timezone r) (us_locale r) (us_emailVerifiedAt r) (us_lastLoginAt r)
    (us_lastLoginIp r) (us_failedLoginAttempts r) (us_lockedUntil r) (us_metadata r)
    (us_createdAt r) (us_updatedAt r).

(** [model RefreshToken] *)
Record RefreshTokenRow := mkRefreshTokenRow {
  rt_userId : string;
  rt_tokenHash : string;
  rt_familyId : string;
  rt_isRevoked : bool;
  rt_revokedAt : option Z;
  rt_revokedReason : option string;
  rt_expiresAt : Z;
  rt_ipAddress : option string;
  rt_userAgent : option string;
  rt_createdAt : Z;
}.
#[export] Instance RefreshTokenRow_eta : Eta RefreshTokenRow := λ r,
  mkRefreshTokenRow (rt_userId r) (rt_tokenHash r) (rt_familyId r) (rt_isRevoked r)
    (rt_revokedAt r) (rt_revokedReason r) (rt_expiresAt r) (rt_ipAddress r)
    (rt_userAgent r) (rt_createdAt r).

(** [model PasswordResetToken] and [model EmailVerifyToken] *)
Record OneTimeTokenRow := mkOneTimeTokenRow {
  ot_userId : string;
  ot_tokenHash : string;
  ot_expiresAt : Z;
  ot_usedAt : option Z;
  ot_createdAt : Z;
}.
#[export] Instance OneTimeTokenRow_eta : Eta OneTimeTokenRow := λ r,
  mkOneTimeTokenRow (ot_userId r) (ot_tokenHash r) (ot_expiresAt r) (ot_usedAt r)
    (ot_createdAt r).

(** [model Customer] *)
Record CustomerRow := mkCustomerRow {
  cu_tenantId : string;
  cu_assignedAgentId : option string;
  cu_fullName : string;
  cu_email : string;
  cu_phone : option string;
  cu_company : option string;
  cu_notes : option string;
  cu_status : CustomerStatus;
  cu_riskScore : option Z;
  cu_riskLabel : option string;
  cu_metadata : list (string * Json);
  cu_externalId : option string;
  cu_lastActivityAt : option Z;
  cu_createdAt : Z;
  cu_updatedAt : Z;
}.
#[export] Instance CustomerRow_eta : Eta CustomerRow := λ r,
  mkCustomerRow (cu_tenantId r) (cu_assignedAgentId r) (cu_fullName r) (cu_email r)
    (cu_phone r) (cu_company r) (cu_notes r) (cu_status r) (cu_riskScore r)
    (cu_riskLabel r) (cu_metadata r) (cu_externalId r) (cu_lastActivityAt r)
    (cu_createdAt r) (cu_updatedAt r).

(** [enum TicketCategory] of the database; it is not the enumeration of the value object
    [TicketCategory]. *)
Inductive PrismaTicketCategory :=
| P_BILLING | P_TECHNICAL | P_ACCOUNT | P_REFUND | P_SHIPPING | P_GENERAL | P_OTHER.

Definition prisma_category_string (c : PrismaTicketCategory) : string :=
  match c with
  | P_BILLING => "BILLING" | P_TECHNICAL => "TECHNICAL" | P_ACCOUNT => "ACCOUNT"
  | P_REFUND => "REFUND" | P_SHIPPING => "SHIPPING" | P_GENERAL => "GENERAL"
  | P_OTHER => "OTHER"
  end.

#[export] Instance PrismaTicketCategory_eq_dec : EqDecision PrismaTicketCategory.
Proof. solve_decision. Defined.

#[export] Instance PrismaTicketCategory_enum : Enum PrismaTicketCategory :=
  Build_Enum PrismaTicketCategory
    [P_BILLING; P_TECHNICAL; P_ACCOUNT; P_REFUND; P_SHIPPING; P_GENERAL; P_OTHER]
    prisma_category_string ltac:(enum_complete) ltac:(enum_injective).

(** [model Ticket] *)
Record TicketRow := mkTicketRow {
  ti_tenantId : string;
  ti_ticketNumber : Z;
  ti_customerId : string;
  ti_assignedAgentId : option string;
  ti_createdById : string;
  ti_title : string;
  ti_description : string;
  ti_status : TicketStatus;
  ti_priority : TicketPriority;
  ti_category : string;
  ti_tags : list string;
  ti_source : string;
  ti_isEscalated : bool;
  ti_escalatedAt : option Z;
  ti_escalatedReason : option string;
  ti_resolvedAt : option Z;
  ti_closedAt : option Z;
  ti_firstResponseAt : option Z;
  ti_dueAt : option Z;
  ti_slaBreached : bool;
  ti_metadata : list (string * Json);
  ti_externalRef : option string;
  ti_createdAt : Z;
  ti_updatedAt : Z;
}.
#[export] Instance TicketRow_eta : Eta TicketRow := λ r,
  mkTicketRow (ti_tenantId r) (ti_ticketNumber r) (ti_customerId r)
    (ti_assignedAgentId r) (ti_createdById r) (ti_title r) (ti_description r)
    (ti_status r) (ti_priority r) (ti_category r) (ti_tags r) (ti_source r)
    (ti_isEscalated r) (ti_escalatedAt r) (ti_escalatedReason r) (ti_resolvedAt r)
    (ti_closedAt r) (ti_firstResponseAt r) (ti_dueAt r) (ti_slaBreached r)
    (ti_metadata r) (ti_externalRef r) (ti_createdAt r) (ti_updatedAt r).

(** [model TicketComment] *)
Record CommentRow := mkCommentRow {
  co_tenantId : string;
  co_ticketId : string;
  co_authorId : string;
  co_content : string;
  co_type : CommentType;
  co_isAiDraft : bool;
  co_aiDraftId : option string;
  co_editedAt : option Z;
  co_metadata : list (string * Json);
  co_createdAt : Z;
  co_updatedAt : Z;
}.
#[export] Instance CommentRow_eta : Eta CommentRow := λ r,
  mkCommentRow (co_tenantId r) (co_ticketId r) (co_authorId r) (co_content r)
    (co_type r) (co_isAiDraft r) (co_aiDraftId r) (co_editedAt r) (co_metadata r)
    (co_createdAt r) (co_updatedAt r).

(** [model CustomerLink]; its key is the user. *)
Record CustomerLinkRow := mkCustomerLinkRow {
  cl_customerId : string;
  cl_tenantId : string;
}.

(** [model ActivityLog] and [model AuditLog] *)
Record ActivityRow := mkActivityRow {
  ac_tenantId : string;
  ac_ticketId : option string;
  ac_customerId : option string;
  ac_actorId : option string;
  ac_actorRole : option string;
  ac_eventType : string;
  ac_description : string;
  ac_oldValue : option (list (string * Json));
  ac_newValue : option (list (string * Json));
  ac_occurredAt : Z;
}.

#[export] Instance ActivityRow_eta : Eta ActivityRow := λ r,
  mkActivityRow (ac_tenantId r) (ac_ticketId r) (ac_customerId r) (ac_actorId r) (ac_actorRole r)
    (ac_eventType r) (ac_description r) (ac_oldValue r) (ac_newValue r) (ac_occurredAt r).

Record AuditRow := mkAuditRow {
  au_tenantId : option string;
  au_actorId : option string;
  au_actorRole : option string;
  au_action : string;
  au_resource : string;
  au_resourceId : option string;
  au_oldValue : option (list (string * Json));
  au_newValue : option (list (string * Json));
  au_ipAddress : option string;
  au_userAgent : option string;
  au_metadata : list (string * Json);
  au_occurredAt : Z;
}.

(** [model OAuthAccount] *)
Record OAuthRow := mkOAuthRow {
  oa_userId : string;
  oa_provider : string;
  oa_providerUid : string;
  oa_accessToken : option string;
  oa_refreshToken : option string;
  oa_expiresAt : option Z;
  oa_profile : Json;
  oa_createdAt : Z;
  oa_updatedAt : Z;
}.
#[export] Instance OAuthRow_eta : Eta OAuthRow := λ r,
  mkOAuthRow (oa_userId r) (oa_provider r) (oa_providerUid r) (oa_accessToken r)
    (oa_refreshToken r) (oa_expiresAt r) (oa_profile r) (oa_createdAt r)
    (oa_updatedAt r).

(** [model Role] *)
Record RoleRow := mkRoleRow {
  ro_tenantId : option string;
  ro_name : string;
  ro_displayName : string;
  ro_description : option string;
  ro_isSystem : bool;
  ro_createdAt : Z;
  ro_updatedAt : Z;
}.
#[export] Instance RoleRow_eta : Eta RoleRow := λ r,
  mkRoleRow (ro_tenantId r) (ro_name r) (ro_displayName r) (ro_description r)
    (ro_isSystem r) (ro_createdAt r) (ro_updatedAt r).

(** [model Permission] *)
Record PermissionRow := mkPermissionRow {
  pe_resource : string;
  pe_action : string;
  pe_description : option string;
  pe_createdAt : Z;
}.
#[export] Instance PermissionRow_eta : Eta PermissionRow := λ r,
  mkPermissionRow (pe_resource r) (pe_action r) (pe_description r) (pe_createdAt r).

(** [model RolePermission] *)
Record RolePermissionRow := mkRolePermissionRow {
  rp_roleId : string;
  rp_permissionId : string;
  rp_createdAt : Z;
}.
#[export] Instance RolePermissionRow_eta : Eta RolePermissionRow := λ r,
  mkRolePermissionRow (rp_roleId r) (rp_permissionId r) (rp_createdAt r).

(** [model UserRoleMembership] *)
Record MembershipRow := mkMembershipRow {
  me_userId : string;
  me_roleId : string;
  me_tenantId : string;
  me_assignedById : option string;
  me_createdAt : Z;
}.
#[export] Instance MembershipRow_eta : Eta MembershipRow := λ r,
  mkMembershipRow (me_userId r) (me_roleId r) (me_tenantId r) (me_assignedById r)
    (me_createdAt r).

(** [model Invitation] *)
Record InvitationRow := mkInvitationRow {
  iv_tenantId : string;
  iv_email : string;
  iv_role : UserRole;
  iv_customerId : option string;
  iv_tokenHash : string;
  iv_invitedById : string;
  iv_expiresAt : Z;
  iv_acceptedAt : option Z;
  iv_revokedAt : option Z;
  iv_createdAt : Z;
}.
#[export] Instance InvitationRow_eta : Eta InvitationRow := λ r,
  mkInvitationRow (iv_tenantId r) (iv_email r) (iv_role r) (iv_customerId r)
    (iv_tokenHash r) (iv_invitedById r) (iv_expiresAt r) (iv_acceptedAt r)
    (iv_revokedAt r) (iv_createdAt r).

(** [model Notification] *)
Record NotificationRow := mkNotificationRow {
  nt_tenantId : string;
  nt_userId : option string;
  nt_customerId : option string;
  nt_ticketId : option string;
  nt_channel : NotificationChannel;
  nt_status : NotificationStatus;
  nt_subject : option string;
  nt_content : string;
  nt_metadata : list (string * Json);
  nt_scheduledAt : option Z;
  nt_sentAt : option Z;
  nt_deliveredAt : option Z;
  nt_failedAt : option Z;
  nt_failReason : option string;
  nt_retryCount : Z;
  nt_maxRetries : Z;
  nt_readAt : option Z;
  nt_createdAt : Z;
}.
#[export] Instance NotificationRow_eta : Eta NotificationRow := λ r,
  mkNotificationRow (nt_tenantId r) (nt_userId r) (nt_customerId r) (nt_ticketId r)
    (nt_channel r) (nt_status r) (nt_subject r) (nt_content r) (nt_metadata r)
    (nt_scheduledAt r) (nt_sentAt r) (nt_deliveredAt r) (nt_failedAt r)
    (nt_failReason r) (nt_retryCount r) (nt_maxRetries r) (nt_readAt r) (nt_createdAt r).

(** [model WebhookEvent] *)
Record WebhookRow := mkWebhookRow {
  we_tenantId : option string;
  we_eventType : string;
  we_provider : string;
  we_payload : Json;
  we_signature : option string;
  we_processed : bool;
  we_processedAt : option Z;
  we_error : option string;
  we_retryCount : Z;
  we_status : string;
  we_lockedAt : option Z;
  we_lockedBy : option string;
  we_replayOfId : option string;
  we_createdAt : Z;
}.
#[export] Instance WebhookRow_eta : Eta WebhookRow := λ r,
  mkWebhookRow (we_tenantId r) (we_eventType r) (we_provider r) (we_payload r)
    (we_signature r) (we_processed r) (we_processedAt r) (we_error r) (we_retryCount r)
    (we_status r) (we_lockedAt r) (we_lockedBy r) (we_replayOfId r) (we_createdAt r).

(** [model OperationalIntervention] *)
Record InterventionRow := mkInterventionRow {
  in_targetType : string;
  in_targetId : option string;
  in_action : string;
  in_reason : string;
  in_actorId : string;
  in_resultId : option string;
  in_outcome : string;
  in_error : option string;
  in_createdAt : Z;
}.
#[export] Instance InterventionRow_eta : Eta InterventionRow := λ r,
  mkInterventionRow (in_targetType r) (in_targetId r) (in_action r) (in_reason r)
    (in_actorId r) (in_resultId r) (in_outcome r) (in_error r) (in_createdAt r).

(** [OperationalSettings] *)
Record OperationalSettings := mkSettings {
  outboxPaused : bool;
  retryMaxAttempts : Z;
  outboxRetentionDays : Z;
  webhookRetentionDays : Z;
}.

(** [model OperationalSetting]; its key is the setting's name. *)
Record SettingRow := mkSettingRow {
  se_value : Json;
  se_updatedById : option string;
  se_updatedAt : Z;
}.
#[export] Instance SettingRow_eta : Eta SettingRow := λ r,
  mkSettingRow (se_value r) (se_updatedById r) (se_updatedAt r).

(** [model TenantIntegration] *)
Record IntegrationRow := mkIntegrationRow {
  ig_tenantId : string;
  ig_provider : string;
  ig_isEnabled : bool;
  ig_config : Json;
  ig_webhookUrl : option string;
  ig_webhookSecret : option string;
  ig_lastSyncAt : option Z;
  ig_metadata : Json;
  ig_createdAt : Z;
  ig_updatedAt : Z;
}.
#[export] Instance IntegrationRow_eta : Eta IntegrationRow := λ r,
  mkIntegrationRow (ig_tenantId r) (ig_provider r) (ig_isEnabled r) (ig_config r)
    (ig_webhookUrl r) (ig_webhookSecret r) (ig_lastSyncAt r) (ig_metadata r)
    (ig_createdAt r) (ig_updatedAt r).

(** [model ReportJob] *)
Record ReportRow := mkReportRow {
  rj_tenantId : string;
  rj_requestedById : string;
  rj_kind : string;
  rj_subject : string;
  rj_format : string;
  rj_filters : list (string * string);
  rj_status : string;
  rj_startedAt : option Z;
  rj_storagePath : option string;
  rj_rowCount : option Z;
  rj_error : option string;
  rj_expiresAt : option Z;
  rj_createdAt : Z;
  rj_updatedAt : Z;
}.
#[export] Instance ReportRow_eta : Eta ReportRow := λ r,
  mkReportRow (rj_tenantId r) (rj_requestedById r) (rj_kind r) (rj_subject r) (rj_format r)
    (rj_filters r) (rj_status r) (rj_startedAt r) (rj_storagePath r) (rj_rowCount r)
    (rj_error r) (rj_expiresAt r) (rj_createdAt r) (rj_updatedAt r).

(** [model Attachment] *)
Record AttachmentRow := mkAttachmentRow {
  at_tenantId : string;
  at_ticketId : option string;
  at_commentId : option string;
  at_uploadedById : string;
  at_filename : string;
  at_originalName : string;
  at_mimeType : string;
  at_sizeBytes : Z;
  at_storageProvider : string;
  at_storagePath : string;
  at_status : string;
  at_createdAt : Z;
}.
#[export] Instance AttachmentRow_eta : Eta AttachmentRow := λ r,
  mkAttachmentRow (at_tenantId r) (at_ticketId r) (at_commentId r) (at_uploadedById r)
    (at_filename r) (at_originalName r) (at_mimeType r) (at_sizeBytes r)
    (at_storageProvider r) (at_storagePath r) (at_status r) (at_createdAt r).

(** [model AIResult] *)
Record AIResultRow := mkAIResultRow {
  ar_tenantId : string;
  ar_ticketId : option string;
  ar_customerId : option string;
  ar_type : string;
  ar_provider : string;
  ar_model : string;
  ar_result : Json;
  ar_confidence : option Q;
  ar_processingMs : option Z;
  ar_wasAccepted : option bool;
  ar_acceptedAt : option Z;
  ar_acceptedById : option string;
  ar_createdAt : Z;
}.
#[export] Instance AIResultRow_eta : Eta AIResultRow := λ r,
  mkAIResultRow (ar_tenantId r) (ar_ticketId r) (ar_customerId r) (ar_type r)
    (ar_provider r) (ar_model r) (ar_result r) (ar_confidence r) (ar_processingMs r)
    (ar_wasAccepted r) (ar_acceptedAt r) (ar_acceptedById r) (ar_createdAt r).

(** [model AnalyticsSnapshot]; the columns without a writer keep their defaults. *)
Record SnapshotRow := mkSnapshotRow {
  sn_tenantId : string;
  sn_snapshotDate : Z;
  sn_totalTickets : Z;
  sn_openTickets : Z;
  sn_resolvedTickets : Z;
  sn_closedTickets : Z;
  sn_escalatedTickets : Z;
  sn_avgResolutionTimeMs : option Z;
  sn_slaBreachedCount : Z;
  sn_criticalTickets : Z;
  sn_highTickets : Z;
  sn_mediumTickets : Z;
  sn_lowTickets : Z;
  sn_totalCustomers : Z;
  sn_activeAgents : Z;
  sn_categoryDistribution : list (string * Z);
  sn_createdAt : Z;
}.

(** A file in the storage of attachments and reports. *)
Record StoredFile := mkStoredFile {
  sf_content : string;
  sf_mimeType : string;
  sf_tenantId : string;
}.

(** ** The database *)

Section world.
Context (Tbl : Type → Type).

Record Db := mkDb {
  d_outbox : Tbl OutboxRow;
  d_tenants : Tbl TenantRecord;
  d_users : Tbl UserRow;
  d_refreshTokens : Tbl RefreshTokenRow;
  d_resetTokens : Tbl OneTimeTokenRow;
  d_verifyTokens : Tbl OneTimeTokenRow;
  d_customers : Tbl CustomerRow;
  d_customerLinks : Tbl CustomerLinkRow;
  d_tickets : Tbl TicketRow;
  d_sequences : Tbl Z;
  d_comments : Tbl CommentRow;
  d_activities : Tbl ActivityRow;
  d_audits : Tbl AuditRow;
  d_oauthAccounts : Tbl OAuthRow;
  d_roles : Tbl RoleRow;
  d_permissions : Tbl PermissionRow;
  d_rolePermissions : Tbl RolePermissionRow;
  d_memberships : Tbl MembershipRow;
  d_invitations : Tbl InvitationRow;
  d_notifications : Tbl NotificationRow;
  d_webhookEvents : Tbl WebhookRow;
  d_interventions : Tbl InterventionRow;
  d_settings : Tbl SettingRow;
  d_integrations : Tbl IntegrationRow;
  d_reports : Tbl ReportRow;
  d_attachments : Tbl AttachmentRow;
  d_aiResults : Tbl AIResultRow;
  d_snapshots : Tbl SnapshotRow;
}.

(** Who a realtime event is sent to. *)
Inductive PushTarget := ToUser (userId : string) | ToTenant (tenantId : string)
| ToTicket (ticketId : string).

(** A job added to a BullMQ queue, a call to the cache, or a realtime event. *)
Inductive Effect :=
| AiJob (jobType tenantId : string) (ticketId customerId : option string) (content : string)
    (metadata : list (string * Json)) (priority : Z)
| EmailJob (priority : Z) (tenantId : option string) (to subject html : string)
| Push (target : PushTarget) (event : string) (data : list (string * Json))
| CacheDelete (pattern : string).

(** [w_uuid] are the random values still to come, of which [w_draws] were used;
    [w_inTransaction] tells whether an asynchronous context carries a transaction
    client; [w_queues] tells whether the queues accept jobs; [w_settings] is the cache of
    [OperationalSettingsService] in this process, with the time it was filled; [w_files] are
    the files in storage. *)
Record World := mkWorld {
  w_db : Db;
  w_now : Z;
  w_uuid : nat → string;
  w_draws : nat;
  w_inTransaction : bool;
  w_queues : bool;
  w_effects : list Effect;
  w_settings : option (OperationalSettings * Z);
  w_files : gmap string StoredFile;
}.
End world.

Arguments mkDb {Tbl}. Arguments mkWorld {Tbl}.
Arguments d_outbox {Tbl}. Arguments d_tenants {Tbl}. Arguments d_users {Tbl}.
Arguments d_refreshTokens {Tbl}. Arguments d_resetTokens {Tbl}.
Arguments d_verifyTokens {Tbl}. Arguments d_customers {Tbl}.
Arguments d_customerLinks {Tbl}. Arguments d_tickets {Tbl}. Arguments d_sequences {Tbl}.
Arguments d_comments {Tbl}. Arguments d_activities {Tbl}. Arguments d_audits {Tbl}.
Arguments d_oauthAccounts {Tbl}.
Arguments d_roles {Tbl}.
Arguments d_permissions {Tbl}.
Arguments d_rolePermissions {Tbl}.
Arguments d_memberships {Tbl}.
Arguments d_invitations {Tbl}.
Arguments d_notifications {Tbl}.
Arguments d_webhookEvents {Tbl}.
Arguments d_interventions {Tbl}.
Arguments d_settings {Tbl}.
Arguments d_integrations {Tbl}.
Arguments d_reports {Tbl}. Arguments d_attachments {Tbl}. Arguments d_aiResults {Tbl}.
Arguments d_snapshots {Tbl}.
Arguments w_db {Tbl}. Arguments w_now {Tbl}. Arguments w_uuid {Tbl}.
Arguments w_draws {Tbl}. Arguments w_inTransaction {Tbl}. Arguments w_queues {Tbl}.
Arguments w_effects {Tbl}. Arguments w_settings {Tbl}. Arguments w_files {Tbl}.

#[export] Instance Db_eta Tbl : Eta (Db Tbl) := λ d,
  mkDb (d_outbox d) (d_tenants d) (d_users d) (d_refreshTokens d) (d_resetTokens d)
    (d_verifyTokens d) (d_customers d) (d_customerLinks d) (d_tickets d) (d_sequences d)
    (d_comments d) (d_activities d) (d_audits d) (d_oauthAccounts d) (d_roles d)
    (d_permissions d) (d_rolePermissions d) (d_memberships d) (d_invitations d)
    (d_notifications d) (d_webhookEvents d) (d_interventions d) (d_settings d)
    (d_integrations d) (d_reports d) (d_attachments d) (d_aiResults d)
    (d_snapshots d).
#[export] Instance World_eta Tbl : Eta (World Tbl) := λ w,
  mkWorld (w_db w) (w_now w) (w_uuid w) (w_draws w) (w_inTransaction w) (w_queues w)
    (w_effects w) (w_settings w) (w_files w).
