(* ===== verification/World.v ===== *)
(** * Database calls, transactions and queues as computations

    [W A] is an asynchronous function of the program that returns an [A]: it reads and
    changes the [World] and may throw.  This file has one definition per kind of client
    call, [TransactionManager.run] ([src/infrastructure/database]), and how each of them
    changes a table. *)

From stdpp Require Import pretty.
From Stdlib Require Import String.
From S2P Require Import Prelude Store Js Errors Domain Schema.

#[local] Open Scope string_scope.
#[local] Set Default Proof Using "Type*".

Section client.
Context {Tbl : Type → Type} `{!Prisma Tbl}.

Definition W (A : Type) : Type := M (World Tbl) error A.

(** [new Date()] and [Date.now()] *)
Definition get_now : W Z := gets w_now.

(** The runtime of a synchronous call that draws [n] identifiers. *)
Definition draw_rt (n : nat) : W Rt := λ w,
  (Ok (mkRt (w_now w) (λ k, w_uuid w (w_draws w + k)%nat)),
   w <| w_draws ::= Nat.add n |>).

(** [crypto.randomUUID()], [crypto.randomBytes(32).toString('hex')] *)
Definition draw : W string := rt ← draw_rt 1; mret (uuid rt 0%nat).

(** ** Client calls on the table [table] *)

Section table.
Context {R : Type} (table : Db Tbl → Tbl R) {U : Update table}.

Definition find_unique (i : string) : W (option R) :=
  gets (λ w, findUnique i (table (w_db w))).

Definition find_many (where_ : string → R → bool) (orderBy : string * R → Z)
    (take_ : option nat) : W (list (string * R)) :=
  gets (λ w, findMany where_ orderBy take_ (table (w_db w))).

Definition find_first (where_ : string → R → bool) : W (option (string * R)) :=
  l ← find_many where_ (λ _, 0) (Some 1%nat); mret (head l).

Definition count (where_ : string → R → bool) : W Z :=
  l ← find_many where_ (λ _, 0) None; mret (Z.of_nat (length l)).

Definition put_table (t : Tbl R) : W unit :=
  modify (λ w, w <| w_db ::= λ d, d <| table := t |> |>).

Definition update_many (where_ : string → R → bool) (data : R → R) : W Z := λ w,
  let '(n, t) := updateMany where_ data (table (w_db w)) in
  (Ok n, w <| w_db ::= λ d, d <| table := t |> |>).

(** [updateMany] on a table with a partial unique index on [key]: P2002 when two rows would
    have the same key. *)
Definition update_many_unique {K} `{!EqDecision K} (key : R → option K)
    (where_ : string → R → bool) (data : R → R) : W Z := λ w,
  let '(n, t) := updateMany where_ data (table (w_db w)) in
  if bool_decide (NoDup (omap (λ kr, key kr.2) (findMany (λ _ _, true) (λ _, 0) None t)))
  then (Ok n, w <| w_db ::= λ d, d <| table := t |> |>)
  else (Err (PrismaError "P2002" "Unique constraint failed"), w).

(** [update({ where: { id }, data })]: P2025 when there is no such row. *)
Definition update_one (i : string) (data : R → R) : W R :=
  o ← find_unique i;
  match o with
  | None => throw (PrismaError "P2025" "Record to update not found.")
  | Some r => _ ← update_many (λ j _, bool_decide (j = i)) data; mret (data r)
  end.

Definition delete_many (where_ : string → R → bool) : W Z := λ w,
  let '(n, t) := deleteMany where_ (table (w_db w)) in
  (Ok n, w <| w_db ::= λ d, d <| table := t |> |>).

(** [create({ data })]: P2003 when a foreign key refers to no row ([refs] is false),
    P2002 when a unique column repeats a value ([clash]). *)
Definition create_row (clash : string → R → bool) (refs : Db Tbl → bool) (i : string)
    (r : R) : W unit :=
  ok ← gets (λ w, refs (w_db w));
  if negb ok then throw (PrismaError "P2003" "Foreign key constraint failed")
  else
    t ← gets (λ w, create clash i r (table (w_db w)));
    match t with
    | None => throw (PrismaError "P2002" "Unique constraint failed")
    | Some t => put_table t
    end.
End table.

(** ** Transactions *)

(** [TransactionManager.run]: work inside a transaction joins it; otherwise it runs in a
    transaction of its own, rolled back when it throws.  The clock, the identifiers drawn
    and the calls to other services are not part of the database. *)
Definition transaction {A} (work : W A) : W A := λ w,
  if w_inTransaction w then work w
  else
    let '(res, w') := work (w <| w_inTransaction := true |>) in
    (res, w' <| w_db := end_transaction (is_ok res) (w_db w) (w_db w') |>
             <| w_inTransaction := false |>).

(** ** Queues and cache *)

(** [queue.add]: rejects when the queue's Redis is not reachable. *)
Definition add_jobs (jobs : list Effect) : W unit :=
  up ← gets w_queues;
  if up : bool then modify (λ w, w <| w_effects ::= λ l, (l ++ jobs)%list |>)
  else throw (PlainError "Queue is not available").

(** [CacheService.delPattern] never throws. *)
Definition delPattern (pattern : string) : W unit :=
  modify (λ w, w <| w_effects ::= λ l, (l ++ [CacheDelete pattern])%list |>).
End client.

Arguments W : clear implicits.

(** ** Taking a successful run apart

    [w_inv] splits every hypothesis [m w = (Ok a, w')] into the runs of its steps, with a
    case for every branch that can return. *)

Ltac w_step :=
  match goal with
  | H : get_now _ = _ |- _ => unfold get_now in H
  | H : gets _ _ = _ |- _ => unfold gets in H
  | H : mret _ _ = _ |- _ => unfold mret, M_ret in H
  | H : lift _ _ = _ |- _ => unfold lift in H
  | H : throw _ _ = _ |- _ => unfold throw in H
  | H : find_unique _ _ _ = _ |- _ => unfold find_unique, gets in H; rewrite findUnique_rows in H
  | H : (if ?b then _ else _) _ = (Ok _, _) |- _ => destruct b eqn:?
  | H : match ?o with _ => _ end _ = (Ok _, _) |- _ => destruct o eqn:?
  end.
Ltac w_inv := repeat (inv_ok; simplify_eq; w_step); inv_ok; simplify_eq.

(** ** How client calls change a table *)

(** The rows of [table] in a state. *)
Definition rows_of {Tbl} `{!Prisma Tbl} {R} (table : Db Tbl → Tbl R) (w : World Tbl)
  : gmap string R := rows (table (w_db w)).

Section lemmas.
Context {Tbl : Type → Type} `{!Prisma Tbl}.
Context {R : Type} (table : Db Tbl → Tbl R) {U : Update table} {G : GetUpdate table}.

Lemma update_many_run p d w :
  ∃ n w', update_many table p d w = (Ok n, w') ∧
    n = Z.of_nat (size (matching p (rows_of table w))) ∧
    w' = w <| w_db ::= λ db, db <| table := (updateMany p d (table (w_db w))).2 |> |>.
Proof.
  unfold update_many, rows_of. pose proof (updateMany_count p d (table (w_db w))) as Hn.
  destruct (updateMany p d (table (w_db w))) as [n t]. simpl in Hn. eauto.
Qed.

Lemma update_many_rows p d w i :
  rows_of table (update_many table p d w).2 !! i =
  (λ r, if p i r then d r else r) <$> rows_of table w !! i.
Proof.
  destruct (update_many_run p d w) as (n & w' & -> & _ & ->). cbn [snd].
  unfold rows_of. upd_simpl. apply updateMany_rows.
Qed.

(** Another table, or anything else in the state, is unchanged. *)
Lemma update_many_frame {T} (other : Db Tbl → T) `{!UpdateFrame other table} p d w :
  other (w_db (update_many table p d w).2) = other (w_db w).
Proof.
  destruct (update_many_run p d w) as (n & w' & -> & _ & ->). cbn [snd]. by upd_simpl.
Qed.

Lemma update_many_now p d w : w_now (update_many table p d w).2 = w_now w.
Proof.
  destruct (update_many_run p d w) as (n & w' & -> & _ & ->). cbn [snd]. by upd_simpl.
Qed.

End lemmas.

Section queries.
Context {Tbl : Type → Type} `{!Prisma Tbl} {R : Type} (table : Db Tbl → Tbl R).

Lemma find_first_some p w i r w' :
  find_first table p w = (Ok (Some (i, r)), w') → w' = w ∧ rows_of table w !! i = Some r ∧ p i r = true.
Proof.
  unfold find_first, find_many. intros H. inv_ok.
  cbv [gets mret M_ret] in *. inv_ok.
  destruct (findMany p _ _ _) as [|x l] eqn:E; [done|]. simplify_eq/=.
  split; [done|]. eapply findMany_elem. rewrite E. set_solver.
Qed.

Lemma find_first_none p w w' :
  find_first table p w = (Ok None, w') →
  w' = w ∧ ∀ i r, rows_of table w !! i = Some r → p i r = false.
Proof.
  unfold find_first, find_many. intros H. inv_ok.
  cbv [gets mret M_ret] in *. inv_ok.
  destruct (findMany p _ _ _) as [|x l] eqn:E; [|done].
  split; [done|]. intros i r Hi. apply not_true_is_false. intros Hp.
  eapply findMany_first in Hp as [Hl _]; [| |rewrite E; set_solver]; [|done].
  by rewrite E in Hl.
Qed.
End queries.

Section more.
Context {Tbl : Type → Type} `{!Prisma Tbl}.

Lemma draw_ok (w w' : World Tbl) x :
  draw w = (Ok x, w') →
  x = w_uuid w (w_draws w + 0)%nat ∧ w' = w <| w_draws ::= Nat.add 1 |>.
Proof.
  unfold draw, draw_rt, mbind, M_bind, mret, M_ret. destruct w. cbn. intros H.
  injection H as <- <-. split; reflexivity.
Qed.

(** A row that was created is new, and the table gained exactly this row. *)
Lemma create_row_ok {R} (table : Db Tbl → Tbl R) {U : Update table} {G : GetUpdate table}
    clash refs i r (w w' : World Tbl) u :
  create_row table clash refs i r w = (Ok u, w') →
  rows_of table w !! i = None ∧ matching clash (rows_of table w) = ∅ ∧
  rows_of table w' = <[i := r]> (rows_of table w) ∧ refs (w_db w) = true ∧
  ∃ t, w' = w <| w_db ::= λ d, d <| table := t |> |>.
Proof.
  unfold create_row, put_table, modify, mbind, M_bind, gets, throw. cbv beta iota.
  destruct (refs (w_db w)); cbn [negb]; cbv beta iota; [|intros H; discriminate H].
  destruct (create clash i r (table (w_db w))) as [t|] eqn:E; [|intros H; discriminate H].
  intros H. inv_ok. apply create_rows in E as (H1 & H2 & H3).
  unfold rows_of in *. split_and!; [done|done| |done|eauto].
  rewrite <-H3. by upd_simpl.
Qed.

(** A [create] that throws changes nothing. *)
Lemma create_row_err {R} (table : Db Tbl → Tbl R) {U : Update table}
    clash refs i r (w w' : World Tbl) e :
  create_row table clash refs i r w = (Err e, w') → w' = w.
Proof.
  unfold create_row, put_table, modify, mbind, M_bind, gets, throw. cbv beta iota.
  destruct (refs (w_db w)); cbn [negb]; cbv beta iota; [|intros H; by inv_ok].
  destruct (create clash i r (table (w_db w))) as [t|] eqn:E; intros H; by inv_ok.
Qed.

(** [update] of a row that exists; only its table changes. *)
Lemma update_one_ok {R} (table : Db Tbl → Tbl R) {U : Update table} {G : GetUpdate table}
    i d (w w' : World Tbl) r' :
  update_one table i d w = (Ok r', w') →
  ∃ r, rows_of table w !! i = Some r ∧ r' = d r ∧
    rows_of table w' = <[i := d r]> (rows_of table w) ∧
    ∃ t, w' = w <| w_db ::= λ db, db <| table := t |> |>.
Proof.
  unfold update_one. intros H. w_inv.
  match goal with E : update_many table ?p ?f _ = _ |- _ =>
    pose proof (update_many_rows table p f s) as Hr;
    destruct (update_many_run table p f s) as (n' & w1 & E1 & _ & Hw1);
    rewrite E in *; inv_ok
  end.
  fold (rows_of table s) in *. eexists; split_and!; [eassumption|done| |eauto].
  apply map_eq. intros j. rewrite Hr. destruct (decide (j = i)) as [->|Hne].
  - rewrite lookup_insert_eq.
    match goal with E : _ !! i = Some _ |- _ => rewrite E end.
    simpl. by rewrite bool_decide_eq_true_2.
  - rewrite lookup_insert_ne by done. rewrite bool_decide_eq_false_2 by done.
    by destruct (_ !! j).
Qed.

Lemma update_one_some {R} (table : Db Tbl → Tbl R) {U : Update table} {G : GetUpdate table}
    i d (w : World Tbl) r :
  rows_of table w !! i = Some r → ∃ w', update_one table i d w = (Ok (d r), w').
Proof.
  intros Hi. unfold update_one, find_unique, gets, mbind, M_bind.
  rewrite findUnique_rows. unfold rows_of in Hi. rewrite Hi.
  destruct (update_many_run table (λ j _, bool_decide (j = i)) d w) as (n & w' & -> & _).
  by eexists.
Qed.
End more.

Section transactions.
Context {Tbl : Type → Type} `{!Prisma Tbl} {A : Type}.

(** A transaction that throws leaves the database as it was. *)
Lemma transaction_err (work : W Tbl A) w e w' :
  w_inTransaction w = false → transaction work w = (Err e, w') → w_db w' = w_db w.
Proof.
  unfold transaction. intros ->. destruct (work _) as [res w1]. intros H. inv_ok.
  destruct w1; cbn. apply rollback.
Qed.

(** One that returns keeps what its callback did. *)
Lemma transaction_ok (work : W Tbl A) w a w' :
  w_inTransaction w = false → transaction work w = (Ok a, w') →
  ∃ w1, work (w <| w_inTransaction := true |>) = (Ok a, w1) ∧
        w' = w1 <| w_inTransaction := false |>.
Proof.
  unfold transaction. intros ->. destruct (work _) as [res w1] eqn:E. intros H. inv_ok.
  eexists; split; [done|]. destruct w1. cbn. by rewrite commit.
Qed.
End transactions.

Section effects.
Context {Tbl : Type → Type} `{!Prisma Tbl}.
Implicit Types (w : World Tbl).

(** A transaction that returned, seen from outside: its callback ran from a state with the
    same database and clock, and its database stays. *)
Lemma transaction_inv {A} (work : W Tbl A) w a w' :
  w_inTransaction w = false → transaction work w = (Ok a, w') →
  ∃ w0 w1, work w0 = (Ok a, w1) ∧ w_db w0 = w_db w ∧ w_now w0 = w_now w ∧
    w_inTransaction w0 = true ∧ w_db w' = w_db w1 ∧ w_now w' = w_now w1.
Proof.
  intros Hin H. apply transaction_ok in H as (w1 & E & ->); [|done].
  eexists _, w1. split; [exact E|]. by upd_simpl.
Qed.

Lemma find_first_state {R} (table : Db Tbl → Tbl R) p w r w' :
  find_first table p w = (Ok r, w') → w' = w.
Proof. unfold find_first, find_many. intros H. by w_inv. Qed.

Lemma delete_many_ok {R} (table : Db Tbl → Tbl R) {U : Update table}
    {G : GetUpdate table} p w n w' :
  delete_many table p w = (Ok n, w') →
  ∀ i, rows_of table w' !! i = rows_of table w !! i ≫= λ r, if p i r then None else Some r.
Proof.
  unfold delete_many. intros H i. pose proof (deleteMany_rows p (table (w_db w)) i) as Hr.
  destruct (deleteMany _ _) as [k t]. inv_ok. unfold rows_of. by upd_simpl.
Qed.

(** [updateMany] of the one row a clause can match, when it reports that it changed one. *)
Lemma update_many_one {R} (table : Db Tbl → Tbl R) {U : Update table} {G : GetUpdate table}
    i p d w w' :
  (∀ j r, p j r = true → j = i) → update_many table p d w = (Ok 1, w') →
  ∃ r, rows_of table w !! i = Some r ∧ p i r = true ∧
    rows_of table w' = <[i := d r]> (rows_of table w).
Proof.
  intros Hkey H. pose proof (update_many_rows table p d w) as Hr.
  destruct (update_many_run table p d w) as (n & w1 & E & Hn & _). rewrite E in H, Hr. injection H as -> ->.
  rewrite (size_matching_key p _ i Hkey) in Hn.
  destruct (rows_of table w !! i) as [r|] eqn:Hi; [|done]. destruct (p i r) eqn:Hp; [|done].
  exists r. split_and!; [done|done|]. apply map_eq. intros j. cbn [snd] in Hr. rewrite Hr.
  destruct (decide (j = i)) as [->|Hne]; [by rewrite lookup_insert_eq, Hi; simpl; rewrite Hp|].
  rewrite lookup_insert_ne by done. destruct (rows_of table w !! j) as [r'|]; simpl; [|done].
  destruct (p j r') eqn:Hj; [by apply Hkey in Hj|done].
Qed.
End effects.

(** ** Partial unique indexes *)

(** No two rows have the same key. *)
Definition index_ok {R K} (key : R → option K) (m : gmap string R) : Prop :=
  ∀ i j r r' k, m !! i = Some r → m !! j = Some r' → key r = Some k → key r' = Some k → i = j.

Lemma index_list {R K} (key : R → option K) (l : list (string * R)) :
  NoDup l.*1 →
  NoDup (omap (λ kr, key kr.2) l) ↔
  ∀ i j r r' k, (i, r) ∈ l → (j, r') ∈ l → key r = Some k → key r' = Some k → i = j.
Proof.
  induction l as [|[a x] l IH]; intros Hnd; [split; [set_solver|constructor]|].
  cbn in Hnd. apply NoDup_cons in Hnd as [Ha Hnd]. specialize (IH Hnd).
  assert (∀ k, k ∈ omap (λ kr, key kr.2) l ↔ ∃ j r, (j, r) ∈ l ∧ key r = Some k) as Hel.
  { intros k. rewrite list_elem_of_omap. split; [intros ([j r] & ? & ?); eauto|].
    intros (j & r & ? & ?). by exists (j, r). }
  assert (∀ i r, (i, r) ∈ l → i ≠ a) as Hne.
  { intros i r Hi ->. apply Ha. by apply (list_elem_of_fmap_2 fst l (a, r)). }
  cbn. destruct (key x) as [kx|] eqn:Hx.
  - rewrite NoDup_cons, IH, Hel. split.
    + intros [Hno Hrec] i j r r' k Hi Hj Hki Hkj.
      apply elem_of_cons in Hi as [[= -> ->]|Hi]; apply elem_of_cons in Hj as [[= -> ->]|Hj];
        [done|..|by eapply Hrec]; exfalso; apply Hno; naive_solver.
    + intros H. split; [|intros i j r r' k Hi Hj; apply H; by right].
      intros (j & r & Hj & Hk). apply (Hne j r Hj). by apply (H j a r x kx); [right|left|..].
  - rewrite IH. split; intros H i j r r' k Hi Hj; [|apply H; by right].
    apply elem_of_cons in Hi as [[= -> ->]|Hi]; apply elem_of_cons in Hj as [[= -> ->]|Hj];
      [congruence..|by apply H].
Qed.

Section unique.
Context {Tbl : Type → Type} `{!Prisma Tbl} {R K : Type} `{!EqDecision K}.
Context (table : Db Tbl → Tbl R) {U : Update table} {G : GetUpdate table}.
Context (key : R → option K).

Lemma index_table (t : Tbl R) :
  NoDup (omap (λ kr : string * R, key kr.2) (findMany (λ _ _, true) (λ _, 0) None t)) ↔
  index_ok key (rows t).
Proof.
  rewrite index_list by apply findMany_NoDup. unfold index_ok.
  setoid_rewrite findMany_all. naive_solver.
Qed.

(** It updates like [updateMany] when the index allows the result, and throws without
    changing anything otherwise. *)
Lemma update_many_unique_run (p : string → R → bool) (d : R → R) (w : World Tbl) :
  let updated := map_imap (λ i r, Some (if p i r then d r else r)) (rows_of table w) in
  (index_ok key updated ∧ update_many_unique table key p d w = update_many table p d w) ∨
  (¬ index_ok key updated ∧
   update_many_unique table key p d w = (Err (PrismaError "P2002" "Unique constraint failed"), w)).
Proof.
  intros updated.
  unfold update_many_unique, update_many.
  pose proof (λ i, updateMany_rows p d (table (w_db w)) i) as Hr.
  destruct (updateMany p d (table (w_db w))) as [n t]. cbn [snd] in Hr.
  assert (rows t = updated) as Ht.
  { apply map_eq. intros i. unfold updated. rewrite Hr, map_lookup_imap. unfold rows_of.
    by destruct (rows (table (w_db w)) !! i). }
  case_bool_decide as Hnd; rewrite index_table, Ht in Hnd; [by left|by right].
Qed.
End unique.

(** ** Concrete states, to evaluate the definitions in *)

Definition empty_db : Db (gmap string) := 
  mkDb ∅ ∅ ∅ ∅ ∅ ∅ ∅ ∅ ∅ ∅ ∅ ∅ ∅ ∅ ∅ ∅ ∅ ∅ ∅ ∅ ∅ ∅ ∅ ∅ ∅ ∅ ∅ ∅.

(** A state with database [db] at time [now]; identifiers are drawn from [id0], [id1], … *)
Definition world_of (now : Z) (db : Db (gmap string)) : World (gmap string) :=
  mkWorld db now (λ k, "id" ++ pretty k) 0 false true [] None ∅.
