(* ===== verification/Outbox.v ===== *)
(** * The transactional outbox

    [src/infrastructure/outbox]: domain events are stored next to the aggregate that
    raised them ([enqueueMany]); workers claim due rows under a lease ([claimBatch]),
    dispatch them ([processBatch]) and mark the outcome, with exponential backoff and a
    dead-letter state.  The dispatcher is the interface [OutboxEventDispatcher]. *)

From stdpp Require Import pretty.
From Stdlib Require Import Ascii String QArith.
From S2P Require Import Prelude Store Js Errors Dates Domain Schema World.

#[local] Open Scope string_scope.
#[local] Open Scope Z_scope.
#[local] Set Default Proof Using "Type*".

(** ** Constants *)

Definition DEFAULT_MAX_ATTEMPTS : Z := 5.
Definition DEFAULT_BATCH_SIZE : nat := 100.
Definition BASE_RETRY_DELAY_MS : Z := 5000.
Definition MAX_RETRY_DELAY_MS : Z := 60 * 60 * 1000.
Definition DEFAULT_LEASE_MS : Z := 5 * 60 * 1000.

Definition outbox_status_string (s : OutboxStatus) : string :=
  match s with
  | OPending => "PENDING" | OProcessing => "PROCESSING" | OProcessed => "PROCESSED"
  | OFailed => "FAILED" | ODeadLetter => "DEAD_LETTER" | OCancelled => "CANCELLED"
  end.

#[export] Instance OutboxStatus_enum : Enum OutboxStatus :=
  Build_Enum OutboxStatus
    [OPending; OProcessing; OProcessed; OFailed; ODeadLetter; OCancelled]
    outbox_status_string ltac:(enum_complete) ltac:(enum_injective).

(** [2 ** n] exceeds [MAX_RETRY_DELAY_MS] long before a double loses precision. *)
Definition computeRetryDelayMs (attempts : Z) : Z :=
  Z.min (BASE_RETRY_DELAY_MS * 2 ^ Z.max (attempts - 1) 0) MAX_RETRY_DELAY_MS.

(** ** Serialization of events *)

Definition zero_pad (n : nat) (z : Z) : string :=
  let s := pretty (Z.to_N z) in
  String.concat "" (repeat "0" (n - String.length s)) ++ s.

(** [Date.prototype.toISOString] *)
Definition toISOString (t : Z) : string :=
  let y := getUTCFullYear t in
  let year := if (0 <=? y) && (y <=? 9999) then zero_pad 4 y
              else (if 0 <=? y then "+" else "-") ++ zero_pad 6 (Z.abs y) in
  year ++ "-" ++ zero_pad 2 (getUTCMonth t + 1) ++ "-" ++ zero_pad 2 (getUTCDate t) ++ "T"
  ++ zero_pad 2 (getUTCHours t) ++ ":" ++ zero_pad 2 (getUTCMinutes t) ++ ":"
  ++ zero_pad 2 (t / 1000 mod 60) ++ "." ++ zero_pad 3 (t mod 1000) ++ "Z".

(** The fields an event class declares. *)
Definition event_fields (b : EventBody) : list (string * Json) :=
  match b with
  | CommentAddedEvent ticketId tenantId commentId authorId commentType =>
      [("ticketId", JStr ticketId); ("tenantId", JStr tenantId);
       ("commentId", JStr commentId); ("authorId", JStr authorId);
       ("commentType", JStr commentType)]
  | TicketAssignedEvent ticketId tenantId customerId agentId previousAgentId assignedById =>
      [("ticketId", JStr ticketId); ("tenantId", JStr tenantId);
       ("customerId", JStr customerId); ("agentId", JStr agentId)]
      ++ opt_field "previousAgentId" previousAgentId
      ++ [("assignedById", JStr assignedById)]
  | TicketCreatedEvent ticketId tenantId customerId createdById priority category =>
      [("ticketId", JStr ticketId); ("tenantId", JStr tenantId);
       ("customerId", JStr customerId); ("createdById", JStr createdById);
       ("priority", JStr priority); ("category", JStr category)]
  | TicketEscalatedEvent ticketId tenantId customerId assignedAgentId reason escalatedById =>
      [("ticketId", JStr ticketId); ("tenantId", JStr tenantId);
       ("customerId", JStr customerId)]
      ++ opt_field "assignedAgentId" assignedAgentId
      ++ [("reason", JStr reason); ("escalatedById", JStr escalatedById)]
  | TicketResolvedEvent ticketId tenantId customerId agentId resolvedById =>
      [("ticketId", JStr ticketId); ("tenantId", JStr tenantId);
       ("customerId", JStr customerId)]
      ++ opt_field "agentId" agentId ++ [("resolvedById", JStr resolvedById)]
  | TicketStatusChangedEvent ticketId tenantId oldStatus newStatus changedById =>
      [("ticketId", JStr ticketId); ("tenantId", JStr tenantId);
       ("oldStatus", JStr oldStatus); ("newStatus", JStr newStatus);
       ("changedById", JStr changedById)]
  | CustomerCreatedEvent customerId tenantId email fullName =>
      [("customerId", JStr customerId); ("tenantId", JStr tenantId);
       ("email", JStr email); ("fullName", JStr fullName)]
  | CustomerRiskUpdatedEvent customerId tenantId previousScore newScore riskLabel =>
      [("customerId", JStr customerId); ("tenantId", JStr tenantId);
       ("previousScore", JNum (inject_Z previousScore));
       ("newScore", JNum (inject_Z newScore)); ("riskLabel", JStr riskLabel)]
  | TenantCreatedEvent tenantId name slug =>
      [("tenantId", JStr tenantId); ("name", JStr name); ("slug", JStr slug)]
  | TenantSuspendedEvent tenantId reason =>
      [("tenantId", JStr tenantId); ("reason", JStr reason)]
  | UserCreatedEvent userId email role =>
      [("userId", JStr userId); ("email", JStr email); ("role", JStr role)]
  | UserRoleChangedEvent userId tenantId previousRole nextRole changedById changedByRole =>
      [("userId", JStr userId)] ++ opt_field "tenantId" tenantId
      ++ [("previousRole", JStr previousRole); ("nextRole", JStr nextRole)]
      ++ opt_field "changedById" changedById ++ opt_field "changedByRole" changedByRole
  end.

(** [JSON.parse(JSON.stringify(event))]: the constructor of the base class assigns its
    fields first; the date becomes a string. *)
Definition event_json (e : DomainEvent) : list (string * Json) :=
  [("eventId", JStr (ev_id e)); ("occurredAt", JStr (toISOString (ev_occurredAt e)));
   ("eventType", JStr (eventType e))] ++ event_fields (ev_body e).

(** A property of an event object in memory: a JSON value or a date. *)
Inductive JsVal := VJson (j : Json) | VDate (t : Z).
Definition EventObject : Type := list (string * JsVal).

(** The event object itself. *)
Definition event_object (e : DomainEvent) : EventObject :=
  ([("eventId", VJson (JStr (ev_id e))); ("occurredAt", VDate (ev_occurredAt e));
    ("eventType", VJson (JStr (eventType e)))]
   ++ map (λ '(k, v), (k, VJson v)) (event_fields (ev_body e)))%list.

(** [getString] *)
Definition getString (value : option Json) : option string :=
  match value with
  | Some (JStr s) => if str_truthy s then Some s else None
  | _ => None
  end.

Definition AGGREGATE_ID_FIELDS : list (string * string) :=
  [("ticketId", "Ticket"); ("customerId", "Customer"); ("userId", "User")].

(** The [for] loop of [inferAggregate]. *)
Fixpoint infer_from (l : list (string * string)) (payload : list (string * Json))
  : option (string * string) :=
  match l with
  | [] => None
  | (field, type) :: l =>
      match getString (get_field field payload) with
      | Some i => Some (i, type)
      | None => infer_from l payload
      end
  end.
Definition inferAggregate : list (string * Json) → option (string * string) :=
  infer_from AGGREGATE_ID_FIELDS.

(** ** OutboxRepository *)

(** [toPayload] and [toCreateInput], with the defaults of the schema. *)
Definition toCreateInput (now : Z) (e : DomainEvent) : OutboxRow :=
  let payload := event_json e in
  let aggregate := inferAggregate payload in
  mkOutboxRow
    (getString (get_field "tenantId" payload))
    (match getString (get_field "aggregateType" payload) with
     | Some s => Some s | None => snd <$> aggregate end)
    (match getString (get_field "aggregateId" payload) with
     | Some s => Some s | None => fst <$> aggregate end)
    (eventType e) (ev_id e) (ev_occurredAt e) payload OPending 0 DEFAULT_MAX_ATTEMPTS now
    None None None None None None now now.

Section repository.
Context {Tbl : Type → Type} `{!Prisma Tbl}.

(** One row of [createMany({ skipDuplicates: true })]: a row whose [event_id] is taken is
    skipped. *)
Definition enqueue_one (e : DomainEvent) : W Tbl unit :=
  i ← draw;
  now ← get_now;
  t ← gets (λ w, create (λ _ r, bool_decide (ob_eventId r = ev_id e)) i
                   (toCreateInput now e) (d_outbox (w_db w)));
  match t with
  | Some t => put_table d_outbox t
  | None => mret ()
  end.

Definition enqueueMany (events : list DomainEvent) : W Tbl unit :=
  for_each enqueue_one events.

Definition enqueue (event : DomainEvent) : W Tbl unit := enqueueMany [event].

(** The lease of the row was taken more than [leaseMs] ago; false when [locked_at] is
    null. *)
Definition lease_expired (now leaseMs : Z) (r : OutboxRow) : bool :=
  match ob_lockedAt r with Some t => t <? now - leaseMs | None => false end.

(** The first statement of [claimBatch]. *)
Definition expire_where (now leaseMs : Z) (r : OutboxRow) : bool :=
  bool_decide (ob_status r = OProcessing) && lease_expired now leaseMs r
  && (ob_maxAttempts r <=? ob_attempts r).

Definition expire_data (now : Z) (r : OutboxRow) : OutboxRow :=
  r <| ob_status := ODeadLetter |>
    <| ob_deadLetterReason := Some "Processing lease expired after maximum attempts" |>
    <| ob_lockedAt := None |> <| ob_lockedBy := None |> <| ob_failedAt := Some now |>
    <| ob_updatedAt := now |>.

Definition expire_leases (leaseMs : Z) : W Tbl unit :=
  now ← get_now;
  _ ← update_many d_outbox (λ _ r, expire_where now leaseMs r) (expire_data now);
  mret ().

(** The [WHERE] clause of the sub-select of the second statement. *)
Definition claimable (now leaseMs : Z) (r : OutboxRow) : bool :=
  (bool_decide (ob_status r = OPending) || bool_decide (ob_status r = OFailed))
    && (ob_availableAt r <=? now)
  || bool_decide (ob_status r = OProcessing) && lease_expired now leaseMs r.

Definition claim_data (workerId : string) (now : Z) (r : OutboxRow) : OutboxRow :=
  r <| ob_status := OProcessing |> <| ob_attempts := ob_attempts r + 1 |>
    <| ob_lockedAt := Some now |> <| ob_lockedBy := Some workerId |>
    <| ob_updatedAt := now |>.

Definition occurred (kr : string * OutboxRow) : Z := ob_occurredAt kr.2.

Definition occurred_le (a b : string * OutboxRow) : Prop := occurred a <= occurred b.
#[export] Instance occurred_le_dec : RelDecision occurred_le.
Proof. intros a b. unfold occurred_le. apply _. Defined.

(** The second statement, [SKIP LOCKED]: [locked] holds of the rows other transactions
    hold a lock on while it runs.  It returns the rows as it leaves them. *)
Definition take_batch (locked : string → bool) (workerId : string) (batchSize : nat)
    (leaseMs : Z) : W Tbl (list (string * OutboxRow)) :=
  now ← get_now;
  picked ← find_many d_outbox (λ i r, claimable now leaseMs r && negb (locked i)) occurred
             (Some batchSize);
  _ ← update_many d_outbox (λ i _, bool_decide (i ∈ picked.*1)) (claim_data workerId now);
  mret (merge_sort occurred_le (map (λ '(i, r), (i, claim_data workerId now r)) picked)).

Definition claimBatch (locked : string → bool) (workerId : string) (batchSize : nat)
    (leaseMs : Z) : W Tbl (list (string * OutboxRow)) :=
  _ ← expire_leases leaseMs;
  take_batch locked workerId batchSize leaseMs.

(** The guard of [markProcessed] and [markFailed]. *)
Definition holds_lease (i workerId : string) (j : string) (r : OutboxRow) : bool :=
  bool_decide (j = i) && bool_decide (ob_lockedBy r = Some workerId)
  && bool_decide (ob_status r = OProcessing).

Definition processed_data (now : Z) (r : OutboxRow) : OutboxRow :=
  r <| ob_status := OProcessed |> <| ob_processedAt := Some now |>
    <| ob_lockedAt := None |> <| ob_lockedBy := None |> <| ob_updatedAt := now |>.

Definition markProcessed (i workerId : string) : W Tbl unit :=
  now ← get_now;
  _ ← update_many d_outbox (holds_lease i workerId) (processed_data now);
  mret ().

Definition failed_data (now : Z) (record : OutboxRow) (error : string) (r : OutboxRow)
  : OutboxRow :=
  let isDeadLetter := ob_maxAttempts record <=? ob_attempts record in
  r <| ob_status := if isDeadLetter then ODeadLetter else OFailed |>
    <| ob_deadLetterReason := if isDeadLetter then Some (slice0 2000 error) else None |>
    <| ob_failedAt := Some now |>
    <| ob_availableAt := now + computeRetryDelayMs (ob_attempts record) |>
    <| ob_lockedAt := None |> <| ob_lockedBy := None |> <| ob_updatedAt := now |>.

Definition markFailed (i : string) (record : OutboxRow) (workerId error : string)
  : W Tbl unit :=
  now ← get_now;
  _ ← update_many d_outbox (holds_lease i workerId) (failed_data now record error);
  mret ().

Record OutboxStats := mkOutboxStats {
  st_pending : Z;
  st_processing : Z;
  st_failed : Z;
  st_deadLetter : Z;
  st_oldestPendingAgeSeconds : Z;
}.

Definition getStats : W Tbl OutboxStats :=
  let of_status s := count d_outbox (λ _ r, bool_decide (ob_status r = s)) in
  p ← of_status OPending; g ← of_status OProcessing; f ← of_status OFailed;
  d ← of_status ODeadLetter;
  oldest ← find_many d_outbox
             (λ _ r, bool_decide (ob_status r = OPending) || bool_decide (ob_status r = OFailed))
             occurred (Some 1%nat);
  now ← get_now;
  mret (mkOutboxStats p g f d
          match head oldest with
          | Some (_, r) =>
              Z.max 0 (round (inject_Z (now - ob_occurredAt r) / inject_Z 1000))
          | None => 0
          end).

(** The latest date there is, after which nulls sort. *)
Definition max_date : Z := 8640000000000000.

(** [ORDER BY processed_at ASC]: nulls last. *)
Definition deleteProcessed (batchSize : nat) : W Tbl Z :=
  old ← find_many d_outbox (λ _ r, bool_decide (ob_status r = OProcessed))
          (λ kr, default (max_date + 1) (ob_processedAt kr.2)) (Some batchSize);
  delete_many d_outbox (λ i _, bool_decide (i ∈ old.*1)).

(** ** OutboxProcessor *)

(** [toDomainEvent] *)
Definition toDomainEvent (record : OutboxRow) : EventObject :=
  spread (map (λ '(k, v), (k, VJson v)) (ob_payload record))
    [("eventId", VJson (JStr (ob_eventId record)));
     ("eventType", VJson (JStr (ob_eventType record)));
     ("occurredAt", VDate (ob_occurredAt record))].

Section processor.
(** [OutboxEventDispatcher.publish] *)
Context (publish : EventObject → W Tbl unit).

(** The loop over the claimed events. *)
Fixpoint process_records (workerId : string) (events : list (string * OutboxRow))
    (processed : Z) : W Tbl Z :=
  match events with
  | [] => mret processed
  | (i, record) :: events =>
      processed' ← try_catch
        (_ ← publish (toDomainEvent record);
         _ ← markProcessed i workerId;
         mret (processed + 1))
        (λ error,
         _ ← markFailed i record workerId (message error);
         mret processed);
      process_records workerId events processed'
  end.

Definition processBatch (locked : string → bool) (workerId : string) (leaseMs : Z)
    (batchSize : nat) : W Tbl Z :=
  events ← claimBatch locked workerId batchSize leaseMs;
  process_records workerId events 0.
End processor.
End repository.

(** ** Lemmas *)

Section lemmas.
Context {Tbl : Type → Type} `{!Prisma Tbl}.
Implicit Types (w : World Tbl).

Notation outbox w := (rows_of d_outbox w).

Lemma expire_leases_run leaseMs w :
  ∃ w', expire_leases leaseMs w = (Ok tt, w') ∧ w_now w' = w_now w ∧
    ∀ i, outbox w' !! i =
      (λ r, if expire_where (w_now w) leaseMs r then expire_data (w_now w) r else r)
      <$> outbox w !! i.
Proof.
  unfold expire_leases, get_now, gets, mbind, M_bind, mret, M_ret.
  set (p := λ _ r, expire_where _ _ r).
  pose proof (update_many_rows d_outbox p (expire_data (w_now w)) w) as Hr.
  pose proof (update_many_now d_outbox p (expire_data (w_now w)) w) as Hn.
  destruct (update_many_run d_outbox p (expire_data (w_now w)) w) as (n & w' & E & _).
  rewrite E in *. eauto.
Qed.

(** What the second statement returns and leaves behind. *)
Lemma take_batch_run locked wid n leaseMs w :
  let now := w_now w in
  let picked := findMany (λ i r, claimable now leaseMs r && negb (locked i)) occurred
                  (Some n) (d_outbox (w_db w)) in
  ∃ w', take_batch locked wid n leaseMs w =
          (Ok (merge_sort occurred_le (map (λ '(i, r), (i, claim_data wid now r)) picked)),
           w') ∧
    w_now w' = now ∧
    ∀ i, outbox w' !! i =
      (λ r, if bool_decide (i ∈ picked.*1) then claim_data wid now r else r)
      <$> outbox w !! i.
Proof.
  intros now picked.
  unfold take_batch, find_many, get_now, gets, mbind, M_bind, mret, M_ret.
  fold now. fold picked. set (p := λ i _, bool_decide _).
  pose proof (update_many_rows d_outbox p (claim_data wid now) w) as Hr.
  pose proof (update_many_now d_outbox p (claim_data wid now) w) as Hn.
  destruct (update_many_run d_outbox p (claim_data wid now) w) as (k & w' & E & _).
  rewrite E in *. eauto.
Qed.

(** The records a claim returns are the picked rows, as the claim left them. *)
Lemma claimed_elem wid now (l : list (string * OutboxRow)) i r :
  (i, r) ∈ merge_sort occurred_le (map (λ '(i, r), (i, claim_data wid now r)) l) ↔
  ∃ r0, (i, r0) ∈ l ∧ r = claim_data wid now r0.
Proof.
  rewrite merge_sort_Permutation, list_elem_of_fmap. split.
  - intros ([j r0] & Heq & Hin). simplify_eq. eauto.
  - intros (r0 & Hin & ->). by exists (i, r0).
Qed.

(** Nothing but the outbox table differs. *)
Definition only_outbox (w w' : World Tbl) : Prop :=
  ∃ t, w' = w <| w_db ::= λ d, d <| d_outbox := t |> |>.

Lemma mark_run {A} (w : World Tbl) i wid (data : Z → OutboxRow → OutboxRow) (k : A) :
  ∃ w', (now ← get_now; _ ← update_many d_outbox (holds_lease i wid) (data now); mret k) w
        = (Ok k, w') ∧ only_outbox w w' ∧
    ∀ j, outbox w' !! j =
      (λ r, if holds_lease i wid j r then data (w_now w) r else r) <$> outbox w !! j.
Proof.
  unfold get_now, gets, mbind, M_bind, mret, M_ret.
  pose proof (update_many_rows d_outbox (holds_lease i wid) (data (w_now w)) w) as Hr.
  destruct (update_many_run d_outbox (holds_lease i wid) (data (w_now w)) w)
    as (n & w' & E & _ & Hw).
  rewrite E in *. exists w'. split_and!; [done|by eexists|done].
Qed.

Lemma markProcessed_run i wid w :
  ∃ w', markProcessed i wid w = (Ok tt, w') ∧ only_outbox w w' ∧
    ∀ j, outbox w' !! j =
      (λ r, if holds_lease i wid j r then processed_data (w_now w) r else r) <$> outbox w !! j.
Proof. apply mark_run. Qed.

Lemma markFailed_run i record wid err w :
  ∃ w', markFailed i record wid err w = (Ok tt, w') ∧ only_outbox w w' ∧
    ∀ j, outbox w' !! j =
      (λ r, if holds_lease i wid j r then failed_data (w_now w) record err r else r)
      <$> outbox w !! j.
Proof. apply (mark_run w i wid (λ now, failed_data now record err)). Qed.

Lemma holds_lease_true i wid j r :
  holds_lease i wid j r = true ↔ j = i ∧ ob_lockedBy r = Some wid ∧ ob_status r = OProcessing.
Proof. unfold holds_lease. rewrite !andb_true_iff, !bool_decide_eq_true. tauto. Qed.

(** Storing one event adds its row, unless an event with the same id is stored. *)
Lemma enqueue_one_run e w :
  ∃ w', enqueue_one e w = (Ok tt, w') ∧ w_now w' = w_now w ∧ w_uuid w' = w_uuid w ∧
    w_draws w' = S (w_draws w) ∧
    let i := w_uuid w (w_draws w + 0)%nat in
    (outbox w' = <[i := toCreateInput (w_now w) e]> (outbox w) ∧ outbox w !! i = None ∧
       (∀ j r, outbox w !! j = Some r → ob_eventId r ≠ ev_id e) ∨
     outbox w' = outbox w ∧
       (is_Some (outbox w !! i) ∨
        ∃ j r, outbox w !! j = Some r ∧ ob_eventId r = ev_id e)).
Proof.
  unfold enqueue_one, draw, draw_rt, get_now, gets, mbind, M_bind, mret, M_ret.
  cbn [uuid]. destruct w as [db now u k tx q eff]. cbn.
  set (cl := λ _ r, _). set (i := u _).
  destruct (create cl i (toCreateInput now e) (d_outbox db)) as [t|] eqn:E; cbn.
  - eexists. split_and!; [done..|]. left. apply create_rows in E as (? & Hm & Ht).
    unfold rows_of. destruct db. cbn in *. split_and!; [done|done|].
    intros j r Hj Heq.
    assert (matching cl (rows d_outbox) !! j = Some r) as Hx.
    { apply matching_lookup. split; [done|]. by apply bool_decide_eq_true. }
    by rewrite Hm, lookup_empty in Hx.
  - eexists. split_and!; [done..|]. right. split; [done|].
    destruct (rows (d_outbox db) !! i) eqn:Hi; [left; unfold rows_of; simpl; eauto|right].
    destruct (decide (matching cl (rows (d_outbox db)) = ∅)) as [Hm|Hm].
    + by destruct (create_fresh cl i (toCreateInput now e) (d_outbox db) Hi Hm); simplify_eq.
    + apply map_choose in Hm as (j & r & Hx). apply matching_lookup in Hx as [Hj Hc].
      apply bool_decide_eq_true in Hc. eauto.
Qed.

Lemma deleteProcessed_run n w :
  ∃ k w', deleteProcessed n w = (Ok k, w') ∧ w_now w' = w_now w ∧
    ∀ i r, outbox w' !! i = Some r → outbox w !! i = Some r.
Proof.
  unfold deleteProcessed, find_many, delete_many, gets, mbind, M_bind.
  set (ids := findMany _ _ _ _). set (p := λ i _, bool_decide (i ∈ ids.*1)).
  pose proof (deleteMany_rows p (d_outbox (w_db w))) as Hr.
  destruct (deleteMany p (d_outbox (w_db w))) as [k t]. eexists k, _.
  split; [done|]. destruct w as [db now u d tx q eff]. split; [done|].
  intros i r. unfold rows_of. destruct db. cbn in *. rewrite Hr.
  destruct (_ !! i); simpl; [|done]. by destruct (p i _).
Qed.

(** Rows are deleted only when processed. *)
Lemma deleteProcessed_only n w k w' i r :
  deleteProcessed n w = (Ok k, w') → outbox w !! i = Some r →
  ob_status r ≠ OProcessed → outbox w' !! i = Some r.
Proof.
  unfold deleteProcessed, find_many, delete_many, gets, mbind, M_bind.
  set (ids := findMany _ _ _ _). set (p := λ i _, bool_decide (i ∈ ids.*1)).
  pose proof (deleteMany_rows p (d_outbox (w_db w))) as Hr.
  destruct (deleteMany p (d_outbox (w_db w))) as [n' t]. intros E Hi Hs. inv_ok.
  destruct w as [[] now u d tx q eff]. unfold rows_of in *. cbn in *.
  rewrite Hr, Hi. simpl. unfold p. rewrite bool_decide_eq_false_2; [done|].
  rewrite list_elem_of_fmap. intros ([j r'] & -> & Hj).
  apply findMany_elem in Hj as [Hj Hp]. cbn in *. bool_to_prop. congruence.
Qed.

(** A row that expires in the first statement is not claimable in the second. *)
Lemma expired_not_claimable now leaseMs now' r :
  claimable now leaseMs (expire_data now' r) = false.
Proof. by destruct r. Qed.

(** After a claim a row is: untouched, dead-lettered by the lease sweep, or claimed. *)
Definition claim_result (wid : string) (now leaseMs : Z) (claimed : bool) (r : OutboxRow)
  : OutboxRow :=
  if expire_where now leaseMs r then expire_data now r
  else if claimed then claim_data wid now r else r.

Lemma claimBatch_run locked wid n leaseMs w :
  ∃ l w' (claimed : string → bool),
    claimBatch locked wid n leaseMs w = (Ok l, w') ∧ w_now w' = w_now w ∧
    (∀ i, outbox w' !! i = claim_result wid (w_now w) leaseMs (claimed i) <$> outbox w !! i) ∧
    (∀ i r, (i, r) ∈ l ↔ ∃ r0, outbox w !! i = Some r0 ∧ claimed i = true ∧
                                 r = claim_data wid (w_now w) r0) ∧
    (∀ i r0, outbox w !! i = Some r0 → claimed i = true →
             claimable (w_now w) leaseMs r0 = true ∧ locked i = false ∧
             expire_where (w_now w) leaseMs r0 = false) ∧
    NoDup l.*1 ∧ (length l <= n)%nat.
Proof.
  destruct (expire_leases_run leaseMs w) as (w1 & E1 & Hn1 & Hr1).
  destruct (take_batch_run locked wid n leaseMs w1) as (w2 & E2 & Hn2 & Hr2).
  rewrite Hn1 in *. set (picked := findMany _ _ _ _) in *.
  assert (∀ i r, (i, r) ∈ picked →
            outbox w !! i = Some r ∧ expire_where (w_now w) leaseMs r = false ∧
            claimable (w_now w) leaseMs r = true ∧ locked i = false) as Hp.
  { intros i r Hin. apply findMany_elem in Hin as [Hi Hc].
    change (outbox w1 !! i = Some r) in Hi. rewrite Hr1 in Hi. bool_to_prop.
    destruct (outbox w !! i) as [r0|]; [|done]. simpl in Hi. simplify_eq.
    case_match eqn:He; [by rewrite expired_not_claimable in *|done]. }
  exists (merge_sort occurred_le (map (λ '(i, r), (i, claim_data wid (w_now w) r)) picked)),
    w2, (λ i, bool_decide (i ∈ picked.*1)).
  assert (∀ i, bool_decide (i ∈ picked.*1) = true ↔ ∃ r, (i, r) ∈ picked) as Hk.
  { intros i. rewrite bool_decide_eq_true, list_elem_of_fmap.
    split; [intros ([j r] & -> & ?); eauto|intros (r & ?); by exists (i, r)]. }
  split_and!.
  - unfold claimBatch, mbind, M_bind. by rewrite E1.
  - done.
  - intros i. rewrite Hr2, Hr1, <-option_fmap_compose.
    destruct (outbox w !! i) as [r|] eqn:Hi; [|done]. simpl. f_equal. unfold claim_result.
    destruct (expire_where _ _ r) eqn:He; [|done].
    destruct (bool_decide _) eqn:Hb; [|done].
    apply Hk in Hb as (r' & Hin). apply Hp in Hin as (? & ? & _). congruence.
  - intros i r. rewrite claimed_elem. split.
    + intros (r0 & Hin & ->). exists r0. pose proof (Hp _ _ Hin) as (? & _).
      split_and!; [done| |done]. apply Hk. eauto.
    + intros (r0 & Hi & Hb & ->). apply Hk in Hb as (r' & Hin).
      pose proof (Hp _ _ Hin) as (? & _). simplify_eq. eauto.
  - intros i r0 Hi Hb. apply Hk in Hb as (r' & Hin).
    pose proof (Hp _ _ Hin) as (? & ? & ? & ?). by simplify_eq.
  - rewrite merge_sort_Permutation, <-list_fmap_compose.
    rewrite (list_fmap_ext _ fst) by (by intros ? [] ?). apply findMany_NoDup.
  - rewrite merge_sort_Permutation, length_fmap. unfold picked.
    rewrite findMany_length. lia.
Qed.

(** How a claimed record ends: marked as processed, or as failed with some error. *)
Definition settled (r r' : OutboxRow) : Prop :=
  (∃ t, r' = processed_data t r) ∨ (∃ t err, r' = failed_data t r err r).

(** The run of one record.  [Q] is what a delivery that resolved has achieved. *)
Lemma process_record_run (Q : EventObject → World Tbl → Prop) publish wid i r (n : Z) w :
  outbox (publish (toDomainEvent r) w).2 = outbox w →
  (∀ w', publish (toDomainEvent r) w = (Ok tt, w') → Q (toDomainEvent r) w') →
  outbox w !! i = Some r → holds_lease i wid i r = true →
  ∃ n1 w0 w1 r1,
    try_catch (_ ← publish (toDomainEvent r); _ ← markProcessed i wid; mret (n + 1))
      (λ e, _ ← markFailed i r wid (message e); mret n) w = (Ok n1, w1) ∧
    w0 = (publish (toDomainEvent r) w).2 ∧ only_outbox w0 w1 ∧
    settled r r1 ∧ (ob_status r1 = OProcessed → Q (toDomainEvent r) w0) ∧
    outbox w1 !! i = Some r1 ∧ ∀ j, j ≠ i → outbox w1 !! j = outbox w !! j.
Proof.
  intros Hpub HQ Hr Hh. unfold try_catch, mbind, M_bind.
  assert (∀ w0 w1 d, outbox w0 = outbox w →
    (∀ j, outbox w1 !! j = (λ r, if holds_lease i wid j r then d r else r) <$> outbox w0 !! j) →
    outbox w1 !! i = Some (d r) ∧ ∀ j, j ≠ i → outbox w1 !! j = outbox w !! j) as Hmark.
  { intros w0 w1 d H0 H1. split; [by rewrite H1, H0, Hr; simpl; rewrite Hh|].
    intros j Hj. rewrite H1, H0. destruct (outbox w !! j) as [rj|]; simpl; [|done].
    destruct (holds_lease i wid j rj) eqn:E; [|done]. by apply holds_lease_true in E as (? & _). }
  destruct (publish (toDomainEvent r) w) as [[[]|e] w0]; simpl in Hpub.
  - destruct (markProcessed_run i wid w0) as (w1 & -> & Ho & Hw1).
    destruct (Hmark w0 w1 _ Hpub Hw1) as [Hi Hj].
    eexists _, w0, w1, (processed_data (w_now w0) r). split_and!; try done; [by left; eauto|].
    intros _. by apply HQ.
  - destruct (markFailed_run i r wid (message e) w0) as (w1 & -> & Ho & Hw1).
    destruct (Hmark w0 w1 _ Hpub Hw1) as [Hi Hj].
    eexists _, w0, w1, (failed_data (w_now w0) r (message e) r).
    split_and!; try done; [by right; eauto|].
    unfold failed_data. upd_simpl. by case_match.
Qed.

Lemma process_records_run (Q : EventObject → World Tbl → Prop) publish wid
    (l : list (string * OutboxRow)) :
  (∀ ev w, outbox (publish ev w).2 = outbox w) →
  (∀ ev w w', publish ev w = (Ok tt, w') → Q ev w') →
  (∀ ev ev' w, Q ev w → Q ev (publish ev' w).2) →
  (∀ ev w w', Q ev w → only_outbox w w' → Q ev w') →
  ∀ n w, NoDup l.*1 →
  (∀ i r, (i, r) ∈ l → outbox w !! i = Some r ∧ holds_lease i wid i r = true) →
  ∃ n' w', process_records publish wid l n w = (Ok n', w') ∧
    (∀ i r, (i, r) ∈ l → ∃ r', outbox w' !! i = Some r' ∧ settled r r' ∧
                         (ob_status r' = OProcessed → Q (toDomainEvent r) w')) ∧
    (∀ i, i ∉ l.*1 → outbox w' !! i = outbox w !! i) ∧
    (∀ ev, Q ev w → Q ev w').
Proof.
  intros Hpub HQ HQp HQo. induction l as [|[i r] l IH]; intros n w Hnd Hl; simpl.
  { eexists n, w. split_and!; [done|set_solver|done|done]. }
  apply NoDup_cons in Hnd as [Hi Hnd].
  destruct (Hl i r) as [Hr Hh]; [set_solver|].
  destruct (process_record_run Q publish wid i r n w (Hpub _ _) (HQ _ w) Hr Hh)
    as (n1 & w0 & w1 & r1 & E1 & -> & Hw1 & Hs & Hp & Hi1 & Ho).
  destruct (IH n1 w1 Hnd) as (n' & w' & E & Hin & Hout & Hkeep).
  { intros j rj Hj. rewrite Ho; [apply Hl; set_solver|].
    intros ->. apply Hi, list_elem_of_fmap. by exists (i, rj). }
  exists n', w'. split_and!.
  - unfold mbind at 1, M_bind at 1. by rewrite E1.
  - intros j rj [Hj|Hj]%elem_of_cons; [|by apply Hin].
    simplify_eq. exists r1. split_and!; [by rewrite Hout|done|]. intros Hp1. eauto.
  - intros j Hj. rewrite Hout by set_solver. apply Ho. set_solver.
  - intros ev Hev. eauto.
Qed.

(** A whole batch: the claim, then the loop. *)
Lemma processBatch_run (Q : EventObject → World Tbl → Prop) publish locked wid leaseMs n w :
  (∀ ev w, outbox (publish ev w).2 = outbox w) →
  (∀ ev w w', publish ev w = (Ok tt, w') → Q ev w') →
  (∀ ev ev' w, Q ev w → Q ev (publish ev' w).2) →
  (∀ ev w w', Q ev w → only_outbox w w' → Q ev w') →
  ∃ l w1 processed w',
    claimBatch locked wid n leaseMs w = (Ok l, w1) ∧
    processBatch publish locked wid leaseMs n w = (Ok processed, w') ∧
    (∀ i r, (i, r) ∈ l → ∃ r', outbox w' !! i = Some r' ∧ settled r r' ∧
                         (ob_status r' = OProcessed → Q (toDomainEvent r) w')) ∧
    (∀ i, i ∉ l.*1 → outbox w' !! i = outbox w1 !! i).
Proof.
  intros Hpub HQ HQp HQo.
  destruct (claimBatch_run locked wid n leaseMs w)
    as (l & w1 & c & E & Hn & Hw1 & Hl & Hc & Hnd & _).
  destruct (process_records_run Q publish wid l Hpub HQ HQp HQo 0 w1 Hnd)
    as (k & w' & E' & Hin & Hout & _).
  { intros i r (r0 & Hi & Hci & ->)%Hl. split.
    - rewrite Hw1, Hi. simpl. unfold claim_result.
      destruct (Hc _ _ Hi Hci) as (_ & _ & ->). by rewrite Hci.
    - apply holds_lease_true. by destruct r0. }
  exists l, w1, k, w'. split_and!; [done| |done|done].
  unfold processBatch, mbind, M_bind. by rewrite E.
Qed.
End lemmas.

(** ** Properties *)

(** The retry delay doubles from 5 seconds with each attempt, reaches one hour at the
    eleventh and stays there; it never leaves these bounds and never decreases. *)
Theorem retry_delay_spec n :
  BASE_RETRY_DELAY_MS <= computeRetryDelayMs n <= MAX_RETRY_DELAY_MS ∧
  (1 <= n <= 10 → computeRetryDelayMs n = 5000 * 2 ^ (n - 1)) ∧
  (11 <= n → computeRetryDelayMs n = 3600000) ∧
  computeRetryDelayMs n <= computeRetryDelayMs (n + 1).
Proof.
  unfold computeRetryDelayMs, BASE_RETRY_DELAY_MS, MAX_RETRY_DELAY_MS.
  assert (1 <= 2 ^ Z.max (n - 1) 0) by (pose proof (Z.pow_pos_nonneg 2 (Z.max (n - 1) 0)); lia).
  assert (2 ^ Z.max (n - 1) 0 <= 2 ^ Z.max (n + 1 - 1) 0) by (apply Z.pow_le_mono_r; lia).
  split_and!; [lia|lia|intros Hn|intros Hn|lia].
  - rewrite Z.max_l by lia. assert (2 ^ (n - 1) <= 2 ^ 9) by (apply Z.pow_le_mono_r; lia). lia.
  - rewrite Z.max_l by lia. assert (2 ^ 10 <= 2 ^ (n - 1)) by (apply Z.pow_le_mono_r; lia). lia.
Qed.

(** The event a worker rebuilds from an outbox row is the event that was stored, for
    every event class: the same properties with the same values, the date included. *)
Theorem outbox_event_roundtrip now e :
  toDomainEvent (toCreateInput now e) = event_object e.
Proof.
  destruct e as [i t b]. unfold toDomainEvent, toCreateInput, event_object, event_json.
  cbn -[toISOString event_fields].
  destruct b; repeat match goal with o : option string |- _ => destruct o end; reflexivity.
Qed.

Section properties.
Context {Tbl : Type → Type} `{!Prisma Tbl}.

Notation outbox w := (rows_of d_outbox w).

(** C30: An event claimed by one worker cannot be claimed by another while its lease
    lasts: whatever happened elsewhere in between, as long as the row was not written and
    the lease has not run out, a later claim (of any worker) neither returns the event
    nor changes its row. *)
Theorem claim_exclusive locked1 wid1 n1 lease1 (w w1 : World Tbl) l1 i r
    locked2 wid2 n2 lease2 w2 w3 l2 :
  claimBatch locked1 wid1 n1 lease1 w = (Ok l1, w1) → (i, r) ∈ l1 →
  outbox w2 !! i = Some r → w_now w2 <= w_now w + lease2 →
  claimBatch locked2 wid2 n2 lease2 w2 = (Ok l2, w3) →
  i ∉ l2.*1 ∧ outbox w3 !! i = Some r.
Proof.
  intros E1 Hin Hi Ht E2.
  destruct (claimBatch_run locked1 wid1 n1 lease1 w) as (? & ? & c1 & E & _ & _ & Hl & _).
  rewrite E1 in E. simplify_eq.
  apply Hl in Hin as (r0 & _ & _ & ->).
  destruct (claimBatch_run locked2 wid2 n2 lease2 w2)
    as (? & ? & c2 & E & _ & Hw3 & Hl2 & Hc & _).
  rewrite E2 in E. simplify_eq. set (r := claim_data _ _ r0) in *.
  assert (lease_expired (w_now w2) lease2 r = false) as Hlease.
  { destruct r0. unfold lease_expired, r. simpl. apply Z.ltb_ge. lia. }
  assert (c2 i = false) as Hci.
  { apply not_true_is_false. intros Hci. apply Hc with (i := i) in Hi as (Hcl & _); [|done].
    unfold claimable in Hcl. rewrite Hlease in Hcl. by destruct r0. }
  split.
  - rewrite list_elem_of_fmap. intros ([j r'] & -> & Hj). apply Hl2 in Hj as (? & _ & ? & _).
    simpl in *. congruence.
  - rewrite Hw3, Hi. simpl. unfold claim_result, expire_where. rewrite Hlease, Hci.
    by rewrite andb_false_r.
Qed.

(** A claim is bounded by the batch size and serves the oldest events first: if a due
    event that is not locked by another transaction is left out, the batch is full and
    every event in it occurred no later. *)
Theorem claim_fifo locked wid n leaseMs (w w' : World Tbl) l i r :
  claimBatch locked wid n leaseMs w = (Ok l, w') →
  outbox w !! i = Some r → expire_where (w_now w) leaseMs r = false →
  claimable (w_now w) leaseMs r = true → locked i = false → i ∉ l.*1 →
  length l = n ∧ ∀ j rj, (j, rj) ∈ l → ob_occurredAt rj <= ob_occurredAt r.
Proof.
  intros E Hi He Hc Hlo Hout.
  destruct (expire_leases_run leaseMs w) as (w1 & E1 & Hn1 & Hr1).
  destruct (take_batch_run locked wid n leaseMs w1) as (w2 & E2 & _).
  unfold claimBatch, mbind, M_bind in E. rewrite E1, E2 in E. simplify_eq.
  rewrite Hn1 in *. set (picked := findMany _ _ _ _) in *.
  assert ((i, r) ∉ picked) as Hp.
  { intros Hin. apply Hout, list_elem_of_fmap. exists (i, claim_data wid (w_now w) r).
    split; [done|]. apply claimed_elem. eauto. }
  apply findMany_first in Hp as [Hlen Hle].
  - split; [by rewrite merge_sort_Permutation, length_fmap|].
    intros j rj (r0 & Hj & ->)%claimed_elem. specialize (Hle _ Hj). destruct r0; done.
  - change (outbox w1 !! i = Some r). rewrite Hr1, Hi. simpl. by rewrite He.
  - by rewrite Hc, Hlo.
Qed.

End properties.

(** ** Concrete runs *)

Definition demo_event : DomainEvent := mkEvent "e1" 5 (TenantCreatedEvent "t1" "Acme" "acme").
Definition demo_row : OutboxRow := toCreateInput 10 demo_event.
Definition demo_world : World (gmap string) :=
  world_of 20 (empty_db <| d_outbox := {["o1" := demo_row]} |>).

Lemma claim_exclusive_witness :
  ∃ l1 w1 r l2 w3,
    claimBatch (λ _, false) "a" 10 1000 demo_world = (Ok l1, w1) ∧ ("o1", r) ∈ l1 ∧
    claimBatch (λ _, false) "b" 10 1000 w1 = (Ok l2, w3) ∧
    "o1" ∉ l2.*1 ∧ rows_of d_outbox w3 !! "o1" = Some r.
Proof.
  do 5 eexists. split; [vm_compute; reflexivity|].
  split; [apply list_elem_of_here|]. split; [vm_compute; reflexivity|].
  eapply (claim_exclusive (λ _, false) "a" 10 1000 demo_world _ _ "o1" _ (λ _, false) "b" 10 1000
           (claimBatch (λ _, false) "a" 10 1000 demo_world).2);
    [vm_compute; reflexivity|apply list_elem_of_here|vm_compute; reflexivity|
     vm_compute; discriminate|vm_compute; reflexivity].
Defined.

Lemma claim_fifo_witness :
  ∃ l w', claimBatch (λ _, false) "a" 0 1000 demo_world = (Ok l, w') ∧ length l = 0%nat.
Proof.
  do 2 eexists. split; [vm_compute; reflexivity|].
  eapply (claim_fifo (λ _, false) "a" 0 1000 demo_world _ _ "o1" demo_row);
    [vm_compute; reflexivity..|vm_compute; intros H; inversion H].
Defined.

(** A dispatcher that fails for one event type. *)
Definition demo_publish (ev : EventObject) : W (gmap string) unit :=
  match get_field "eventType" ev with
  | Some (VJson (JStr "TENANT_CREATED")) => throw (PlainError "no")
  | _ => mret ()
  end.

