(* ===== verification/OutboxSystem.v ===== *)
(** * Outbox workers running side by side

    Any number of processes run [OutboxProcessor.processBatch] against one database.  A
    step is one statement of one worker (the statements of [claimBatch], [markProcessed],
    [markFailed]), an event being stored, the cleanup, the clock advancing, or a crash.
    The invariant and its consequences hold for every interleaving. *)

From Stdlib Require Import String.
From S2P Require Import Prelude Store Js Errors Domain Schema World Outbox.

#[local] Open Scope string_scope.
#[local] Open Scope Z_scope.
#[local] Set Default Proof Using "Type*".

Section system.
Context {Tbl : Type → Type} `{!Prisma Tbl}.

Notation outbox w := (rows_of d_outbox w).

(** [sys_held] gives, for each worker inside [processBatch], the claimed records its loop
    has not come to yet. *)
Record Sys := mkSys {
  sys_world : World Tbl;
  sys_held : gmap string (list (string * OutboxRow));
}.

Inductive sys_step : Sys → Sys → Prop :=
| step_tick s dt :
    0 <= dt →
    sys_step s (mkSys ((sys_world s) <| w_now ::= Z.add dt |>) (sys_held s))
| step_enqueue s event w :
    enqueue event (sys_world s) = (Ok tt, w) →
    sys_step s (mkSys w (sys_held s))
| step_expire s leaseMs w :
    expire_leases leaseMs (sys_world s) = (Ok tt, w) →
    sys_step s (mkSys w (sys_held s))
| step_take s locked wid n leaseMs l w :
    sys_held s !! wid = None →
    take_batch locked wid n leaseMs (sys_world s) = (Ok l, w) →
    sys_step s (mkSys w (<[wid := l]> (sys_held s)))
| step_processed s wid i r l w :
    sys_held s !! wid = Some ((i, r) :: l) →
    markProcessed i wid (sys_world s) = (Ok tt, w) →
    sys_step s (mkSys w (<[wid := l]> (sys_held s)))
| step_failed s wid i r l err w :
    sys_held s !! wid = Some ((i, r) :: l) →
    markFailed i r wid err (sys_world s) = (Ok tt, w) →
    sys_step s (mkSys w (<[wid := l]> (sys_held s)))
| step_done s wid :
    sys_held s !! wid = Some [] →
    sys_step s (mkSys (sys_world s) (delete wid (sys_held s)))
| step_crash s wid :
    sys_step s (mkSys (sys_world s) (delete wid (sys_held s)))
| step_cleanup s n k w :
    deleteProcessed n (sys_world s) = (Ok k, w) →
    sys_step s (mkSys w (sys_held s)).

(** ** The invariant *)

Record RowWf (r : OutboxRow) : Prop := {
  rw_attempts : 0 <= ob_attempts r;
  rw_lock : ob_status r = OProcessing ↔ is_Some (ob_lockedBy r);
  rw_lockedAt : ob_status r = OProcessing ↔ is_Some (ob_lockedAt r);
  rw_waiting : ob_status r = OPending ∨ ob_status r = OFailed →
               ob_attempts r < ob_maxAttempts r;
  rw_dead : ob_status r = ODeadLetter → is_Some (ob_deadLetterReason r);
  rw_processed : ob_status r = OProcessed → is_Some (ob_processedAt r);
}.

(** The records a worker holds: distinct, and up to date wherever it still has the lock. *)
Definition HeldWf (rows : gmap string OutboxRow) (wid : string)
    (l : list (string * OutboxRow)) : Prop :=
  NoDup l.*1 ∧
  ∀ i r row, (i, r) ∈ l → rows !! i = Some row → ob_lockedBy row = Some wid →
    ob_attempts r = ob_attempts row ∧ ob_maxAttempts r = ob_maxAttempts row.

Definition SysWf (s : Sys) : Prop :=
  (∀ i r, outbox (sys_world s) !! i = Some r → RowWf r) ∧
  (∀ wid l, sys_held s !! wid = Some l → HeldWf (outbox (sys_world s)) wid l).

(** ** Each statement preserves it *)

Lemma expire_wf now r : RowWf r → RowWf (expire_data now r).
Proof.
  intros [? ? ? ? ? ?]. destruct r; simpl in *.
  split; simpl; [done|split; [done|by intros []]..|naive_solver|eauto|done].
Qed.

Lemma claim_wf wid now r : RowWf r → RowWf (claim_data wid now r).
Proof.
  intros [? ? ? ? ? ?]. destruct r; simpl in *.
  split; simpl; [lia|split; [eauto|done]..|naive_solver|done|done].
Qed.

Lemma processed_wf now r : RowWf r → RowWf (processed_data now r).
Proof.
  intros [? ? ? ? ? ?]. destruct r; simpl in *.
  split; simpl; [done|split; [done|by intros []]..|naive_solver|done|eauto].
Qed.

Lemma failed_wf now record err r :
  ob_attempts record = ob_attempts r → ob_maxAttempts record = ob_maxAttempts r →
  RowWf r → RowWf (failed_data now record err r).
Proof.
  intros Ha Hm [? ? ? ? ? ?]. destruct r; simpl in *. unfold failed_data.
  rewrite Ha, Hm. destruct (_ <=? _) eqn:E; bool_to_prop;
    (split; simpl; [done|split; [done|by intros []]..| |eauto|done]); naive_solver lia.
Qed.

Lemma new_row_wf now e : RowWf (toCreateInput now e).
Proof.
  split; simpl; [done|split; [done|by intros []]..|done|done|done].
Qed.

(** A change of rows that keeps the attempts of every row that stays locked by its
    worker keeps what the workers hold up to date. *)
Lemma held_wf_mono rows rows' wid l :
  (∀ i row', rows' !! i = Some row' → ob_lockedBy row' = Some wid →
     ∃ row, rows !! i = Some row ∧ ob_lockedBy row = Some wid ∧
       ob_attempts row = ob_attempts row' ∧ ob_maxAttempts row = ob_maxAttempts row') →
  HeldWf rows wid l → HeldWf rows' wid l.
Proof.
  intros Hr [Hnd Hl]. split; [done|]. intros i r row' Hin Hi Hw.
  destruct (Hr _ _ Hi Hw) as (row & ? & ? & <- & <-). eauto.
Qed.

Lemma held_wf_tail rows wid x l : HeldWf rows wid (x :: l) → HeldWf rows wid l.
Proof.
  intros [Hnd Hl]. split; [by apply NoDup_cons in Hnd as [_ ?]|].
  intros i r row Hin. apply Hl. set_solver.
Qed.

(** A statement that rewrites rows one by one. *)
Lemma rewrite_wf (F : string → OutboxRow → OutboxRow) s w held :
  SysWf s →
  (∀ i, outbox w !! i = F i <$> outbox (sys_world s) !! i) →
  (∀ i r, outbox (sys_world s) !! i = Some r → RowWf r → RowWf (F i r)) →
  (∀ wid l i r, held !! wid = Some l → outbox (sys_world s) !! i = Some r →
     ob_lockedBy (F i r) = Some wid →
     F i r = r ∨ ∀ ri, (i, ri) ∈ l → ob_attempts ri = ob_attempts (F i r) ∧
                                     ob_maxAttempts ri = ob_maxAttempts (F i r)) →
  (∀ wid l, held !! wid = Some l →
     NoDup l.*1 ∧ (HeldWf (outbox (sys_world s)) wid l ∨ sys_held s !! wid = None)) →
  (∀ wid l i r, held !! wid = Some l → sys_held s !! wid = None →
     outbox (sys_world s) !! i = Some r → F i r = r → i ∉ l.*1) →
  SysWf (mkSys w held).
Proof.
  intros [Hrow Hheld] Hw HF Hlock Hnd Hnew. split; cbn.
  - intros i r Hi. rewrite Hw in Hi. destruct (outbox (sys_world s) !! i) as [r0|] eqn:H0;
      [|done]. simpl in Hi. simplify_eq. eauto.
  - intros wid l Hl. destruct (Hnd wid l Hl) as [Hn Hor]. split; [done|].
    intros i ri row Hin Hi Hby. rewrite Hw in Hi.
    destruct (outbox (sys_world s) !! i) as [r0|] eqn:H0; [|done]. simpl in Hi. simplify_eq.
    destruct (Hlock wid l i r0 Hl H0 Hby) as [Heq|]; [|eauto].
    destruct Hor as [[_ Hh]|Hnone].
    + rewrite Heq in *. eauto.
    + destruct (Hnew wid l i r0 Hl Hnone H0 Heq). apply list_elem_of_fmap.
      by exists (i, ri).
Qed.

(** The same for a statement that takes no new row for a worker. *)
Lemma release_wf (F : string → OutboxRow → OutboxRow) s w held :
  SysWf s →
  (∀ i, outbox w !! i = F i <$> outbox (sys_world s) !! i) →
  (∀ i r, outbox (sys_world s) !! i = Some r → RowWf r → RowWf (F i r)) →
  (∀ i r, F i r = r ∨ ob_lockedBy (F i r) = None) →
  (∀ wid l, held !! wid = Some l →
     ∃ l', sys_held s !! wid = Some l' ∧ (l' = l ∨ ∃ x, l' = x :: l)) →
  SysWf (mkSys w held).
Proof.
  intros Hs Hw HF Hlock Hheld. pose proof Hs as [_ Hh].
  apply (rewrite_wf F s); [done..| | |].
  - intros wid l i r _ _ Hby. destruct (Hlock i r) as [?|Hn]; [by left|congruence].
  - intros wid l Hl. destruct (Hheld _ _ Hl) as (l' & Hl' & [->|[x ->]]).
    + split; [by destruct (Hh _ _ Hl')|auto].
    + pose proof (held_wf_tail _ _ _ _ (Hh _ _ Hl')) as Ht. split; [by destruct Ht|auto].
  - intros wid l i r Hl Hn. destruct (Hheld _ _ Hl) as (l' & Hl' & _). congruence.
Qed.

Lemma take_step_wf s locked wid n leaseMs l w :
  SysWf s → sys_held s !! wid = None →
  take_batch locked wid n leaseMs (sys_world s) = (Ok l, w) →
  SysWf (mkSys w (<[wid := l]> (sys_held s))).
Proof.
  intros Hs Hnone E. pose proof Hs as [_ Hh].
  destruct (take_batch_run locked wid n leaseMs (sys_world s)) as (w' & E' & _ & Hw).
  set (picked := findMany _ _ _ _) in *. set (now := w_now (sys_world s)) in *.
  rewrite E in E'. injection E' as Hleq <-.
  assert (∀ i ri, (i, ri) ∈ l → ∃ r0, (i, r0) ∈ picked ∧
            outbox (sys_world s) !! i = Some r0 ∧ ri = claim_data wid now r0) as Hl.
  { rewrite Hleq. intros i ri (r0 & Hin & ->)%claimed_elem. pose proof (findMany_elem _ _ _ _ _ _ Hin).
    naive_solver. }
  apply (rewrite_wf (λ i r, if bool_decide (i ∈ picked.*1) then claim_data wid now r else r) s);
    [done|done|..].
  - intros i r _ Hr. case_bool_decide; [by apply claim_wf|done].
  - intros wid' l' i r Hl' Hi Hby. case_bool_decide as Hp; [|by left]. right.
    assert (wid' = wid) as -> by (destruct r; simpl in Hby; congruence).
    rewrite lookup_insert_eq in Hl'. injection Hl' as <-.
    intros ri (r0 & _ & Hi' & ->)%Hl. by simplify_eq.
  - intros wid' l' Hl'. destruct (decide (wid' = wid)) as [->|].
    + rewrite lookup_insert_eq in Hl'. injection Hl' as <-. split; [|by right].
      rewrite Hleq, merge_sort_Permutation, <-list_fmap_compose.
      rewrite (list_fmap_ext _ fst) by (by intros ? [] ?). apply findMany_NoDup.
    + rewrite lookup_insert_ne in Hl' by done.
      specialize (Hh _ _ Hl'). split; [by destruct Hh|by left].
  - intros wid' l' i r Hl' Hnone' Hi. destruct (decide (wid' = wid)) as [->|];
      [|rewrite lookup_insert_ne in Hl' by done; congruence].
    rewrite lookup_insert_eq in Hl'. injection Hl' as <-.
    case_bool_decide as Hp; [intros Heq%(f_equal ob_attempts); destruct r; simpl in Heq; lia|].
    intros _ ([j ri] & -> & Hin)%list_elem_of_fmap. apply Hp, list_elem_of_fmap.
    destruct (Hl _ _ Hin) as (r0 & ? & _). by exists (j, r0).
Qed.

Lemma mark_step_wf s wid i r l w (F : OutboxRow → OutboxRow) :
  SysWf s → sys_held s !! wid = Some ((i, r) :: l) →
  (∀ j, outbox w !! j =
     (λ row, if holds_lease i wid j row then F row else row) <$> outbox (sys_world s) !! j) →
  (∀ row, outbox (sys_world s) !! i = Some row → ob_lockedBy row = Some wid →
     RowWf row → RowWf (F row)) →
  (∀ row, ob_lockedBy (F row) = None) →
  SysWf (mkSys w (<[wid := l]> (sys_held s))).
Proof.
  intros Hs Hheld Hw HF Hnone.
  apply (release_wf (λ j row, if holds_lease i wid j row then F row else row) s);
    [done|done| | |].
  - intros j row Hj Hr. destruct (holds_lease i wid j row) eqn:E; [|done].
    apply holds_lease_true in E as (-> & ? & _). eauto.
  - intros j row. destruct (holds_lease i wid j row); eauto.
  - intros wid' l' Hl'. destruct (decide (wid' = wid)) as [->|].
    + rewrite lookup_insert_eq in Hl'. injection Hl' as <-. eauto.
    + rewrite lookup_insert_ne in Hl' by done. eauto.
Qed.

Lemma frame_wf s w held :
  SysWf s → outbox w = outbox (sys_world s) →
  (∀ wid l, held !! wid = Some l → sys_held s !! wid = Some l) → SysWf (mkSys w held).
Proof.
  intros Hs Hw Hheld. apply (release_wf (λ _ r, r) s); [done| |done|by left|eauto].
  intros i. rewrite Hw. by destruct (_ !! i).
Qed.

Lemma enqueue_step_wf s e w :
  SysWf s → enqueue e (sys_world s) = (Ok tt, w) → SysWf (mkSys w (sys_held s)).
Proof.
  intros Hs E. unfold enqueue, enqueueMany, for_each, mbind, M_bind, mret, M_ret in E.
  destruct (enqueue_one_run e (sys_world s)) as (w' & E' & _ & _ & _ & Hw).
  rewrite E' in E. simplify_eq/=.
  destruct Hw as [(Hw & Hnone & _)|(Hw & _)]; [|apply (frame_wf s); done].
  destruct Hs as [Hrow Hheld]. split; cbn; rewrite Hw.
  - intros i r [[<- <-]|[_ Hi]]%lookup_insert_Some; [apply new_row_wf|eauto].
  - intros wid l Hl. eapply held_wf_mono; [|by apply Hheld].
    intros i row [[<- <-]|[_ Hi]]%lookup_insert_Some Hby; [done|eauto].
Qed.

Lemma cleanup_step_wf s n k w :
  SysWf s → deleteProcessed n (sys_world s) = (Ok k, w) → SysWf (mkSys w (sys_held s)).
Proof.
  intros [Hrow Hheld] E.
  destruct (deleteProcessed_run n (sys_world s)) as (k' & w' & E' & _ & Hw).
  rewrite E in E'. simplify_eq. split; cbn; [eauto|].
  intros wid l Hl. eapply held_wf_mono; [|by apply Hheld]. eauto 6.
Qed.

Lemma sys_step_wf s s' : SysWf s → sys_step s s' → SysWf s'.
Proof.
  intros Hs Hstep. destruct Hstep.
  - apply (frame_wf s); [done|by destruct (sys_world s)|done].
  - by eapply enqueue_step_wf.
  - destruct (expire_leases_run leaseMs (sys_world s)) as (w' & E & _ & Hw).
    rewrite E in *. simplify_eq.
    apply (release_wf (λ _ r, if expire_where (w_now (sys_world s)) leaseMs r
                              then expire_data (w_now (sys_world s)) r else r) s); [done|done|..].
    + intros _ r _ Hr. case_match; [by apply expire_wf|done].
    + intros _ r. case_match; [right; by destruct r|by left].
    + eauto.
  - by eapply take_step_wf.
  - destruct (markProcessed_run i wid (sys_world s)) as (w' & E & _ & Hw).
    rewrite E in *. simplify_eq. eapply mark_step_wf; [done|done|done|..].
    + intros row _ _. apply processed_wf.
    + by intros [].
  - destruct (markFailed_run i r wid err (sys_world s)) as (w' & E & _ & Hw).
    rewrite E in *. simplify_eq. eapply mark_step_wf; [done|done|done|..].
    + intros row Hi Hby. destruct (proj2 Hs _ _ H) as [_ Hh].
      destruct (Hh i r row) as [Ha Hm]; [set_solver|done|done|]. by apply failed_wf.
    + by intros [].
  - apply (frame_wf s); [done|done|]. by intros wid' l [_ ?]%lookup_delete_Some.
  - apply (frame_wf s); [done|done|]. by intros wid' l [_ ?]%lookup_delete_Some.
  - by eapply cleanup_step_wf.
Qed.

(** A system that starts with no worker in a batch and well-formed rows. *)
Definition sys_init (s : Sys) : Prop :=
  sys_held s = ∅ ∧ ∀ i r, outbox (sys_world s) !! i = Some r → RowWf r.

Lemma sys_reachable_wf s s' : sys_init s → rtc sys_step s s' → SysWf s'.
Proof.
  intros [Hh Hr] Hs. assert (SysWf s) as Hwf.
  { split; [done|]. intros wid l. by rewrite Hh, lookup_empty. }
  clear Hh Hr. induction Hs; eauto using sys_step_wf.
Qed.

(** ** The life of one event

    The abstract machine one event goes through, and how often it can be retried. *)

Definition Life : Type := OutboxStatus * Z.

Inductive life_step (max : Z) : Life → Life → Prop :=
| life_claim st n :
    st = OPending ∨ st = OFailed → n < max → life_step max (st, n) (OProcessing, n + 1)
| life_reclaim n : life_step max (OProcessing, n) (OProcessing, n + 1)
| life_complete n : life_step max (OProcessing, n) (OProcessed, n)
| life_retry n : n < max → life_step max (OProcessing, n) (OFailed, n)
| life_give_up n : max <= n → life_step max (OProcessing, n) (ODeadLetter, n).

(** [life_run max a k b]: from [a] to [b] with [k] failed deliveries put back to wait. *)
Inductive life_run (max : Z) (a : Life) : nat → Life → Prop :=
| life_start : life_run max a 0 a
| life_next k b c :
    life_run max a k b → life_step max b c →
    life_run max a (if bool_decide (c.1 = OFailed) then S k else k) c.

Lemma life_run_bound max n0 k st n :
  life_run max (OPending, n0) k (st, n) →
  n0 <= n ∧ (Z.of_nat k <= n - n0 - (if bool_decide (st = OProcessing) then 1 else 0)) ∧
  (st = OFailed → n < max).
Proof.
  intros H. remember (st, n) as c eqn:Hc. revert st n Hc.
  induction H as [|k b c Hrun IH Hstep]; intros st n Hc; simplify_eq.
  - rewrite bool_decide_eq_false_2 by done. split_and!; [lia..|done].
  - destruct b as [st' n']. destruct (IH _ _ eq_refl) as (? & Hk & ?).
    inversion Hstep; subst; simpl in *; repeat case_bool_decide; simplify_eq;
      split_and!; try done; try lia; naive_solver lia.
Qed.

Definition life (r : OutboxRow) : Life := (ob_status r, ob_attempts r).

(** The columns an event is identified by. *)
Definition identity (r : OutboxRow) :=
  (ob_eventId r, ob_eventType r, ob_payload r, ob_occurredAt r, ob_maxAttempts r,
   ob_tenantId r, ob_aggregateType r, ob_aggregateId r).

(** One row across one step. *)
Definition row_moves (r r' : OutboxRow) : Prop :=
  r' = r ∨ life_step (ob_maxAttempts r) (life r) (life r') ∧ identity r' = identity r.

Lemma expire_moves now leaseMs r :
  expire_where now leaseMs r = true → row_moves r (expire_data now r).
Proof.
  intros H. unfold expire_where in H. bool_to_prop. right.
  destruct r; simpl in *; subst. split; [by apply life_give_up|done].
Qed.

Lemma claim_moves wid now leaseMs r :
  RowWf r → claimable now leaseMs r = true → row_moves r (claim_data wid now r).
Proof.
  intros [_ _ _ Hw _ _] H. unfold claimable in H. right. destruct r; simpl in *.
  split; [|done]. unfold life. simpl.
  apply orb_true_iff in H as [[Hs _]%andb_true_iff|[Hs _]%andb_true_iff].
  - rewrite <-bool_decide_or in Hs. apply bool_decide_eq_true in Hs.
    by apply life_claim; [|apply Hw].
  - bool_to_prop. subst. apply life_reclaim.
Qed.

Lemma failed_moves now record err r wid i :
  ob_attempts record = ob_attempts r → ob_maxAttempts record = ob_maxAttempts r →
  holds_lease i wid i r = true → row_moves r (failed_data now record err r).
Proof.
  intros Ha Hm (_ & _ & Hs)%holds_lease_true. right. unfold failed_data.
  rewrite Ha, Hm. destruct r; simpl in *; subst. split; [|done]. unfold life. simpl.
  destruct (_ <=? _) eqn:E; bool_to_prop; constructor; lia.
Qed.

Lemma processed_moves now r wid i :
  holds_lease i wid i r = true → row_moves r (processed_data now r).
Proof.
  intros (_ & _ & Hs)%holds_lease_true. right. destruct r; simpl in *; subst.
  split; [apply life_complete|done].
Qed.

(** Every step moves every row that stays along the abstract machine. *)
Lemma sys_step_moves s s' i r r' :
  SysWf s → sys_step s s' →
  outbox (sys_world s) !! i = Some r → outbox (sys_world s') !! i = Some r' →
  row_moves r r'.
Proof.
  intros Hs Hstep Hr Hr'. destruct Hstep; cbn in Hr'.
  - left. destruct (sys_world s). unfold rows_of in *. simpl in *. congruence.
  - left. unfold enqueue, enqueueMany, for_each, mbind, M_bind, mret, M_ret in H.
    destruct (enqueue_one_run event (sys_world s)) as (w' & E & _ & _ & _ & Hw).
    rewrite E in H. simplify_eq. destruct Hw as [(Hw & Hnone & _)|(Hw & _)];
      rewrite Hw in Hr'; [|congruence].
    apply lookup_insert_Some in Hr' as [[<- _]|[_ ?]]; congruence.
  - destruct (expire_leases_run leaseMs (sys_world s)) as (w' & E & _ & Hw).
    rewrite E in *. simplify_eq. rewrite Hw, Hr in Hr'. simpl in Hr'. simplify_eq.
    case_match eqn:He; [by eapply expire_moves|by left].
  - destruct (take_batch_run locked wid n leaseMs (sys_world s)) as (w' & E & _ & Hw).
    rewrite E in *. simplify_eq. rewrite Hw, Hr in Hr'. simpl in Hr'. simplify_eq.
    case_bool_decide as Hp; [|by left].
    apply list_elem_of_fmap in Hp as ([j r0] & -> & Hin).
    apply findMany_elem in Hin as [Hi Hc]. bool_to_prop.
    change (outbox (sys_world s) !! j = Some r0) in Hi. cbn in Hr. simplify_eq.
    destruct Hs as [Hrow _]. by eapply claim_moves; [by eapply Hrow|].
  - destruct (markProcessed_run i0 wid (sys_world s)) as (w' & E & _ & Hw).
    rewrite E in *. simplify_eq. rewrite Hw, Hr in Hr'. simpl in Hr'. simplify_eq.
    case_match eqn:He; [|by left]. pose proof He as (-> & _)%holds_lease_true.
    by eapply processed_moves.
  - destruct (markFailed_run i0 r0 wid err (sys_world s)) as (w' & E & _ & Hw).
    rewrite E in *. simplify_eq. rewrite Hw, Hr in Hr'. simpl in Hr'. simplify_eq.
    case_match eqn:He; [|by left]. pose proof He as (-> & Hby & _)%holds_lease_true.
    destruct (proj2 Hs _ _ H) as [_ Hh]. destruct (Hh i0 r0 r) as [Ha Hm]; [set_solver|done..|].
    by eapply failed_moves.
  - left. cbn in *. congruence.
  - left. cbn in *. congruence.
  - left. destruct (deleteProcessed_run n (sys_world s)) as (k' & w' & E & _ & Hw).
    rewrite E in *. simplify_eq. apply Hw in Hr'. congruence.
Qed.

(** Only the cleanup removes a row, and only a processed one. *)
Lemma row_stays s s' i r :
  sys_step s s' → outbox (sys_world s) !! i = Some r → ob_status r ≠ OProcessed →
  outbox (sys_world s') !! i ≠ None.
Proof.
  intros Hstep Hr Hst. destruct Hstep; cbn.
  - destruct (sys_world s). unfold rows_of in *. simpl in *. congruence.
  - unfold enqueue, enqueueMany, for_each, mbind, M_bind, mret, M_ret in H.
    destruct (enqueue_one_run event (sys_world s)) as (w' & E & _ & _ & _ & Hw).
    rewrite E in H. simplify_eq. destruct Hw as [(-> & _)|(-> & _)]; [|congruence].
    rewrite lookup_insert_None. naive_solver.
  - destruct (expire_leases_run leaseMs (sys_world s)) as (w' & E & _ & Hw).
    rewrite E in *. simplify_eq. by rewrite Hw, Hr.
  - destruct (take_batch_run locked wid n leaseMs (sys_world s)) as (w' & E & _ & Hw).
    rewrite E in *. simplify_eq. by rewrite Hw, Hr.
  - destruct (markProcessed_run i0 wid (sys_world s)) as (w' & E & _ & Hw).
    rewrite E in *. simplify_eq. by rewrite Hw, Hr.
  - destruct (markFailed_run i0 r0 wid err (sys_world s)) as (w' & E & _ & Hw).
    rewrite E in *. simplify_eq. by rewrite Hw, Hr.
  - congruence.
  - congruence.
  - by rewrite (deleteProcessed_only n _ _ _ _ _ H Hr Hst).
Qed.

(** The life cycle of a new event with [k] retries takes at least [k + 1] attempts. *)
Lemma retry_bound max k b : 0 < max → life_run max (OPending, 0) k b → Z.of_nat k < max.
Proof.
  intros Hmax H. remember (OPending, 0) as a eqn:Ha.
  induction H as [|k b c Hrun IH Hstep]; [done|].
  case_bool_decide as Hc; [|done]. destruct c as [st n]. simpl in Hc. subst.
  pose proof (life_next _ _ _ _ _ Hrun Hstep) as Hn. simpl in Hn.
  apply life_run_bound in Hn as (_ & Hk & Hf). simpl in Hk. specialize (Hf eq_refl). lia.
Qed.

(** Terminal states of an event. *)
Definition terminal (r : OutboxRow) : bool :=
  bool_decide (ob_status r = OProcessed) || bool_decide (ob_status r = ODeadLetter)
  || bool_decide (ob_status r = OCancelled).

Lemma terminal_stuck max r r' : terminal r = true → ¬ life_step max (life r) (life r').
Proof.
  unfold terminal, life. intros Ht Hstep. inversion Hstep; destruct (ob_status r);
    simplify_eq; try done; naive_solver.
Qed.

(** [retries i s k s']: a run from [s] to [s'] during which event [i] stays in the table
    and its delivery fails, and is put back to wait, [k] times. *)
Definition failed_in (i : string) (s : Sys) : bool :=
  match outbox (sys_world s) !! i with
  | Some r => bool_decide (ob_status r = OFailed)
  | None => false
  end.

Inductive retries (i : string) (s : Sys) : nat → Sys → Prop :=
| retries_start : retries i s 0 s
| retries_step k s1 s2 :
    retries i s k s1 → sys_step s1 s2 → is_Some (outbox (sys_world s2) !! i) →
    retries i s (if negb (failed_in i s1) && failed_in i s2 then S k else k) s2.

Lemma retries_rtc i s k s' : retries i s k s' → rtc sys_step s s'.
Proof. induction 1; [done|]. by eapply rtc_r. Qed.

Lemma retries_life i s k s' r0 :
  sys_init s → outbox (sys_world s) !! i = Some r0 → retries i s k s' →
  ∃ r, outbox (sys_world s') !! i = Some r ∧ ob_maxAttempts r = ob_maxAttempts r0 ∧
       life_run (ob_maxAttempts r0) (life r0) k (life r).
Proof.
  intros Hinit Hr0. induction 1 as [|k s1 s2 Hrun IH Hstep Hsome].
  { exists r0. split_and!; [done..|constructor]. }
  destruct IH as (r1 & Hr1 & Hmax & Hlife). destruct Hsome as [r2 Hr2].
  assert (SysWf s1) as Hwf by eauto using sys_reachable_wf, retries_rtc.
  exists r2. split; [done|]. unfold failed_in. rewrite Hr1, Hr2.
  destruct (sys_step_moves s1 s2 i r1 r2 Hwf Hstep Hr1 Hr2) as [->|[Hl Hid]].
  - rewrite andb_comm, andb_negb_r. done.
  - split; [unfold identity in Hid; congruence|].
    pose proof (life_next _ _ _ _ _ Hlife ltac:(rewrite <-Hmax; exact Hl)) as Hn.
    assert (bool_decide (ob_status r1 = OFailed) = true → ob_status r2 ≠ OFailed) as Hf.
    { intros ?%bool_decide_eq_true. unfold life in Hl. inversion Hl; congruence. }
    simpl in Hn. destruct (bool_decide (ob_status r1 = OFailed)); simpl; [|done].
    rewrite bool_decide_eq_false_2 in Hn by auto. done.
Qed.

(** ** Properties *)

(** Whatever the interleaving of workers, crashes and clock ticks, every row of the
    outbox is consistent: it is locked exactly while it is being processed, an event that
    waits (pending or failed) has attempts left, a dead letter has a reason and a
    processed event a date. *)
Theorem outbox_system_invariant s s' i r :
  sys_init s → rtc sys_step s s' → outbox (sys_world s') !! i = Some r → RowWf r.
Proof. intros Hi Hs Hr. destruct (sys_reachable_wf s s' Hi Hs) as [H _]. eauto. Qed.

(** C7: One step of the system moves an event along the abstract life cycle or not at
    all, never changes what it is (type, payload, tenant, aggregate, attempts allowed),
    and never changes an event in a terminal state; only processed events disappear. *)
Theorem outbox_refines_life s0 s s' i r :
  sys_init s0 → rtc sys_step s0 s → sys_step s s' → outbox (sys_world s) !! i = Some r →
  match outbox (sys_world s') !! i with
  | Some r' => row_moves r r' ∧ (terminal r = true → r' = r)
  | None => ob_status r = OProcessed
  end.
Proof.
  intros Hi Hs Hstep Hr. pose proof (sys_reachable_wf _ _ Hi Hs) as Hwf.
  destruct (outbox (sys_world s') !! i) as [r'|] eqn:Hr'.
  - pose proof (sys_step_moves _ _ _ _ _ Hwf Hstep Hr Hr') as Hm. split; [done|].
    intros Ht. destruct Hm as [?|[Hl _]]; [done|]. by apply terminal_stuck in Hl.
  - destruct (decide (ob_status r = OProcessed)) as [?|Hn]; [done|exfalso].
    eapply (row_stays s s'); eauto.
Qed.

(** C35: An event is put back to wait at most [maxAttempts - 1] times.  In any run in
    which it stays in the table, the failed deliveries of a new event that are retried
    are fewer than its attempts allowed. *)
Theorem outbox_retries_bounded s i r k s' :
  sys_init s → outbox (sys_world s) !! i = Some r →
  ob_status r = OPending → ob_attempts r = 0 → 0 < ob_maxAttempts r →
  retries i s k s' → Z.of_nat k < ob_maxAttempts r.
Proof.
  intros Hi Hr Hst Ha Hmax Hk.
  destruct (retries_life _ _ _ _ _ Hi Hr Hk) as (r' & _ & Hm & Hl).
  unfold life in Hl. rewrite Hst, Ha in Hl. by apply (retry_bound _ _ _ Hmax) in Hl.
Qed.
End system.

(** ** Concrete runs *)

Definition demo_sys : Sys (Tbl := gmap string) := mkSys demo_world ∅.

Lemma demo_init : sys_init demo_sys.
Proof.
  split; [done|]. intros i r Hi.
  change (({["o1" := demo_row]} : gmap string OutboxRow) !! i = Some r) in Hi.
  apply lookup_singleton_Some in Hi as [_ <-]. apply new_row_wf.
Qed.

(** Worker ["a"] takes the event, and its delivery fails. *)
Definition demo_taken : Sys (Tbl := gmap string) :=
  let '(res, w) := take_batch (λ _, false) "a" 10 1000 demo_world in
  mkSys w {["a" := match res with Ok l => l | Err _ => [] end]}.

Definition demo_failed : Sys (Tbl := gmap string) :=
  match sys_held demo_taken !! "a" with
  | Some ((i, r) :: _) =>
      mkSys (markFailed i r "a" "boom" (sys_world demo_taken)).2 {["a" := []]}
  | _ => demo_taken
  end.

Lemma demo_take_step : sys_step demo_sys demo_taken.
Proof.
  apply (step_take demo_sys (λ _, false) "a" 10 1000); [reflexivity|vm_compute; reflexivity].
Qed.

Lemma demo_fail_step : sys_step demo_taken demo_failed.
Proof.
  assert (∃ r, sys_held demo_taken !! "a" = Some [("o1", r)] ∧
            ∃ w, markFailed "o1" r "a" "boom" (sys_world demo_taken) = (Ok tt, w) ∧
                 demo_failed = mkSys w (<["a" := []]> (sys_held demo_taken)))
    as (r & Hr & w & Hw & Hf).
  { eexists. split; [vm_compute; reflexivity|].
    eexists. split; [vm_compute; reflexivity|]. vm_compute; reflexivity. }
  rewrite Hf. exact (step_failed demo_taken "a" "o1" r [] "boom" w Hr Hw).
Qed.

Lemma outbox_system_invariant_witness :
  ∃ r, rows_of d_outbox (sys_world demo_failed) !! "o1" = Some r ∧ RowWf r.
Proof.
  eexists. split; [vm_compute; reflexivity|].
  eapply (outbox_system_invariant demo_sys demo_failed "o1"); [apply demo_init| |].
  - eapply rtc_l; [apply demo_take_step|]. eapply rtc_l; [apply demo_fail_step|reflexivity].
  - vm_compute; reflexivity.
Defined.

Lemma outbox_refines_life_witness :
  ∃ r, rows_of d_outbox (sys_world demo_taken) !! "o1" = Some r ∧
    match rows_of d_outbox (sys_world demo_failed) !! "o1" with
    | Some r' => row_moves r r' ∧ (terminal r = true → r' = r)
    | None => ob_status r = OProcessed
    end.
Proof.
  eexists. split; [vm_compute; reflexivity|].
  eapply (outbox_refines_life demo_sys demo_taken demo_failed "o1");
    [apply demo_init|eapply rtc_l; [apply demo_take_step|reflexivity]
    |apply demo_fail_step|vm_compute; reflexivity].
Defined.

Lemma outbox_retries_bounded_witness :
  retries "o1" demo_sys 1 demo_failed ∧ 1 < ob_maxAttempts demo_row.
Proof.
  assert (retries "o1" demo_sys 0 demo_taken) as H0.
  { replace 0%nat with (if negb (failed_in "o1" demo_sys) && failed_in "o1" demo_taken
                        then 1%nat else 0%nat) by (vm_compute; reflexivity).
    apply retries_step; [constructor|apply demo_take_step|vm_compute; eauto]. }
  assert (retries "o1" demo_sys 1 demo_failed) as H.
  { replace 1%nat with (if negb (failed_in "o1" demo_taken) && failed_in "o1" demo_failed
                        then 1%nat else 0%nat) by (vm_compute; reflexivity).
    eapply retries_step; [apply H0|apply demo_fail_step|vm_compute; eauto]. }
  split; [exact H|].
  apply (outbox_retries_bounded demo_sys "o1" demo_row 1 demo_failed);
    [apply demo_init|reflexivity|reflexivity|reflexivity|reflexivity|exact H].
Defined.
