(* ===== verification/Logs.v ===== *)
(** * Activity log, audit log and HTML escaping

    [ActivityRepository.create] and [AuditRepository.create]
    ([src/infrastructure/database/repositories]) write one row for every change of the
    system; [escapeHtml] ([src/shared/utils/html.util.ts]) guards the mails. *)

From stdpp Require Import pretty.
From Stdlib Require Import Ascii String.
From S2P Require Import Prelude Store Js Errors Domain Schema World.

#[local] Open Scope string_scope.
#[local] Set Default Proof Using "Type*".

(** ** HTML *)

Definition HTML_ESCAPE (c : ascii) : string :=
  if Ascii.eqb c "&" then "&amp;" else if Ascii.eqb c "<" then "&lt;"
  else if Ascii.eqb c ">" then "&gt;" else if (code c =? 34)%Z then "&quot;"
  else if Ascii.eqb c "'" then "&#39;" else String c EmptyString.

Definition escapeHtml (value : string) : string := str_flat_map HTML_ESCAPE value.

(** [encodeURIComponent]: UTF-8 bytes in hexadecimal, except unreserved characters. *)
Definition hex_digit (n : Z) : ascii := of_code (if (n <? 10)%Z then 48 + n else 55 + n)%Z.
Definition percent (byte : Z) : string :=
  String "%" (String (hex_digit (byte / 16)) (String (hex_digit (byte mod 16)) "")).
Definition uri_char (c : ascii) : string :=
  if is_alnum c || includes ["-"; "_"; "."; "!"; "~"; "*"; "'"; "("; ")"] (String c "")
  then String c ""
  else if (code c <? 128)%Z then percent (code c)
  else percent (192 + code c / 64) ++ percent (128 + code c mod 64).
Definition encodeURIComponent (s : string) : string := str_flat_map uri_char s.

(** ** Logs *)

(** [ActivityLogEntry] *)
Record ActivityLogEntry := mkActivity {
  ae_tenantId : string;
  ae_ticketId : option string;
  ae_customerId : option string;
  ae_actorId : option string;
  ae_actorRole : option string;
  ae_eventType : string;
  ae_description : string;
  ae_oldValue : option (list (string * Json));
  ae_newValue : option (list (string * Json));
}.

(** [AuditLogEntry] *)
Record AuditLogEntry := mkAudit {
  le_tenantId : option string;
  le_actorId : option string;
  le_actorRole : option string;
  le_action : string;
  le_resource : string;
  le_resourceId : option string;
  le_oldValue : option (list (string * Json));
  le_newValue : option (list (string * Json));
  le_ipAddress : option string;
  le_userAgent : option string;
  le_metadata : list (string * Json);
}.

Section logs.
Context {Tbl : Type → Type} `{!Prisma Tbl}.

(** A nullable foreign key refers to a row of [table]. *)
Definition refers {R} (table : Tbl R) (key : option string) : bool :=
  match key with
  | Some i => bool_decide (is_Some (findUnique i table))
  | None => true
  end.

Definition activity_create (e : ActivityLogEntry) : W Tbl unit :=
  i ← draw;
  now ← get_now;
  try_catch
    (create_row d_activities (λ _ _, false)
       (λ db, refers (d_tenants db) (Some (ae_tenantId e))
              && refers (d_tickets db) (ae_ticketId e)
              && refers (d_customers db) (ae_customerId e)) i
       (mkActivityRow (ae_tenantId e) (ae_ticketId e) (ae_customerId e) (ae_actorId e)
          (ae_actorRole e) (ae_eventType e) (ae_description e) (ae_oldValue e)
          (ae_newValue e) now))
    (λ _, throw (InfrastructureError "Failed to create activity log")).

(** Outside a transaction a failure is only logged; inside one it is rethrown, so that a
    change never commits without its audit record. *)
Definition audit_create (e : AuditLogEntry) : W Tbl unit :=
  i ← draw;
  now ← get_now;
  try_catch
    (create_row d_audits (λ _ _, false)
       (λ db, refers (d_tenants db) (le_tenantId e) && refers (d_users db) (le_actorId e)) i
       (mkAuditRow (le_tenantId e) (le_actorId e) (le_actorRole e) (le_action e)
          (le_resource e) (le_resourceId e) (le_oldValue e) (le_newValue e)
          (le_ipAddress e) (le_userAgent e) (le_metadata e) now))
    (λ error,
      inside ← gets w_inTransaction;
      if inside : bool then throw error else mret ()).

(** ** Lemmas *)

(** Outside a transaction an audit entry never makes the caller fail. *)
Lemma audit_create_outside e w :
  w_inTransaction w = false → ∃ w', audit_create e w = (Ok tt, w').
Proof.
  intros Ht. unfold audit_create, draw, draw_rt, get_now, gets, try_catch, create_row,
    put_table, modify, throw, mbind, M_bind, mret, M_ret. cbv beta iota.
  destruct w; cbn in *. subst. repeat (case_match; simplify_eq; try (by eexists)).
Qed.
End logs.

(** ** Properties *)

(** The characters [escapeHtml] replaces. *)
Definition html_special (c : ascii) : bool :=
  Ascii.eqb c "<" || Ascii.eqb c ">" || (code c =? 34)%Z || Ascii.eqb c "'".

Lemma str_flat_map_forall (f : ascii → string) p s :
  (∀ c, str_forall p (f c) = true) → str_forall p (str_flat_map f s) = true.
Proof.
  intros Hf. induction s as [|c s IH]; simpl; [done|]. by rewrite str_forall_app, Hf, IH.
Qed.

(** Text interpolated into a mail can open no tag and close no attribute: no escaped
    value contains [<], [>], a double or a single quote. *)
Theorem escapeHtml_safe s : str_forall (λ c, negb (html_special c)) (escapeHtml s) = true.
Proof.
  apply str_flat_map_forall. intros c. unfold HTML_ESCAPE.
  destruct (Ascii.eqb c "&") eqn:E1; [done|]. destruct (Ascii.eqb c "<") eqn:E2; [done|].
  destruct (Ascii.eqb c ">") eqn:E3; [done|]. destruct (code c =? 34)%Z eqn:E4; [done|].
  destruct (Ascii.eqb c "'") eqn:E5; [done|]. simpl. unfold html_special.
  by rewrite E2, E3, E4, E5.
Qed.
