(* ===== verification/Tokens.v ===== *)
(** * Sessions: access and refresh tokens

    [src/application/auth/services/token.service.ts]: token pairs, rotation of refresh
    tokens with an atomic claim, reuse detection over the token family, revocation, and
    the checks a session must pass.  [jsonwebtoken], [argon2] and SHA-256 are the
    interface [Crypto]. *)

From stdpp Require Import pretty.
From Stdlib Require Import Ascii String.
From S2P Require Import Prelude Store Js Errors Domain Ticket Customer Tenant User Schema World.

#[local] Open Scope string_scope.
#[local] Open Scope Z_scope.
#[local] Set Default Proof Using "Type*".

(** ** Durations: [parseDurationMs] of jwt.config.ts *)

Fixpoint take_digits (acc : Z) (s : string) : Z * string :=
  match s with
  | String c rest =>
      if is_digit c then take_digits (10 * acc + (code c - 48)) rest else (acc, s)
  | EmptyString => (acc, s)
  end.

Definition UNIT_MS : list (string * Z) :=
  [("ms", 1); ("s", 1000); ("m", 60 * 1000); ("h", 60 * 60 * 1000);
   ("d", 24 * 60 * 60 * 1000)].

(** [/^(\d+)\s*(ms|s|m|h|d)?$/] on the trimmed value. *)
Definition parseDurationMs (value : string) : result error Z :=
  let bad := Err (PlainError ("Invalid duration: " ++ value)) in
  match trim value with
  | String c rest =>
      if is_digit c then
        let '(amount, unit_) := take_digits 0 (String c rest) in
        let unit_ := drop_start is_space unit_ in
        match unit_ with
        | EmptyString => Ok (amount * 1000)
        | _ => match get_field unit_ UNIT_MS with
               | Some ms => Ok (amount * ms)
               | None => bad
               end
        end
      else bad
  | EmptyString => bad
  end.

(** [getJwtConfig()], after validation *)
Record JwtConfig := mkJwtConfig {
  accessSecret : string;
  refreshSecret : string;
  accessExpiresIn : string;
  refreshExpiresIn : string;
  accessExpiresInSeconds : Z;
  refreshExpiresInMs : Z;
}.

(** ** Libraries *)

(** The claims of a token of either type; [RefreshTokenPayload] and [AccessTokenPayload]
    share [sub] and [type]. *)
Record JwtPayload := mkJwtPayload {
  p_sub : string;
  p_type : string;
  p_tenantId : option string;
  p_role : string;
  p_email : string;
  p_familyId : string;
  p_jti : option string;
}.

Inductive JwtResult := JwtValid (p : JwtPayload) | JwtExpired | JwtInvalid.

(** [jwt_sign now payload secret ms] is valid until [now + ms]; a token is only accepted
    with the secret it was signed with.  [argon2_hash salt s] verifies [s] alone. *)
Class Crypto := {
  jwt_sign : Z → JwtPayload → string → Z → string;
  jwt_verify : Z → string → string → JwtResult;
  argon2_hash : string → string → string;
  argon2_verify : string → string → bool;
  sha256 : string → string;
  jwt_roundtrip now payload secret ms now' :
    now <= now' < now + ms → jwt_verify now' (jwt_sign now payload secret ms) secret
                             = JwtValid payload;
  argon2_spec salt s s' : argon2_verify (argon2_hash salt s) s' = bool_decide (s = s');
}.

(** ** TokenService *)

Record TokenPair := mkTokenPair {
  accessToken : string;
  refreshToken : string;
  expiresIn : Z;
}.

Definition ROTATION_GRACE_MS : Z := 10000.
Definition BLOCKED_TENANT_STATUSES : list string := ["SUSPENDED"; "CANCELLED"].

Section service.
Context {Tbl : Type → Type} `{!Prisma Tbl} {Cr : Crypto} (cfg : JwtConfig).

Definition sign (payload : JwtPayload) (secret : string) (duration : string)
  : W Tbl string :=
  ms ← lift (parseDurationMs duration);
  now ← get_now;
  mret (jwt_sign now payload secret ms).

Definition generateAccessToken (userId : string) (tenantId : option string)
    (role email : string) : W Tbl string :=
  sign (mkJwtPayload userId "access" tenantId role email "" None)
    (accessSecret cfg) (accessExpiresIn cfg).

Definition generateRefreshToken (userId familyId : string) (tokenId : option string)
  : W Tbl string :=
  sign (mkJwtPayload userId "refresh" None "" "" familyId tokenId)
    (refreshSecret cfg) (refreshExpiresIn cfg).

Definition verify_token (type secret : string) (expired invalid : string) (token : string)
  : W Tbl JwtPayload :=
  now ← get_now;
  match jwt_verify now token secret with
  | JwtExpired => throw (UnauthorizedError expired)
  | JwtInvalid => throw (UnauthorizedError invalid)
  | JwtValid payload =>
      if bool_decide (p_type payload = type) then mret payload
      else throw (UnauthorizedError invalid)
  end.

Definition verifyAccessToken : string → W Tbl JwtPayload :=
  verify_token "access" (accessSecret cfg) "Access token expired" "Invalid access token".

Definition verifyRefreshToken : string → W Tbl JwtPayload :=
  verify_token "refresh" (refreshSecret cfg) "Refresh token expired" "Invalid refresh token".

(** Throws when the user, or their organization, may no longer obtain tokens. *)
Definition assertAccountUsable (user : UserRow) : W Tbl unit :=
  if bool_decide (us_status user = USuspended) || bool_decide (us_status user = UInactive)
  then throw (ForbiddenError "Your account is not active")
  else
    now ← get_now;
    if match us_lockedUntil user with Some t => now <? t | None => false end
    then throw (UnauthorizedError "Account is temporarily locked")
    else
      match us_tenantId user with
      | Some tenantId =>
          if str_truthy tenantId then
            tenant ← find_unique d_tenants tenantId;
            match tenant with
            | None => throw (ForbiddenError "Your organization account is not active")
            | Some t =>
                if includes BLOCKED_TENANT_STATUSES (nr_status t)
                then throw (ForbiddenError "Your organization account is not active")
                else mret ()
            end
          else mret ()
      | None => mret ()
      end.

(** Rejects access claims that account changes made stale. *)
Definition assertAccessTokenUsable (payload : JwtPayload) : W Tbl unit :=
  user ← find_unique d_users (p_sub payload);
  match user with
  | None => throw (UnauthorizedError "Session is no longer valid")
  | Some user =>
      if negb (bool_decide (role_string (us_role user) = p_role payload))
         || negb (bool_decide (us_email user = p_email payload))
         || negb (bool_decide (us_tenantId user = p_tenantId payload))
      then throw (UnauthorizedError "Session is no longer valid")
      else assertAccountUsable user
  end.

(** [familyId] defaults to a fresh identifier; [argon2.hash] draws a salt. *)
Definition createTokenPair (userId : string) (tenantId : option string)
    (role email : string) (ipAddress userAgent : option string) (familyId : option string)
  : W Tbl TokenPair :=
  familyId ← match familyId with Some f => mret f | None => draw end;
  tokenId ← draw;
  refresh ← generateRefreshToken userId familyId (Some tokenId);
  access ← generateAccessToken userId tenantId role email;
  salt ← draw;
  now ← get_now;
  let tokenHash := argon2_hash salt refresh in
  _ ← create_row d_refreshTokens (λ _ r, bool_decide (rt_tokenHash r = tokenHash))
        (λ db, bool_decide (is_Some (findUnique userId (d_users db)))) tokenId
        (mkRefreshTokenRow userId tokenHash familyId false None None
           (now + refreshExpiresInMs cfg) ipAddress userAgent now);
  mret (mkTokenPair access refresh (accessExpiresInSeconds cfg)).

(** What every revocation writes. *)
Definition revoke_data (now : Z) (reason : string) (r : RefreshTokenRow) : RefreshTokenRow :=
  r <| rt_isRevoked := true |> <| rt_revokedAt := Some now |>
    <| rt_revokedReason := Some reason |>.

Definition revoke_where (p : string → RefreshTokenRow → bool) (reason : string)
  : W Tbl Z :=
  now ← get_now;
  update_many d_refreshTokens (λ i r, p i r && negb (rt_isRevoked r))
    (revoke_data now reason).

Definition revokeTokenFamily (familyId reason : string) : W Tbl unit :=
  _ ← revoke_where (λ _ r, bool_decide (rt_familyId r = familyId)) reason; mret ().

Definition revokeAllUserTokens (userId reason : string) : W Tbl unit :=
  _ ← revoke_where (λ _ r, bool_decide (rt_userId r = userId)) reason; mret ().

(** The relation filter [{ user: { tenantId } }] reads the users table. *)
Definition revokeAllTenantTokens (tenantId reason : string) : W Tbl unit :=
  users ← gets (λ w, d_users (w_db w));
  _ ← revoke_where (λ _ r, bool_decide
        ((findUnique (rt_userId r) users ≫= us_tenantId) = Some tenantId)) reason;
  mret ().

(** Logout: revokes the family of the token, or nothing when the token is not valid. *)
Definition revokeToken (token : string) : W Tbl unit :=
  payload ← try_catch (p ← verifyRefreshToken token; mret (Some p)) (λ _, mret None);
  match payload with
  | None => mret ()
  | Some p =>
      _ ← revoke_where (λ _ r, bool_decide (rt_userId r = p_sub p)
                               && bool_decide (rt_familyId r = p_familyId p)) "LOGOUT";
      mret ()
  end.

(** Always throws. *)
Definition handleRevokedTokenUse {A} (token : RefreshTokenRow) : W Tbl A :=
  now ← get_now;
  if bool_decide (rt_revokedReason token = Some "ROTATED")
     && match rt_revokedAt token with
        | Some t => now - t <? ROTATION_GRACE_MS
        | None => false
        end
  then throw (UnauthorizedError "Refresh token already used")
  else
    _ ← revokeTokenFamily (rt_familyId token) "TOKEN_REUSE_DETECTED";
    throw (UnauthorizedError "Token reuse detected. Please login again.").

(** [include: { user: true }] *)
Definition include_user (token : string * RefreshTokenRow)
  : W Tbl (option (string * RefreshTokenRow * UserRow)) :=
  user ← find_unique d_users (rt_userId token.2);
  match user with
  | Some u => mret (Some (token, u))
  | None => throw (PlainError "Inconsistent query result: required relation is null")
  end.

Definition findTokenById (tokenId userId familyId : string)
  : W Tbl (option (string * RefreshTokenRow * UserRow)) :=
  token ← find_unique d_refreshTokens tokenId;
  match token with
  | None => mret None
  | Some r =>
      found ← include_user (tokenId, r);
      if negb (bool_decide (rt_userId r = userId))
         || negb (bool_decide (rt_familyId r = familyId))
      then mret None else mret found
  end.

Definition findLegacyActiveToken (userId familyId : string)
  : W Tbl (option (string * RefreshTokenRow * UserRow)) :=
  tokens ← find_many d_refreshTokens
             (λ _ r, bool_decide (rt_familyId r = familyId)
                     && bool_decide (rt_userId r = userId))
             (λ kr, - rt_createdAt kr.2) None;
  match tokens with
  | [] => mret None
  | first :: _ =>
      include_user (default first (head (filter (λ kr, rt_isRevoked kr.2 = false) tokens)))
  end.

(** [rotateRefreshToken] up to the atomic claim: the stored token, its user and the
    claims, once the token has passed every check. *)
Definition rotate_check (oldRefreshToken : string)
  : W Tbl (JwtPayload * (string * UserRow)) :=
  payload ← verifyRefreshToken oldRefreshToken;
  stored ← (match p_jti payload with
            | Some jti => if str_truthy jti
                          then findTokenById jti (p_sub payload) (p_familyId payload)
                          else findLegacyActiveToken (p_sub payload) (p_familyId payload)
            | None => findLegacyActiveToken (p_sub payload) (p_familyId payload)
            end);
  match stored with
  | None => throw (UnauthorizedError "Refresh token not found")
  | Some ((i, token), user) =>
      if rt_isRevoked token then handleRevokedTokenUse token
      else
        now ← get_now;
        if rt_expiresAt token <? now then throw (UnauthorizedError "Refresh token expired")
        else if argon2_verify (rt_tokenHash token) oldRefreshToken
             then mret (payload, (i, user))
             else throw (UnauthorizedError "Invalid refresh token")
  end.

(** The claim: [updateMany({ where: { id, isRevoked: false } })] must change one row. *)
Definition rotate_claim (i : string) : W Tbl unit :=
  claimed ← revoke_where (λ j _, bool_decide (j = i)) "ROTATED";
  if bool_decide (claimed = 1) then mret ()
  else throw (UnauthorizedError "Refresh token already used").

(** After the claim. *)
Definition rotate_issue (payload : JwtPayload) (user : UserRow)
    (ipAddress userAgent : option string) : W Tbl TokenPair :=
  _ ← try_catch (assertAccountUsable user)
        (λ e, _ ← revokeTokenFamily (p_familyId payload) "ACCOUNT_NOT_USABLE"; throw e);
  createTokenPair (p_sub payload) (us_tenantId user) (role_string (us_role user))
    (us_email user) ipAddress userAgent (Some (p_familyId payload)).

Definition rotateRefreshToken (oldRefreshToken : string)
    (ipAddress userAgent : option string) : W Tbl TokenPair :=
  '(payload, (i, user)) ← rotate_check oldRefreshToken;
  _ ← rotate_claim i;
  rotate_issue payload user ipAddress userAgent.

Definition cleanupExpiredTokens : W Tbl unit :=
  now ← get_now;
  _ ← delete_many d_refreshTokens (λ _ r, rt_expiresAt r <? now); mret ().

Definition generateSecureToken : W Tbl string := draw.
Definition hashToken (token : string) : W Tbl string := mret (sha256 token).
End service.

(** ** Lemmas *)

Section lemmas.
Context {Tbl : Type → Type} `{!Prisma Tbl} {Cr : Crypto} (cfg : JwtConfig).
Implicit Types (w : World Tbl).

Notation tokens w := (rows_of d_refreshTokens w).

Lemma revoke_where_run p reason w :
  ∃ n w', revoke_where p reason w = (Ok n, w') ∧
    w_now w' = w_now w ∧ d_users (w_db w') = d_users (w_db w) ∧
    d_tenants (w_db w') = d_tenants (w_db w) ∧
    n = Z.of_nat (size (matching (λ i r, p i r && negb (rt_isRevoked r)) (tokens w))) ∧
    ∀ i, tokens w' !! i =
      (λ r, if p i r && negb (rt_isRevoked r) then revoke_data (w_now w) reason r else r)
      <$> tokens w !! i.
Proof.
  unfold revoke_where, get_now, gets, mbind, M_bind. set (q := λ i r, _ && _).
  set (d := revoke_data _ _).
  pose proof (update_many_rows d_refreshTokens q d w) as Hr.
  pose proof (update_many_now d_refreshTokens q d w) as Hn.
  pose proof (update_many_frame d_refreshTokens d_users q d w) as Hu.
  pose proof (update_many_frame d_refreshTokens d_tenants q d w) as Ht.
  destruct (update_many_run d_refreshTokens q d w) as (n & w' & E & -> & _).
  rewrite E in *. eauto 10.
Qed.

Lemma revoke_where_ok p reason w n w' :
  revoke_where p reason w = (Ok n, w') →
  w_now w' = w_now w ∧ d_users (w_db w') = d_users (w_db w) ∧
  d_tenants (w_db w') = d_tenants (w_db w) ∧
  n = Z.of_nat (size (matching (λ i r, p i r && negb (rt_isRevoked r)) (tokens w))) ∧
  ∀ i, tokens w' !! i =
    (λ r, if p i r && negb (rt_isRevoked r) then revoke_data (w_now w) reason r else r)
    <$> tokens w !! i.
Proof.
  intros E. destruct (revoke_where_run p reason w) as (n' & w1 & E' & Hrun).
  rewrite E in E'. simplify_eq. exact Hrun.
Qed.

Lemma revoke_data_fields now reason r :
  rt_isRevoked (revoke_data now reason r) = true ∧
  rt_revokedReason (revoke_data now reason r) = Some reason ∧
  rt_revokedAt (revoke_data now reason r) = Some now ∧
  rt_familyId (revoke_data now reason r) = rt_familyId r ∧
  rt_userId (revoke_data now reason r) = rt_userId r.
Proof. by destruct r. Qed.

(** After [revokeAllUserTokens] no token of the user is left usable. *)
Lemma revokeAll_complete userId reason w x w' i r :
  revokeAllUserTokens userId reason w = (Ok x, w') → tokens w' !! i = Some r →
  rt_userId r = userId → rt_isRevoked r = true.
Proof.
  unfold revokeAllUserTokens. intros H Hi. w_inv.
  match goal with E : revoke_where _ _ _ = _ |- _ =>
    apply revoke_where_ok in E as (_ & _ & _ & _ & Hr) end.
  rewrite Hr in Hi. destruct (tokens w !! i) as [r0|]; [|done]. simpl in Hi.
  injection Hi as <-. intros Hu. destruct (rt_isRevoked r0) eqn:E; simpl in *.
  - by rewrite andb_false_r.
  - case_bool_decide; simpl in *; [by destruct r0|congruence].
Qed.

(** The claim returns exactly when the token was there and not revoked. *)
Lemma rotate_claim_ok i w u w' :
  rotate_claim i w = (Ok u, w') →
  ∃ r, tokens w !! i = Some r ∧ rt_isRevoked r = false ∧ w_now w' = w_now w ∧
    tokens w' = <[i := revoke_data (w_now w) "ROTATED" r]> (tokens w).
Proof.
  unfold rotate_claim. intros H. w_inv.
  match goal with E : revoke_where _ _ _ = _ |- _ =>
    apply revoke_where_ok in E as (Hn & _ & _ & Hc & Hr) end.
  bool_to_prop. subst.
  set (q := λ j r, _ && _) in *.
  assert (∃ j r, matching q (tokens w) !! j = Some r) as (j & r & Hj).
  { destruct (decide (matching q (tokens w) = ∅)) as [He|He].
    - rewrite He, map_size_empty in *. done.
    - by apply map_choose in He as (j & r & ?); eauto. }
  apply matching_lookup in Hj as [Hj Hq]. unfold q in Hq.
  apply andb_true_iff in Hq as [Hji%bool_decide_eq_true Hnr%negb_true_iff]. subst j.
  exists r. split_and!; [done..|]. apply map_eq. intros j. rewrite Hr.
  destruct (decide (j = i)) as [->|Hne].
  - rewrite lookup_insert_eq, Hj. simpl. by rewrite bool_decide_eq_true_2, Hnr.
  - rewrite lookup_insert_ne, bool_decide_eq_false_2 by done. by destruct (_ !! j).
Qed.

(** A token that is already revoked cannot be claimed, and the attempt changes nothing. *)
Lemma rotate_claim_revoked i w :
  (∀ r, tokens w !! i = Some r → rt_isRevoked r = true) →
  ∃ w', rotate_claim i w = (Err (UnauthorizedError "Refresh token already used"), w') ∧
        tokens w' = tokens w.
Proof.
  intros Hrev. unfold rotate_claim, mbind, M_bind.
  destruct (revoke_where_run (λ j _, bool_decide (j = i)) "ROTATED" w)
    as (n & w' & -> & _ & _ & _ & -> & Hr).
  assert (∀ j r, tokens w !! j = Some r →
            bool_decide (j = i) && negb (rt_isRevoked r) = false) as Hf.
  { intros j r Hj. case_bool_decide as Heq; [subst|done]. by rewrite (Hrev r). }
  assert (matching (λ j r, bool_decide (j = i) && negb (rt_isRevoked r)) (tokens w) = ∅)
    as ->.
  { apply map_eq. intros j. rewrite lookup_empty. apply eq_None_not_Some.
    intros [r Hj]. apply matching_lookup in Hj as [Hj Hq]. by rewrite Hf in Hq. }
  rewrite map_size_empty. exists w'. split; [done|]. apply map_eq. intros j. rewrite Hr.
  destruct (tokens w !! j) as [r|] eqn:Hj; simpl; [|done]. by rewrite Hf.
Qed.

Lemma verify_token_ok type secret ex inv token w p w' :
  verify_token (Tbl:=Tbl) type secret ex inv token w = (Ok p, w') →
  w' = w ∧ jwt_verify (w_now w) token secret = JwtValid p ∧ p_type p = type.
Proof. unfold verify_token. intros H. w_inv. by bool_to_prop. Qed.

Lemma include_user_ok token w x w' :
  include_user token w = (Ok x, w') →
  w' = w ∧ ∃ u, rows_of d_users w !! rt_userId token.2 = Some u ∧ x = Some (token, u).
Proof. unfold include_user. intros H. w_inv. eauto. Qed.

Lemma findTokenById_ok i userId familyId w x w' :
  findTokenById i userId familyId w = (Ok (Some x), w') →
  w' = w ∧ x.1.1 = i ∧ tokens w !! i = Some x.1.2 ∧
  rows_of d_users w !! userId = Some x.2 ∧
  rt_userId x.1.2 = userId ∧ rt_familyId x.1.2 = familyId.
Proof.
  unfold findTokenById. intros H. w_inv.
  match goal with E : include_user _ _ = _ |- _ =>
    apply include_user_ok in E as (-> & u & Hu & ?) end. simplify_eq.
  bool_to_prop. by simplify_eq/=.
Qed.

Lemma findLegacyActiveToken_ok userId familyId w x w' :
  findLegacyActiveToken userId familyId w = (Ok (Some x), w') →
  w' = w ∧ tokens w !! x.1.1 = Some x.1.2 ∧
  rows_of d_users w !! userId = Some x.2 ∧
  rt_userId x.1.2 = userId ∧ rt_familyId x.1.2 = familyId.
Proof.
  unfold findLegacyActiveToken, find_many. intros H. w_inv.
  match goal with E : include_user _ _ = _ |- _ =>
    apply include_user_ok in E as (-> & u & Hu & ?) end. simplify_eq/=.
  set (found := default _ _) in *.
  match goal with E : findMany ?q ?o None ?t = ?l |- _ =>
    assert (found ∈ findMany q o None t) as Hin end.
  { match goal with E : findMany _ _ _ _ = _ |- _ => rewrite E end.
    unfold found. destruct (filter _ _) as [|y l'] eqn:E; simpl; [apply list_elem_of_here|].
    assert (y ∈ y :: l') as Hy by apply list_elem_of_here. rewrite <-E in Hy.
    by apply list_elem_of_filter in Hy as [_ ?]. }
  destruct found as [i r]. apply findMany_elem in Hin as [Hi Hq]. bool_to_prop. by subst.
Qed.

Lemma rotate_check_ok token w p i u w' :
  rotate_check cfg token w = (Ok (p, (i, u)), w') →
  w' = w ∧ jwt_verify (w_now w) token (refreshSecret cfg) = JwtValid p ∧
  ∃ r, tokens w !! i = Some r ∧ rt_isRevoked r = false ∧ w_now w <= rt_expiresAt r ∧
    argon2_verify (rt_tokenHash r) token = true ∧
    rows_of d_users w !! p_sub p = Some u ∧
    rt_userId r = p_sub p ∧ rt_familyId r = p_familyId p.
Proof.
  unfold rotate_check, verifyRefreshToken. intros H.
  w_inv; try (unfold handleRevokedTokenUse in *; by w_inv);
    match goal with E : verify_token _ _ _ _ _ _ = _ |- _ =>
      apply verify_token_ok in E as (-> & Hv & _) end;
    first
      [ match goal with E : findTokenById _ _ _ _ = _ |- _ =>
          apply findTokenById_ok in E as (-> & ? & ? & ? & ? & ?) end
      | match goal with E : findLegacyActiveToken _ _ _ = _ |- _ =>
          apply findLegacyActiveToken_ok in E as (-> & ? & ? & ? & ?) end ];
    bool_to_prop; simplify_eq/=; (split; [done|]); (split; [done|]); eauto 10.
Qed.

Lemma sign_ok payload secret duration w x w' :
  sign payload secret duration w = (Ok x, w') →
  w' = w ∧ ∃ ms, parseDurationMs duration = Ok ms ∧ x = jwt_sign (w_now w) payload secret ms.
Proof. unfold sign. intros H. w_inv. eauto. Qed.

(** A pair is created together with the row of its refresh token. *)
Lemma createTokenPair_ok userId tenantId role email ip ua familyId w pair w' :
  createTokenPair cfg userId tenantId role email ip ua (Some familyId) w = (Ok pair, w') →
  ∃ j r, tokens w !! j = None ∧ tokens w' = <[j := r]> (tokens w) ∧
    rt_userId r = userId ∧ rt_familyId r = familyId ∧ rt_isRevoked r = false ∧
    rt_expiresAt r = w_now w + refreshExpiresInMs cfg ∧
    argon2_verify (rt_tokenHash r) (refreshToken pair) = true ∧
    (∃ ms, refreshToken pair = jwt_sign (w_now w)
       (mkJwtPayload userId "refresh" None "" "" familyId (Some j)) (refreshSecret cfg) ms).
Proof.
  unfold createTokenPair, generateRefreshToken, generateAccessToken. intros H. w_inv.
  repeat match goal with
  | E : draw _ = _ |- _ => apply draw_ok in E as [-> ->]
  | E : sign _ _ _ _ = _ |- _ => apply sign_ok in E as (-> & ? & ? & ->)
  end.
  match goal with E : create_row _ _ _ _ _ _ = _ |- _ =>
    apply (create_row_ok d_refreshTokens) in E as (Hn & _ & Hr & _) end.
  unfold rows_of in *. upd_simpl in Hn. upd_simpl in Hr. upd_simpl.
  eexists _, _. split; [exact Hn|]. split; [exact Hr|]. cbn. split_and!; eauto.
  rewrite argon2_spec. by apply bool_decide_eq_true.
Qed.

(** The accounts that may hold a session, as a predicate. *)
Definition usable (now : Z) (tenants : gmap string TenantRecord) (u : UserRow) : bool :=
  negb (bool_decide (us_status u = USuspended) || bool_decide (us_status u = UInactive))
  && match us_lockedUntil u with Some t => t <=? now | None => true end
  && match us_tenantId u with
     | Some tenantId =>
         if str_truthy tenantId then
           match tenants !! tenantId with
           | Some t => negb (includes BLOCKED_TENANT_STATUSES (nr_status t))
           | None => false
           end
         else true
     | None => true
     end.

Lemma assertAccountUsable_run u w :
  ∃ res, assertAccountUsable u w = (res, w) ∧
    is_ok res = usable (w_now w) (rows_of d_tenants w) u.
Proof.
  unfold assertAccountUsable, usable, rows_of, get_now, find_unique, gets, mbind, M_bind,
    mret, M_ret, throw.
  destruct (_ || _); simpl; [eauto|].
  destruct (us_lockedUntil u) as [t|].
  - destruct (Z.ltb_spec (w_now w) t), (Z.leb_spec t (w_now w)); try lia; simpl; [eauto|].
    destruct (us_tenantId u) as [n|]; [|eauto]. destruct (str_truthy n); [|eauto].
    rewrite findUnique_rows. destruct (_ !! n) as [r|]; [|eauto].
    destruct (includes _ _); eauto.
  - simpl. destruct (us_tenantId u) as [n|]; [|eauto]. destruct (str_truthy n); [|eauto].
    rewrite findUnique_rows. destruct (_ !! n) as [r|]; [|eauto].
    destruct (includes _ _); eauto.
Qed.

Lemma handleRevokedTokenUse_run {A} (r : RefreshTokenRow) w :
  let grace := bool_decide (rt_revokedReason r = Some "ROTATED")
     && match rt_revokedAt r with
        | Some t => w_now w - t <? ROTATION_GRACE_MS
        | None => false
        end in
  ∃ msg w', handleRevokedTokenUse (A:=A) r w = (Err (UnauthorizedError msg), w') ∧
    (grace = true → w' = w) ∧
    (grace = false → ∀ j rj, tokens w' !! j = Some rj →
       rt_familyId rj = rt_familyId r → rt_isRevoked rj = true).
Proof.
  intros grace. unfold handleRevokedTokenUse, revokeTokenFamily, get_now, gets, mbind,
    M_bind, mret, M_ret, throw. cbv beta iota. fold grace. clearbody grace.
  destruct grace; [by do 2 eexists|].
  destruct (revoke_where_run (λ _ r', bool_decide (rt_familyId r' = rt_familyId r))
              "TOKEN_REUSE_DETECTED" w) as (n & w' & -> & _ & _ & _ & _ & Hr).
  eexists _, _. split; [done|]. split; [done|]. intros _ j rj Hj Hf.
  rewrite Hr in Hj. destruct (tokens w !! j) as [r0|]; [|done]. simpl in Hj. simplify_eq.
  destruct (bool_decide (rt_familyId r0 = rt_familyId r)) eqn:E; simpl in *.
  - destruct (rt_isRevoked r0) eqn:E2; simpl in *; [done|]. by destruct r0.
  - bool_to_prop. congruence.
Qed.
End lemmas.

(** ** Requests side by side

    Every method of the service is a sequence of these statements on the token table;
    the statements of different requests interleave freely.  The flag of a step tells
    whether it is a claim of token [i] that succeeded. *)

Section concurrency.
Context {Tbl : Type → Type} `{!Prisma Tbl} {Cr : Crypto} (cfg : JwtConfig) (i : string).
Implicit Types (w : World Tbl).

Notation tokens w := (rows_of d_refreshTokens w).

Inductive tok_step : World Tbl → bool → World Tbl → Prop :=
| ts_claim w w' : rotate_claim i w = (Ok tt, w') → tok_step w true w'
| ts_claim_lost w e w' : rotate_claim i w = (Err e, w') → tok_step w false w'
| ts_claim_other j w res w' : j ≠ i → rotate_claim j w = (res, w') → tok_step w false w'
| ts_revoke p reason n w w' : revoke_where p reason w = (Ok n, w') → tok_step w false w'
| ts_create userId tenantId role email ip ua familyId pair w w' :
    createTokenPair cfg userId tenantId role email ip ua (Some familyId) w = (Ok pair, w') →
    tok_step w false w'
| ts_cleanup w w' : cleanupExpiredTokens w = (Ok tt, w') → tok_step w false w'
| ts_other w w' : tokens w' = tokens w → tok_step w false w'.

(** A run during which token [i] stays in the table, with the number of its claims. *)
Inductive tok_run (w : World Tbl) : nat → World Tbl → Prop :=
| tr_start : tok_run w 0 w
| tr_step n w1 b w2 :
    tok_run w n w1 → tok_step w1 b w2 → is_Some (tokens w2 !! i) →
    tok_run w (if b then S n else n) w2.

Definition revoked_at (w : World Tbl) : Prop :=
  ∀ r, tokens w !! i = Some r → rt_isRevoked r = true.

Lemma revoke_where_keeps p reason n w w' :
  revoke_where p reason w = (Ok n, w') → revoked_at w → revoked_at w'.
Proof.
  intros (_ & _ & _ & _ & Hr)%revoke_where_ok Hrev r Hi. rewrite Hr in Hi.
  destruct (tokens w !! i) as [r0|] eqn:H0; [|done]. simpl in Hi. simplify_eq.
  rewrite (Hrev _ H0), andb_false_r. by apply Hrev.
Qed.

Lemma rotate_claim_keeps j res w w' :
  rotate_claim j w = (res, w') → revoked_at w → revoked_at w'.
Proof.
  unfold rotate_claim, mbind, M_bind.
  destruct (revoke_where_run (λ k _, bool_decide (k = j)) "ROTATED" w) as (n & w1 & E & _).
  rewrite E. unfold throw, mret, M_ret.
  case_bool_decide; intros Hres Hrev; inv_ok; by eapply revoke_where_keeps.
Qed.

(** No statement takes a revocation back. *)
Lemma tok_step_keeps w b w' :
  is_Some (tokens w !! i) → tok_step w b w' → revoked_at w → revoked_at w'.
Proof.
  intros Hin Hstep Hrev. destruct Hstep.
  - by eapply rotate_claim_keeps.
  - by eapply rotate_claim_keeps.
  - by eapply rotate_claim_keeps.
  - by eapply revoke_where_keeps.
  - apply createTokenPair_ok in H as (j & r & Hj & Hw & _). unfold revoked_at.
    rewrite Hw. destruct Hin as [r0 Hin]. rewrite lookup_insert_ne by congruence. apply Hrev.
  - unfold cleanupExpiredTokens, delete_many, get_now, gets, mbind, M_bind in H.
    set (q := λ _ r, _ <? _) in H. pose proof (deleteMany_rows q (d_refreshTokens (w_db w))) as Hd.
    destruct (deleteMany q (d_refreshTokens (w_db w))) as [n t]. w_inv.
    intros r Hr. unfold rows_of in Hr. upd_simpl in Hr. rewrite Hd in Hr.
    fold (tokens w) in Hr. destruct (tokens w !! i) as [r0|] eqn:H0; [|done]. simpl in Hr.
    destruct (q i r0); simplify_eq. by apply Hrev.
  - unfold revoked_at. by rewrite H.
Qed.

Lemma tok_run_revoked w n w' :
  is_Some (tokens w !! i) → tok_run w n w' →
  is_Some (tokens w' !! i) ∧ ((n <= 1)%nat ∧ (n = 1%nat → revoked_at w')).
Proof.
  intros Hin. induction 1 as [|n w1 b w2 Hrun [Hin1 IH] Hstep Hin2]; [by split_and!; [done|lia|]|].
  split; [done|]. destruct IH as [Hn Hrev]. destruct b.
  - inversion Hstep; subst.
    match goal with E : rotate_claim _ _ = _ |- _ =>
      pose proof (rotate_claim_ok _ _ _ _ E) as (r & Hi & Hr & _ & Hw) end.
    destruct n as [|n].
    + split; [lia|]. intros _ r' Hi'. rewrite Hw, lookup_insert_eq in Hi'. simplify_eq.
      by destruct r.
    + assert (S n = 1%nat) as Hn1 by lia. specialize (Hrev Hn1 r Hi). congruence.
  - split; [done|]. intros ->.
    eapply tok_step_keeps; [exact Hin1|exact Hstep|by apply Hrev].
Qed.
End concurrency.

(** ** Properties *)

(** C23: A refresh token is rotated at most once.  However the statements of concurrent
    requests interleave (with logouts, revocations, new sessions and the cleanup), at most
    one claim of a stored token succeeds, and from then on the token stays revoked. *)
Theorem rotation_at_most_once {Tbl} `{!Prisma Tbl} {Cr : Crypto} cfg i
    (w w' : World Tbl) n :
  is_Some (rows_of d_refreshTokens w !! i) → tok_run cfg i w n w' →
  (n <= 1)%nat ∧
  (n = 1%nat → ∀ r, rows_of d_refreshTokens w' !! i = Some r → rt_isRevoked r = true).
Proof. intros Hin Hrun. by destruct (tok_run_revoked cfg i w n w' Hin Hrun) as [_ H]. Qed.


Section properties.
Context {Tbl : Type → Type} `{!Prisma Tbl} {Cr : Crypto} (cfg : JwtConfig).
Implicit Types (w : World Tbl).

Notation tokens w := (rows_of d_refreshTokens w).

(** A rotation that succeeds used a stored token of the right user and session that
    was not revoked, not expired and matched its hash, for an account that is usable; it
    revokes that token and adds one new, valid token of the same session, and changes no
    other token. *)
Theorem rotation_spec token ip ua w pair w' :
  rotateRefreshToken cfg token ip ua w = (Ok pair, w') →
  ∃ i r j r' u,
    tokens w !! i = Some r ∧ rt_isRevoked r = false ∧ w_now w <= rt_expiresAt r ∧
    argon2_verify (rt_tokenHash r) token = true ∧
    rows_of d_users w !! rt_userId r = Some u ∧
    usable (w_now w) (rows_of d_tenants w) u = true ∧
    tokens w' = <[j := r']> (<[i := revoke_data (w_now w) "ROTATED" r]> (tokens w)) ∧
    tokens w !! j = None ∧ rt_familyId r' = rt_familyId r ∧ rt_userId r' = rt_userId r ∧
    rt_isRevoked r' = false ∧
    argon2_verify (rt_tokenHash r') (refreshToken pair) = true.
Proof.
  unfold rotateRefreshToken, rotate_issue. intros H. apply M_bind_ok in H as ([p [i u]] & w1 & Hc & H).
  apply M_bind_ok in H as ([] & w2 & Hcl & H). apply M_bind_ok in H as ([] & w3 & Ha & H).
  apply rotate_check_ok in Hc as (-> & _ & r & Hi & Hrev & Hexp & Hver & Hu & Huid & Hfam).
  pose proof Hcl as Hframe. unfold rotate_claim in Hframe.
  apply rotate_claim_ok in Hcl as (r0 & Hi0 & _ & Hnow & Hw2). simplify_eq.
  assert (d_tenants (w_db w2) = d_tenants (w_db w)) as Ht.
  { w_inv. by match goal with E : revoke_where _ _ _ = _ |- _ =>
      apply revoke_where_ok in E as (_ & _ & ? & _) end. }
  destruct (assertAccountUsable_run u w2) as (res & Hrun & Hus).
  unfold try_catch in Ha. rewrite Hrun in Ha. destruct res as [[]|e]; [|by w_inv].
  inv_ok. apply createTokenPair_ok in H
    as (j & r' & Hj & Hw' & Hru & Hrf & Hrr & _ & Hrv & _).
  exists i, r, j, r', u. rewrite Hw2, Hnow in *. unfold rows_of in Hus. rewrite Ht in Hus.
  assert (j ≠ i) by (intros ->; by rewrite lookup_insert_eq in Hj).
  rewrite lookup_insert_ne in Hj by done.
  split_and!; try done; congruence.
Qed.

(** Presenting a revoked token never yields a session.  Inside the ten-second window
    after its rotation the request is refused and nothing changes; at any other time the
    whole session family ends up revoked. *)
Theorem refresh_reuse_detected token ip ua w p i r u :
  jwt_verify (w_now w) token (refreshSecret cfg) = JwtValid p → p_type p = "refresh" →
  p_jti p = Some i → str_truthy i = true → tokens w !! i = Some r →
  rt_userId r = p_sub p → rt_familyId r = p_familyId p →
  rows_of d_users w !! p_sub p = Some u → rt_isRevoked r = true →
  let grace := bool_decide (rt_revokedReason r = Some "ROTATED")
     && match rt_revokedAt r with
        | Some t => w_now w - t <? ROTATION_GRACE_MS
        | None => false
        end in
  ∃ msg w', rotateRefreshToken cfg token ip ua w = (Err (UnauthorizedError msg), w') ∧
    (grace = true → w' = w) ∧
    (grace = false → ∀ j rj, tokens w' !! j = Some rj →
       rt_familyId rj = rt_familyId r → rt_isRevoked rj = true).
Proof.
  intros Hv Hty Hjti Htr Hi Huid Hfam Hu Hrev grace.
  destruct (handleRevokedTokenUse_run (A:=JwtPayload * (string * UserRow)) r w)
    as (msg & w' & Hh & Hg & Hng).
  exists msg, w'. split; [|done].
  assert (rotate_check cfg token w = (Err (UnauthorizedError msg), w')) as E.
  { unfold rotate_check, verifyRefreshToken, verify_token, findTokenById, include_user,
      find_unique, get_now, gets, mbind, M_bind, mret, M_ret.
    rewrite Hv, Hty. simpl. rewrite Hjti, Htr, findUnique_rows.
    unfold rows_of in *. rewrite Hi. simpl. rewrite findUnique_rows, Huid, Hu, Hfam. simpl.
    rewrite !bool_decide_eq_true_2 by done. simpl. rewrite Hrev. exact Hh. }
  unfold rotateRefreshToken, mbind, M_bind. by rewrite E.
Qed.

Definition token_usable (payload : JwtPayload) (w : World Tbl) : Prop :=
  ∃ u, rows_of d_users w !! p_sub payload = Some u ∧
    role_string (us_role u) = p_role payload ∧ us_email u = p_email payload ∧
    us_tenantId u = p_tenantId payload ∧
    usable (w_now w) (rows_of d_tenants w) u = true.

Lemma assertAccessTokenUsable_run payload w :
  ∃ res, assertAccessTokenUsable payload w = (res, w) ∧
    (is_ok res = true ↔ token_usable payload w).
Proof.
  unfold assertAccessTokenUsable, token_usable, find_unique, gets, mbind, M_bind, throw.
  rewrite findUnique_rows. unfold rows_of.
  destruct (rows (d_users (w_db w)) !! p_sub payload) as [u|]; cycle 1.
  { eexists. split; [done|]. split; [done|by intros (u & ? & _)]. }
  destruct (assertAccountUsable_run u w) as (res & Hrun & Hus). unfold rows_of in Hus.
  destruct (_ || _) eqn:E.
  - eexists. split; [done|]. split; [done|]. intros (u' & [= <-] & Hr & He & Ht & _). exfalso.
    by rewrite !bool_decide_eq_true_2 in E by done.
  - apply orb_false_iff in E as [[E1 E2]%orb_false_iff E3]. bool_to_prop.
    exists res. split; [done|]. rewrite Hus. split; [by exists u|].
    by intros (u' & [= <-] & _ & _ & _ & ?).
Qed.

(** An access token is accepted exactly when its user still exists with the same
    role, e-mail and organization and the account is usable. *)
Theorem access_token_usable payload w :
  (∃ w', assertAccessTokenUsable payload w = (Ok tt, w')) ↔
  ∃ u, rows_of d_users w !! p_sub payload = Some u ∧
    role_string (us_role u) = p_role payload ∧ us_email u = p_email payload ∧
    us_tenantId u = p_tenantId payload ∧
    usable (w_now w) (rows_of d_tenants w) u = true.
Proof.
  destruct (assertAccessTokenUsable_run payload w) as (res & -> & Hres).
  fold (token_usable payload w). rewrite <-Hres. destruct res as [[]|e]; naive_solver.
Qed.
End properties.

(** ** An implementation of the libraries, and concrete runs *)

Fixpoint pos_string (p : positive) : string :=
  match p with
  | xH => ""
  | xO p => String "0" (pos_string p)
  | xI p => String "1" (pos_string p)
  end.
Fixpoint string_pos (s : string) : positive :=
  match s with
  | EmptyString => xH
  | String c s => if Ascii.eqb c "0" then xO (string_pos s) else xI (string_pos s)
  end.

Lemma string_pos_string p : string_pos (pos_string p) = p.
Proof. induction p; simpl; by rewrite ?IHp. Qed.

(** A token that spells out its expiry, its secret and its claims. *)
Definition token_data : Type :=
  Z * string * (string * string * option string * string * string * string * option string).

Definition demo_sign (now : Z) (p : JwtPayload) (secret : string) (ms : Z) : string :=
  pos_string (encode ((now + ms, secret,
    (p_sub p, p_type p, p_tenantId p, p_role p, p_email p, p_familyId p, p_jti p))
    : token_data)).

Definition demo_verify (now : Z) (token secret : string) : JwtResult :=
  match decode (A := token_data) (string_pos token) with
  | Some (expiry, secret', (sub, type, tenant, role, email, family, jti)) =>
      if bool_decide (secret = secret') then
        if now <? expiry then JwtValid (mkJwtPayload sub type tenant role email family jti)
        else JwtExpired
      else JwtInvalid
  | None => JwtInvalid
  end.

#[refine] Instance demo_crypto : Crypto := {|
  jwt_sign := demo_sign;
  jwt_verify := demo_verify;
  argon2_hash := λ _ s, s;
  argon2_verify := λ h s, bool_decide (h = s);
  sha256 := λ s, s;
|}.
Proof.
  - intros now p secret ms now' H. unfold demo_verify, demo_sign.
    rewrite string_pos_string, decode_encode, bool_decide_eq_true_2 by done.
    rewrite (proj2 (Z.ltb_lt _ _)) by lia. by destruct p.
  - done.
Defined.

Definition demo_cfg : JwtConfig := mkJwtConfig "a" "r" "15m" "30d" 900 2592000000.

Definition demo_user_row : UserRow :=
  mkUserRow None "e" None "A" "L" AGENT UActive None None "" "" (Some 0) None None 0 None (JObj []) 0 0.

Definition demo_start : World (gmap string) :=
  world_of 1000 (empty_db <| d_users := {["u" := demo_user_row]} |>).

(** A session is opened: the token has id [id0]. *)
Definition demo_session : result error TokenPair * World (gmap string) :=
  createTokenPair demo_cfg "u" None "AGENT" "e" None None (Some "f") demo_start.
Definition demo_token : string :=
  match demo_session.1 with Ok tp => refreshToken tp | Err _ => "" end.

Lemma rotation_spec_witness :
  ∃ tp w' i r j r' u,
    rotateRefreshToken demo_cfg demo_token None None demo_session.2 = (Ok tp, w') ∧
    rows_of d_refreshTokens demo_session.2 !! i = Some r ∧
    rows_of d_refreshTokens w'
      = <[j := r']> (<[i := revoke_data (w_now demo_session.2) "ROTATED" r]>
                       (rows_of d_refreshTokens demo_session.2)) ∧
    rows_of d_users demo_session.2 !! rt_userId r = Some u.
Proof.
  assert (∃ tp w', rotateRefreshToken demo_cfg demo_token None None demo_session.2
                     = (Ok tp, w')) as (tp & w' & E).
  { do 2 eexists. vm_compute. reflexivity. }
  destruct (rotation_spec demo_cfg demo_token None None demo_session.2 tp w' E)
    as (i & r & j & r' & u & Hi & _ & _ & _ & Hu & _ & Hw & _).
  exists tp, w', i, r, j, r', u. by split_and!.
Defined.

(** The claim of [id0], and the state after it. *)
Definition demo_claimed : World (gmap string) := (rotate_claim "id0" demo_session.2).2.

Lemma rotation_at_most_once_witness :
  tok_run demo_cfg "id0" demo_session.2 1 demo_claimed ∧ (1 <= 1)%nat.
Proof.
  assert (tok_run demo_cfg "id0" demo_session.2 1 demo_claimed) as H.
  { apply (tr_step demo_cfg "id0" demo_session.2 0 demo_session.2 true demo_claimed);
      [constructor|apply ts_claim; vm_compute; reflexivity|vm_compute; eauto]. }
  split; [exact H|].
  apply (rotation_at_most_once demo_cfg "id0" demo_session.2 demo_claimed 1);
    [vm_compute; eauto|exact H].
Defined.

(** A minute after its rotation, the token is presented again. *)
Definition demo_later : World (gmap string) := demo_claimed <| w_now := 61000 |>.

Definition demo_payload : JwtPayload :=
  mkJwtPayload "u" "refresh" None "" "" "f" (Some "id0").
Definition demo_revoked : RefreshTokenRow :=
  revoke_data 1000 "ROTATED"
    (mkRefreshTokenRow "u" demo_token "f" false None None 2592001000 None None 1000).

Lemma refresh_reuse_detected_witness :
  ∃ msg w', rotateRefreshToken demo_cfg demo_token None None demo_later
            = (Err (UnauthorizedError msg), w') ∧
    ∀ j rj, rows_of d_refreshTokens w' !! j = Some rj → rt_familyId rj = "f" →
      rt_isRevoked rj = true.
Proof.
  assert (jwt_verify (w_now demo_later) demo_token "r" = JwtValid demo_payload) as Hv
    by (vm_compute; reflexivity).
  assert (rows_of d_refreshTokens demo_later !! "id0" = Some demo_revoked) as Hi
    by (vm_compute; reflexivity).
  assert (rows_of d_users demo_later !! "u" = Some demo_user_row) as Hu
    by (vm_compute; reflexivity).
  destruct (refresh_reuse_detected demo_cfg demo_token None None demo_later demo_payload
              "id0" demo_revoked demo_user_row Hv eq_refl eq_refl eq_refl Hi eq_refl eq_refl
              Hu eq_refl) as (msg & w' & E & _ & Hrev).
  exists msg, w'. split; [exact E|]. apply Hrev. vm_compute. reflexivity.
Defined.
