(* ===== verification/Auth.v ===== *)
(** * Authentication

    [src/application/auth/services/auth.service.ts]: login with progressive lockout,
    e-mail verification, password reset and logout, on top of [Tokens]. *)

From stdpp Require Import pretty.
From Stdlib Require Import Ascii String.
From S2P Require Import Prelude Store Js Errors Domain Ticket Customer Tenant User Schema World Logs Tokens.

#[local] Open Scope string_scope.
#[local] Open Scope Z_scope.
#[local] Set Default Proof Using "Type*".

Record LoginDto := mkLoginDto {
  ld_email : string;
  ld_password : string;
  ld_ipAddress : option string;
  ld_userAgent : option string;
}.

(** The [user] part is the row of the account. *)
Record AuthResult := mkAuthResult {
  ar_id : string;
  ar_user : UserRow;
  ar_tokens : TokenPair;
}.

Definition LOCKOUT_THRESHOLD : Z := 5.
Definition MAX_LOCKOUT_MINUTES : Z := 15.

Section service.
Context {Tbl : Type → Type} `{!Prisma Tbl} {Cr : Crypto} (cfg : JwtConfig)
  (frontendUrl : string).

(** PasswordHasher *)
Definition hashPassword (password : string) : W Tbl string :=
  salt ← draw; mret (argon2_hash salt password).

(** [user.findUnique({ where: { email } })]: the e-mail column is unique. *)
Definition findUserByEmail (email : string) : W Tbl (option (string * UserRow)) :=
  find_first d_users (λ _ u, bool_decide (us_email u = email)).

(** A hash of a random value, to verify against when the account does not exist. *)
Definition getDummyPasswordHash : W Tbl string := r ← draw; hashPassword r.

(** What a failed attempt writes; [failedAttempts] counts it. *)
Definition failed_login_data (now failedAttempts : Z) (u : UserRow) : UserRow :=
  let u := u <| us_failedLoginAttempts := failedAttempts |> <| us_updatedAt := now |> in
  if LOCKOUT_THRESHOLD <=? failedAttempts then
    let minutes := Z.min (2 ^ (failedAttempts - LOCKOUT_THRESHOLD)) MAX_LOCKOUT_MINUTES in
    u <| us_lockedUntil := Some (now + minutes * 60 * 1000) |>
  else u.

Definition recordFailedLogin (userId : string) (failedAttempts : Z) : W Tbl unit :=
  now ← get_now;
  _ ← update_one d_users userId (failed_login_data now failedAttempts); mret ().

Definition login_data (now : Z) (ipAddress : option string) (u : UserRow) : UserRow :=
  u <| us_failedLoginAttempts := 0 |> <| us_lockedUntil := None |>
    <| us_lastLoginAt := Some now |>
    <| us_lastLoginIp := assign_column (Some <$> ipAddress) (us_lastLoginIp u) |>
    <| us_updatedAt := now |>.

(** The organization check of [login]. *)
Definition check_login_tenant (user : UserRow) : W Tbl unit :=
  match us_tenantId user with
  | Some tenantId =>
      if str_truthy tenantId then
        tenant ← find_unique d_tenants tenantId;
        if bool_decide ((nr_status <$> tenant) = Some "SUSPENDED")
        then throw (ForbiddenError "Your organization account has been suspended")
        else if bool_decide ((nr_status <$> tenant) = Some "CANCELLED")
        then throw (ForbiddenError "Your organization account has been cancelled")
        else mret ()
      else mret ()
  | None => mret ()
  end.

(** The first part of [login]: the account the credentials are for. *)
Definition check_credentials (dto : LoginDto) : W Tbl (string * UserRow) :=
  found ← findUserByEmail (toLowerCase (ld_email dto));
  now ← get_now;
  let isLocked := match found ≫= (λ kv, us_lockedUntil kv.2) with
                  | Some t => now <? t | None => false end in
  hash ← (match found ≫= (λ kv, us_passwordHash kv.2) with
          | Some h => mret h | None => getDummyPasswordHash end);
  let isValidPassword := argon2_verify hash (ld_password dto) in
  let invalid := throw (UnauthorizedError "Invalid email or password") in
  match found with
  | None => invalid
  | Some (i, user) =>
      if truthy (us_passwordHash user) then
        if isLocked then invalid
        else if isValidPassword then mret (i, user)
        else
          _ ← recordFailedLogin i (us_failedLoginAttempts user + 1);
          invalid
      else invalid
  end.

Definition login (dto : LoginDto) : W Tbl AuthResult :=
  '(i, user) ← check_credentials dto;
  if bool_decide (us_status user = USuspended)
  then throw (ForbiddenError "Your account has been suspended")
  else if negb (bool_decide (is_Some (us_emailVerifiedAt user)))
          && negb (bool_decide (us_role user = PLATFORM_ADMIN))
  then throw (ForbiddenError "Please verify your email address before logging in")
  else
    _ ← check_login_tenant user;
    now ← get_now;
    _ ← update_one d_users i (login_data now (ld_ipAddress dto));
    pair ← createTokenPair cfg i (us_tenantId user) (role_string (us_role user))
             (us_email user) (ld_ipAddress dto) (ld_userAgent dto) None;
    _ ← audit_create (mkAudit (us_tenantId user) (Some i) (Some (role_string (us_role user)))
          "LOGIN" "auth" None None None (ld_ipAddress dto) (ld_userAgent dto) []);
    mret (mkAuthResult i user pair).

Definition verified_data (now : Z) (u : UserRow) : UserRow :=
  u <| us_emailVerifiedAt := Some now |> <| us_status := UActive |> <| us_updatedAt := now |>.

Definition used_data (now : Z) (t : OneTimeTokenRow) : OneTimeTokenRow :=
  t <| ot_usedAt := Some now |>.

(** [AuthService.verifyEmail] *)
Definition auth_verifyEmail (userId token : string) : W Tbl unit :=
  tokenHash ← hashToken token;
  verifyToken ← find_first d_verifyTokens (λ _ t,
    bool_decide (ot_userId t = userId) && bool_decide (ot_tokenHash t = tokenHash)
    && bool_decide (ot_usedAt t = None));
  match verifyToken with
  | None => throw (validation_error "Invalid or expired verification token")
  | Some (i, t) =>
      now ← get_now;
      if ot_expiresAt t <? now
      then throw (validation_error "Verification token has expired")
      else
        transaction (
          _ ← update_one d_users userId (verified_data now);
          _ ← update_one d_verifyTokens i (used_data now); mret ())
  end.

Definition newline : string := String (of_code 10) "".
Definition dquote : string := String (of_code 34) "".

Definition buildPasswordResetEmailHtml (firstName token : string) : string :=
  let resetUrl := frontendUrl ++ "/reset-password?token=" ++ encodeURIComponent token in
  newline ++ "      <h1>Reset your password, " ++ escapeHtml firstName ++ "</h1>"
  ++ newline ++ "      <p>Click the button below to reset your password. This link expires in 1 hour.</p>"
  ++ newline ++ "      <a href=" ++ dquote ++ escapeHtml resetUrl ++ dquote ++ " style=" ++ dquote
  ++ "background:#4F46E5;color:white;padding:12px 24px;text-decoration:none;border-radius:4px;"
  ++ dquote ++ ">"
  ++ newline ++ "        Reset Password"
  ++ newline ++ "      </a>"
  ++ newline ++ "      <p>If you didn't request this, please ignore this email.</p>"
  ++ newline ++ "    ".

Definition forgotPassword (email : string) : W Tbl unit :=
  user ← findUserByEmail (toLowerCase email);
  match user with
  | None => mret ()
  | Some (i, user) =>
      _ ← delete_many d_resetTokens (λ _ t, bool_decide (ot_userId t = i));
      rawToken ← generateSecureToken;
      tokenHash ← hashToken rawToken;
      k ← draw;
      now ← get_now;
      _ ← create_row d_resetTokens (λ _ t, bool_decide (ot_tokenHash t = tokenHash))
            (λ db, refers (d_users db) (Some i)) k
            (mkOneTimeTokenRow i tokenHash (now + 60 * 60 * 1000) None now);
      add_jobs [EmailJob 1 None (us_email user) "Reset your OmniSupport password"
                  (buildPasswordResetEmailHtml (us_firstName user) rawToken)]
  end.

Definition reset_data (now : Z) (passwordHash : string) (u : UserRow) : UserRow :=
  u <| us_passwordHash := Some passwordHash |> <| us_failedLoginAttempts := 0 |>
    <| us_lockedUntil := None |> <| us_updatedAt := now |>.

Definition resetPassword (token newPassword : string) (ipAddress : option string)
  : W Tbl unit :=
  tokenHash ← hashToken token;
  resetToken ← find_first d_resetTokens (λ _ t,
    bool_decide (ot_tokenHash t = tokenHash) && bool_decide (ot_usedAt t = None));
  match resetToken with
  | None => throw (validation_error "Invalid or expired reset token")
  | Some (i, t) =>
      now ← get_now;
      if ot_expiresAt t <? now then throw (validation_error "Reset token has expired")
      else
        _ ← lift (password_create newPassword);
        passwordHash ← hashPassword newPassword;
        _ ← transaction (
          _ ← update_one d_users (ot_userId t) (reset_data now passwordHash);
          _ ← update_one d_resetTokens i (used_data now); mret ());
        _ ← revokeAllUserTokens (ot_userId t) "REVOKED_ALL";
        _ ← delPattern ("user:" ++ ot_userId t ++ ":*");
        audit_create (mkAudit None (Some (ot_userId t)) None "UPDATE" "auth"
          (Some (ot_userId t)) None None ipAddress None
          [("action", JStr "PASSWORD_RESET")])
  end.

Definition logout (token userId : string) : W Tbl unit :=
  _ ← revokeToken cfg token;
  _ ← delPattern ("user:" ++ userId ++ ":*");
  audit_create (mkAudit None (Some userId) None "LOGOUT" "auth" None None None None None []).

Definition refreshTokens (token : string) (ipAddress userAgent : option string)
  : W Tbl TokenPair := rotateRefreshToken cfg token ipAddress userAgent.
End service.

(** ** Lemmas *)

Section lemmas.
Context {Tbl : Type → Type} `{!Prisma Tbl} {Cr : Crypto} (cfg : JwtConfig).
Implicit Types (w : World Tbl) (dto : LoginDto).

Notation users w := (rows_of d_users w).

(** [findUserByEmail] runs without touching the state, and reports a matching row. *)
Lemma findUserByEmail_run email w :
  ∃ found, findUserByEmail email w = (Ok found, w) ∧
    match found with
    | Some (i, u) => users w !! i = Some u ∧ us_email u = email
    | None => ∀ i u, users w !! i = Some u → us_email u ≠ email
    end.
Proof.
  unfold findUserByEmail. destruct (find_first d_users _ w) as [[found|e] w'] eqn:E.
  - destruct found as [[i u]|].
    + apply (find_first_some d_users) in E as (-> & Hi & Hp). bool_to_prop. by exists (Some (i, u)).
    + apply (find_first_none d_users) in E as (-> & Hn). exists None. split; [done|].
      intros i u Hi Heq. specialize (Hn i u Hi). bool_to_prop. done.
  - by apply M_bind_err in E as [E|(a & s & _ & E)].
Qed.

(** The state in which the credentials are judged: the account, whether it is locked, and
    whether the password is right. *)
Definition account_locked (now : Z) (u : UserRow) : bool :=
  match us_lockedUntil u with Some t => now <? t | None => false end.

Definition password_right (u : UserRow) (password : string) : bool :=
  match us_passwordHash u with
  | Some h => str_truthy h && argon2_verify h password
  | None => false
  end.

Definition bad_credentials : error := UnauthorizedError "Invalid email or password".

(** What [check_credentials] does, case by case. *)
Lemma check_credentials_run dto w :
  ∃ found, findUserByEmail (toLowerCase (ld_email dto)) w = (Ok found, w) ∧
  ∃ res w', check_credentials dto w = (res, w') ∧
    match found with
    | Some (i, u) =>
        if truthy (us_passwordHash u) then
          if account_locked (w_now w) u then res = Err bad_credentials ∧ w' = w
          else if password_right u (ld_password dto) then res = Ok (i, u) ∧ w' = w
          else res = Err bad_credentials ∧
               users w' = <[i := failed_login_data (w_now w) (us_failedLoginAttempts u + 1) u]>
                            (users w)
        else res = Err bad_credentials ∧ users w' = users w
    | None => res = Err bad_credentials ∧ users w' = users w
    end.
Proof.
  destruct (findUserByEmail_run (toLowerCase (ld_email dto)) w) as (found & E & Hf).
  exists found. split; [done|].
  unfold check_credentials, getDummyPasswordHash, hashPassword, draw, draw_rt, get_now, gets,
    mbind, M_bind, mret, M_ret, throw. rewrite E. cbv beta iota.
  destruct found as [[i u]|]; simpl; cycle 1.
  { do 2 eexists. split; [done|]. split; [done|]. by destruct w. }
  destruct Hf as [Hi _]. unfold account_locked, password_right.
  destruct (us_passwordHash u) as [h|]; simpl; cycle 1.
  { do 2 eexists. split; [done|]. split; [done|]. by destruct w. }
  destruct (str_truthy h); [|by eauto].
  destruct (match us_lockedUntil u with Some _ => _ | None => _ end); [by eauto|].
  destruct (argon2_verify h (ld_password dto)); [by do 2 eexists|].
  unfold recordFailedLogin, get_now, gets, mbind, M_bind, mret, M_ret. cbv beta iota.
  set (d := failed_login_data _ _). destruct (update_one_some d_users i d w u Hi) as (w' & Hu).
  destruct (update_one d_users i d w) as [res w1] eqn:Hu1.
  inv_ok. do 2 eexists. split; [done|]. split; [done|].
  apply (update_one_ok d_users) in Hu1 as (r & Hr & _ & Hw & _). simplify_eq. exact Hw.
Qed.

Lemma check_login_tenant_ok u w x w' :
  check_login_tenant u w = (Ok x, w') →
  w' = w ∧ ∀ n t, us_tenantId u = Some n → str_truthy n = true →
    rows_of d_tenants w !! n = Some t →
    nr_status t ≠ "SUSPENDED" ∧ nr_status t ≠ "CANCELLED".
Proof.
  unfold check_login_tenant. intros H. w_inv; (split; [done|]); intros n t Hn Htr Ht;
    simplify_eq; bool_to_prop; unfold rows_of in Ht; rewrite ?Ht in *; simpl in *;
    (split; congruence).
Qed.

(** Opening a session and writing the audit log leave the users alone. *)
Lemma createTokenPair_users userId tenantId role email ip ua family w x w' :
  createTokenPair cfg userId tenantId role email ip ua family w = (Ok x, w') →
  users w' = users w.
Proof.
  unfold createTokenPair, generateRefreshToken, generateAccessToken. intros H.
  w_inv; repeat match goal with
  | E : draw _ = _ |- _ => apply draw_ok in E as [-> ->]
  | E : sign _ _ _ _ = _ |- _ => apply sign_ok in E as (-> & ? & ? & ->)
  end;
  match goal with E : create_row _ _ _ _ _ _ = _ |- _ =>
    apply (create_row_ok d_refreshTokens) in E as (_ & _ & _ & _ & t & ->) end;
  unfold rows_of; by upd_simpl.
Qed.

Lemma audit_create_users e w x w' : audit_create e w = (Ok x, w') → users w' = users w.
Proof.
  unfold audit_create. intros H. w_inv.
  match goal with E : draw _ = _ |- _ => apply draw_ok in E as [-> ->] end.
  unfold try_catch in *.
  destruct (create_row d_audits _ _ _ _ _) as [[[]|e'] w1] eqn:E.
  - w_inv. apply (create_row_ok d_audits) in E as (_ & _ & _ & _ & t & ->).
    unfold rows_of. by upd_simpl.
  - apply create_row_err in E as ->. w_inv. unfold rows_of. by upd_simpl.
Qed.
End lemmas.

(** ** Properties *)

Section properties.
Context {Tbl : Type → Type} `{!Prisma Tbl} {Cr : Crypto} (cfg : JwtConfig).
Implicit Types (w : World Tbl) (dto : LoginDto).

Notation users w := (rows_of d_users w).

(** C21: Whoever logs in has an account with that e-mail address, gave its password, is
    not locked out nor suspended, has a verified address (or is a platform admin) and
    belongs to no suspended or cancelled organization; the login clears the failure
    counter and the lock of that account and changes no other account. *)
Theorem login_sound dto w r w' :
  login cfg dto w = (Ok r, w') →
  ∃ i u, users w !! i = Some u ∧ us_email u = toLowerCase (ld_email dto) ∧
    password_right u (ld_password dto) = true ∧ account_locked (w_now w) u = false ∧
    us_status u ≠ USuspended ∧
    (is_Some (us_emailVerifiedAt u) ∨ us_role u = PLATFORM_ADMIN) ∧
    (∀ n t, us_tenantId u = Some n → str_truthy n = true → rows_of d_tenants w !! n = Some t →
       nr_status t ≠ "SUSPENDED" ∧ nr_status t ≠ "CANCELLED") ∧
    users w' = <[i := login_data (Tbl:=Tbl) (w_now w) (ld_ipAddress dto) u]> (users w).
Proof.
  unfold login. intros H. apply M_bind_ok in H as ([i u] & w1 & Hc & H).
  destruct (check_credentials_run dto w) as (found & Hf & res & w2 & Hrun & Hres).
  rewrite Hc in Hrun. simplify_eq.
  destruct (findUserByEmail_run (toLowerCase (ld_email dto)) w) as (found' & Hf' & Hfound).
  rewrite Hf in Hf'. simplify_eq. destruct found' as [[i' u']|]; [|by destruct Hres].
  destruct Hfound as [Hi He]. exists i, u.
  destruct (truthy (us_passwordHash u')) eqn:Htr; [|by destruct Hres].
  destruct (account_locked (w_now w) u') eqn:Hlock; [by destruct Hres|].
  destruct (password_right u' (ld_password dto)) eqn:Hpw; [|by destruct Hres].
  destruct Hres as [Hres ->]. simplify_eq.
  w_inv. match goal with E : check_login_tenant _ _ = _ |- _ =>
    apply check_login_tenant_ok in E as (-> & Ht) end.
  repeat match goal with
  | E : audit_create _ _ = _ |- _ => apply audit_create_users in E
  | E : createTokenPair _ _ _ _ _ _ _ _ _ = _ |- _ => apply createTokenPair_users in E
  | E : update_one d_users _ _ _ = _ |- _ =>
      apply (update_one_ok d_users) in E as (u1 & Hu1 & _ & Hw & _)
  end.
  split_and!; try done; try congruence.
  - by bool_to_prop.
  - apply andb_false_iff in Heqb0 as [?|?]; bool_to_prop; eauto.
Qed.

(** C36: Logins reveal nothing about accounts: unless the account exists and the password
    given for it is right, the answer is the same 401 error, whatever the account's state
    (unknown, without password, locked, suspended, …). *)
Theorem login_uniform_refusal dto w e w' :
  login cfg dto w = (Err e, w') → e ≠ bad_credentials →
  ∃ i u, users w !! i = Some u ∧ us_email u = toLowerCase (ld_email dto) ∧
    password_right u (ld_password dto) = true ∧ account_locked (w_now w) u = false.
Proof.
  unfold login. intros H Hne.
  destruct (check_credentials_run dto w) as (found & Hf & res & w2 & Hrun & Hres).
  destruct (findUserByEmail_run (toLowerCase (ld_email dto)) w) as (found' & Hf' & Hfound).
  rewrite Hf in Hf'. injection Hf' as <-.
  apply M_bind_err in H as [Hc|([i u] & w1 & Hc & _)]; rewrite Hrun in Hc;
    injection Hc as -> ->; destruct found as [[i' u']|]; try (by destruct Hres; congruence);
    destruct Hfound as [Hi He];
    destruct (truthy (us_passwordHash u')); try (by destruct Hres; congruence);
    destruct (account_locked (w_now w) u') eqn:Hl; try (by destruct Hres; congruence);
    destruct (password_right u' (ld_password dto)) eqn:Hpw;
    try (by destruct Hres; congruence).
  by exists i', u'.
Qed.

(** C37: The progressive lockout.  A wrong password for an account that is not locked
    counts one failure; from the fifth on the account is locked for 1, 2, 4, 8, then 15
    minutes, never longer; while it is locked, attempts change nothing, so nobody can
    extend a lock. *)
Theorem lockout_progressive dto w i u :
  findUserByEmail (toLowerCase (ld_email dto)) w = (Ok (Some (i, u)), w) →
  truthy (us_passwordHash u) = true → password_right u (ld_password dto) = false →
  ∃ w', login cfg dto w = (Err bad_credentials, w') ∧
    if account_locked (w_now w) u then w' = w
    else ∃ u', users w' = <[i := u']> (users w) ∧
      us_failedLoginAttempts u' = us_failedLoginAttempts u + 1 ∧
      us_status u' = us_status u ∧ us_passwordHash u' = us_passwordHash u ∧
      let n := us_failedLoginAttempts u + 1 in
      us_lockedUntil u' =
        if 5 <=? n then Some (w_now w + Z.min (2 ^ (n - 5)) 15 * 60000)
        else us_lockedUntil u.
Proof.
  intros Hf Htr Hpw.
  destruct (check_credentials_run dto w) as (found & Hf' & res & w2 & Hrun & Hres).
  rewrite Hf in Hf'. injection Hf' as <-. rewrite Htr, Hpw in Hres.
  exists w2. destruct (account_locked (w_now w) u).
  - destruct Hres as [-> ->]. unfold login, mbind, M_bind. by rewrite Hrun.
  - destruct Hres as [-> Hw]. split; [unfold login, mbind, M_bind; by rewrite Hrun|].
    eexists. split; [exact Hw|]. unfold failed_login_data, LOCKOUT_THRESHOLD,
      MAX_LOCKOUT_MINUTES.
    destruct u; simpl. destruct (5 <=? _); simpl; split_and!; try done; f_equal; lia.
Qed.

(** A password reset that succeeds used an unexpired, unused reset token, stores a
    hash of exactly the new password (which meets the password rules), lifts the lock, and
    ends every session of the user; the token is used up. *)
Theorem resetPassword_spec token newPassword ip w w' :
  w_inTransaction w = false →
  resetPassword token newPassword ip w = (Ok tt, w') →
  ∃ k t, rows_of d_resetTokens w !! k = Some t ∧ ot_tokenHash t = sha256 token ∧
    ot_usedAt t = None ∧ w_now w <= ot_expiresAt t ∧
    (∃ p, password_create newPassword = Ok p) ∧
    (∃ w1 h u, users w !! ot_userId t = Some u ∧
       argon2_verify h newPassword = true ∧
       users w1 = <[ot_userId t := reset_data (w_now w) h u]> (users w) ∧
       rows_of d_resetTokens w1 = <[k := used_data (w_now w) t]> (rows_of d_resetTokens w) ∧
       rows_of d_refreshTokens w1 = rows_of d_refreshTokens w ∧
       ∃ w2, revokeAllUserTokens (ot_userId t) "REVOKED_ALL" w1 = (Ok tt, w2) ∧
         ∀ i r, rows_of d_refreshTokens w2 !! i = Some r → rt_userId r = ot_userId t →
           rt_isRevoked r = true).
Proof.
  intros Htx H. unfold resetPassword, hashToken, hashPassword in H. w_inv.
  match goal with E : find_first _ _ _ = _ |- _ =>
    apply (find_first_some d_resetTokens) in E as (-> & Hk & Hp) end.
  match goal with E : draw _ = _ |- _ => apply draw_ok in E as [-> ->] end.
  match goal with E : transaction _ _ = _ |- _ =>
    apply transaction_ok in E as (w1 & Hw1 & ->); [|by upd_simpl] end.
  match goal with E : revokeAllUserTokens _ _ _ = _ |- _ => rename E into Hrev end.
  bool_to_prop. w_inv.
  repeat match goal with
  | E : update_one d_users _ _ _ = _ |- _ =>
      apply (update_one_ok d_users) in E as (u & Hu & _ & Hus & tu & ->)
  | E : update_one d_resetTokens _ _ _ = _ |- _ =>
      apply (update_one_ok d_resetTokens) in E as (t' & Ht' & _ & Hts & tt' & ->)
  end.
  unfold rows_of in *.
  eexists _, _. split; [exact Hk|]. split_and!; [done|done|done|eauto|].
  match type of Hrev with _ ?w1 = _ => exists w1 end.
  match type of Hus with context [reset_data _ ?h _] => exists h end. exists u. split_and!.
  - revert Hu. by upd_simpl.
  - rewrite argon2_spec. by apply bool_decide_eq_true.
  - upd_simpl. revert Hus. by upd_simpl.
  - upd_simpl. revert Hts Ht'. upd_simpl. intros Hts Ht'. congruence.
  - by upd_simpl.
  - match type of Hrev with _ = (Ok ?x, _) => destruct x end.
    eexists. split; [exact Hrev|]. intros i r Hi Hr. by eapply revokeAll_complete.
Qed.
End properties.

(** ** Concrete runs *)

Definition demo_member (status : UserStatus) : UserRow :=
  demo_user_row <| us_passwordHash := Some "Secret-123" |> <| us_status := status |>.
Definition demo_office (status : UserStatus) : World (gmap string) :=
  world_of 1000 (empty_db <| d_users := {["u" := demo_member status]} |>
    <| d_resetTokens := {["k" := mkOneTimeTokenRow "u" "tok" 2000 None 0]} |>).
Definition demo_dto (password : string) : LoginDto := mkLoginDto "E" password None None.

Lemma login_sound_witness :
  ∃ r w', login (Cr:=demo_crypto) demo_cfg (demo_dto "Secret-123") (demo_office UActive)
          = (Ok r, w') ∧
    ∃ i u, rows_of d_users (demo_office UActive) !! i = Some u ∧ us_status u ≠ USuspended.
Proof.
  assert (∃ r w', login (Cr:=demo_crypto) demo_cfg (demo_dto "Secret-123")
                    (demo_office UActive) = (Ok r, w')) as (r & w' & E).
  { do 2 eexists. vm_compute. reflexivity. }
  destruct (login_sound (Cr:=demo_crypto) demo_cfg (demo_dto "Secret-123")
              (demo_office UActive) r w' E) as (i & u & Hi & _ & _ & _ & Hs & _).
  exists r, w'. split; [exact E|]. by exists i, u.
Defined.

Lemma login_uniform_refusal_witness :
  ∃ e w', login (Cr:=demo_crypto) demo_cfg (demo_dto "Secret-123") (demo_office USuspended)
          = (Err e, w') ∧
    ∃ i u, rows_of d_users (demo_office USuspended) !! i = Some u ∧
      password_right u "Secret-123" = true.
Proof.
  assert (∃ w', login (Cr:=demo_crypto) demo_cfg (demo_dto "Secret-123")
                  (demo_office USuspended)
                = (Err (ForbiddenError "Your account has been suspended"), w')) as (w' & E).
  { eexists. vm_compute. reflexivity. }
  destruct (login_uniform_refusal (Cr:=demo_crypto) demo_cfg (demo_dto "Secret-123")
              (demo_office USuspended) _ w' E) as (i & u & Hi & _ & Hp & _); [discriminate|].
  do 2 eexists. split; [exact E|]. by exists i, u.
Defined.

Lemma lockout_progressive_witness :
  ∃ w', login (Cr:=demo_crypto) demo_cfg (demo_dto "wrong") (demo_office UActive)
        = (Err bad_credentials, w').
Proof.
  destruct (lockout_progressive (Cr:=demo_crypto) demo_cfg (demo_dto "wrong")
              (demo_office UActive) "u" (demo_member UActive)) as (w' & E & _);
    [vm_compute; reflexivity..|].
  by exists w'.
Defined.

Lemma resetPassword_spec_witness :
  ∃ w', resetPassword (Cr:=demo_crypto) "tok" "Other-4567" None (demo_office UActive)
        = (Ok tt, w') ∧
    ∃ k t, rows_of d_resetTokens (demo_office UActive) !! k = Some t ∧ ot_usedAt t = None.
Proof.
  assert (∃ w', resetPassword (Cr:=demo_crypto) "tok" "Other-4567" None
                  (demo_office UActive) = (Ok tt, w')) as (w' & E).
  { eexists. vm_compute. reflexivity. }
  destruct (resetPassword_spec (Cr:=demo_crypto) "tok" "Other-4567" None
              (demo_office UActive) w' eq_refl E) as (k & t & Hk & _ & Hu & _).
  exists w'. split; [exact E|]. by exists k, t.
Defined.

(** A deactivated account (INACTIVE) still logs in and is given tokens, although it "may no
    longer obtain tokens" ([assertAccountUsable] refuses it). *)
Lemma login_inactive_account :
  is_ok (login (Cr:=demo_crypto) demo_cfg (demo_dto "Secret-123") (demo_office UInactive)).1
    = true ∧
  assertAccountUsable (demo_member UInactive) (demo_office UInactive)
    = (Err (ForbiddenError "Your account is not active"), demo_office UInactive).
Proof. split; vm_compute; reflexivity. Qed.
