(* ===== verification/EventBus.v ===== *)
(** * The event bus and its handler ledger

    [src/application/event-bus/event-bus.ts] and
    [src/infrastructure/outbox/redis-handler-ledger.ts]: subscriptions, the delivery of one
    event to its handlers, and the ledger that keeps a redelivery from repeating the
    handlers that already succeeded.

    The definitions run the handlers one after the other; the section [interleaving] has
    the tasks [Promise.allSettled] starts side by side, as steps between which anything
    else may happen, together with the redeliveries of the outbox.  A handler is one step
    of its task: what other requests do while it runs is a step of the environment. *)

From stdpp Require Import pretty.
From Stdlib Require Import Ascii String.
From S2P Require Import Prelude Store Js Errors Domain Schema World Outbox.

#[local] Open Scope string_scope.
#[local] Open Scope Z_scope.
#[local] Set Default Proof Using "Type*".

(** ** Definitions *)

(** [event.eventId], [event.eventType] *)
Definition event_string (key : string) (e : EventObject) : string :=
  match get_field key e with Some (VJson (JStr s)) => s | _ => "" end.

(** The key of a handler in the ledger. *)
Definition handler_key (e : EventObject) (index : nat) : string :=
  event_string "eventId" e ++ ":" ++ event_string "eventType" e ++ ":" ++ pretty index.

Section bus.
Context {S : Type}.

(** [interface HandlerLedger] *)
Record HandlerLedger := mkLedger {
  isDone : string → M S error bool;
  markDone : string → M S error unit;
}.

(** A handler is a function object: [h_id] is its identity. *)
Record EventHandler := mkHandler {
  h_id : nat;
  h_run : EventObject → M S error unit;
}.

(** [handlers: Map<string, EventHandler[]>] *)
Notation Handlers := (gmap string (list EventHandler)).

Definition subscribe (eventType : string) (handler : EventHandler) (handlers : Handlers)
  : Handlers :=
  <[eventType := (default [] (handlers !! eventType) ++ [handler])%list]> handlers.

Definition unsubscribe (eventType : string) (handler : EventHandler) (handlers : Handlers)
  : Handlers :=
  <[eventType := filter (λ h, h_id h ≠ h_id handler) (default [] (handlers !! eventType))]>
    handlers.

Definition runOnce (ledger : option HandlerLedger) (e : EventObject)
    (handler : EventHandler) (index : nat) : M S error unit :=
  match ledger with
  | None => h_run handler e
  | Some ledger =>
      done ← isDone ledger (handler_key e index);
      if done : bool then mret ()
      else _ ← h_run handler e; markDone ledger (handler_key e index)
  end.

(** [Promise.allSettled], keeping the reasons of the rejected ones. *)
Fixpoint settle_all (ledger : option HandlerLedger) (e : EventObject)
    (handlers : list EventHandler) (index : nat) : M S error (list error) :=
  match handlers with
  | [] => mret []
  | h :: handlers =>
      failure ← try_catch (_ ← runOnce ledger e h index; mret [])
                  (λ reason, mret [reason]);
      failures ← settle_all ledger e handlers (Datatypes.S index);
      mret (failure ++ failures)%list
  end.

Definition AggregateError (failures : list error) (eventType : string) : error :=
  PlainError (pretty (Z.of_nat (length failures)) ++ " handler(s) failed for " ++ eventType).

Definition bus_publish (ledger : option HandlerLedger) (handlers : Handlers)
    (e : EventObject) : M S error unit :=
  match default [] (handlers !! event_string "eventType" e) with
  | [] => mret ()
  | eventHandlers =>
      failures ← settle_all ledger e eventHandlers 0;
      match failures with
      | [] => mret ()
      | _ => throw (AggregateError failures (event_string "eventType" e))
      end
  end.

Definition bus_publishAll (ledger : option HandlerLedger) (handlers : Handlers)
    (events : list EventObject) : M S error unit :=
  for_each (bus_publish ledger handlers) events.
End bus.
Arguments HandlerLedger S : clear implicits.
Arguments EventHandler S : clear implicits.
Notation Handlers S := (gmap string (list (EventHandler S))).

(** ** RedisHandlerLedger *)

Definition KEY_PREFIX : string := "event-handler:done:".
Definition TTL_SECONDS : Z := 7 * 24 * 60 * 60.

Section redis.
Context {S : Type}.
(** [redis.exists(key)] and [redis.set(key, value, { EX })] *)
Context (redis_exists : string → M S error Z) (redis_set : string → string → Z → M S error unit).

Definition RedisHandlerLedger : HandlerLedger S := mkLedger
  (λ key, n ← redis_exists (KEY_PREFIX ++ key); mret (bool_decide (n = 1)))
  (λ key, redis_set (KEY_PREFIX ++ key) "1" TTL_SECONDS).
End redis.

(** ** OutboxWorker *)

Section worker.
Context {Tbl : Type → Type}.

(** [OutboxWorker.tick], for a worker that is [running], with [inFlight] telling whether
    its previous batch has not ended: a batch that throws is logged. *)
Definition worker_tick (isPaused : W Tbl bool) (process : W Tbl Z)
    (running inFlight : bool) : W Tbl unit :=
  if negb running || inFlight then mret ()
  else try_catch
         (paused ← isPaused;
          if paused : bool then mret () else _ ← process; mret ())
         (λ _, mret ()).
End worker.

(** ** The tasks of a delivery, side by side *)

Section interleaving.
Context {S : Type} (ledger : HandlerLedger S) (handlers : list (EventHandler S))
  (e : EventObject) (env : S → S → Prop).

(** Where a task stands in [runOnce]. *)
Inductive Phase := Checking | Running | Marking | Settled (failure : option error).

(** The shared state, the tasks, and, for the statements below, the handlers that were
    started and those that returned, newest first. *)
Record Delivery := mkDelivery {
  dv_state : S;
  dv_tasks : list Phase;
  dv_started : list nat;
  dv_returned : list nat;
}.

Definition resolved (d : Delivery) : Prop := Forall (λ p, p = Settled None) (dv_tasks d).
Definition settled_all (d : Delivery) : Prop :=
  Forall (λ p, ∃ failure, p = Settled failure) (dv_tasks d).

Definition fresh_tasks : list Phase := replicate (length handlers) Checking.

Inductive deliver_step : Delivery → Delivery → Prop :=
| ds_check i b s tasks st started returned :
    tasks !! i = Some Checking → isDone ledger (handler_key e i) st = (Ok b, s) →
    deliver_step (mkDelivery st tasks started returned)
      (mkDelivery s (<[i := if b : bool then Settled None else Running]> tasks) started returned)
| ds_check_rejects i err s tasks st started returned :
    tasks !! i = Some Checking → isDone ledger (handler_key e i) st = (Err err, s) →
    deliver_step (mkDelivery st tasks started returned)
      (mkDelivery s (<[i := Settled (Some err)]> tasks) started returned)
| ds_return i h s tasks st started returned :
    tasks !! i = Some Running → handlers !! i = Some h → h_run h e st = (Ok tt, s) →
    deliver_step (mkDelivery st tasks started returned)
      (mkDelivery s (<[i := Marking]> tasks) (i :: started) (i :: returned))
| ds_throw i h err s tasks st started returned :
    tasks !! i = Some Running → handlers !! i = Some h → h_run h e st = (Err err, s) →
    deliver_step (mkDelivery st tasks started returned)
      (mkDelivery s (<[i := Settled (Some err)]> tasks) (i :: started) returned)
| ds_mark i s tasks st started returned :
    tasks !! i = Some Marking → markDone ledger (handler_key e i) st = (Ok tt, s) →
    deliver_step (mkDelivery st tasks started returned)
      (mkDelivery s (<[i := Settled None]> tasks) started returned)
| ds_mark_rejects i err s tasks st started returned :
    tasks !! i = Some Marking → markDone ledger (handler_key e i) st = (Err err, s) →
    deliver_step (mkDelivery st tasks started returned)
      (mkDelivery s (<[i := Settled (Some err)]> tasks) started returned)
| ds_env s tasks st started returned :
    env st s →
    deliver_step (mkDelivery st tasks started returned) (mkDelivery s tasks started returned)
| ds_redeliver tasks st started returned :
    settled_all (mkDelivery st tasks started returned) →
    ¬ resolved (mkDelivery st tasks started returned) →
    deliver_step (mkDelivery st tasks started returned)
      (mkDelivery st fresh_tasks started returned).

Definition starts (i : nat) (d : Delivery) : nat := length (filter (i =.) (dv_started d)).
End interleaving.
Arguments Delivery S : clear implicits.

(** ** What a ledger promises

    [Done key s]: the ledger of state [s] has a record for [key]. *)

Class LedgerLaws {S} (ledger : HandlerLedger S) (Done : string → S → Prop) : Prop := {
  isDone_reply k s b s' : isDone ledger k s = (Ok b, s') → b = true ↔ Done k s;
  isDone_keeps k s res s' j : isDone ledger k s = (res, s') → Done j s' ↔ Done j s;
  markDone_records k s s' : markDone ledger k s = (Ok tt, s') → Done k s';
  markDone_keeps k s res s' j : markDone ledger k s = (res, s') → j ≠ k → Done j s' ↔ Done j s;
  markDone_mono k s res s' j : markDone ledger k s = (res, s') → Done j s → Done j s';
}.

(** Only the bus writes the records of an event, and they outlive its redeliveries. *)
Class Recorded {S} (Done : string → S → Prop) (handlers : list (EventHandler S))
    (e : EventObject) (env : S → S → Prop) : Prop := {
  handler_keeps h s res s' i :
    h ∈ handlers → h_run h e s = (res, s') →
    Done (handler_key e i) s' ↔ Done (handler_key e i) s;
  env_keeps s s' i :
    env s s' → Done (handler_key e i) s' ↔ Done (handler_key e i) s;
}.

(** Different handlers of an event have different keys. *)
Lemma handler_key_inj e i j : handler_key e i = handler_key e j → i = j.
Proof.
  unfold handler_key. intros H. apply str_app_inj_l in H. injection H as H.
  apply str_app_inj_l in H. injection H as H. by apply (inj pretty) in H.
Qed.

Section facts.
#[local] Open Scope list_scope.
Context {S : Type} (ledger : HandlerLedger S) (handlers : list (EventHandler S))
  (e : EventObject) (env : S → S → Prop) (Done : string → S → Prop).
Context `{!LedgerLaws ledger Done} `{!Recorded Done handlers e env}.

Notation step := (deliver_step ledger handlers e env).
Notation done i d := (Done (handler_key e i) (dv_state d)).

(** A handler whose success is on record is neither running nor about to be marked; what
    is on record, or counted as a success of the delivery, did return. *)
Record DeliveryOk (d : Delivery S) : Prop := {
  do_tasks : length (dv_tasks d) = length handlers;
  do_busy i : dv_tasks d !! i = Some Running ∨ dv_tasks d !! i = Some Marking → ¬ done i d;
  do_record i : (i < length handlers)%nat → done i d → i ∈ dv_returned d;
  do_marking i : dv_tasks d !! i = Some Marking → i ∈ dv_returned d;
  do_settled i : dv_tasks d !! i = Some (Settled None) → i ∈ dv_returned d ∧ done i d;
}.

Lemma ok_set d i p s' started' returned' :
  DeliveryOk d → (i < length (dv_tasks d))%nat →
  (∀ j, j ≠ i → Done (handler_key e j) s' ↔ done j d) →
  (∀ j, j ∈ dv_returned d → j ∈ returned') →
  (p = Running ∨ p = Marking → ¬ Done (handler_key e i) s') →
  (Done (handler_key e i) s' → i ∈ returned') →
  (p = Marking ∨ p = Settled None → i ∈ returned') →
  (p = Settled None → Done (handler_key e i) s') →
  DeliveryOk (mkDelivery s' (<[i := p]> (dv_tasks d)) started' returned').
Proof.
  intros [Hl Hb Hr Hm Hs] Hi Hkeep Hret Hbusy Hrec Hend Hdone.
  split; cbn [dv_state dv_tasks dv_returned].
  - by rewrite length_insert.
  - intros j [Hj|Hj]; (destruct (decide (j = i)) as [->|Hne];
      [rewrite list_lookup_insert_eq in Hj by done; simplify_eq; auto
      |rewrite list_lookup_insert_ne in Hj by done; rewrite Hkeep by done; auto]).
  - intros j Hj Hd. destruct (decide (j = i)) as [->|Hne]; [auto|].
    apply Hret, Hr; [done|]. by apply Hkeep.
  - intros j Hj. destruct (decide (j = i)) as [->|Hne];
      [rewrite list_lookup_insert_eq in Hj by done; simplify_eq; auto
      |rewrite list_lookup_insert_ne in Hj by done; auto].
  - intros j Hj. destruct (decide (j = i)) as [->|Hne];
      [rewrite list_lookup_insert_eq in Hj by done; simplify_eq; auto
      |rewrite list_lookup_insert_ne in Hj by done; rewrite Hkeep by done].
    destruct (Hs _ Hj); auto.
Qed.

(** What a step does to the records of the event's handlers. *)
Lemma step_records d d' :
  DeliveryOk d → step d d' → ∀ i, (i < length handlers)%nat → done i d → done i d'.
Proof.
  intros Hok Hstep i Hi Hd. destruct Hstep; cbn [dv_state] in *.
  - eapply isDone_keeps; eauto.
  - eapply isDone_keeps; eauto.
  - eapply handler_keeps; eauto. by eapply list_elem_of_lookup_2.
  - eapply handler_keeps; eauto. by eapply list_elem_of_lookup_2.
  - by eapply markDone_mono.
  - by eapply markDone_mono.
  - eapply env_keeps; eauto.
  - done.
Qed.

Lemma key_ne i j : i ≠ j → handler_key e i ≠ handler_key e j.
Proof. intros Hne Hk. by apply handler_key_inj in Hk. Qed.

Lemma step_ok d d' : DeliveryOk d → step d d' → DeliveryOk d'.
Proof.
  intros Hok Hstep. pose proof (do_tasks _ Hok) as Hlen.
  destruct Hstep as [i b s tasks st started returned Hi HL|i err s tasks st started returned Hi HL
    |i h s tasks st started returned Hi Hh HL|i h err s tasks st started returned Hi Hh HL
    |i s tasks st started returned Hi HL|i err s tasks st started returned Hi HL
    |s tasks st started returned He|tasks st started returned Hset Hres];
    cbn [dv_state dv_tasks dv_returned] in *;
    try (pose proof (lookup_lt_Some _ _ _ Hi) as Hlt).
  - pose proof (isDone_keeps _ _ _ _ (handler_key e i) HL) as Hk.
    pose proof (isDone_reply _ _ _ _ HL) as Hb.
    apply (ok_set (mkDelivery st tasks started returned)); cbn; auto; try discriminate.
    + intros j _. by eapply isDone_keeps.
    + intros Hp Hd. destruct b; [by destruct Hp|]. by apply Hk, Hb in Hd.
    + intros Hd. apply (do_record _ Hok); [by rewrite Hlen in Hlt|]. by apply Hk.
    + intros [Hp|Hp]; destruct b; try done.
      apply (do_record _ Hok); [by rewrite Hlen in Hlt|]. by apply Hb.
    + intros Hp. destruct b; [|done]. by apply Hk, Hb.
  - apply (ok_set (mkDelivery st tasks started returned)); cbn; auto; try discriminate.
    + intros j _. by eapply isDone_keeps.
    + by intros [|].
    + intros Hd. apply (do_record _ Hok); [by rewrite Hlen in Hlt|].
      by apply (isDone_keeps _ _ _ _ (handler_key e i) HL).
    + by intros [|].
  - pose proof (list_elem_of_lookup_2 _ _ _ Hh) as Hin.
    assert (¬ Done (handler_key e i) s) as Hnd.
    { intros Hd. eapply (do_busy _ Hok i); [by left|].
      by apply (handler_keeps _ _ _ _ i Hin HL). }
    apply (ok_set (mkDelivery st tasks started returned)); cbn; auto; try discriminate.
    + intros j _. by eapply handler_keeps.
    + set_solver.
    + done.
    + intros _. set_solver.
  - pose proof (list_elem_of_lookup_2 _ _ _ Hh) as Hin.
    assert (¬ Done (handler_key e i) s) as Hnd.
    { intros Hd. eapply (do_busy _ Hok i); [by left|].
      by apply (handler_keeps _ _ _ _ i Hin HL). }
    apply (ok_set (mkDelivery st tasks started returned)); cbn; auto; try discriminate.
    + intros j _. by eapply handler_keeps.
    + done.
    + by intros [|].
  - apply (ok_set (mkDelivery st tasks started returned)); cbn; auto; try discriminate.
    + intros j Hne. eapply markDone_keeps; [done|by apply key_ne].
    + by intros [|].
    + intros _. by apply (do_marking _ Hok).
    + intros _. by apply (do_marking _ Hok).
    + intros _. by eapply markDone_records.
  - apply (ok_set (mkDelivery st tasks started returned)); cbn; auto; try discriminate.
    + intros j Hne. eapply markDone_keeps; [done|by apply key_ne].
    + by intros [|].
    + intros _. by apply (do_marking _ Hok).
    + by intros [|].
  - destruct Hok as [? Hb Hr ? ?]. split; cbn [dv_state dv_tasks dv_returned] in *; auto.
    + intros j Hj Hd. eapply Hb; [done|].
      by apply (env_keeps _ _ j He).
    + intros j Hj Hd. apply Hr; [done|].
      by apply (env_keeps _ _ j He).
    + intros j Hj. rewrite (env_keeps _ _ j He). auto.
  - destruct Hok as [? Hb Hr ? ?].
    split; cbn [dv_state dv_tasks dv_returned] in *; auto.
    + unfold fresh_tasks. by rewrite length_replicate.
    + intros j [Hj|Hj]; apply lookup_replicate in Hj as [Hj _]; discriminate Hj.
    + intros j Hj. apply lookup_replicate in Hj as [Hj _]. discriminate Hj.
    + intros j Hj. apply lookup_replicate in Hj as [Hj _]. discriminate Hj.
Qed.

(** A step of a delivery starts a handler only when it is not on record. *)
Lemma step_starts d d' i :
  DeliveryOk d → step d d' → done i d → starts i d' = starts i d.
Proof.
  intros Hok Hstep Hd. destruct Hstep; try reflexivity; unfold starts;
    cbn [dv_started dv_state] in *;
    rewrite filter_cons; case_decide as Hi; try reflexivity; subst;
    exfalso; eapply (do_busy _ Hok); [left; eassumption|exact Hd|left; eassumption|exact Hd].
Qed.

Lemma run_ok d d' : DeliveryOk d → rtc step d d' → DeliveryOk d'.
Proof. intros Hok Hrun. induction Hrun; [done|]. eauto using step_ok. Qed.

Lemma run_starts d d' i :
  (i < length handlers)%nat → DeliveryOk d → rtc step d d' → done i d →
  done i d' ∧ starts i d' = starts i d.
Proof.
  intros Hi Hok Hrun. induction Hrun as [|d d1 d' Hstep Hrun IH]; intros Hd; [done|].
  destruct IH as [Hd' Hs]; [by eapply step_ok|by eapply step_records|].
  split; [done|]. rewrite Hs. by eapply step_starts.
Qed.

Lemma start_ok s : (∀ i, (i < length handlers)%nat → ¬ Done (handler_key e i) s) →
  DeliveryOk (mkDelivery s (fresh_tasks handlers) [] []).
Proof.
  intros Hfresh. split; cbn [dv_state dv_tasks dv_returned]; unfold fresh_tasks.
  - by rewrite length_replicate.
  - intros j [Hj|Hj]; apply lookup_replicate in Hj as [Hj _]; discriminate Hj.
  - intros j Hj Hd. by apply Hfresh in Hd.
  - intros j Hj. apply lookup_replicate in Hj as [Hj _]. discriminate Hj.
  - intros j Hj. apply lookup_replicate in Hj as [Hj _]. discriminate Hj.
Qed.

(** *** The executable delivery is one of the interleavings *)

Definition outcome {A} (res : result error A) : option error :=
  match res with Ok _ => None | Err err => Some err end.

Lemma runOnce_steps i h st tasks started returned res st' :
  tasks !! i = Some Checking → handlers !! i = Some h →
  runOnce (Some ledger) e h i st = (res, st') →
  ∃ started' returned', rtc step (mkDelivery st tasks started returned)
    (mkDelivery st' (<[i := Settled (outcome res)]> tasks) started' returned').
Proof.
  intros Hi Hh. pose proof (lookup_lt_Some _ _ _ Hi) as Hlt.
  assert (∀ p, (<[i:=p]> tasks) !! i = Some p) as Hset by (intros; by apply list_lookup_insert_eq).
  unfold runOnce, mbind, M_bind, mret, M_ret.
  destruct (isDone ledger (handler_key e i) st) as [[[|]|err] s1] eqn:E1; intros H; inv_ok.
  - exists started, returned. apply rtc_once. exact (ds_check _ _ _ _ i true _ _ _ _ _ Hi E1).
  - destruct (h_run h e s1) as [[[]|err] s2] eqn:E2; inv_ok.
    + exists (i :: started), (i :: returned).
      eapply rtc_l; [exact (ds_check _ _ _ _ i false _ _ _ _ _ Hi E1)|].
      eapply rtc_l; [exact (ds_return _ _ _ _ i h _ _ _ _ _ (Hset Running) Hh E2)|].
      rewrite list_insert_insert_eq. apply rtc_once.
      destruct (markDone ledger (handler_key e i) s2) as [[[]|err] s3] eqn:E3; inv_ok.
      * cbn [outcome]. rewrite <-(list_insert_insert_eq tasks i (Settled None) Marking).
        exact (ds_mark _ _ _ _ i _ _ _ _ _ (Hset Marking) E3).
      * cbn [outcome]. rewrite <-(list_insert_insert_eq tasks i (Settled (Some err)) Marking).
        exact (ds_mark_rejects _ _ _ _ i _ _ _ _ _ _ (Hset Marking) E3).
    + exists (i :: started), returned.
      eapply rtc_l; [exact (ds_check _ _ _ _ i false _ _ _ _ _ Hi E1)|]. apply rtc_once.
      cbn [outcome]. rewrite <-(list_insert_insert_eq tasks i (Settled (Some err)) Running).
      exact (ds_throw _ _ _ _ i h _ _ _ _ _ _ (Hset Running) Hh E2).
  - exists started, returned. apply rtc_once.
    exact (ds_check_rejects _ _ _ _ i err _ _ _ _ _ Hi E1).
Qed.

Lemma settle_all_steps hs pre st ptasks started returned res st' :
  handlers = pre ++ hs → length ptasks = length pre →
  settle_all (Some ledger) e hs (length pre) st = (res, st') →
  ∃ ends started' returned', res = Ok (omap id ends) ∧ length ends = length hs ∧
    rtc step (mkDelivery st (ptasks ++ replicate (length hs) Checking) started returned)
      (mkDelivery st' (ptasks ++ map Settled ends) started' returned').
Proof.
  revert pre st st' ptasks started returned res.
  induction hs as [|h hs IH]; intros pre st st' ptasks started returned res Hh Hl H; cbn [settle_all] in H.
  { unfold mret, M_ret in H. inv_ok. exists [], started, returned. split_and!; [done..|reflexivity]. }
  unfold mbind, M_bind, mret, M_ret, try_catch in H.
  assert (∃ r1 s1, runOnce (Some ledger) e h (length pre) st = (r1, s1)) as (r1 & s1 & E1)
    by (destruct (runOnce _ _ _ _ _); eauto).
  edestruct (runOnce_steps (length pre) h st (ptasks ++ replicate (length (h :: hs)) Checking)
               started returned r1 s1) as (st1 & ret1 & Hrun);
    [by rewrite lookup_app_r, Hl, Nat.sub_diag by lia
    |by rewrite Hh, lookup_app_r, Nat.sub_diag by lia|exact E1|].
  rewrite E1 in H.
  assert (∃ r2 s2, settle_all (Some ledger) e hs (length (pre ++ [h])) s1 = (r2, s2))
    as (r2 & s2 & E2) by (destruct (settle_all _ _ _ _ _); eauto).
  edestruct (IH (pre ++ [h]) s1 s2 (ptasks ++ [Settled (outcome r1)]) st1 ret1 r2)
    as (ends & st2 & ret2 & -> & Hends & Hrun2);
    [by rewrite <-app_assoc|rewrite !length_app; simpl; lia|exact E2|].
  rewrite length_app, Nat.add_1_r in E2.
  exists (outcome r1 :: ends), st2, ret2. split_and!.
  - destruct r1 as [[]|err]; simpl in H; rewrite E2 in H; simpl in H; by inv_ok.
  - simpl. by rewrite Hends.
  - etrans; [exact Hrun|].
    assert (st' = s2) as ->.
    { destruct r1 as [[]|err]; simpl in H; rewrite E2 in H; simpl in H; by inv_ok. }
    simpl map. simpl length. rewrite <-!app_assoc in Hrun2. simpl in Hrun2.
    rewrite insert_app_r_alt, Hl, Nat.sub_diag by lia. exact Hrun2.
Qed.

Lemma settled_none (ends : list (option error)) :
  Forall (λ p, p = Settled None) (map Settled ends) ↔ omap id ends = [].
Proof.
  induction ends as [|[err|] ends IH]; cbn; [done|..]; rewrite Forall_cons.
  - split; [by intros [? _]|done].
  - rewrite IH. intuition.
Qed.

Lemma publish_steps reg st res st' :
  default [] (reg !! event_string "eventType" e) = handlers →
  bus_publish (Some ledger) reg e st = (res, st') →
  ∃ d, rtc step (mkDelivery st (fresh_tasks handlers) [] []) d ∧ dv_state d = st' ∧
       settled_all d ∧ (res = Ok tt ↔ resolved d).
Proof.
  intros Hreg H. unfold bus_publish in H. rewrite Hreg in H.
  assert (∃ r1 s1, settle_all (Some ledger) e handlers 0 st = (r1, s1)) as (r1 & s1 & E)
    by (destruct (settle_all _ _ _ _ _); eauto).
  edestruct (settle_all_steps handlers [] st [] [] [] r1 s1)
    as (ends & st1 & ret1 & -> & Hl & Hrun); [done..|].
  assert (res = (if decide (omap id ends = []) then Ok tt else
            Err (AggregateError (omap id ends) (event_string "eventType" e))) ∧ st' = s1)
    as [-> ->].
  { destruct handlers as [|h hs].
    - apply nil_length_inv in Hl. subst ends. simpl in E.
      unfold mret, M_ret in *. by inv_ok.
    - unfold mbind, M_bind in H. rewrite E in H.
      destruct (omap id ends) as [|x xs]; unfold mret, M_ret, throw in H;
        case_decide; try done; by inv_ok. }
  exists (mkDelivery s1 (map Settled ends) st1 ret1). split_and!; [exact Hrun|done|..].
  - unfold settled_all. cbn. apply Forall_forall. intros p (f & -> & _)%list_elem_of_fmap. eauto.
  - unfold resolved. cbn. rewrite settled_none. by case_decide.
Qed.
End facts.

(** ** Properties *)

(** How much of [runOnce] is left to a task. *)
Definition phase_weight (p : Phase) : nat :=
  match p with Checking => 3 | Running => 2 | Marking => 1 | Settled _ => 0 end%nat.
Definition weight {S} (d : Delivery S) : nat := sum_list_with phase_weight (dv_tasks d).

Lemma sum_list_insert (l : list Phase) i p q :
  l !! i = Some q →
  (sum_list_with phase_weight (<[i := p]> l) + phase_weight q =
   sum_list_with phase_weight l + phase_weight p)%nat.
Proof.
  revert i. induction l as [|x l IH]; intros [|i] H; simpl in *; simplify_eq; [lia|].
  specialize (IH _ H). lia.
Qed.

Section properties.
Context {S : Type} (ledger : HandlerLedger S) (handlers : list (EventHandler S))
  (e : EventObject) (env : S → S → Prop).
Notation step := (deliver_step ledger handlers e env).

Lemma set_weight (d : Delivery S) i p q (s : S) started returned :
  dv_tasks d !! i = Some p → (phase_weight q < phase_weight p)%nat →
  (weight (mkDelivery s (<[i := q]> (dv_tasks d)) started returned) < weight d)%nat.
Proof.
  intros Hp Hq. unfold weight. cbn. pose proof (sum_list_insert _ i q _ Hp). lia.
Qed.

(** Whatever the ledger and the handlers answer, a task that is not settled goes on. *)
Lemma task_step st tasks started returned i p :
  length tasks = length handlers → tasks !! i = Some p → phase_weight p ≠ 0%nat →
  ∃ q s started' returned', (phase_weight q < phase_weight p)%nat ∧
    step (mkDelivery st tasks started returned)
         (mkDelivery s (<[i := q]> tasks) started' returned').
Proof.
  intros Hlen Hp Hw. destruct p as [| | |f]; [| | |done].
  - destruct (isDone ledger (handler_key e i) st) as [[b|err] s] eqn:E;
      do 4 eexists; (split; [|by econstructor]); [destruct b|]; simpl; lia.
  - destruct (lookup_lt_is_Some_2 handlers i) as [h Hh].
    { rewrite <-Hlen. by eapply lookup_lt_Some. }
    destruct (h_run h e st) as [[[]|err] s] eqn:E;
      do 4 eexists; (split; [|by econstructor]); simpl; lia.
  - destruct (markDone ledger (handler_key e i) st) as [[[]|err] s] eqn:E;
      do 4 eexists; (split; [|by econstructor]); simpl; lia.
Qed.

Lemma unsettled_task (tasks : list Phase) :
  sum_list_with phase_weight tasks ≠ 0%nat →
  ∃ i p, tasks !! i = Some p ∧ phase_weight p ≠ 0%nat.
Proof.
  induction tasks as [|p tasks IH]; simpl; [done|]. intros H0.
  destruct (decide (phase_weight p = 0%nat)) as [Hp|Hp]; [|by exists 0%nat, p].
  destruct IH as (i & q & ? & ?); [lia|]. by exists (Datatypes.S i), q.
Qed.

(** A delivery settles.  As long as a task is not settled, it can make a step, whatever
    the ledger and the handlers answer; and every step of the delivery brings its end
    nearer, except that the environment may act in between and that the outbox redelivers
    an event whose delivery has failed. *)
Theorem delivery_settles d :
  length (dv_tasks d) = length handlers →
  (settled_all d ∨ ∃ d', step d d' ∧ (weight d' < weight d)%nat) ∧
  ∀ d', step d d' → (weight d' < weight d)%nat ∨ dv_tasks d' = dv_tasks d ∨
                    settled_all d ∧ ¬ resolved d.
Proof.
  intros Hlen. split.
  - destruct (decide (weight d = 0%nat)) as [H0|H0].
    + left. apply Forall_lookup. intros i p Hp.
      pose proof (sum_list_insert _ i (Settled None) _ Hp). unfold weight in H0.
      destruct p; simpl in *; try lia. eauto.
    + right. destruct (unsettled_task _ H0) as (i & p & Hp & Hw). destruct d.
      destruct (task_step dv_state0 dv_tasks0 dv_started0 dv_returned0 i p Hlen Hp Hw) as (q & s & st & rt & Hq & Hs).
      eexists. split; [exact Hs|]. by eapply (set_weight (mkDelivery dv_state0 dv_tasks0 dv_started0 dv_returned0)).
  - intros d' Hstep. destruct Hstep; auto; left;
      (eapply (set_weight (mkDelivery st tasks started returned)); [eassumption|]); try case_match; simpl; lia.
Qed.

Context (Done : string → S → Prop) `{!LedgerLaws ledger Done} `{!Recorded Done handlers e env}.
Notation start s := (mkDelivery s (fresh_tasks handlers) [] []).

(** C15: Handlers are not repeated by deliveries of an event that follow one another: while only
    the bus writes the records of the event, and they do not expire ([Recorded]).  However
    the handlers of a delivery and other requests interleave, when a delivery resolves, every
    handler has returned and is on record; and from the moment a handler's success is on
    record, no later delivery starts it again.  (Two deliveries that overlap, after a lease
    ran out, are not covered: both may find no record.) *)
Theorem handlers_not_repeated s d :
  (∀ i, (i < length handlers)%nat → ¬ Done (handler_key e i) s) → rtc step (start s) d →
  (resolved d → ∀ i, (i < length handlers)%nat →
     i ∈ dv_returned d ∧ Done (handler_key e i) (dv_state d)) ∧
  ∀ i d', (i < length handlers)%nat → Done (handler_key e i) (dv_state d) → rtc step d d' →
    starts i d' = starts i d ∧ Done (handler_key e i) (dv_state d').
Proof.
  intros Hfresh Hrun.
  assert (DeliveryOk handlers e Done d) as Hok.
  { apply (run_ok ledger handlers e env Done (start s)); [|exact Hrun].
    by apply (start_ok ledger handlers e env Done). }
  split.
  - intros Hres i Hi. eapply (do_settled _ _ _ _ Hok).
    rewrite <-(do_tasks _ _ _ _ Hok) in Hi. apply lookup_lt_is_Some_2 in Hi as [p Hp].
    rewrite Hp. f_equal. by apply (Forall_lookup_1 _ _ _ _ Hres Hp).
  - intros i d' Hi Hd Hrun'. by destruct (run_starts ledger handlers e env Done d d' i Hi Hok Hrun' Hd).
Qed.
End properties.

(** ** The outbox and the bus together *)

Section pipeline.
Context {Tbl : Type → Type} `{!Prisma Tbl}.
Context (ledger : HandlerLedger (World Tbl)) (reg : Handlers (World Tbl)).
Context (Done : string → World Tbl → Prop) `{!LedgerLaws ledger Done}.

Definition handlers_of (e : EventObject) : list (EventHandler (World Tbl)) :=
  default [] (reg !! event_string "eventType" e).

Notation outbox w := (rows_of d_outbox w).

(** Ledger and handlers do not write the outbox; handlers and the outbox do not remove
    records. *)
Record PipelineOk : Prop := {
  po_isDone k (w : World Tbl) : outbox (isDone ledger k w).2 = outbox w;
  po_markDone k (w : World Tbl) : outbox (markDone ledger k w).2 = outbox w;
  po_handler e h (w : World Tbl) : h ∈ handlers_of e → outbox (h_run h e w).2 = outbox w;
  po_keeps e h (w : World Tbl) j : h ∈ handlers_of e → Done j w → Done j (h_run h e w).2;
  po_outbox j (w w' : World Tbl) : only_outbox w w' → Done j w → Done j w';
}.

Definition all_handled (e : EventObject) (w : World Tbl) : Prop :=
  ∀ i, (i < length (handlers_of e))%nat → Done (handler_key e i) w.

Context (Hok : PipelineOk).

Lemma runOnce_keeps (P : World Tbl → Prop) e h i :
  (∀ k, preserves P (isDone ledger k)) → (∀ k, preserves P (markDone ledger k)) →
  preserves P (h_run h e) → preserves P (runOnce (Some ledger) e h i).
Proof.
  intros Hd Hm Hh. unfold runOnce. apply preserves_bind; [done|]. intros []; [apply preserves_ret|].
  apply preserves_bind; [done|]. by intros _.
Qed.

Lemma publish_keeps (P : World Tbl → Prop) e :
  (∀ k, preserves P (isDone ledger k)) → (∀ k, preserves P (markDone ledger k)) →
  (∀ h, h ∈ handlers_of e → preserves P (h_run h e)) →
  preserves P (bus_publish (Some ledger) reg e).
Proof.
  intros Hd Hm Hh. unfold bus_publish. fold (handlers_of e).
  assert (∀ hs i, (∀ h, h ∈ hs → preserves P (h_run h e)) →
            preserves P (settle_all (Some ledger) e hs i)) as Hs.
  { intros hs. induction hs as [|h hs IH]; intros i Hhs; simpl; [apply preserves_ret|].
    apply preserves_bind; [apply preserves_try|].
    - apply preserves_bind; [apply runOnce_keeps; try done; apply Hhs; set_solver|].
      intros _. apply preserves_ret.
    - intros err. apply preserves_ret.
    - intros f. apply preserves_bind; [apply IH; intros; apply Hhs; set_solver|].
      intros f'. apply preserves_ret. }
  destruct (handlers_of e) as [|h hs]; [apply preserves_ret|].
  apply preserves_bind; [by apply Hs|]. intros [|]; [apply preserves_ret|apply preserves_throw].
Qed.

(** The calls of a delivery remove no record. *)
Lemma calls_done j :
  (∀ k, preserves (Done j) (isDone ledger k)) ∧ (∀ k, preserves (Done j) (markDone ledger k)) ∧
  ∀ e h, h ∈ handlers_of e → preserves (Done j) (h_run h e).
Proof using LedgerLaws0 Hok.
  split_and!.
  - intros k s Hs. destruct (isDone ledger k s) eqn:E. by eapply isDone_keeps.
  - intros k s Hs. destruct (markDone ledger k s) eqn:E. by eapply markDone_mono.
  - intros e h Hh s Hs. by apply (po_keeps Hok e).
Qed.

Lemma publish_done e j w : Done j w → Done j (bus_publish (Some ledger) reg e w).2.
Proof using LedgerLaws0 Hok.
  destruct (calls_done j) as (? & ? & ?). apply (publish_keeps (Done j)); auto.
Qed.

Lemma publish_outbox e w : outbox (bus_publish (Some ledger) reg e w).2 = outbox w.
Proof using LedgerLaws0 Hok.
  apply (publish_keeps (λ w', outbox w' = outbox w)); [..|done].
  - intros k s <-. apply (po_isDone Hok).
  - intros k s <-. apply (po_markDone Hok).
  - intros h Hh s <-. by apply (po_handler Hok e).
Qed.

Lemma runOnce_done e h i w w' :
  h ∈ handlers_of e → runOnce (Some ledger) e h i w = (Ok tt, w') →
  Done (handler_key e i) w' ∧ ∀ j, Done j w → Done j w'.
Proof using LedgerLaws0 Hok.
  intros Hh E. split.
  - unfold runOnce, mbind, M_bind in E.
    destruct (isDone ledger (handler_key e i) w) as [[[|]|err] s1] eqn:E1; [| |done].
    + unfold mret, M_ret in E. inv_ok. apply (isDone_keeps _ _ _ _ _ E1).
      by apply (isDone_reply _ _ _ _ E1).
    + destruct (h_run h e s1) as [[[]|err] s2]; [|done]. by eapply markDone_records.
  - intros j Hj. destruct (calls_done j) as (? & ? & ?).
    pose proof (runOnce_keeps (Done j) e h i) as Hk. specialize (Hk ltac:(auto) ltac:(auto)).
    specialize (Hk ltac:(auto) w Hj). by rewrite E in Hk.
Qed.

Lemma settle_all_done e hs n w w' :
  (∀ h, h ∈ hs → h ∈ handlers_of e) → settle_all (Some ledger) e hs n w = (Ok [], w') →
  (∀ j, Done j w → Done j w') ∧ ∀ i, (i < length hs)%nat → Done (handler_key e (n + i)) w'.
Proof using LedgerLaws0 Hok.
  revert n w. induction hs as [|h hs IH]; intros n w Hin H; cbn [settle_all] in H.
  { unfold mret, M_ret in H. inv_ok. split; [done|]. simpl. lia. }
  unfold mbind, M_bind, mret, M_ret, try_catch in H.
  destruct (runOnce _ _ _ _ _) as [[[]|err] s1] eqn:E1;
    destruct (settle_all _ _ _ _ _) as [[fs|err'] s2] eqn:E2; inv_ok; try done.
  destruct (IH (Datatypes.S n) s1) as [Hk Hd]; [set_solver|done|].
  apply runOnce_done in E1 as [Hn Hj]; [|set_solver].
  split; [auto|]. intros [|i] Hi; simpl in Hi.
  - rewrite Nat.add_0_r. auto.
  - rewrite <-Nat.add_succ_comm. apply Hd. lia.
Qed.

(** A delivery that resolves leaves a record of every handler. *)
Lemma publish_handled e w w' :
  bus_publish (Some ledger) reg e w = (Ok tt, w') → all_handled e w'.
Proof using LedgerLaws0 Hok.
  unfold bus_publish, all_handled. fold (handlers_of e).
  destruct (handlers_of e) as [|h hs] eqn:Hh; [simpl; lia|]. unfold mbind, M_bind.
  destruct (settle_all _ _ _ _ _) as [[[|]|err] s1] eqn:E; try done.
  unfold mret, M_ret. intros H. inv_ok. rewrite <-Hh in *.
  by apply settle_all_done in E as [_ Hd].
Qed.

(** C14: An event is marked as processed only when it was handled.  Every event a batch
    claims is settled, and if its row ends as PROCESSED, every handler subscribed to it
    has a success on record; an event one of whose handlers failed is put back. *)
Theorem processed_means_handled locked wid leaseMs n (w : World Tbl) :
  ∃ l w1 processed w',
    claimBatch locked wid n leaseMs w = (Ok l, w1) ∧
    processBatch (bus_publish (Some ledger) reg) locked wid leaseMs n w = (Ok processed, w') ∧
    ∀ i r, (i, r) ∈ l → ∃ r', outbox w' !! i = Some r' ∧ settled r r' ∧
      (ob_status r' = OProcessed → all_handled (toDomainEvent r) w').
Proof using LedgerLaws0 Hok.
  destruct (processBatch_run all_handled (bus_publish (Some ledger) reg) locked wid leaseMs n w)
    as (l & w1 & k & w' & ? & ? & ? & _); [..|by exists l, w1, k, w'].
  - apply publish_outbox.
  - apply publish_handled.
  - intros ev ev' s Hs i Hi. by apply publish_done, Hs.
  - intros ev s s' Hs Ho i Hi. eapply (po_outbox Hok); [exact Ho|by apply Hs].
Qed.
End pipeline.

(** The record of a handler outlives the redeliveries of its event: the delays between
    as many as a hundred attempts add up to less than the ledger's TTL. *)
Definition retry_window (attempts : nat) : Z :=
  foldr (λ k total, computeRetryDelayMs (Z.of_nat k) + total) 0 (seq 1 attempts).

Lemma retry_window_bound attempts : retry_window attempts <= 3600000 * Z.of_nat attempts.
Proof.
  unfold retry_window. assert (∀ k l, foldr (λ k total, computeRetryDelayMs (Z.of_nat k) + total)
    0 (seq k l) <= 3600000 * Z.of_nat l) as H; [|apply H].
  intros k l. revert k. induction l as [|l IH]; intros k; simpl seq; simpl foldr; [lia|].
  specialize (IH (Datatypes.S k)). unfold computeRetryDelayMs, MAX_RETRY_DELAY_MS in *. lia.
Qed.

Lemma ledger_outlives_retries attempts :
  (attempts <= 100)%nat → retry_window attempts < TTL_SECONDS * 1000.
Proof. pose proof (retry_window_bound attempts). unfold TTL_SECONDS. lia. Qed.

(** ** A concrete bus *)

(** A ledger in a set of keys, for a state that also counts. *)
Definition demo_ledger : HandlerLedger (gset string * nat) := mkLedger
  (λ k s, (Ok (bool_decide (k ∈ s.1)), s)) (λ k s, (Ok tt, ({[k]} ∪ s.1, s.2))).

(** The second handler fails once. *)
Definition demo_handlers : list (EventHandler (gset string * nat)) :=
  [mkHandler 0 (λ _ s, (Ok tt, s));
   mkHandler 1 (λ _ s, (if decide (s.2 = 0%nat) then Err (PlainError "busy") else Ok tt,
                        (s.1, S s.2)))].

Definition demo_object : EventObject :=
  [("eventId", VJson (JStr "e1")); ("eventType", VJson (JStr "TICKET_CREATED"))].

#[local] Instance demo_laws : LedgerLaws demo_ledger (λ k s, k ∈ s.1).
Proof.
  split; intros k s; intros; simpl in *; simplify_eq; try done.
  - by rewrite bool_decide_eq_true.
  - simpl. set_solver.
  - simpl. set_solver.
  - simpl. set_solver.
Qed.

#[local] Instance demo_recorded :
  Recorded (λ k (s : gset string * nat), k ∈ s.1) demo_handlers demo_object
    (λ s s', s'.1 = s.1).
Proof.
  split.
  - intros h s res s' i Hh H. unfold demo_handlers in Hh.
    rewrite !elem_of_cons in Hh. destruct Hh as [->|[->|Hh]]; [| |by apply not_elem_of_nil in Hh];
      simpl in H; by simplify_eq.
  - intros s s' i ->. done.
Qed.

Definition demo_delivery : Delivery (gset string * nat) :=
  mkDelivery (∅, 0%nat) (fresh_tasks demo_handlers) [] [].

(** One delivery fails in the second handler; the first one is never started again. *)
Lemma handlers_not_repeated_witness :
  ∃ d, dv_state d = ({[handler_key demo_object 0]} ∪ ∅, 1%nat) ∧
    rtc (deliver_step demo_ledger demo_handlers demo_object (λ s s', s'.1 = s.1)) demo_delivery d ∧
    ∀ d', rtc (deliver_step demo_ledger demo_handlers demo_object (λ s s', s'.1 = s.1)) d d' →
      starts 0 d' = starts 0 d.
Proof.
  destruct (publish_steps demo_ledger demo_handlers demo_object (λ s s', s'.1 = s.1)
              (λ k s, k ∈ s.1) {["TICKET_CREATED" := demo_handlers]} (∅, 0%nat)
              (Err (AggregateError [PlainError "busy"] "TICKET_CREATED"))
              ({[handler_key demo_object 0]} ∪ ∅, 1%nat))
    as (d & Hrun & Hd & _); [reflexivity|vm_compute; reflexivity|].
  exists d. split_and!; [exact Hd|exact Hrun|]. intros d' Hrun'.
  apply (handlers_not_repeated demo_ledger demo_handlers demo_object (λ s s', s'.1 = s.1)
           (λ k s, k ∈ s.1) (∅, 0%nat) d); [|exact Hrun|simpl; lia| |exact Hrun'].
  - intros i _ H. by apply not_elem_of_empty in H.
  - rewrite Hd. simpl. set_solver.
Defined.

Lemma delivery_settles_witness :
  length (dv_tasks demo_delivery) = length demo_handlers ∧
  (settled_all demo_delivery ∨ ∃ d',
     deliver_step demo_ledger demo_handlers demo_object (λ s s', s'.1 = s.1) demo_delivery d' ∧
     (weight d' < weight demo_delivery)%nat).
Proof.
  split; [reflexivity|].
  exact (proj1 (delivery_settles demo_ledger demo_handlers demo_object (λ s s', s'.1 = s.1)
                  demo_delivery eq_refl)).
Defined.

(** In the world of the outbox: a ledger in the settings table, and a handler that
    succeeds. *)
Definition setting_ledger : HandlerLedger (World (gmap string)) := mkLedger
  (λ k w, (Ok (bool_decide (is_Some (d_settings (w_db w) !! k))), w))
  (λ k w, (Ok tt, w <| w_db ::= λ d, d <| d_settings ::= insert k
                       (mkSettingRow (JBool true) None 0) |> |>)).

Definition demo_reg : Handlers (World (gmap string)) :=
  subscribe "TENANT_CREATED" (mkHandler 0 (λ _ w, (Ok tt, w))) ∅.

#[local] Instance setting_laws :
  LedgerLaws setting_ledger (λ k w, is_Some (d_settings (w_db w) !! k)).
Proof.
  split; intros k s; intros; simpl in *; simplify_eq; try done.
  - by rewrite bool_decide_eq_true.
  - destruct s as [[] ]. simpl. by rewrite lookup_insert_eq.
  - destruct s as [[] ]. simpl. by rewrite lookup_insert_ne.
  - destruct s as [[] ]. simpl in *. destruct (decide (j = k)) as [->|];
      [by rewrite lookup_insert_eq|by rewrite lookup_insert_ne].
Qed.

Lemma demo_pipeline :
  PipelineOk setting_ledger demo_reg (λ k w, is_Some (d_settings (w_db w) !! k)).
Proof.
  assert (∀ e h, h ∈ handlers_of demo_reg e → h_run h e = λ w, (Ok tt, w)) as Hrun.
  { intros e h Hh. unfold handlers_of in Hh.
    change demo_reg with ({["TENANT_CREATED" := [mkHandler 0 (λ _ w, (Ok tt, w))]]}
                            : gmap string (list (EventHandler (World (gmap string))))) in Hh.
    destruct (_ !! _) as [hs|] eqn:E; [|by apply not_elem_of_nil in Hh].
    apply lookup_singleton_Some in E as [_ <-]. by apply list_elem_of_singleton in Hh as ->. }
  split; try done.
  - by intros k [[] ].
  - intros e h w Hh. by rewrite (Hrun e h Hh).
  - intros e h w j Hh. by rewrite (Hrun e h Hh).
  - intros j w w' [t ->]. by destruct w as [[] ].
Qed.

Lemma processed_means_handled_witness :
  ∃ l w1 processed w',
    claimBatch (λ _, false) "a" 10 1000 demo_world = (Ok l, w1) ∧
    processBatch (bus_publish (Some setting_ledger) demo_reg) (λ _, false) "a" 1000 10 demo_world
      = (Ok processed, w') ∧
    ∀ i r, (i, r) ∈ l → ∃ r', rows_of d_outbox w' !! i = Some r' ∧ settled r r' ∧
      (ob_status r' = OProcessed → all_handled demo_reg (λ k w, is_Some (d_settings (w_db w) !! k))
                                     (toDomainEvent r) w').
Proof.
  exact (processed_means_handled setting_ledger demo_reg
           (λ k w, is_Some (d_settings (w_db w) !! k)) demo_pipeline (λ _, false) "a" 1000 10
           demo_world).
Defined.
