(* ===== verification/Scheduler.v ===== *)
(** * Cron expressions and the scheduler

    [src/infrastructure/scheduler]: the cron registry, the scheduler that runs each
    occurrence of a job under a Redis lock, and the cluster of schedulers that compete for
    the lock.  Redis is an interface ([Redis]) of which only the documented behaviour of
    keys with an expiry is assumed. *)

From stdpp Require Import pretty.
From Stdlib Require Import Ascii String QArith Qround.
From S2P Require Import Prelude Js Errors Dates.

#[local] Open Scope string_scope.
#[local] Open Scope Z_scope.
#[local] Set Default Proof Using "Type*".

(** ** [Number(string)] *)

Definition digit_value (c : ascii) : option Z :=
  if is_digit c then Some (code c - 48)
  else if between 97 122 c then Some (code c - 87)
  else if between 65 90 c then Some (code c - 55) else None.

(** The longest prefix of digits in [base]: its value, its length, and the rest. *)
Fixpoint take_digits (base acc : Z) (n : nat) (s : string) : Z * nat * string :=
  match s with
  | String c s' =>
      match digit_value c with
      | Some d => if d <? base then take_digits base (acc * base + d) (S n) s' else (acc, n, s)
      | None => (acc, n, s)
      end
  | EmptyString => (acc, n, s)
  end.

Definition sign (s : string) : bool * string :=
  match s with
  | String "-" s => (true, s)
  | String "+" s => (false, s)
  | _ => (false, s)
  end.

(** [StrDecimalLiteral]; the value is the decimal one, not rounded to a double. *)
Definition decimal (s : string) : jsnum :=
  let '(neg, s) := sign s in
  if bool_decide (s = "Infinity") then if neg then NegInf else PosInf
  else
    let '(ip, n1, s) := take_digits 10 0 0 s in
    let '(fp, n2, s) := match s with
                        | String "." s => take_digits 10 0 0 s
                        | _ => (0, 0%nat, s)
                        end in
    let value := (inject_Z ip + (fp # Pos.of_nat (Nat.pow 10 n2)))%Q in
    let value := if neg then Qopp value else value in
    if Nat.eqb (n1 + n2) 0 then NaN
    else match s with
         | EmptyString => Fin value
         | String c s =>
             if Ascii.eqb c "e" || Ascii.eqb c "E" then
               let '(eneg, s) := sign s in
               let '(ex, n3, s) := take_digits 10 0 0 s in
               if Nat.eqb n3 0 || negb (bool_decide (s = "")) then NaN
               else Fin (value * Qpower (inject_Z 10) (if eneg then - ex else ex))
             else NaN
         end.

Definition radix (base : Z) (s : string) : jsnum :=
  let '(v, n, rest) := take_digits base 0 0 s in
  if Nat.eqb n 0 || negb (bool_decide (rest = "")) then NaN else Fin (inject_Z v).

Definition Number (s : string) : jsnum :=
  match trim s with
  | EmptyString => Fin 0
  | String "0" (String c s) as t =>
      if Ascii.eqb c "x" || Ascii.eqb c "X" then radix 16 s
      else if Ascii.eqb c "o" || Ascii.eqb c "O" then radix 8 s
      else if Ascii.eqb c "b" || Ascii.eqb c "B" then radix 2 s
      else decimal t
  | t => decimal t
  end.

(** [a <= b] and [a === b] on numbers; comparisons with [NaN] are false. *)
Definition num_le (a b : jsnum) : bool :=
  match a, b with
  | NaN, _ | _, NaN => false
  | NegInf, _ | _, PosInf => true
  | Fin p, Fin q => Qle_bool p q
  | _, _ => false
  end.

(** ** CronRegistry *)

(** [s.startsWith(prefix)] and [s.slice(prefix.length)] *)
Fixpoint strip_prefix (prefix s : string) : option string :=
  match prefix, s with
  | EmptyString, _ => Some s
  | String c prefix, String d s => if Ascii.eqb c d then strip_prefix prefix s else None
  | String _ _, EmptyString => None
  end.

(** [matchesField] on a field without a comma. *)
Definition matchesPart (value : Z) (field : string) (min max : Z) : bool :=
  if bool_decide (field = "*") then true
  else match strip_prefix "*/" field with
  | Some rest =>
      match Number rest with
      | Fin step =>
          negb (Qle_bool step 0) &&
          (let q := (inject_Z (value - min) / step)%Q in Qeq_bool q (inject_Z (Qfloor q)))
      | PosInf => value - min =? 0
      | NegInf | NaN => false
      end
  | None =>
      if str_exists (Ascii.eqb "-") field then
        match map Number (split_on "-" field) with
        | start :: end_ :: _ =>
            num_le start (Fin (inject_Z value)) && num_le (Fin (inject_Z value)) end_
        | _ => false
        end
      else match Number field with
           | Fin parsed => Qle_bool (inject_Z min) parsed && Qle_bool parsed (inject_Z max)
                           && Qeq_bool (inject_Z value) parsed
           | _ => false
           end
  end.

Definition matchesField (value : Z) (field : string) (min max : Z) : bool :=
  if bool_decide (field = "*") then true
  else if bool_decide (is_Some (strip_prefix "*/" field)) then matchesPart value field min max
  else match split_on "," field with
       | (_ :: _ :: _) as parts => existsb (λ part, matchesPart value part min max) parts
       | _ => matchesPart value field min max
       end.

(** A missing field is [undefined]: reading it throws. *)
Definition matchesOptional (value : Z) (field : option string) (min max : Z)
  : result error bool :=
  match field with
  | Some field => Ok (matchesField value field min max)
  | None => Err (PlainError "Cannot read properties of undefined (reading 'startsWith')")
  end.

(** [expression.trim().split(/\s+/)] *)
Definition split_spaces (s : string) : list string :=
  split_on " " (replace_runs is_space " " (trim s)).

(** [a && b] with [b] evaluated only when [a] holds. *)
Definition and_then (a b : result error bool) : result error bool :=
  match a with Ok true => b | r => r end.

Definition matchesCronExpression (expression : string) (date : Z) : result error bool :=
  let fields := split_spaces expression in
  and_then (matchesOptional (getUTCMinutes date) (fields !! 0%nat) 0 59)
  (and_then (matchesOptional (getUTCHours date) (fields !! 1%nat) 0 23)
  (and_then (matchesOptional (getUTCDate date) (fields !! 2%nat) 1 31)
  (and_then (matchesOptional (getUTCMonth date + 1) (fields !! 3%nat) 1 12)
            (matchesOptional (getUTCDay date) (fields !! 4%nat) 0 6)))).

Section jobs.
Context {S : Type}.

Record CronJobDefinition := mkJob {
  cj_name : string;
  cj_cronExpression : string;
  cj_handler : M S error unit;
  cj_lockKey : option string;
}.

(** [jobs: Map<string, CronJobDefinition>], in insertion order. *)
Fixpoint cron_register (job : CronJobDefinition) (jobs : list CronJobDefinition)
  : list CronJobDefinition :=
  match jobs with
  | [] => [job]
  | j :: jobs => if bool_decide (cj_name j = cj_name job) then job :: jobs
                 else j :: cron_register job jobs
  end.

Fixpoint getDueJobs (referenceDate : Z) (jobs : list CronJobDefinition)
  : result error (list CronJobDefinition) :=
  match jobs with
  | [] => Ok []
  | job :: jobs =>
      due ← matchesCronExpression (cj_cronExpression job) referenceDate;
      rest ← getDueJobs referenceDate jobs;
      Ok (if due : bool then job :: rest else rest)
  end.
End jobs.
Arguments CronJobDefinition S : clear implicits.

(** ** SchedulerService *)

(** Redis keys with an expiry: what the commands GET, SET NX PX, PEXPIRE and DEL do. *)
Class Redis (KV : Type) := {
  kv_get : Z → string → KV → option string;
  kv_set : string → string → Z → KV → KV;
  kv_pexpire : string → Z → KV → KV;
  kv_del : string → KV → KV;
  kv_get_set now k v expiry s :
    kv_get now k (kv_set k v expiry s) = if now <? expiry then Some v else None;
  kv_get_set_ne now k k' v expiry s :
    k ≠ k' → kv_get now k' (kv_set k v expiry s) = kv_get now k' s;
  kv_get_pexpire now t k v expiry s :
    kv_get now k s = Some v → now <= t →
    kv_get t k (kv_pexpire k expiry s) = if t <? expiry then Some v else None;
  kv_get_pexpire_ne now k k' expiry s :
    k ≠ k' → kv_get now k' (kv_pexpire k expiry s) = kv_get now k' s;
  kv_get_del now k s : kv_get now k (kv_del k s) = None;
  kv_get_del_ne now k k' s : k ≠ k' → kv_get now k' (kv_del k s) = kv_get now k' s;
}.

Section scheduler.
Context {KV A : Type} `{!Redis KV} (lockTtlMs : Z).

(** The clock, Redis (and whether it answers), and what the jobs work on. *)
Record Cluster := mkCluster {
  sc_now : Z;
  sc_kv : KV;
  sc_up : bool;
  sc_app : A;
}.

Definition redis_call {B} (command : Cluster → B * KV) : M Cluster error B := λ s,
  if sc_up s then let '(b, kv) := command s in (Ok b, mkCluster (sc_now s) kv true (sc_app s))
  else (Err (PlainError "The client is closed"), s).

(** [redis.set(key, value, { NX: true, PX: ttl })] *)
Definition set_nx (key value : string) (ttl : Z) : M Cluster error bool :=
  redis_call (λ s, match kv_get (sc_now s) key (sc_kv s) with
                   | Some _ => (false, sc_kv s)
                   | None => (true, kv_set key value (sc_now s + ttl) (sc_kv s))
                   end).

(** RELEASE_LOCK_SCRIPT and EXTEND_LOCK_SCRIPT *)
Definition release_lock (key value : string) : M Cluster error unit :=
  redis_call (λ s, (tt, if bool_decide (kv_get (sc_now s) key (sc_kv s) = Some value)
                        then kv_del key (sc_kv s) else sc_kv s)).
Definition extend_lock (key value : string) (ttl : Z) : M Cluster error unit :=
  redis_call (λ s, (tt, if bool_decide (kv_get (sc_now s) key (sc_kv s) = Some value)
                        then kv_pexpire key (sc_now s + ttl) (sc_kv s) else sc_kv s)).

Definition lock_key (job : CronJobDefinition Cluster) (minute : option Z) : string :=
  let baseKey := default ("scheduler:lock:" ++ cj_name job) (cj_lockKey job) in
  match minute with None => baseKey | Some minute => baseKey ++ ":" ++ pretty minute end.

(** The three parts of [runJob] that talk to Redis: taking the lock, the renewal that a
    timer repeats while the handler runs, and the end. *)
Definition runJob_begin (lockValue : string) (job : CronJobDefinition Cluster) (minute : option Z)
  : M Cluster error bool :=
  set_nx (lock_key job minute) lockValue lockTtlMs.

Definition runJob_renew (lockValue : string) (job : CronJobDefinition Cluster) (minute : option Z)
  : M Cluster error unit :=
  try_catch (extend_lock (lock_key job minute) lockValue lockTtlMs) (λ _, mret ()).

(** The lock of an occurrence is left to expire. *)
Definition runJob_end (lockValue : string) (job : CronJobDefinition Cluster) (minute : option Z)
  : M Cluster error unit :=
  match minute with
  | None => try_catch (release_lock (lock_key job minute) lockValue) (λ _, mret ())
  | Some _ => mret ()
  end.

(** [runJob]: a handler that throws is logged.  The renewals of the lock while the handler
    runs are steps of the system below. *)
Definition runJob (lockValue : string) (job : CronJobDefinition Cluster) (minute : option Z)
  : M Cluster error unit :=
  acquired ← runJob_begin lockValue job minute;
  if negb acquired then mret ()
  else
    _ ← try_catch (cj_handler job) (λ _, mret ());
    runJob_end lockValue job minute.

(** The loop of [runDueJobs]; it returns the process's [lastRunMinute]. *)
Fixpoint run_jobs (lockValue : string) (minute : Z) (due : list (CronJobDefinition Cluster))
    (lastRunMinute : gmap string Z) : M Cluster error (gmap string Z) :=
  match due with
  | [] => mret lastRunMinute
  | job :: due =>
      if bool_decide (lastRunMinute !! cj_name job = Some minute)
      then run_jobs lockValue minute due lastRunMinute
      else
        _ ← try_catch (runJob lockValue job (Some minute)) (λ _, mret ());
        run_jobs lockValue minute due (<[cj_name job := minute]> lastRunMinute)
  end.

Definition runDueJobs (lockValue : string) (jobs : list (CronJobDefinition Cluster))
    (referenceDate : Z) (lastRunMinute : gmap string Z) : M Cluster error (gmap string Z) :=
  let minute := floor_div referenceDate 60000 in
  dueJobs ← lift (getDueJobs referenceDate jobs);
  run_jobs lockValue minute dueJobs lastRunMinute.

(** ** The cluster: who runs one occurrence of a job

    The schedulers that call [runJob] for one occurrence, interleaved: [oc_runs] are the
    lock values of the calls that started the handler, [oc_active] those whose handler has
    not ended. *)

Record Occurrence := mkOccurrence {
  oc_state : Cluster;
  oc_runs : list string;
  oc_active : list string;
}.

Section occurrence.
Context (job : CronJobDefinition Cluster) (minute : Z).

Notation key := (lock_key job (Some minute)).

(** Between two steps time passes, Redis goes down and comes back, and anything else
    happens, except to the lock of the occurrence. *)
Inductive oc_step : Occurrence → Occurrence → Prop :=
| oc_other s s' runs active :
    sc_now s <= sc_now s' → (∀ t, kv_get t key (sc_kv s') = kv_get t key (sc_kv s)) →
    oc_step (mkOccurrence s runs active) (mkOccurrence s' runs active)
| oc_begin v s b s' runs active :
    runJob_begin v job (Some minute) s = (Ok b, s') →
    oc_step (mkOccurrence s runs active)
      (mkOccurrence s' (if b : bool then v :: runs else runs) (if b then v :: active else active))
| oc_renew v s r s' runs active :
    v ∈ active → runJob_renew v job (Some minute) s = (r, s') →
    oc_step (mkOccurrence s runs active) (mkOccurrence s' runs active)
| oc_end v s r s' runs active :
    v ∈ active → runJob_end v job (Some minute) s = (r, s') →
    oc_step (mkOccurrence s runs active) (mkOccurrence s' runs (filter (λ u, u ≠ v) active)).

(** A call of [runJob] whose handler is made of such steps is made of such steps, and
    starts the handler only when it begins a run. *)
Lemma runJob_steps v s r s' runs active :
  (∀ s r s' runs active, cj_handler job s = (r, s') → v ∈ active →
     ∃ runs' active', rtc oc_step (mkOccurrence s runs active) (mkOccurrence s' runs' active') ∧ v ∈ active') →
  runJob v job (Some minute) s = (r, s') →
  ∃ runs' active', rtc oc_step (mkOccurrence s runs active) (mkOccurrence s' runs' active').
Proof.
  intros Hh H. unfold runJob, mbind, M_bind in H.
  destruct (runJob_begin v job (Some minute) s) as [[b|e] s1] eqn:E.
  2:{ unfold runJob_begin, set_nx, redis_call in E. injection H as <- <-.
      destruct (sc_up s); [by destruct (kv_get _ _ _)|]. injection E as _ <-. by eexists _, _. }
  pose proof (oc_begin v s b s1 runs active E) as Hb. destruct b; cbn [negb] in H.
  - unfold try_catch at 1 in H. destruct (cj_handler job s1) as [r1 s2] eqn:E2.
    destruct (Hh s1 r1 s2 (v :: runs) (v :: active) E2 ltac:(left)) as (runs' & active' & Hr & Hv).
    assert (runJob_end v job (Some minute) s2 = (r, s')) as Ee by (by destruct r1).
    eexists _, _. eapply rtc_l; [exact Hb|]. etrans; [exact Hr|]. apply rtc_once. by eapply oc_end.
  - unfold mret, M_ret in H. injection H as <- <-. eexists _, _. by apply rtc_once.
Qed.

(** A run that has started keeps the lock taken for the TTL, at the least. *)
Definition taken_until (t1 : Z) (o : Occurrence) : Prop :=
  ∀ t, sc_now (oc_state o) <= t < t1 → is_Some (kv_get t key (sc_kv (oc_state o))).

Lemma oc_begin_ok v s b s' :
  runJob_begin v job (Some minute) s = (Ok b, s') → sc_now s' = sc_now s ∧
  match kv_get (sc_now s) key (sc_kv s) with
  | Some _ => b = false ∧ sc_kv s' = sc_kv s
  | None => b = true ∧ sc_kv s' = kv_set key v (sc_now s + lockTtlMs) (sc_kv s)
  end.
Proof.
  unfold runJob_begin, set_nx, redis_call. destruct (sc_up s); [|done].
  destruct (kv_get _ _ _); intros H; by inv_ok.
Qed.

(** A renewal moves the expiry of the lock, and only away. *)
Lemma oc_renew_ok v s r s' :
  runJob_renew v job (Some minute) s = (r, s') → sc_now s' = sc_now s ∧
  (sc_kv s' = sc_kv s ∨ kv_get (sc_now s) key (sc_kv s) = Some v ∧
     sc_kv s' = kv_pexpire key (sc_now s + lockTtlMs) (sc_kv s)).
Proof.
  unfold runJob_renew, try_catch, extend_lock, redis_call, mret, M_ret.
  destruct (sc_up s); [|intros [= <- <-]; auto]. case_bool_decide; intros [= <- <-]; cbn; auto.
Qed.

Lemma oc_end_ok v s r s' : runJob_end v job (Some minute) s = (r, s') → s' = s.
Proof. by intros [= _ <-]. Qed.

Lemma oc_step_time o o' : oc_step o o' → sc_now (oc_state o) <= sc_now (oc_state o').
Proof.
  destruct 1 as [| |? ? ? ? ? ? _ E|? ? ? ? ? ? _ E]; cbn; [done| | |].
  - apply oc_begin_ok in H as [-> _]. lia.
  - apply oc_renew_ok in E as [-> _]. lia.
  - apply oc_end_ok in E as ->. lia.
Qed.

Lemma oc_run_time o o' : rtc oc_step o o' → sc_now (oc_state o) <= sc_now (oc_state o').
Proof. induction 1 as [|o o1 o' Hs _ IH]; [lia|]. apply oc_step_time in Hs. lia. Qed.

Lemma taken_step t1 o o' :
  t1 <= sc_now (oc_state o) + lockTtlMs → sc_now (oc_state o) < t1 → taken_until t1 o → oc_step o o' →
  taken_until t1 o' ∧ oc_runs o' = oc_runs o.
Proof.
  intros Httl Hlt Ht Hstep. unfold taken_until in *.
  destruct Hstep as [s s' runs active Hn H|v s b s' runs active E|v s r s' runs active _ E|
                     v s r s' runs active _ E]; cbn [oc_state oc_runs] in *.
  - split; [|done]. intros t Hr. rewrite H. apply Ht. lia.
  - apply oc_begin_ok in E as [En E]. destruct (Ht (sc_now s) ltac:(lia)) as [u Hu]. rewrite Hu in E.
    destruct E as [-> ->]. by rewrite En.
  - apply oc_renew_ok in E as [En [->|[Hv ->]]]; rewrite En; [done|]. split; [|done]. intros t Hr.
    rewrite (kv_get_pexpire _ t _ _ _ _ Hv) by lia. case_match eqn:Eb; [by eexists|]. bool_to_prop. lia.
  - by apply oc_end_ok in E as ->.
Qed.

(** At most one run has started, and while it is recent the lock is taken. *)
Definition one_run (t1 : Z) (o : Occurrence) : Prop :=
  oc_runs o = [] ∨ (∃ v, oc_runs o = [v]) ∧ taken_until t1 o.

Lemma one_run_step t1 o o' :
  t1 <= sc_now (oc_state o) + lockTtlMs → sc_now (oc_state o) < t1 → one_run t1 o → oc_step o o' →
  one_run t1 o'.
Proof.
  intros Httl Hlt [Hruns|[[v Hruns] Ht]] Hstep.
  - destruct Hstep as [|v s b s' runs active E| |]; cbn [oc_state oc_runs] in *; subst; try (by left).
    apply oc_begin_ok in E as [En E]. destruct (kv_get _ _ _); destruct E as [-> E]; [by left|].
    right. split; [by eexists|]. intros t Hr. cbn in *. rewrite E, kv_get_set.
    case_match eqn:Eb; [by eexists|]. bool_to_prop. lia.
  - destruct (taken_step t1 o o') as [Ht' Hr']; [done..|].
    right. split; [|done]. exists v. by rewrite Hr'.
Qed.

Lemma one_run_run t1 o o' :
  t1 <= sc_now (oc_state o) + lockTtlMs → one_run t1 o → rtc oc_step o o' → sc_now (oc_state o') < t1 →
  one_run t1 o'.
Proof.
  intros Httl Hone Hrun Hlt. induction Hrun as [|o o1 o' Hstep Hrun IH]; [done|].
  pose proof (oc_step_time _ _ Hstep). pose proof (oc_run_time _ _ Hrun).
  apply IH; [lia| |done]. eapply one_run_step; eauto; lia.
Qed.

(** While the lock is taken a call of [runJob] does nothing. *)
Lemma runJob_taken v s u :
  sc_up s = true → kv_get (sc_now s) key (sc_kv s) = Some u →
  runJob v job (Some minute) s = (Ok tt, s).
Proof.
  intros Hup Hk. unfold runJob, runJob_begin, set_nx, redis_call, mbind, M_bind, mret, M_ret.
  rewrite Hup, Hk. cbn. destruct s; cbn in *. by rewrite Hup.
Qed.

(** Every minute has a lock of its own. *)
Lemma lock_key_inj m : lock_key job (Some m) = key → m = minute.
Proof.
  unfold lock_key. intros H. apply str_app_inj_l in H. injection H as H. by apply (inj pretty) in H.
Qed.
End occurrence.

(** ** Inside one process *)

(** A process does not run a job twice in a minute: running the same due jobs again
    changes nothing. *)
Lemma run_jobs_skip lockValue minute due last (s : Cluster) :
  (∀ job, job ∈ due → last !! cj_name job = Some minute) →
  run_jobs lockValue minute due last s = (Ok last, s).
Proof.
  induction due as [|job due IH]; intros Hd; simpl; [done|].
  rewrite bool_decide_eq_true_2 by (apply Hd; set_solver). apply IH. set_solver.
Qed.

Lemma run_jobs_ok lockValue minute due last (s : Cluster) :
  ∃ last' s', run_jobs lockValue minute due last s = (Ok last', s') ∧
    (∀ job, job ∈ due → last' !! cj_name job = Some minute) ∧
    ∀ n, last !! n = Some minute → last' !! n = Some minute.
Proof.
  revert last s. induction due as [|job due IH]; intros last s; simpl.
  { exists last, s. split_and!; [done|set_solver|done]. }
  case_bool_decide as Hl.
  - destruct (IH last s) as (last' & s' & E & Hd & Hk). exists last', s'.
    split_and!; [done| |done]. intros j [->|Hj]%elem_of_cons; auto.
  - assert (∃ s1, try_catch (runJob lockValue job (Some minute)) (λ _, mret ()) s = (Ok tt, s1))
      as [s1 E1].
    { unfold try_catch. destruct (runJob _ _ _ _) as [[[]|] s1]; unfold mret, M_ret; eauto. }
    destruct (IH (<[cj_name job := minute]> last) s1) as (last' & s' & E & Hd & Hk).
    exists last', s'. split_and!.
    + unfold mbind, M_bind. by rewrite E1.
    + intros j [->|Hj]%elem_of_cons; [|by apply Hd]. apply Hk, lookup_insert_eq.
    + intros n Hn. apply Hk. destruct (decide (n = cj_name job)) as [->|];
        [apply lookup_insert_eq|by rewrite lookup_insert_ne].
Qed.
End scheduler.
Arguments Cluster KV A : clear implicits.
Arguments Occurrence KV A : clear implicits.

(** ** Properties *)

(** C34: An occurrence runs once in the whole cluster.  However the calls of [runJob] for a
    job's minute interleave, with the renewals of their locks, the ends of their runs and
    whatever else the processes do without touching that lock, at most one call has started
    the job's handler before the TTL of the lock has passed since the minute began, and once
    one has, another call does nothing.  Another minute has another lock. *)
Theorem occurrence_runs_once {KV A : Type} `{!Redis KV} (lockTtlMs : Z) (job : CronJobDefinition (Cluster KV A))
    minute (o o' : Occurrence KV A) :
  oc_runs o = [] → minute * 60000 <= sc_now (oc_state o) →
  rtc (oc_step lockTtlMs job minute) o o' →
  sc_now (oc_state o') < minute * 60000 + lockTtlMs →
  (length (oc_runs o') <= 1)%nat ∧
  (∀ v, oc_runs o' ≠ [] → sc_up (oc_state o') = true →
     runJob lockTtlMs v job (Some minute) (oc_state o') = (Ok tt, oc_state o')) ∧
  (∀ m, lock_key job (Some m) = lock_key job (Some minute) → m = minute).
Proof.
  intros Hruns Hmin Hrun Hlt.
  destruct (one_run_run lockTtlMs job minute (minute * 60000 + lockTtlMs) o o')
    as [->|[[v ->] Ht]]; [lia|by left|done..| |].
  - split_and!; [simpl; lia|done|]. intros m. apply lock_key_inj.
  - split_and!; [simpl; lia| |intros m; apply lock_key_inj]. intros v' _ Hup.
    destruct (Ht (sc_now (oc_state o')) ltac:(lia)) as [u Hu]. by eapply runJob_taken.
Qed.

(** ** A concrete Redis *)

Definition map_get (now : Z) (k : string) (s : gmap string (string * Z)) : option string :=
  ve ← s !! k; if now <? (ve : string * Z).2 then Some ve.1 else None.

Lemma map_get_pexpire now t k v expiry s :
  map_get now k s = Some v → now <= t →
  map_get t k (alter (λ ve, (ve.1, expiry)) k s) = if t <? expiry then Some v else None.
Proof.
  intros H Ht. unfold map_get in *. rewrite lookup_alter_eq.
  destruct (s !! k) as [[v' e]|]; simpl in *; [|done]. by destruct (now <? e); simplify_eq.
Qed.

#[export] Instance Redis_gmap : Redis (gmap string (string * Z)).
Proof.
  refine {| kv_get := map_get; kv_set k v expiry s := <[k := (v, expiry)]> s;
            kv_pexpire k expiry s := alter (λ ve, (ve.1, expiry)) k s;
            kv_del k s := delete k s; kv_get_pexpire := map_get_pexpire |};
    intros; unfold map_get.
  - by rewrite lookup_insert_eq.
  - by rewrite lookup_insert_ne.
  - by rewrite lookup_alter_ne.
  - by rewrite lookup_delete_eq.
  - by rewrite lookup_delete_ne.
Defined.

(** Two schedulers with the same two jobs; [escalation] writes a log.  While the first
    one runs [rollup], which takes [duration], the second one runs its own jobs. *)
Definition demo_cluster : Cluster (gmap string (string * Z)) (list string) :=
  mkCluster 3600000 ∅ true [].

Definition escalation : CronJobDefinition (Cluster (gmap string (string * Z)) (list string)) :=
  mkJob "ticket-escalation" "*/15 * * * *"
    (λ s, (Ok tt, mkCluster (sc_now s) (sc_kv s) (sc_up s) ("escalation" :: sc_app s))) None.

Definition rollup_with (meanwhile : Cluster (gmap string (string * Z)) (list string) →
    Cluster (gmap string (string * Z)) (list string)) (duration : Z) :=
  mkJob "analytics-rollup" "0 1 * * *"
    (λ s, let s := meanwhile s in
          (Ok tt, mkCluster (sc_now s + duration) (sc_kv s) (sc_up s) (sc_app s))) None.

Definition second_scheduler (s : Cluster (gmap string (string * Z)) (list string)) :=
  (runDueJobs 120000 "b" [rollup_with id 0; escalation] (sc_now s) ∅ s).2.

Definition two_schedulers (duration : Z) :=
  (runDueJobs 120000 "a" [rollup_with second_scheduler duration; escalation] 3600000 ∅
     demo_cluster).2.

(** The occurrence of a job that is due behind a slow one can run twice: when the rollup
    of 01:00 takes longer than the TTL, the first scheduler comes to the escalation of
    01:00 after the lock the second one took for it has expired, and runs it again. *)
Lemma late_occurrence_runs_twice :
  sc_app (two_schedulers 0) = ["escalation"] ∧
  sc_app (two_schedulers 120000) = ["escalation"; "escalation"].
Proof. split; vm_compute; reflexivity. Qed.

Definition demo_job : CronJobDefinition (Cluster (gmap string (string * Z)) unit) :=
  mkJob "j" "*/1 * * * *" (mret ()) None.

Definition demo_taken : Cluster (gmap string (string * Z)) unit :=
  (set_nx (lock_key demo_job (Some 60)) "a" 120000 (mkCluster 3600000 ∅ true tt)).2.

Lemma occurrence_runs_once_witness :
  runJob 120000 "b" demo_job (Some 60) demo_taken = (Ok tt, demo_taken).
Proof.
  assert (rtc (oc_step 120000 demo_job 60)
    (mkOccurrence (mkCluster 3600000 ∅ true tt) [] []) (mkOccurrence demo_taken ["a"] ["a"])) as Hrun.
  { apply rtc_once. exact (oc_begin 120000 demo_job 60 "a" (mkCluster 3600000 ∅ true tt) true
                       demo_taken [] [] eq_refl). }
  refine (proj1 (proj2 (occurrence_runs_once 120000 demo_job 60 _ _ _ _ Hrun _)) "b" _ _);
    [reflexivity|vm_compute; discriminate|vm_compute; reflexivity|discriminate|reflexivity].
Defined.

(** ** The program's schedule *)

Lemma utc_ranges date : 0 <= getUTCMinutes date < 60 ∧ 0 <= getUTCHours date < 24.
Proof. unfold getUTCMinutes, getUTCHours. split; by apply Z.mod_pos_bound. Qed.

(** A test of a bounded value, by evaluation. *)
Lemma bounded_test (n : nat) (test expected : Z → bool) v :
  0 <= v < Z.of_nat n → forallb (λ k, eqb (test (Z.of_nat k)) (expected (Z.of_nat k))) (seq 0 n) = true →
  test v = expected v.
Proof.
  intros Hv H. rewrite forallb_forall in H. specialize (H (Z.to_nat v)).
  rewrite Z2Nat.id in H by lia. apply eqb_prop, H, List.in_seq. lia.
Qed.

(** The jobs are due when the comments say: the escalation every quarter of an hour, the
    reports every minute, the rollup at 01:00, the tenant cleanup at 02:30 and the
    retention at 03:15, every day, in UTC. *)
Theorem program_schedule date :
  let m := getUTCMinutes date in let h := getUTCHours date in
  matchesCronExpression "*/15 * * * *" date = Ok (m mod 15 =? 0) ∧
  matchesCronExpression "*/1 * * * *" date = Ok true ∧
  matchesCronExpression "0 1 * * *" date = Ok ((m =? 0) && (h =? 1)) ∧
  matchesCronExpression "30 2 * * *" date = Ok ((m =? 30) && (h =? 2)) ∧
  matchesCronExpression "15 3 * * *" date = Ok ((m =? 15) && (h =? 3)).
Proof.
  destruct (utc_ranges date) as [Hm Hh]. cbv zeta.
  assert (∀ f g e, split_spaces e = [f; g; "*"; "*"; "*"] → matchesCronExpression e date =
    Ok (matchesField (getUTCMinutes date) f 0 59 && matchesField (getUTCHours date) g 0 23)) as Hc.
  { intros f g e He. unfold matchesCronExpression. rewrite He. cbn [lookup list_lookup matchesOptional].
    destruct (matchesField _ f _ _), (matchesField _ g _ _); reflexivity. }
  assert (∀ f k, forallb (λ v, eqb (matchesField (Z.of_nat v) f 0 59) (Z.of_nat v =? k)) (seq 0 60)
    = true → matchesField (getUTCMinutes date) f 0 59 = (getUTCMinutes date =? k)) as Hmin.
  { intros f k Hf. exact (bounded_test 60 (λ v, matchesField v f 0 59) (λ v, v =? k) _ Hm Hf). }
  assert (∀ f k, forallb (λ v, eqb (matchesField (Z.of_nat v) f 0 23) (Z.of_nat v =? k)) (seq 0 24)
    = true → matchesField (getUTCHours date) f 0 23 = (getUTCHours date =? k)) as Hhour.
  { intros f k Hf. exact (bounded_test 24 (λ v, matchesField v f 0 23) (λ v, v =? k) _ Hh Hf). }
  split_and!.
  - rewrite (Hc "*/15" "*"), andb_true_r by reflexivity. f_equal.
    apply (bounded_test 60 (λ v, matchesField v "*/15" 0 59) (λ v, v mod 15 =? 0)); [done|].
    vm_compute. reflexivity.
  - rewrite (Hc "*/1" "*"), andb_true_r by reflexivity. f_equal.
    apply (bounded_test 60 (λ v, matchesField v "*/1" 0 59) (λ v, true)); [done|].
    vm_compute. reflexivity.
  - rewrite (Hc "0" "1"), (Hmin "0" 0), (Hhour "1" 1) by (vm_compute; reflexivity). done.
  - rewrite (Hc "30" "2"), (Hmin "30" 30), (Hhour "2" 2) by (vm_compute; reflexivity). done.
  - rewrite (Hc "15" "3"), (Hmin "15" 15), (Hhour "3" 3) by (vm_compute; reflexivity). done.
Qed.
