(* ===== verification/Frames.v ===== *)
(** * Frames: what a computation leaves alone

    [Keeps f m] says that running [m] does not change what [f] reads of the state, whether
    it returns or throws.  [keeps_tac] proves it by walking through the code, with the
    frame of every client call; [keep f] adds to the context that the runs it finds there
    preserve [f]. *)

From Stdlib Require Import String.
From S2P Require Import Prelude Store Js Errors Domain Schema World Outbox Logs.

#[local] Open Scope string_scope.
#[local] Set Default Proof Using "Type*".

Definition Keeps {Tbl : Type → Type} {X A} (f : World Tbl → X) (m : W Tbl A) : Prop :=
  ∀ w, f (m w).2 = f w.

Section keeps.
Context {Tbl : Type → Type} `{!Prisma Tbl} {X : Type} (obs : World Tbl → X).

Lemma keeps_run {A} (m : W Tbl A) r w w' : m w = (r, w') → Keeps obs m → obs w' = obs w.
Proof. intros E H. specialize (H w). by rewrite E in H. Qed.

Lemma keeps_ret {A} (a : A) : Keeps obs (mret a).
Proof. done. Qed.
Lemma keeps_throw {A} e : Keeps (A:=A) obs (throw e).
Proof. done. Qed.
Lemma keeps_lift {A} (r : result error A) : Keeps obs (lift r).
Proof. done. Qed.
Lemma keeps_gets {A} (g : World Tbl → A) : Keeps obs (gets g).
Proof. done. Qed.
Lemma keeps_get_now : Keeps obs get_now.
Proof. done. Qed.
Lemma keeps_modify h : (∀ w, obs (h w) = obs w) → Keeps obs (modify h).
Proof. intros H w. apply H. Qed.

Lemma keeps_bind {A B} (m : W Tbl A) (k : A → W Tbl B) :
  Keeps obs m → (∀ a, Keeps obs (k a)) → Keeps obs (m ≫= k).
Proof.
  intros Hm Hk w. specialize (Hm w). unfold mbind, M_bind.
  destruct (m w) as [[a|e] w1]; cbn in *; [|done]. by rewrite Hk.
Qed.

Lemma keeps_try {A} (m : W Tbl A) (h : error → W Tbl A) :
  Keeps obs m → (∀ e, Keeps obs (h e)) → Keeps obs (try_catch m h).
Proof.
  intros Hm Hh w. specialize (Hm w). unfold try_catch.
  destruct (m w) as [[a|e] w1]; cbn in *; [done|]. by rewrite Hh.
Qed.

Lemma keeps_for_each {A} (body : A → W Tbl unit) xs :
  (∀ x, Keeps obs (body x)) → Keeps obs (for_each body xs).
Proof.
  intros Hb. induction xs as [|x xs IH]; [apply keeps_ret|]. by apply keeps_bind.
Qed.

Lemma keeps_draw_rt n :
  (∀ w, obs (w <| w_draws ::= Nat.add n |>) = obs w) → Keeps obs (draw_rt n).
Proof. intros H w. apply H. Qed.

Lemma keeps_draw : (∀ w, obs (w <| w_draws ::= Nat.add 1 |>) = obs w) → Keeps obs draw.
Proof. intros H. apply keeps_bind; [by apply keeps_draw_rt|]. intros rt. apply keeps_ret. Qed.

(** ** Client calls *)

Section table.
Context {R : Type} (table : Db Tbl → Tbl R) {U : Update table}.

Lemma keeps_find_unique i : Keeps obs (find_unique table i).
Proof. done. Qed.
Lemma keeps_find_many p o n : Keeps obs (find_many table p o n).
Proof. done. Qed.
Lemma keeps_find_first p : Keeps obs (find_first table p).
Proof. apply keeps_bind; [apply keeps_find_many|]. done. Qed.
Lemma keeps_count p : Keeps obs (count table p).
Proof. apply keeps_bind; [apply keeps_find_many|]. done. Qed.

Context (H : ∀ w t, obs (w <| w_db ::= λ d, d <| table := t |> |>) = obs w).

Lemma keeps_put_table t : Keeps obs (put_table table t).
Proof. apply keeps_modify. intros w. apply H. Qed.
Lemma keeps_update_many p d : Keeps obs (update_many table p d).
Proof.
  intros w. unfold update_many. destruct (updateMany _ _ _) as [n t]. apply H.
Qed.
Lemma keeps_update_many_unique {K} `{!EqDecision K} (key : R → option K) p d :
  Keeps obs (update_many_unique table key p d).
Proof.
  intros w. unfold update_many_unique. destruct (updateMany _ _ _) as [n t].
  case_bool_decide; [apply H|done].
Qed.
Lemma keeps_delete_many p : Keeps obs (delete_many table p).
Proof. intros w. unfold delete_many. destruct (deleteMany _ _) as [n t]. apply H. Qed.
Lemma keeps_update_one i d : Keeps obs (update_one table i d).
Proof.
  apply keeps_bind; [apply keeps_find_unique|]. intros [r|]; [|apply keeps_throw].
  apply keeps_bind; [apply keeps_update_many|]. done.
Qed.
Lemma keeps_create_row clash refs i r : Keeps obs (create_row table clash refs i r).
Proof.
  apply keeps_bind; [apply keeps_gets|]. intros []; [|apply keeps_throw].
  apply keeps_bind; [apply keeps_gets|]. intros [t|]; [apply keeps_put_table|apply keeps_throw].
Qed.
End table.

Lemma keeps_add_jobs jobs :
  (∀ w h, obs (w <| w_effects ::= h |>) = obs w) → Keeps obs (add_jobs jobs).
Proof.
  intros H. apply keeps_bind; [apply keeps_gets|].
  intros []; [apply keeps_modify; intros w; apply H|apply keeps_throw].
Qed.
Lemma keeps_delPattern p :
  (∀ w h, obs (w <| w_effects ::= h |>) = obs w) → Keeps obs (delPattern p).
Proof. intros H. apply keeps_modify. intros w. apply H. Qed.

(** A transaction keeps what its callback keeps, of the database or outside it. *)
Lemma keeps_transaction {A} (m : W Tbl A) :
  (∀ w b, obs (w <| w_inTransaction := b |>) = obs w) → (∀ w d, obs (w <| w_db := d |>) = obs w) →
  Keeps obs m → Keeps obs (transaction m).
Proof.
  intros H1 H2 Hm w. unfold transaction. case_match; [apply Hm|].
  specialize (Hm (w <| w_inTransaction := true |>)).
  destruct (m _) as [r w1]. cbn [snd] in *. by rewrite H1, H2, Hm, H1.
Qed.
End keeps.

Lemma keeps_transaction_db {Tbl} `{!Prisma Tbl} {X A} (g : Db Tbl → X) (m : W Tbl A) :
  Keeps (λ w, g (w_db w)) m → Keeps (λ w, g (w_db w)) (transaction m).
Proof.
  intros Hm w. unfold transaction. case_match; [apply Hm|].
  specialize (Hm (w <| w_inTransaction := true |>)). cbv beta in Hm.
  destruct (m _) as [r w1]. cbn [snd] in *. rewrite update_frame in Hm. upd_simpl.
  destruct (is_ok r) eqn:E; [by rewrite commit|by rewrite rollback].
Qed.

(** Whatever the callback does to the flag, the transaction restores it. *)
Lemma keeps_transaction_flag {Tbl} `{!Prisma Tbl} {A} (m : W Tbl A) :
  Keeps w_inTransaction m → Keeps w_inTransaction (transaction m).
Proof.
  intros Hm w. unfold transaction. destruct (w_inTransaction w) eqn:E.
  - by rewrite Hm.
  - destruct (m _) as [r w1]. cbn [snd]. by upd_simpl.
Qed.

Create HintDb keeps discriminated.
#[export] Hint Resolve keeps_ret keeps_throw keeps_lift keeps_gets keeps_get_now
  keeps_find_unique keeps_find_many keeps_find_first keeps_count : keeps.

Ltac head_of t := match t with ?h _ => head_of h | _ => t end.
Ltac frame_side := intros; cbv beta; unfold rows_of; upd_simpl; reflexivity.

Ltac keeps_step :=
  match goal with
  | H : Keeps _ _ |- _ => exact H
  | |- Keeps _ (_ ≫= _) => apply keeps_bind; [|intros ?]
  | |- Keeps _ (try_catch _ _) => apply keeps_try; [|intros ?]
  | |- Keeps _ (for_each _ _) => apply keeps_for_each; intros ?
  | |- Keeps _ (transaction _) =>
      first [ apply keeps_transaction_db | apply keeps_transaction_flag
            | apply keeps_transaction; [frame_side|frame_side|] ]
  | |- Keeps _ (draw_rt _) => apply keeps_draw_rt; frame_side
  | |- Keeps _ draw => apply keeps_draw; frame_side
  | |- Keeps _ (modify _) => apply keeps_modify; frame_side
  | |- Keeps _ (put_table _ _) => apply keeps_put_table; frame_side
  | |- Keeps _ (update_many _ _ _) => apply keeps_update_many; frame_side
  | |- Keeps _ (update_many_unique _ _ _ _) => apply keeps_update_many_unique; frame_side
  | |- Keeps _ (delete_many _ _) => apply keeps_delete_many; frame_side
  | |- Keeps _ (update_one _ _ _) => apply keeps_update_one; frame_side
  | |- Keeps _ (create_row _ _ _ _ _) => apply keeps_create_row; frame_side
  | |- Keeps _ (add_jobs _) => apply keeps_add_jobs; frame_side
  | |- Keeps _ (delPattern _) => apply keeps_delPattern; frame_side
  | |- Keeps _ (match _ with _ => _ end) => case_match
  | |- Keeps _ (if _ then _ else _) => case_match
  | |- Keeps _ _ => solve [auto with keeps]
  | |- Keeps _ ?m =>
      let h := head_of m in progress unfold h
  end.
Ltac keeps_tac := cbv zeta; repeat (keeps_step; cbv zeta beta).

(** [keep_all f]: what [f] reads is the same after every run in the context that the
    frame rules show to keep it. *)
Ltac keep_all f :=
  repeat match goal with
  | E : ?m ?w = (_, ?w') |- _ =>
      let T := eval cbv beta in (f w' = f w) in
      lazymatch goal with
      | _ : T |- _ => fail
      | _ => assert T by (apply (keeps_run f m _ w w' E); keeps_tac; fail)
      end
  end.

(** A computation that reads: it changes nothing. *)
Lemma reads_only {Tbl} `{!Prisma Tbl} {A} (m : W Tbl A) r w w' : m w = (r, w') → Keeps (λ w, w) m → w' = w.
Proof. intros E Hk. exact (keeps_run (λ w, w) m r w w' E Hk). Qed.

(** ** Calls that throw and leave the state alone *)

Definition Clean {Tbl : Type → Type} {A} (m : W Tbl A) : Prop :=
  ∀ w e w', m w = (Err e, w') → w' = w.

Section clean.
Context {Tbl : Type → Type} `{!Prisma Tbl}.

(** A step that changes nothing, before a clean one. *)
Lemma clean_bind {A B} (m : W Tbl A) (k : A → W Tbl B) :
  (∀ w, (m w).2 = w) → (∀ a, Clean (k a)) → Clean (m ≫= k).
Proof.
  intros Hm Hk w e w' H. specialize (Hm w). apply M_bind_err in H as [H|(a & w1 & E & H)].
  - by rewrite H in Hm.
  - rewrite E in Hm. cbn in Hm. subst. by eapply Hk.
Qed.

(** A clean step, before one that always returns. *)
Lemma clean_last {A B} (m : W Tbl A) (k : A → W Tbl B) :
  Clean m → (∀ a w, is_ok (k a w).1 = true) → Clean (m ≫= k).
Proof.
  intros Hm Hk w e w' H. apply M_bind_err in H as [H|(a & w1 & E & H)]; [by eapply Hm|].
  specialize (Hk a w1). by rewrite H in Hk.
Qed.

Lemma clean_throw {A} e : Clean (Tbl:=Tbl) (A:=A) (throw e).
Proof. intros w e' w' H. unfold throw in H. by inv_ok. Qed.

Lemma clean_create_row {R} (table : Db Tbl → Tbl R) {U : Update table} clash refs i r :
  Clean (create_row table clash refs i r).
Proof. intros w e w'. apply create_row_err. Qed.

Lemma clean_update_one {R} (table : Db Tbl → Tbl R) {U : Update table}
    {G : GetUpdate table} i d :
  Clean (update_one table i d).
Proof.
  unfold update_one. apply clean_bind; [done|]. intros [r|]; [|apply clean_throw].
  intros w e w' H. destruct (update_many_run table (λ j _, bool_decide (j = i)) d w)
    as (n & w1 & E & _). unfold mbind, M_bind in H. by rewrite E in H.
Qed.
End clean.

(** ** Finding a row by its key *)

Section by_key.
Context {Tbl : Type → Type} `{!Prisma Tbl} {R : Type} (table : Db Tbl → Tbl R).

Lemma find_first_key i (p : R → bool) w :
  find_first table (λ j r, bool_decide (j = i) && p r) w =
  (Ok (match rows_of table w !! i with
       | Some r => if p r then Some (i, r) else None
       | None => None
       end), w).
Proof.
  destruct (find_first table _ w) as [res w'] eqn:E.
  destruct res as [[[j r]|]|e].
  - apply find_first_some in E as (-> & Hj & Hp). bool_to_prop. subst.
    rewrite Hj. by match goal with H : p r = true |- _ => rewrite H end.
  - apply find_first_none in E as (-> & Hno). destruct (rows_of table w !! i) eqn:Hi; [|done].
    apply Hno in Hi. rewrite bool_decide_eq_true_2 in Hi by done. simpl in Hi. by rewrite Hi.
  - unfold find_first, find_many, gets, mbind, M_bind, mret, M_ret in E. done.
Qed.

(** The length of a count. *)
Lemma count_run (p : string → R → bool) w :
  count table p w = (Ok (Z.of_nat (size (matching p (rows_of table w)))), w).
Proof.
  unfold count, find_many, gets, mbind, M_bind, mret, M_ret. do 3 f_equal.
  rewrite (pick_all _ _ _ (findMany_rows p _ None _)). by rewrite length_map_to_list.
Qed.
End by_key.

(** ** Invariants, with what a call returns

    [holds I m Q]: from a state that satisfies [I], [m] ends in one that does, and a value
    it returns satisfies [Q].  [holds_tac] walks through the code; what it cannot prove are
    the calls that need an argument of their own. *)

Definition holds {Tbl : Type → Type} {A} (I : World Tbl → Prop) (m : W Tbl A) (Q : A → Prop)
  : Prop :=
  ∀ w, I w → I (m w).2 ∧ ∀ a, (m w).1 = Ok a → Q a.

Section holds.
Context {Tbl : Type → Type} `{!Prisma Tbl} (I : World Tbl → Prop).

Lemma holds_bind {A B} (m : W Tbl A) (k : A → W Tbl B) Q Q' :
  holds I m Q → (∀ a, Q a → holds I (k a) Q') → holds I (m ≫= k) Q'.
Proof.
  intros Hm Hk w Hw. destruct (Hm w Hw) as [H1 H2]. unfold mbind, M_bind.
  destruct (m w) as [[a|e] w1]; cbn in *; [|done]. by apply (Hk a); [apply H2|].
Qed.

Lemma holds_weaken {A} (m : W Tbl A) (Q Q' : A → Prop) :
  holds I m Q → (∀ a, Q a → Q' a) → holds I m Q'.
Proof. intros Hm Hq w Hw. destruct (Hm w Hw). naive_solver. Qed.

Lemma holds_ret {A} (a : A) (Q : A → Prop) : Q a → holds I (mret a) Q.
Proof. intros Hq w Hw. split; [done|]. intros ? [= <-]. done. Qed.

Lemma holds_throw {A} e (Q : A → Prop) : holds I (throw e) Q.
Proof. done. Qed.

Lemma holds_lift {A} (r : result error A) (Q : A → Prop) :
  (∀ a, r = Ok a → Q a) → holds I (lift r) Q.
Proof. intros Hq w Hw. split; [done|]. apply Hq. Qed.

Lemma holds_try {A} (m : W Tbl A) h Q :
  holds I m Q → (∀ e, holds I (h e) Q) → holds I (try_catch m h) Q.
Proof.
  intros Hm Hh w Hw. destruct (Hm w Hw) as [H1 H2]. unfold try_catch.
  destruct (m w) as [[a|e] w1]; cbn in *; [by auto|]. by apply Hh.
Qed.

Lemma holds_for_each {A} (body : A → W Tbl unit) xs :
  (∀ x, x ∈ xs → holds I (body x) (λ _, True)) → holds I (for_each body xs) (λ _, True).
Proof.
  intros Hb. induction xs as [|x xs IH]; [by apply holds_ret|].
  eapply holds_bind; [apply Hb; set_solver|]. intros. apply IH. set_solver.
Qed.

(** A call that keeps everything the invariant reads preserves it. *)
Lemma holds_keeps {X A} (obs : World Tbl → X) (m : W Tbl A) :
  (∀ w w', obs w' = obs w → I w → I w') → Keeps obs m → holds I m (λ _, True).
Proof. intros Hi Hk w Hw. split; [|done]. eapply Hi, Hw. apply Hk. Qed.
End holds.

(** An invariant of the database survives the commit and the rollback. *)
Lemma holds_transaction {Tbl} `{!Prisma Tbl} {A} (J : Db Tbl → Prop) (m : W Tbl A) Q :
  holds (λ w, J (w_db w)) m Q → holds (λ w, J (w_db w)) (transaction m) Q.
Proof.
  intros Hm w Hw. unfold transaction. case_match; [by apply Hm|].
  specialize (Hm (w <| w_inTransaction := true |>)). cbv beta in *.
  destruct (m _) as [r w1]. cbn [fst snd] in *. rewrite update_frame in Hm.
  destruct (Hm Hw) as [H1 H2]. split; [|done]. upd_simpl.
  destruct (is_ok r) eqn:E; [by rewrite commit|by rewrite rollback].
Qed.

(** [triple P m Q E]: from a state in [P], [m] returns an [a] in a state of [Q a], or throws
    in a state of [E]. *)
Definition triple {Tbl : Type → Type} {A} (P : World Tbl → Prop) (m : W Tbl A)
    (Q : A → World Tbl → Prop) (E : World Tbl → Prop) : Prop :=
  ∀ w, P w → match m w with (Ok a, w') => Q a w' | (Err _, w') => E w' end.

Section triples.
Context {Tbl : Type → Type} `{!Prisma Tbl}.
Implicit Types (P E : World Tbl → Prop).

Lemma triple_bind {A B} P (m : W Tbl A) (k : A → W Tbl B) R Q E :
  triple P m R E → (∀ a, triple (R a) (k a) Q E) → triple P (m ≫= k) Q E.
Proof.
  intros Hm Hk w Hw. specialize (Hm w Hw). unfold mbind, M_bind.
  destruct (m w) as [[a|e] w1]; [by apply Hk|done].
Qed.

Lemma triple_keep {X A} (obs : World Tbl → X) P (m : W Tbl A) E :
  (∀ w w', obs w' = obs w → P w → P w') → (∀ w, P w → E w) → Keeps obs m →
  triple P m (λ _, P) E.
Proof.
  intros Hs He Hk w Hw. specialize (Hk w).
  destruct (m w) as [[a|e] w1]; cbn in Hk; [|apply He]; by eapply Hs.
Qed.

Lemma triple_throw {A} P e (Q : A → World Tbl → Prop) E :
  (∀ w, P w → E w) → triple P (throw e) Q E.
Proof. intros He w Hw. by apply He. Qed.

Lemma triple_holds {A} P (m : W Tbl A) Q : triple P m (λ a w, P w ∧ Q a) P → holds P m Q.
Proof.
  intros Ht w Hw. specialize (Ht w Hw). destruct (m w) as [[a|e] w1]; cbn; naive_solver.
Qed.

Lemma holds_triple {A} P (m : W Tbl A) Q : holds P m Q → triple P m (λ a w, P w ∧ Q a) P.
Proof.
  intros Ht w Hw. specialize (Ht w Hw). destruct (m w) as [[a|e] w1]; cbn in *; naive_solver.
Qed.

Lemma triple_weaken {A} P (m : W Tbl A) Q Q' E :
  triple P m Q E → (∀ a w, Q a w → Q' a w) → triple P m Q' E.
Proof. intros Ht Hq w Hw. specialize (Ht w Hw). destruct (m w) as [[a|e] w1]; auto. Qed.
End triples.

(** ** Blindness to the queues

    [Blind m]: [m] does the same whether the queues accept jobs or not. *)

Definition set_queues {Tbl : Type → Type} (b : bool) (w : World Tbl) : World Tbl := w <| w_queues := b |>.

Definition Blind {Tbl : Type → Type} {A} (m : W Tbl A) : Prop :=
  ∀ w b, m (set_queues b w) = ((m w).1, set_queues b (m w).2).

Section blind.
Context {Tbl : Type → Type} `{!Prisma Tbl}.

Lemma set_queues_id (w : World Tbl) : set_queues (w_queues w) w = w.
Proof. by destruct w. Qed.
Lemma set_queues_twice b c (w : World Tbl) : set_queues b (set_queues c w) = set_queues b w.
Proof. by destruct w. Qed.

Lemma db_set_queues b (w : World Tbl) : w_db (set_queues b w) = w_db w.
Proof. by destruct w. Qed.
Lemma queues_set_queues b (w : World Tbl) : w_queues (set_queues b w) = b.
Proof. by destruct w. Qed.

Lemma blind_run {A} (m : W Tbl A) r w w' b :
  Blind m → m w = (r, w') → m (set_queues b w) = (r, set_queues b w').
Proof. intros Hm E. by rewrite Hm, E. Qed.

Lemma blind_ret {A} (a : A) : Blind (Tbl:=Tbl) (mret a).
Proof. done. Qed.
Lemma blind_throw {A} e : Blind (Tbl:=Tbl) (A:=A) (throw e).
Proof. done. Qed.
Lemma blind_lift {A} (r : result error A) : Blind (Tbl:=Tbl) (lift r).
Proof. done. Qed.
Lemma blind_gets {A} (g : World Tbl → A) : (∀ w b, g (set_queues b w) = g w) → Blind (Tbl:=Tbl) (gets g).
Proof. intros H w b. unfold gets. by rewrite H. Qed.
Lemma blind_get_now : Blind (Tbl:=Tbl) get_now.
Proof. apply blind_gets. by intros [] b. Qed.
Lemma blind_modify h : (∀ w b, h (set_queues b w) = set_queues b (h w)) → Blind (Tbl:=Tbl) (modify h).
Proof. intros H w b. unfold modify. by rewrite H. Qed.

Lemma blind_bind {A B} (m : W Tbl A) (k : A → W Tbl B) :
  Blind m → (∀ a, Blind (k a)) → Blind (m ≫= k).
Proof.
  intros Hm Hk w b. unfold mbind, M_bind. rewrite (Hm w b).
  destruct (m w) as [[a|e] w1]; cbn [fst snd]; [apply Hk|done].
Qed.

Lemma blind_try {A} (m : W Tbl A) (h : error → W Tbl A) :
  Blind m → (∀ e, Blind (h e)) → Blind (try_catch m h).
Proof.
  intros Hm Hh w b. unfold try_catch. rewrite (Hm w b).
  destruct (m w) as [[a|e] w1]; cbn [fst snd]; [done|apply Hh].
Qed.

Lemma blind_for_each {A} (body : A → W Tbl unit) xs :
  (∀ x, Blind (body x)) → Blind (for_each body xs).
Proof.
  intros Hb. induction xs as [|x xs IH]; [apply blind_ret|]. by apply blind_bind.
Qed.

Lemma blind_draw_rt n : Blind (Tbl:=Tbl) (draw_rt n).
Proof. by intros [] b. Qed.

Section table.
Context {R : Type} (table : Db Tbl → Tbl R) {U : Update table}.

Lemma blind_find_unique i : Blind (find_unique table i).
Proof. apply blind_gets. by intros [] b. Qed.
Lemma blind_find_many p o n : Blind (find_many table p o n).
Proof. apply blind_gets. by intros [] b. Qed.
Lemma blind_update_many p d : Blind (update_many table p d).
Proof.
  intros [db now uuid n f q e st fs] b. unfold update_many. cbn. by destruct (updateMany _ _ _) as [k t].
Qed.
Lemma blind_delete_many p : Blind (delete_many table p).
Proof.
  intros [db now uuid n f q e st fs] b. unfold delete_many. cbn. by destruct (deleteMany _ _) as [k t].
Qed.
End table.

Lemma blind_delPattern p : Blind (Tbl:=Tbl) (delPattern p).
Proof. apply blind_modify. by intros [] b. Qed.

Lemma blind_transaction {A} (m : W Tbl A) : Blind m → Blind (transaction m).
Proof.
  intros Hm w b. unfold transaction.
  assert (w_inTransaction (set_queues b w) = w_inTransaction w) as -> by (by destruct w).
  destruct (w_inTransaction w); [apply Hm|].
  assert ((set_queues b w) <| w_inTransaction := true |> = set_queues b (w <| w_inTransaction := true |>))
    as -> by (by destruct w).
  rewrite Hm. destruct (m (w <| w_inTransaction := true |>)) as [r []]. by destruct w.
Qed.
End blind.

Create HintDb blind discriminated.
#[export] Hint Resolve blind_ret blind_throw blind_lift blind_get_now blind_draw_rt
  blind_find_unique blind_find_many blind_update_many blind_delete_many blind_delPattern : blind.

Ltac blind_step :=
  match goal with
  | H : Blind _ |- _ => exact H
  | |- Blind (_ ≫= _) => apply blind_bind; [|intros ?]
  | |- Blind (try_catch _ _) => apply blind_try; [|intros ?]
  | |- Blind (for_each _ _) => apply blind_for_each; intros ?
  | |- Blind (transaction _) => apply blind_transaction
  | |- Blind (gets _) => apply blind_gets; intros [] ?; reflexivity
  | |- Blind (modify _) => apply blind_modify; intros [] ?; reflexivity
  | |- Blind (match _ with _ => _ end) => case_match
  | |- Blind (if _ then _ else _) => case_match
  | |- Blind _ => solve [auto with blind]
  | |- Blind ?m => let h := head_of m in progress unfold h
  end.
Ltac blind_tac := cbv zeta; repeat (blind_step; cbv zeta beta).

(** ** Atomic use cases

    A use case reads, runs one transaction, and then talks to queues and the cache.  A use
    case that throws has left the database as it found it, unless a queue refused a job
    after the commit; then the database is the one it would have left. *)

Definition queue_down : error := PlainError "Queue is not available".

Section atomic.
Context {Tbl : Type → Type} `{!Prisma Tbl}.

(** [m] committed in [w'] and stopped at the queues. *)
Definition Stopped {A} (m : W Tbl A) (w : World Tbl) (e : error) (w' : World Tbl) : Prop :=
  w_queues w = false ∧ e = queue_down ∧
  ∃ a w2, m (set_queues true w) = (Ok a, w2) ∧ w_db w' = w_db w2.

Definition Atomic {A} (m : W Tbl A) : Prop :=
  ∀ w e w', w_inTransaction w = false → m w = (Err e, w') →
    w_db w' = w_db w ∨ Stopped m w e w'.

(** What follows the commit: it cannot throw while the queues accept jobs. *)
Definition Tail {A} (m : W Tbl A) : Prop :=
  ∀ w, ∃ a w2, m (set_queues true w) = (Ok a, w2) ∧ w_db w2 = w_db w ∧ w_queues w2 = true ∧
    (m (set_queues false w) = (Ok a, set_queues false w2) ∨
     ∃ w3, m (set_queues false w) = (Err queue_down, w3) ∧ w_db w3 = w_db w).

Lemma atomic_throw {A} e : Atomic (A:=A) (throw e).
Proof. intros w e' w' _ H. left. unfold throw in H. by inv_ok. Qed.

Lemma atomic_ret {A} (a : A) : Atomic (mret a).
Proof. done. Qed.

(** Reading before the transaction. *)
Lemma atomic_read {A B} (m : W Tbl A) (k : A → W Tbl B) :
  Keeps w_db m → Keeps w_inTransaction m → Keeps w_queues m → Blind m →
  (∀ a, Atomic (k a)) → Atomic (m ≫= k).
Proof.
  intros H1 H2 H3 Hb Hk w e w' Hf H. apply M_bind_err in H as [H|(a & w1 & E & H)].
  - left. by apply (keeps_run _ _ _ _ _ H) in H1.
  - apply (keeps_run _ _ _ _ _ E) in H1, H2, H3. rewrite <-H1.
    destruct (Hk a w1 e w') as [Hd|(Hq & He & b & w2 & E2 & Hd)]; [congruence|done|by left|].
    right. split; [congruence|]. split; [done|]. exists b, w2. split; [|done].
    unfold mbind, M_bind. by rewrite (blind_run _ _ _ _ true Hb E).
Qed.

Lemma atomic_transaction {A} (m : W Tbl A) : Atomic (transaction m).
Proof. intros w e w' Hf H. left. by eapply transaction_err. Qed.

Lemma tail_err {A} (m : W Tbl A) w e w' : Tail m → m w = (Err e, w') →
  w_db w' = w_db w ∧ Stopped m w e w'.
Proof.
  intros Hm H. destruct (Hm w) as (a & w2 & E & Hd & _ & Hf).
  assert (m (set_queues (w_queues w) w) = (Err e, w')) as H' by (by rewrite set_queues_id).
  unfold Stopped. destruct (w_queues w) eqn:Hq.
  - congruence.
  - destruct Hf as [Hf|(w3 & Hf & Hd3)]; [congruence|]. rewrite Hf in H'. injection H' as <- <-.
    split; [done|]. split; [done|]. split; [done|]. exists a, w2. split; [done|congruence].
Qed.

(** The transaction, then its tail. *)
Lemma atomic_commit {A B} (m : W Tbl A) (k : A → W Tbl B) :
  Keeps w_queues (transaction m) → Blind (transaction m) → (∀ a, Tail (k a)) →
  Atomic (transaction m ≫= k).
Proof.
  intros Hm Hb Hk w e w' Hf H. apply M_bind_err in H as [H|(a & w1 & E & H)].
  - left. by eapply transaction_err.
  - right. apply (keeps_run _ _ _ _ _ E) in Hm.
    destruct (tail_err _ _ _ _ (Hk a) H) as [_ (Hq & He & b & w2 & E2 & Hd)].
    split; [congruence|]. split; [done|]. exists b, w2. split; [|done].
    unfold mbind, M_bind. by rewrite (blind_run _ _ _ _ true Hb E).
Qed.

(** A blind use case is not stopped. *)
Lemma atomic_blind {A} (m : W Tbl A) w e w' :
  Atomic m → Blind m → w_inTransaction w = false → m w = (Err e, w') → w_db w' = w_db w.
Proof.
  intros Ha Hb Hf H. destruct (Ha w e w' Hf H) as [|(_ & _ & a & w2 & E & _)]; [done|].
  by rewrite (blind_run _ _ _ _ true Hb H) in E.
Qed.

Lemma tail_keeps {A} (m : W Tbl A) : Keeps w_db m → Keeps w_queues m → Blind m →
  (∀ w, is_ok (m w).1 = true) → Tail m.
Proof.
  intros Hd Hq Hb Hok w. pose proof (Hd w) as Hd'. pose proof (Hq w) as Hq'. specialize (Hok w).
  destruct (m w) as [[a|e] w1] eqn:E; [|done]. cbn in Hd', Hq'.
  exists a, (set_queues true w1). split_and!; [by eapply blind_run|by rewrite db_set_queues|apply queues_set_queues|].
  left. rewrite set_queues_twice. by eapply blind_run.
Qed.

Lemma tail_ret {A} (a : A) : Tail (mret a).
Proof. apply tail_keeps; [by intros w|by intros w|auto with blind|done]. Qed.

Lemma tail_get_now : Tail get_now.
Proof. apply tail_keeps; [by intros w|by intros w|auto with blind|done]. Qed.

Lemma tail_bind {A B} (m : W Tbl A) (k : A → W Tbl B) :
  Tail m → (∀ a, Tail (k a)) → Tail (m ≫= k).
Proof.
  intros Hm Hk w. destruct (Hm w) as (a & w1 & E & Hd & Hq & Hf).
  destruct (Hk a w1) as (b & w2 & E2 & Hd2 & Hq2 & Hf2).
  assert (set_queues true w1 = w1) as Hid by (rewrite <-Hq; apply set_queues_id). rewrite Hid in E2.
  exists b, w2. unfold mbind, M_bind. rewrite E, E2, Hd2, Hd. split_and!; [done..|].
  destruct Hf as [Hf|(w3 & Hf & Hd3)]; rewrite Hf; [|right; exists w3; split; [done|congruence]].
  destruct Hf2 as [Hf2|(w3 & Hf2 & Hd3)]; rewrite Hf2; [by left|right]. exists w3. split; [done|congruence].
Qed.

Lemma tail_delPattern p : Tail (delPattern p).
Proof. apply tail_keeps; [by keeps_tac|by keeps_tac|apply blind_delPattern|done]. Qed.

Lemma tail_add_jobs jobs : Tail (add_jobs jobs).
Proof.
  intros [db now uuid n f q e st fs]. unfold add_jobs, gets, modify, mbind, M_bind, throw. cbn.
  eexists _, _. split_and!; [done..|]. right. by eexists.
Qed.
End atomic.

Ltac tail_tac :=
  repeat match goal with
  | |- Tail (_ ≫= _) => apply tail_bind; [|intros ?]
  | |- Tail (mret _) => apply tail_ret
  | |- Tail get_now => apply tail_get_now
  | |- Tail (delPattern _) => apply tail_delPattern
  | |- Tail (add_jobs _) => apply tail_add_jobs
  | |- Tail (if _ then _ else _) => case_match
  | |- Tail (match _ with _ => _ end) => case_match
  | |- Tail ?m =>
      let h := head_of m in progress unfold h
  end.

Ltac atomic_tac :=
  cbv zeta;
  repeat (match goal with
  | |- Atomic (throw _) => apply atomic_throw
  | |- Atomic (mret _) => apply atomic_ret
  | |- Atomic (transaction _ ≫= _) => apply atomic_commit; [by keeps_tac|by blind_tac|intros ?; by tail_tac]
  | |- Atomic (transaction _) => apply atomic_transaction
  | |- Atomic (_ ≫= _) =>
      apply atomic_read; [by keeps_tac|by keeps_tac|by keeps_tac|by blind_tac|intros ?]
  | |- Atomic (if _ then _ else _) => case_match
  | |- Atomic (match _ with _ => _ end) => case_match
  end; cbv zeta beta).
