(* ===== verification/Publish.v ===== *)
(** * Publishing domain events with fresh identifiers

    The use cases publish the events their aggregates raised inside the transaction of the
    change ([OutboxPublisher] behind the event bus).  This file shows what that stores when
    random identifiers do not repeat, the assumption under which [skipDuplicates] never
    drops an event. *)

From Stdlib Require Import String.
From S2P Require Import Prelude Store Js Errors Domain Schema World Outbox Logs Frames.

#[local] Open Scope string_scope.
#[local] Set Default Proof Using "Type*".

#[local] Notation outbox w := (rows_of d_outbox w).

Section publish.
Context {Tbl : Type → Type} `{!Prisma Tbl}.
Implicit Types (w : World Tbl) (e : DomainEvent) (evs : list DomainEvent).

(** Identifiers are drawn once, and none that is still to come is in the outbox. *)
Record FreshIds w : Prop := {
  fi_inj : ∀ j k, w_uuid w j = w_uuid w k → j = k;
  fi_row : ∀ k i r, (w_draws w ≤ k)%nat → outbox w !! i = Some r →
             i ≠ w_uuid w k ∧ ob_eventId r ≠ w_uuid w k;
}.

(** The event has an identifier of its own. *)
Record fresh_event w e : Prop := {
  fe_drawn : ∃ k, (k < w_draws w)%nat ∧ ev_id e = w_uuid w k;
  fe_row : ∀ i r, outbox w !! i = Some r → ob_eventId r ≠ ev_id e;
}.

(** The event waits in the outbox, pending, as it was stored at [now]. *)
Definition stored w (now : Z) e : Prop :=
  ∃ i, outbox w !! i = Some (toCreateInput now e).

Lemma fresh_ids_frame w w' :
  outbox w' = outbox w → w_uuid w' = w_uuid w → (w_draws w ≤ w_draws w')%nat →
  FreshIds w → FreshIds w'.
Proof.
  intros Ho Hu Hd [Hi Hr]. split; rewrite Hu; [done|].
  intros k i r Hk. rewrite Ho. apply Hr. lia.
Qed.

Lemma fresh_event_frame w w' e :
  outbox w' = outbox w → w_uuid w' = w_uuid w → (w_draws w ≤ w_draws w')%nat →
  fresh_event w e → fresh_event w' e.
Proof.
  intros Ho Hu Hd [(k & Hk & He) Hr]. split.
  - exists k. rewrite Hu. split; [lia|done].
  - by rewrite Ho.
Qed.

(** An event raised with an identifier that was just drawn. *)
Lemma fresh_event_drawn w w' e k :
  FreshIds w → outbox w' = outbox w → w_uuid w' = w_uuid w →
  ev_id e = w_uuid w k → (w_draws w ≤ k < w_draws w')%nat → fresh_event w' e.
Proof.
  intros [Hi Hr] Ho Hu He Hk. split.
  - exists k. rewrite Hu. split; [lia|done].
  - intros i r Hrow. rewrite Ho in Hrow. rewrite He. eapply Hr; [|done]. lia.
Qed.

Lemma enqueue_one_stores e w :
  FreshIds w → fresh_event w e →
  ∃ w', enqueue_one e w = (Ok tt, w') ∧ FreshIds w' ∧ w_now w' = w_now w ∧
    w_uuid w' = w_uuid w ∧ w_draws w' = S (w_draws w) ∧
    outbox w' = <[w_uuid w (w_draws w) := toCreateInput (w_now w) e]> (outbox w) ∧
    outbox w !! w_uuid w (w_draws w) = None.
Proof.
  intros Hf He. destruct (enqueue_one_run e w) as (w' & E & Hn & Hu & Hd & Hcase).
  rewrite Nat.add_0_r in Hcase. cbv zeta in Hcase. exists w'. split; [done|].
  destruct Hf as [Hinj Hr]. destruct Hcase as [(Ho & Hnone & _)|(_ & Hbad)].
  - split; [|done]. split; rewrite Hu; [done|]. intros k i r Hk. rewrite Ho, Hd in *.
    intros [[<- <-]|[Hne Hi]]%lookup_insert_Some.
    + cbn. destruct He as [(k' & Hk' & ->) _]. split; intros Heq%Hinj; lia.
    + apply Hr; [lia|done].
  - exfalso. destruct Hbad as [[r Hi]|(j & r & Hj & Heq)].
    + by destruct (Hr (w_draws w) _ _ ltac:(done) Hi) as [? _].
    + by apply (fe_row _ _ He) in Hj.
Qed.

(** Publishing fresh events stores every one of them and nothing else. *)
Lemma enqueueMany_stores evs w :
  FreshIds w → NoDup (ev_id <$> evs) → Forall (fresh_event w) evs →
  ∃ w', enqueueMany evs w = (Ok tt, w') ∧ FreshIds w' ∧ w_now w' = w_now w ∧
    (∀ e, e ∈ evs → stored w' (w_now w) e) ∧
    (∀ i r, outbox w' !! i = Some r ↔
       outbox w !! i = Some r ∨
       outbox w !! i = None ∧ outbox w' !! i = Some r ∧
       ∃ e, e ∈ evs ∧ r = toCreateInput (w_now w) e) ∧
    size (outbox w') = (size (outbox w) + length evs)%nat.
Proof.
  revert w. induction evs as [|e evs IH]; intros w Hf Hnd Hev.
  { exists w. split_and!; [done|done|done|set_solver| |simpl; lia]. set_solver. }
  inversion Hev as [|? ? He Hevs]; subst.
  rewrite fmap_cons in Hnd. inversion Hnd as [|? ? Hnin Hnd']; subst.
  destruct (enqueue_one_stores e w Hf He) as (w1 & E & Hf1 & Hn1 & Hu1 & Hd1 & Ho1 & Hfree).
  assert (Forall (fresh_event w1) evs) as Hev1.
  { rewrite Forall_forall in *. intros x Hx. destruct (Hevs x Hx) as [(k & Hk & Hid) Hrow].
    split; [exists k; rewrite Hu1; split; [lia|done]|].
    intros i r. rewrite Ho1. intros [[<- <-]|[Hne Hi]]%lookup_insert_Some; [|by eapply Hrow].
    cbn. intros Heq. apply Hnin. rewrite Heq. by apply list_elem_of_fmap_2. }
  destruct (IH w1 Hf1 Hnd' Hev1) as (w' & E' & Hf' & Hn' & Hst & Hrows & Hsz).
  exists w'. unfold enqueueMany in *. cbn [for_each]. unfold mbind, M_bind. rewrite E.
  rewrite Hn1 in *. assert (∀ i r, outbox w1 !! i = Some r → outbox w' !! i = Some r) as Hmono.
  { intros i r Hi. apply Hrows. by left. }
  split_and!; [done|done|done| | |].
  - intros x [->|Hx]%elem_of_cons; [|by apply Hst].
    eexists. apply Hmono. rewrite Ho1. apply lookup_insert_eq.
  - intros i r. split.
    + intros Hi. pose proof Hi as Hi'. apply Hrows in Hi as [Hi|(Hno & _ & x & Hx & ->)].
      * rewrite Ho1 in Hi. apply lookup_insert_Some in Hi as [[<- <-]|[_ Hi]]; [|by left].
        right. split_and!; [done|done|]. exists e. split; [set_solver|done].
      * right. rewrite Ho1 in Hno. apply lookup_insert_None in Hno as [Hno _].
        split_and!; [done|done|]. exists x. split; [set_solver|done].
    + intros [Hi|(_ & Hi & _)]; [|done]. apply Hmono. rewrite Ho1.
      rewrite lookup_insert_ne; [done|]. congruence.
  - rewrite Hsz, Ho1, map_size_insert_None by done. simpl. lia.
Qed.
End publish.

(** ** Log entries written in a transaction *)

Section logged.
Context {Tbl : Type → Type} `{!Prisma Tbl}.
Implicit Types (w : World Tbl).

Definition activity_row (now : Z) (a : ActivityLogEntry) : ActivityRow :=
  mkActivityRow (ae_tenantId a) (ae_ticketId a) (ae_customerId a) (ae_actorId a)
    (ae_actorRole a) (ae_eventType a) (ae_description a) (ae_oldValue a) (ae_newValue a) now.

Definition audit_row (now : Z) (b : AuditLogEntry) : AuditRow :=
  mkAuditRow (le_tenantId b) (le_actorId b) (le_actorRole b) (le_action b) (le_resource b)
    (le_resourceId b) (le_oldValue b) (le_newValue b) (le_ipAddress b) (le_userAgent b)
    (le_metadata b) now.

Lemma activity_create_ok a w u w' :
  activity_create a w = (Ok u, w') →
  ∃ i tbl, rows_of d_activities w' = <[i := activity_row (w_now w) a]> (rows_of d_activities w) ∧
    rows_of d_activities w !! i = None ∧
    w' = w <| w_draws ::= Nat.add 1 |> <| w_db ::= λ d, d <| d_activities := tbl |> |>.
Proof.
  unfold activity_create, try_catch, throw. intros H. w_inv.
  match goal with E : draw _ = _ |- _ => apply draw_ok in E as [-> ->] end.
  destruct (create_row _ _ _ _ _ _) as [[u'|e] w1] eqn:E; inv_ok.
  apply (create_row_ok d_activities) in E as (Hn & _ & Hr & _ & t & ->).
  unfold rows_of in *. upd_simpl in Hn. eexists _, t. split_and!; [|exact Hn|done].
  rewrite Hr. by upd_simpl.
Qed.

(** Inside a transaction an audit entry that could not be stored is an error. *)
Lemma audit_create_ok b w u w' :
  w_inTransaction w = true → audit_create b w = (Ok u, w') →
  ∃ i tbl, rows_of d_audits w' = <[i := audit_row (w_now w) b]> (rows_of d_audits w) ∧
    rows_of d_audits w !! i = None ∧
    w' = w <| w_draws ::= Nat.add 1 |> <| w_db ::= λ d, d <| d_audits := tbl |> |>.
Proof.
  intros Hin. unfold audit_create, try_catch. intros H. w_inv.
  match goal with E : draw _ = _ |- _ => apply draw_ok in E as [-> ->] end.
  destruct (create_row _ _ _ _ _ _) as [[u'|e] w1] eqn:E.
  - inv_ok. apply (create_row_ok d_audits) in E as (Hn & _ & Hr & _ & t & ->).
    unfold rows_of in *. upd_simpl in Hn. eexists _, t. split_and!; [|exact Hn|done].
    rewrite Hr. by upd_simpl.
  - apply create_row_err in E as ->. unfold gets, throw, mbind, M_bind in H.
    assert (w_inTransaction (w <| w_draws ::= Nat.add 1 |>) = true) as Hin' by (by upd_simpl).
    by rewrite Hin' in H.
Qed.

Lemma enqueueMany_other {X} (obs : World Tbl → X) evs :
  (∀ w t, obs (w <| w_db ::= λ d, d <| d_outbox := t |> |>) = obs w) →
  (∀ w, obs (w <| w_draws ::= Nat.add 1 |>) = obs w) →
  Keeps obs (enqueueMany evs).
Proof.
  intros H1 H2. apply keeps_for_each. intros e. unfold enqueue_one.
  apply keeps_bind; [by apply keeps_draw|]. intros i. apply keeps_bind; [done|]. intros n.
  apply keeps_bind; [done|]. intros [t|]; [by apply keeps_put_table|done].
Qed.
End logged.
