(* ===== verification/Repositories.v ===== *)
(** * Repositories: aggregates in the database

    [src/infrastructure/database/repositories]: how tickets, comments and customers are
    read from and written to their tables.  A field that is [undefined] on the entity is
    left out of an update by the client ([assign_column]). *)

From stdpp Require Import pretty.
From Stdlib Require Import Ascii String.
From S2P Require Import Prelude Store Js Errors Domain Ticket Customer Tenant User Schema.
From S2P Require Import World Outbox Logs Frames.

#[local] Open Scope string_scope.
#[local] Open Scope Z_scope.
#[local] Set Default Proof Using "Type*".

(** ** Pagination: pagination.util.ts *)

(** Offset for a 1-based page. *)
Definition toSkip (page limit : Z) : Z := (Z.max page 1 - 1) * limit.
(** [Math.ceil(total / limit)] *)
Definition toTotalPages (total limit : Z) : Z :=
  if 0 <? limit then - ((- total) / limit) else 0.

Record PaginatedResult (A : Type) := mkPage {
  pg_data : list A;
  pg_total : Z;
  pg_page : Z;
  pg_limit : Z;
  pg_totalPages : Z;
}.
Arguments mkPage {A}. Arguments pg_data {A}. Arguments pg_total {A}.
Arguments pg_page {A}. Arguments pg_limit {A}. Arguments pg_totalPages {A}.

(** [{ contains: needle, mode: 'insensitive' }] *)
Fixpoint contains_at (needle s : string) : bool :=
  String.prefix needle s || match s with
                            | EmptyString => false
                            | String _ s => contains_at needle s
                            end.
Definition contains_insensitive (needle s : string) : bool :=
  contains_at (toLowerCase needle) (toLowerCase s).

Section repositories.
Context {Tbl : Type → Type} `{!Prisma Tbl}.

(** [findMany({ where, skip, take, orderBy })] and [count({ where })] *)
Definition find_page {R A} (table : Db Tbl → Tbl R) (where_ : string → R → bool)
    (orderBy : string * R → Z) (toDomain : string → R → A) (page limit : Z)
  : W Tbl (PaginatedResult A) :=
  let skip := toSkip page limit in
  records ← find_many table where_ orderBy (Some (Z.to_nat (skip + limit)));
  total ← count table where_;
  mret (mkPage (map (λ '(i, r), toDomain i r) (drop (Z.to_nat skip) records))
          total page limit (toTotalPages total limit)).

(** [try { work } catch { throw new InfrastructureError(message) }] *)
Definition or_infrastructure {A} (message : string) (work : W Tbl A) : W Tbl A :=
  try_catch work (λ _, throw (InfrastructureError message)).

(** ** TicketRepository *)

Definition ticket_toDomain (i : string) (r : TicketRow) : TicketEntity :=
  ticket_reconstitute (mkRt 0 (λ _, "")) i
    (mkTicketProps (ti_tenantId r) (ti_ticketNumber r) (ti_customerId r)
       (ti_assignedAgentId r) (ti_createdById r) (ti_title r) (ti_description r)
       (ti_status r) (ti_priority r) (ti_category r) (ti_tags r) (ti_source r)
       (ti_isEscalated r) (ti_escalatedAt r) (ti_escalatedReason r) (ti_resolvedAt r)
       (ti_closedAt r) (ti_firstResponseAt r) (ti_dueAt r) (ti_slaBreached r)
       (ti_metadata r) (Some (ti_createdAt r)) (Some (ti_updatedAt r))).

Definition ticket_findById (i tenantId : string) : W Tbl (option TicketEntity) :=
  found ← find_first d_tickets
            (λ j r, bool_decide (j = i) && bool_decide (ti_tenantId r = tenantId));
  mret ((λ '(j, r), ticket_toDomain j r) <$> found).

(** The columns of a new ticket; [createdAt] and [updatedAt] default to the clock. *)
Definition ticket_row (now : Z) (t : TicketEntity) : TicketRow :=
  mkTicketRow (t_tenantId t) (t_ticketNumber t) (t_customerId t) (t_assignedAgentId t)
    (t_createdById t) (t_title t) (t_description t) (t_status t) (t_priority t)
    (t_category t) (t_tags t) (t_source t) (t_isEscalated t) (t_escalatedAt t)
    (t_escalatedReason t) (t_resolvedAt t) (t_closedAt t) (t_firstResponseAt t)
    (t_dueAt t) (t_slaBreached t) (t_metadata t) None now now.

(** A column that is an enumeration [T]: the client refuses other strings, with a
    [PrismaClientValidationError]. *)
Definition check_enum (T : Type) `{Enum T} (value : string) : W Tbl unit :=
  match of_string (T:=T) value with
  | Some _ => mret ()
  | None => throw (PlainError "Invalid value provided. Expected an enumerated value")
  end.

Definition check_category (category : string) : W Tbl unit :=
  check_enum PrismaTicketCategory category.

Definition ticket_save (t : TicketEntity) : W Tbl TicketEntity :=
  or_infrastructure "Failed to save ticket" (
    now ← get_now;
    _ ← check_category (t_category t);
    _ ← create_row d_tickets (λ _ _, false)
          (λ db, refers (d_tenants db) (Some (t_tenantId t))
                 && refers (d_customers db) (Some (t_customerId t))
                 && refers (d_users db) (t_assignedAgentId t)
                 && refers (d_users db) (Some (t_createdById t)))
          (t_id t) (ticket_row now t);
    mret (ticket_toDomain (t_id t) (ticket_row now t))).

(** The [data] of [update]; an optional field that is undefined keeps its column. *)
Definition ticket_update_data (now : Z) (t : TicketEntity) (r : TicketRow) : TicketRow :=
  r <| ti_assignedAgentId ::= assign_column (Some <$> t_assignedAgentId t) |>
    <| ti_title := t_title t |> <| ti_description := t_description t |>
    <| ti_status := t_status t |> <| ti_priority := t_priority t |>
    <| ti_category := t_category t |> <| ti_tags := t_tags t |>
    <| ti_isEscalated := t_isEscalated t |>
    <| ti_escalatedAt ::= assign_column (Some <$> t_escalatedAt t) |>
    <| ti_escalatedReason ::= assign_column (Some <$> t_escalatedReason t) |>
    <| ti_resolvedAt ::= assign_column (Some <$> t_resolvedAt t) |>
    <| ti_closedAt ::= assign_column (Some <$> t_closedAt t) |>
    <| ti_firstResponseAt ::= assign_column (Some <$> t_firstResponseAt t) |>
    <| ti_dueAt ::= assign_column (Some <$> t_dueAt t) |>
    <| ti_slaBreached := t_slaBreached t |> <| ti_metadata := t_metadata t |>
    <| ti_updatedAt := now |>.

Definition ticket_update (t : TicketEntity) : W Tbl TicketEntity :=
  or_infrastructure "Failed to update ticket" (
    now ← get_now;
    _ ← check_category (t_category t);
    r ← update_one d_tickets (t_id t) (ticket_update_data now t);
    mret (ticket_toDomain (t_id t) r)).

Definition ticket_findByTicketNumber (ticketNumber : Z) (tenantId : string)
  : W Tbl (option TicketEntity) :=
  found ← find_first d_tickets
            (λ _ r, bool_decide (ti_ticketNumber r = ticketNumber)
                    && bool_decide (ti_tenantId r = tenantId));
  mret ((λ '(j, r), ticket_toDomain j r) <$> found).

(** The schema's [onDelete: Cascade] removes the rows that refer to the ticket: its comments
    and activities, of the tables modelled here. *)
Definition ticket_delete (i tenantId : string) : W Tbl unit :=
  or_infrastructure "Failed to delete ticket" (
    found ← find_first d_tickets
              (λ j r, bool_decide (j = i) && bool_decide (ti_tenantId r = tenantId));
    match found with
    | None => mret ()
    | Some _ =>
        _ ← delete_many d_tickets
              (λ j r, bool_decide (j = i) && bool_decide (ti_tenantId r = tenantId));
        _ ← delete_many d_comments (λ _ c, bool_decide (co_ticketId c = i));
        _ ← delete_many d_activities (λ _ a, bool_decide (ac_ticketId a = Some i));
        _ ← update_many d_notifications (λ _ n, bool_decide (nt_ticketId n = Some i))
              (λ n, n <| nt_ticketId := None |>);
        mret ()
    end).

(** [INSERT … ON CONFLICT DO UPDATE]: one statement. *)
Definition getNextTicketNumber (tenantId : string) : W Tbl Z :=
  last ← find_unique d_sequences tenantId;
  match last with
  | Some n => update_one d_sequences tenantId (λ n, n + 1)
  | None =>
      _ ← create_row d_sequences (λ _ _, false) (λ _, true) tenantId 1; mret 1
  end.

Definition countCreatedSince (tenantId : string) (since : Z) : W Tbl Z :=
  count d_tickets (λ _ r, bool_decide (ti_tenantId r = tenantId) && (since <=? ti_createdAt r)).

(** [groupBy] one column: the values that occur, with their number of rows. *)
Definition countBy {T} `{Enum T} (column : TicketRow → T) (tenantId : string)
  : W Tbl (list (string * Z)) :=
  let rec_ := fix go (l : list T) : W Tbl (list (string * Z)) :=
    match l with
    | [] => mret []
    | v :: l =>
        n ← count d_tickets (λ _ r, bool_decide (ti_tenantId r = tenantId)
                                    && bool_decide (enum_string (column r) = enum_string v));
        rest ← go l;
        mret (if n =? 0 then rest else (enum_string v, n) :: rest)
    end in
  rec_ enum_values.
Definition countByStatus : string → W Tbl (list (string * Z)) := countBy ti_status.
Definition countByPriority : string → W Tbl (list (string * Z)) := countBy ti_priority.

Definition countByTenantId (tenantId : string) : W Tbl Z :=
  count d_tickets (λ _ r, bool_decide (ti_tenantId r = tenantId)).

(** [TicketRepository.markSlaBreached]: true for the one caller that sets the flag. *)
Definition repo_markSlaBreached (i tenantId : string) : W Tbl bool :=
  now ← get_now;
  n ← update_many d_tickets
        (λ j r, bool_decide (j = i) && bool_decide (ti_tenantId r = tenantId)
                && negb (ti_slaBreached r))
        (λ r, r <| ti_slaBreached := true |> <| ti_updatedAt := now |>);
  mret (bool_decide (n = 1)).

Definition findOverdueTickets (tenantId : string) : W Tbl (list TicketEntity) :=
  now ← get_now;
  records ← find_many d_tickets
    (λ _ r, bool_decide (ti_tenantId r = tenantId)
            && match ti_dueAt r with Some d => d <? now | None => false end
            && negb (bool_decide (ti_status r = RESOLVED))
            && negb (bool_decide (ti_status r = CLOSED)) && negb (ti_slaBreached r))
    (λ _, 0) None;
  mret (filter (λ t, overdue_satisfied now t = true)
          (map (λ '(i, r), ticket_toDomain i r) records)).

Definition findEscalatedTickets (tenantId : string) : W Tbl (list TicketEntity) :=
  records ← find_many d_tickets
    (λ _ r, bool_decide (ti_tenantId r = tenantId) && ti_isEscalated r
            && negb (bool_decide (ti_status r = RESOLVED))
            && negb (bool_decide (ti_status r = CLOSED)))
    (λ kr, default 8640000000000001 (ti_escalatedAt kr.2)) None;
  mret (filter (λ t, escalated_satisfied t = true)
          (map (λ '(i, r), ticket_toDomain i r) records)).

(** [TicketFilters]; a status or priority filter is one value or a list. *)
Record TicketFilters := mkTicketFilters {
  tf_tenantId : string;
  tf_status : option (list string);
  tf_priority : option (list string);
  tf_category : option string;
  tf_assignedAgentId : option string;
  tf_customerId : option string;
  tf_isEscalated : option bool;
  tf_slaBreached : option bool;
  tf_dateFrom : option Z;
  tf_dateTo : option Z;
  tf_search : option string;
  tf_tags : option (list string);
}.

(** [if (o) where.column = o] on a string filter, [if (o !== undefined)] on others. *)
Definition on_string (o : option string) (p : string → bool) : bool :=
  match o with Some s => if str_truthy s then p s else true | None => true end.
Definition on_some {A} (o : option A) (p : A → bool) : bool :=
  match o with Some a => p a | None => true end.

(** [buildWhereClause] *)
Definition ticket_where (f : TicketFilters) (_ : string) (r : TicketRow) : bool :=
  bool_decide (ti_tenantId r = tf_tenantId f)
  && on_some (tf_status f) (λ l, includes l (status_string (ti_status r)))
  && on_some (tf_priority f) (λ l, includes l (priority_string (ti_priority r)))
  && on_string (tf_category f) (λ c, bool_decide (ti_category r = c))
  && on_string (tf_assignedAgentId f) (λ a, bool_decide (ti_assignedAgentId r = Some a))
  && on_string (tf_customerId f) (λ c, bool_decide (ti_customerId r = c))
  && on_some (tf_isEscalated f) (λ b, Bool.eqb (ti_isEscalated r) b)
  && on_some (tf_slaBreached f) (λ b, Bool.eqb (ti_slaBreached r) b)
  && on_some (tf_dateFrom f) (λ d, d <=? ti_createdAt r)
  && on_some (tf_dateTo f) (λ d, ti_createdAt r <=? d)
  && on_string (tf_search f) (λ s,
       contains_insensitive (trim s) (ti_title r)
       || contains_insensitive (trim s) (ti_description r))
  && on_some (tf_tags f) (λ tags,
       match tags with [] => true | _ => existsb (includes (ti_tags r)) tags end).

(** The position of an enumeration's value, by which PostgreSQL sorts it. *)
Fixpoint index_of (s : string) (l : list string) : Z :=
  match l with
  | [] => 0
  | x :: l => if bool_decide (x = s) then 0 else 1 + index_of s l
  end.
Definition enum_index {T} `{Enum T} (t : T) : Z :=
  index_of (enum_string t) (map enum_string enum_values).

(** [buildOrderBy]: descending unless asked otherwise, nulls as PostgreSQL sorts them;
    an unknown field sorts by creation, newest first. *)
Definition ticket_order (sortBy : option string) (asc : bool) (kr : string * TicketRow) : Z :=
  let dir z := if asc then z else - z in
  let r := kr.2 in
  let key := default "createdAt" sortBy in
  if bool_decide (key = "createdAt") then dir (ti_createdAt r)
  else if bool_decide (key = "updatedAt") then dir (ti_updatedAt r)
  else if bool_decide (key = "priority") then dir (enum_index (ti_priority r))
  else if bool_decide (key = "status") then dir (enum_index (ti_status r))
  else if bool_decide (key = "ticketNumber") then dir (ti_ticketNumber r)
  else if bool_decide (key = "dueAt") then dir (default 8640000000000001 (ti_dueAt r))
  else - ti_createdAt r.

(** The client validates the values of an enumerated column in a [where]. *)
Definition check_filters (f : TicketFilters) : W Tbl unit :=
  _ ← for_each (check_enum TicketStatus) (default [] (tf_status f));
  _ ← for_each (check_enum TicketPriority) (default [] (tf_priority f));
  match tf_category f with
  | Some c => if str_truthy c then check_category c else mret ()
  | None => mret ()
  end.

Definition ticket_findAll (f : TicketFilters) (sortBy : option string) (asc : bool)
    (page limit : Z) : W Tbl (PaginatedResult TicketEntity) :=
  or_infrastructure "Failed to list tickets" (
    _ ← check_filters f;
    find_page d_tickets (ticket_where f) (ticket_order sortBy asc) ticket_toDomain page limit).

Definition no_filters (tenantId : string) : TicketFilters :=
  mkTicketFilters tenantId None None None None None None None None None None None.

Definition findByAgentId (agentId tenantId : string) (sortBy : option string) (asc : bool)
    (page limit : Z) : W Tbl (PaginatedResult TicketEntity) :=
  ticket_findAll (mkTicketFilters tenantId None None None (Some agentId) None None None None
                    None None None) sortBy asc page limit.

Definition findByCustomerId (customerId tenantId : string) (sortBy : option string)
    (asc : bool) (page limit : Z) : W Tbl (PaginatedResult TicketEntity) :=
  ticket_findAll (mkTicketFilters tenantId None None None None (Some customerId) None None
                    None None None None) sortBy asc page limit.

(** ** CommentRepository *)

Definition comment_toDomain (i : string) (r : CommentRow) : TicketCommentEntity :=
  comment_reconstitute (mkRt 0 (λ _, "")) i
    (mkCommentProps (co_tenantId r) (co_ticketId r) (co_authorId r) (co_content r)
       (comment_type_string (co_type r)) (co_isAiDraft r) (co_aiDraftId r) (co_editedAt r)
       (co_metadata r) (Some (co_createdAt r)) (Some (co_updatedAt r))).

Definition comment_findById (i tenantId : string) : W Tbl (option TicketCommentEntity) :=
  found ← find_first d_comments
            (λ j r, bool_decide (j = i) && bool_decide (co_tenantId r = tenantId));
  mret ((λ '(j, r), comment_toDomain j r) <$> found).

Definition comment_row (now : Z) (c : TicketCommentEntity) : CommentRow :=
  mkCommentRow (c_tenantId c) (c_ticketId c) (c_authorId c) (c_content c) (c_type c)
    (c_isAiDraft c) (c_aiDraftId c) None (c_metadata c) now now.

Definition comment_save (c : TicketCommentEntity) : W Tbl TicketCommentEntity :=
  now ← get_now;
  _ ← create_row d_comments (λ _ _, false)
        (λ db, refers (d_tickets db) (Some (c_ticketId c))
               && refers (d_users db) (Some (c_authorId c)))
        (b_id (c_base c)) (comment_row now c);
  mret (comment_toDomain (b_id (c_base c)) (comment_row now c)).

Definition comment_update_data (now : Z) (c : TicketCommentEntity) (r : CommentRow)
  : CommentRow :=
  r <| co_content := c_content c |> <| co_type := c_type c |>
    <| co_isAiDraft := c_isAiDraft c |> <| co_aiDraftId := c_aiDraftId c |>
    <| co_editedAt := c_editedAt c |> <| co_metadata := c_metadata c |>
    <| co_updatedAt := now |>.

Definition comment_update (c : TicketCommentEntity) : W Tbl TicketCommentEntity :=
  now ← get_now;
  r ← update_one d_comments (b_id (c_base c)) (comment_update_data now c);
  mret (comment_toDomain (b_id (c_base c)) r).

Definition comment_delete (i tenantId : string) : W Tbl unit :=
  _ ← delete_many d_comments
        (λ j r, bool_decide (j = i) && bool_decide (co_tenantId r = tenantId)); mret ().

Definition comment_order (sortBy : option string) (asc : bool) (kr : string * CommentRow)
  : Z :=
  let dir z := if asc then z else - z in
  if bool_decide (sortBy = Some "updatedAt") then dir (co_updatedAt kr.2)
  else if bool_decide (sortBy = Some "editedAt")
  then dir (default 8640000000000001 (co_editedAt kr.2))
  else dir (co_createdAt kr.2).

(** [CommentRepository.findByTicket] *)
Definition comment_findByTicket (ticketId tenantId : string) (sortBy : option string)
    (asc : bool) (page limit : Z) : W Tbl (PaginatedResult TicketCommentEntity) :=
  find_page d_comments
    (λ _ r, bool_decide (co_ticketId r = ticketId) && bool_decide (co_tenantId r = tenantId))
    (comment_order sortBy asc) comment_toDomain page limit.

Definition countByTicket (ticketId tenantId : string) : W Tbl Z :=
  count d_comments
    (λ _ r, bool_decide (co_ticketId r = ticketId) && bool_decide (co_tenantId r = tenantId)).

(** ** ActivityRepository and AuditRepository: newest first *)

(** [ActivityRepository.findByTicket]: newest first. *)
Definition findByTicket (ticketId tenantId : string) (page limit : Z)
  : W Tbl (PaginatedResult ActivityRow) :=
  or_infrastructure "Failed to find ticket activities"
    (find_page d_activities
       (λ _ r, bool_decide (ac_ticketId r = Some ticketId)
               && bool_decide (ac_tenantId r = tenantId))
       (λ kr, - ac_occurredAt kr.2) (λ _ r, r) page limit).

Definition findByCustomer (customerId tenantId : string) (page limit : Z)
  : W Tbl (PaginatedResult ActivityRow) :=
  or_infrastructure "Failed to find customer activities"
    (find_page d_activities
       (λ _ r, bool_decide (ac_customerId r = Some customerId)
               && bool_decide (ac_tenantId r = tenantId))
       (λ kr, - ac_occurredAt kr.2) (λ _ r, r) page limit).

Definition findByTenant (tenantId : string) (page limit : Z)
  : W Tbl (PaginatedResult AuditRow) :=
  or_infrastructure "Failed to find audit logs"
    (find_page d_audits (λ _ r, bool_decide (au_tenantId r = Some tenantId))
       (λ kr, - au_occurredAt kr.2) (λ _ r, r) page limit).

(** An undefined tenant is left out of the [where]. *)
Definition findByResource (resource resourceId : string) (tenantId : option string)
  : W Tbl (list (string * AuditRow)) :=
  find_many d_audits
    (λ _ r, bool_decide (au_resource r = resource)
            && bool_decide (au_resourceId r = Some resourceId)
            && on_some tenantId (λ t, bool_decide (au_tenantId r = Some t)))
    (λ kr, - au_occurredAt kr.2) None.

(** ** CustomerRepository *)

Definition customer_toDomain (i : string) (r : CustomerRow) : result error CustomerEntity :=
  email ← email_create (cu_email r);
  Ok (customer_reconstitute (mkRt 0 (λ _, "")) i
        (mkCustomerProps (cu_tenantId r) (cu_assignedAgentId r) (cu_fullName r) email
           (cu_phone r) (cu_company r) (cu_notes r) (cu_status r)
           (default 0 (cu_riskScore r)) (cu_riskLabel r) (cu_metadata r) (cu_externalId r)
           (cu_lastActivityAt r) (Some (cu_createdAt r)) (Some (cu_updatedAt r)))).

Definition customer_findById (i tenantId : string) : W Tbl (option CustomerEntity) :=
  or_infrastructure "Failed to find customer" (
    found ← find_first d_customers
              (λ j r, bool_decide (j = i) && bool_decide (cu_tenantId r = tenantId));
    match found with
    | Some (j, r) => k ← lift (customer_toDomain j r); mret (Some k)
    | None => mret None
    end).

Definition customer_update_data (now : Z) (k : CustomerEntity) (r : CustomerRow)
  : CustomerRow :=
  r <| cu_assignedAgentId ::= assign_column (Some <$> k_assignedAgentId k) |>
    <| cu_fullName := k_fullName k |>
    <| cu_phone ::= assign_column (Some <$> k_phone k) |>
    <| cu_company ::= assign_column (Some <$> k_company k) |>
    <| cu_notes ::= assign_column (Some <$> k_notes k) |>
    <| cu_status := k_status k |> <| cu_riskScore := Some (k_riskScore k) |>
    <| cu_riskLabel ::= assign_column (Some <$> k_riskLabel k) |>
    <| cu_metadata := k_metadata k |>
    <| cu_lastActivityAt ::= assign_column (Some <$> k_lastActivityAt k) |>
    <| cu_updatedAt := now |>.

Definition customer_update (k : CustomerEntity) : W Tbl CustomerEntity :=
  or_infrastructure "Failed to update customer" (
    now ← get_now;
    r ← update_one d_customers (k_id k) (customer_update_data now k);
    lift (customer_toDomain (k_id k) r)).

Definition customer_findByEmail (email tenantId : string) : W Tbl (option CustomerEntity) :=
  or_infrastructure "Failed to find customer by email" (
    found ← find_first d_customers
              (λ _ r, bool_decide (cu_email r = toLowerCase email)
                      && bool_decide (cu_tenantId r = tenantId));
    match found with
    | Some (j, r) => k ← lift (customer_toDomain j r); mret (Some k)
    | None => mret None
    end).

(** The row of a new customer; [lastActivityAt] is not among its columns. *)
Definition customer_row (now : Z) (k : CustomerEntity) : CustomerRow :=
  mkCustomerRow (k_tenantId k) (k_assignedAgentId k) (k_fullName k) (k_email k) (k_phone k)
    (k_company k) (k_notes k) (k_status k) (Some (k_riskScore k)) (k_riskLabel k)
    (k_metadata k) (k_externalId k) None now now.

Definition customer_save (k : CustomerEntity) : W Tbl CustomerEntity :=
  try_catch (
    now ← get_now;
    _ ← create_row d_customers
          (λ _ r, bool_decide (cu_tenantId r = k_tenantId k)
                  && bool_decide (cu_email r = k_email k))
          (λ db, refers (d_tenants db) (Some (k_tenantId k))
                 && refers (d_users db) (k_assignedAgentId k))
          (k_id k) (customer_row now k);
    lift (customer_toDomain (k_id k) (customer_row now k)))
  (λ error, match error with
            | PrismaError code _ =>
                if bool_decide (code = "P2002")
                then throw (InfrastructureError "Customer email already exists for this tenant")
                else throw (InfrastructureError "Failed to save customer")
            | _ => throw (InfrastructureError "Failed to save customer")
            end).

(** The database refuses to delete a customer its tickets refer to, deletes the links of
    accounts to the customer, and clears the column of activities, notifications, AI results
    and invitations that names the customer. *)
Definition customer_delete (i tenantId : string) : W Tbl unit :=
  or_infrastructure "Failed to delete customer" (
    found ← find_first d_customers
              (λ j r, bool_decide (j = i) && bool_decide (cu_tenantId r = tenantId));
    match found with
    | None => mret ()
    | Some _ =>
        used ← find_first d_tickets (λ _ r, bool_decide (ti_customerId r = i));
        if bool_decide (is_Some used)
        then throw (PrismaError "P2003" "Foreign key constraint failed")
        else
          _ ← delete_many d_customers
                (λ j r, bool_decide (j = i) && bool_decide (cu_tenantId r = tenantId));
          _ ← delete_many d_customerLinks (λ _ l, bool_decide (cl_customerId l = i));
          _ ← update_many d_activities (λ _ a, bool_decide (ac_customerId a = Some i))
                (λ a, a <| ac_customerId := None |>);
          _ ← update_many d_aiResults (λ _ a, bool_decide (ar_customerId a = Some i))
                (λ a, a <| ar_customerId := None |>);
          _ ← update_many d_notifications (λ _ n, bool_decide (nt_customerId n = Some i))
                (λ n, n <| nt_customerId := None |>);
          _ ← update_many d_invitations (λ _ v, bool_decide (iv_customerId v = Some i))
                (λ v, v <| iv_customerId := None |>);
          mret ()
    end).

Definition hasTickets (i tenantId : string) : W Tbl bool :=
  ticket ← find_first d_tickets
             (λ _ r, bool_decide (ti_customerId r = i) && bool_decide (ti_tenantId r = tenantId));
  mret (bool_decide (is_Some ticket)).

Definition existsByEmail (email tenantId : string) : W Tbl bool :=
  n ← count d_customers (λ _ r, bool_decide (cu_email r = toLowerCase email)
                                && bool_decide (cu_tenantId r = tenantId));
  mret (0 <? n).

Definition customer_countByTenantId (tenantId : string) : W Tbl Z :=
  count d_customers (λ _ r, bool_decide (cu_tenantId r = tenantId)).

(** [records.map(r => this.toDomain(r))] *)
Fixpoint customers_toDomain (l : list (string * CustomerRow)) : result error (list CustomerEntity) :=
  match l with
  | [] => Ok []
  | (i, r) :: l => k ← customer_toDomain i r; ks ← customers_toDomain l; Ok (k :: ks)
  end.

Definition findHighRiskCustomers (tenantId : string) : W Tbl (list CustomerEntity) :=
  records ← find_many d_customers
    (λ _ r, bool_decide (cu_tenantId r = tenantId)
            && match cu_riskScore r with Some s => 70 <=? s | None => false end)
    (λ kr, - default 0 (cu_riskScore kr.2)) (Some 50%nat);
  ks ← lift (customers_toDomain records);
  mret (filter (λ k, high_risk_satisfied 70 k = true) ks).

Record CustomerFilters := mkCustomerFilters {
  cf_tenantId : string;
  cf_status : option string;
  cf_assignedAgentId : option string;
  cf_search : option string;
  cf_riskLabel : option string;
  cf_dateFrom : option Z;
  cf_dateTo : option Z;
}.

Definition customer_where (f : CustomerFilters) (_ : string) (r : CustomerRow) : bool :=
  bool_decide (cu_tenantId r = cf_tenantId f)
  && on_string (cf_status f) (λ s, bool_decide (customer_status_string (cu_status r) = s))
  && on_string (cf_assignedAgentId f) (λ a, bool_decide (cu_assignedAgentId r = Some a))
  && on_string (cf_riskLabel f) (λ l, bool_decide (cu_riskLabel r = Some l))
  && on_some (cf_dateFrom f) (λ d, d <=? cu_createdAt r)
  && on_some (cf_dateTo f) (λ d, cu_createdAt r <=? d)
  && on_string (cf_search f) (λ s,
       contains_insensitive (trim s) (cu_fullName r)
       || contains_insensitive (trim s) (cu_email r)
       || match cu_company r with
          | Some c => contains_insensitive (trim s) c
          | None => false
          end).

(** [collate] gives the position of a string in the database's collation. *)
Definition customer_order (collate : string → Z) (sortBy : option string) (asc : bool)
    (kr : string * CustomerRow) : Z :=
  let dir z := if asc then z else - z in
  let r := kr.2 in
  let key := default "createdAt" sortBy in
  if bool_decide (key = "createdAt") then dir (cu_createdAt r)
  else if bool_decide (key = "updatedAt") then dir (cu_updatedAt r)
  else if bool_decide (key = "fullName") then dir (collate (cu_fullName r))
  else if bool_decide (key = "riskScore") then dir (default 8640000000000001 (cu_riskScore r))
  else if bool_decide (key = "lastActivityAt")
  then dir (default 8640000000000001 (cu_lastActivityAt r))
  else - cu_createdAt r.

Definition customer_findAll (collate : string → Z) (f : CustomerFilters)
    (sortBy : option string) (asc : bool) (page limit : Z)
  : W Tbl (PaginatedResult CustomerEntity) :=
  or_infrastructure "Failed to list customers" (
    _ ← (match cf_status f with
         | Some s => if str_truthy s then check_enum CustomerStatus s else mret ()
         | None => mret ()
         end);
    rows ← find_page d_customers (customer_where f) (customer_order collate sortBy asc)
             (λ i r, (i, r)) page limit;
    ks ← lift (customers_toDomain (pg_data rows));
    mret (mkPage ks (pg_total rows) (pg_page rows) (pg_limit rows) (pg_totalPages rows))).
End repositories.

(** ** Pages *)

Section facts.
Context {Tbl : Type → Type} `{!Prisma Tbl}.

Lemma toTotalPages_spec total limit :
  0 < limit → 0 <= total →
  (toTotalPages total limit - 1) * limit < total <= toTotalPages total limit * limit ∨
  total = 0 ∧ toTotalPages total limit = 0.
Proof.
  intros Hl Ht. unfold toTotalPages. destruct (0 <? limit) eqn:E; [|bool_to_prop; lia].
  pose proof (Z.div_mod (- total) limit). pose proof (Z.mod_pos_bound (- total) limit). nia.
Qed.

(** Cutting a list in [p] slices of [n] elements, end to end. *)
Lemma slices_take {A} (l : list A) n p :
  concat (map (λ k, drop ((k - 1) * n) (take (k * n) l)) (seq 1 p)) = take (p * n) l.
Proof.
  induction p as [|p IH]; [done|].
  rewrite seq_S, map_app, concat_app, IH. cbn [map concat]. rewrite app_nil_r.
  replace (1 + p - 1)%nat with p by lia. replace (1 + p)%nat with (S p) by lia.
  rewrite <-(take_drop (p * n) (take (S p * n) l)) at 2. f_equal.
  rewrite take_take. f_equal. lia.
Qed.

Definition page_data {R A} (table : Db Tbl → Tbl R) (where_ : string → R → bool)
    (orderBy : string * R → Z) (toDomain : string → R → A) (limit : Z) (w : World Tbl)
    (page : Z) : list A :=
  match (find_page table where_ orderBy toDomain page limit w).1 with
  | Ok pg => pg_data pg
  | Err _ => []
  end.

Lemma find_page_run {R A} (table : Db Tbl → Tbl R) where_ orderBy (toDomain : string → R → A)
    page limit w :
  let total := Z.of_nat (size (matching where_ (rows_of table w))) in
  find_page table where_ orderBy toDomain page limit w =
  (Ok (mkPage (map (λ '(i, r), toDomain i r)
                 (drop (Z.to_nat (toSkip page limit))
                    (findMany where_ orderBy (Some (Z.to_nat (toSkip page limit + limit)))
                       (table (w_db w)))))
         total page limit (toTotalPages total limit)), w).
Proof.
  cbv zeta. unfold find_page, find_many, gets, mbind, M_bind. rewrite count_run. done.
Qed.

(** ** Runs of the repository calls *)

Lemma or_infrastructure_ok {A} m (work : W Tbl A) w a w' :
  or_infrastructure m work w = (Ok a, w') ↔ work w = (Ok a, w').
Proof.
  unfold or_infrastructure, try_catch, throw. destruct (work w) as [[a'|e] w1]; naive_solver.
Qed.

Lemma ticket_findById_run i tenantId w :
  ticket_findById i tenantId w =
  (Ok (match rows_of d_tickets w !! i with
       | Some r => if bool_decide (ti_tenantId r = tenantId)
                   then Some (ticket_toDomain i r) else None
       | None => None
       end), w).
Proof.
  unfold ticket_findById, mbind, M_bind.
  rewrite (find_first_key d_tickets i (λ r, bool_decide (ti_tenantId r = tenantId))).
  unfold mret, M_ret. by repeat case_match.
Qed.

Lemma check_category_ok c (w : World Tbl) u w' :
  check_category c w = (Ok u, w') →
  w' = w ∧ ∃ k : PrismaTicketCategory, c = enum_string k.
Proof.
  unfold check_category, check_enum. destruct (of_string c) eqn:E; intros H; w_inv.
  split; [done|]. apply of_string_spec in E. eauto.
Qed.

(** Saving a ticket stores its row under its id; nothing else in the state changes. *)
Lemma ticket_save_ok t w t' w' :
  ticket_save t w = (Ok t', w') →
  rows_of d_tickets w !! t_id t = None ∧
  rows_of d_tickets w' = <[t_id t := ticket_row (w_now w) t]> (rows_of d_tickets w) ∧
  t' = ticket_toDomain (t_id t) (ticket_row (w_now w) t) ∧
  ∃ tbl, w' = w <| w_db ::= λ d, d <| d_tickets := tbl |> |>.
Proof.
  unfold ticket_save. rewrite or_infrastructure_ok. intros H. w_inv.
  match goal with E : check_category _ _ = _ |- _ => apply check_category_ok in E as [-> _] end.
  match goal with E : create_row _ _ _ _ _ _ = _ |- _ =>
    pose proof (create_row_ok d_tickets _ _ _ _ _ _ _ E) as (Hn & _ & Hr & _ & Hw) end.
  eauto.
Qed.

Lemma ticket_update_ok t w t' w' :
  ticket_update t w = (Ok t', w') →
  ∃ r, rows_of d_tickets w !! t_id t = Some r ∧
  rows_of d_tickets w' =
    <[t_id t := ticket_update_data (w_now w) t r]> (rows_of d_tickets w) ∧
  t' = ticket_toDomain (t_id t) (ticket_update_data (w_now w) t r) ∧
  ∃ tbl, w' = w <| w_db ::= λ d, d <| d_tickets := tbl |> |>.
Proof.
  unfold ticket_update. rewrite or_infrastructure_ok. intros H. w_inv.
  match goal with E : check_category _ _ = _ |- _ => apply check_category_ok in E as [-> _] end.
  match goal with E : update_one _ _ _ _ = _ |- _ =>
    pose proof (update_one_ok d_tickets _ _ _ _ _ E) as (r & Hr & -> & Hw & Ht) end.
  eauto 10.
Qed.

Lemma or_infrastructure_clean {A} m (work : W Tbl A) : Clean work → Clean (or_infrastructure m work).
Proof.
  intros Hw w e w'. unfold or_infrastructure, try_catch, throw.
  destruct (work w) as [[a|e'] w1] eqn:E; intros H; inv_ok; by eapply Hw.
Qed.

Lemma check_enum_state (T : Type) `{Enum T} v (w : World Tbl) : (check_enum T v w).2 = w.
Proof. unfold check_enum. by case_match. Qed.

Lemma ticket_update_clean t : Clean (ticket_update (Tbl:=Tbl) t).
Proof.
  apply or_infrastructure_clean. apply clean_bind; [done|]. intros now.
  apply clean_bind; [intros; apply check_enum_state|]. intros _.
  apply clean_last; [apply (clean_update_one d_tickets)|done].
Qed.

Lemma ticket_save_clean t : Clean (ticket_save (Tbl:=Tbl) t).
Proof.
  apply or_infrastructure_clean. apply clean_bind; [done|]. intros now.
  apply clean_bind; [intros; apply check_enum_state|]. intros _.
  apply clean_last; [apply (clean_create_row d_tickets)|done].
Qed.

(** Reserving a number always succeeds, advances this tenant's sequence by one, and leaves
    the other sequences and the rest of the database alone. *)
Lemma getNextTicketNumber_run tenantId w :
  let n := default 0 (rows_of d_sequences w !! tenantId) + 1 in
  ∃ w', getNextTicketNumber tenantId w = (Ok n, w') ∧
    rows_of d_sequences w' = <[tenantId := n]> (rows_of d_sequences w) ∧
    ∃ tbl, w' = w <| w_db ::= λ d, d <| d_sequences := tbl |> |>.
Proof.
  cbv zeta. unfold getNextTicketNumber, find_unique, gets, mbind, M_bind.
  rewrite findUnique_rows. fold (rows_of d_sequences w).
  destruct (rows_of d_sequences w !! tenantId) as [n|] eqn:E; cbn [default].
  - destruct (update_one_some d_sequences tenantId (λ n, n + 1) w n E) as [w' E'].
    exists w'. split; [done|].
    apply (update_one_ok d_sequences) in E' as (r & Hr & _ & Hw & Ht). by simplify_eq.
  - unfold create_row, put_table, modify, mbind, M_bind, gets, mret, M_ret. cbn [negb].
    destruct (create_fresh (λ (_ : string) (_ : Z), false) tenantId 1 (d_sequences (w_db w)) E)
      as [t Ht].
    { apply map_eq. intros i. rewrite lookup_empty. apply map_lookup_filter_None. by right. }
    rewrite Ht. eexists; split; [done|]. apply create_rows in Ht as (_ & _ & Ht).
    split; [|eauto]. unfold rows_of. by upd_simpl.
Qed.
End facts.

(** ** Properties *)

Section properties.
Context {Tbl : Type → Type} `{!Prisma Tbl}.

(** C39: A saved ticket is read back, under its own tenant only, with every field it was
    saved with; its pending domain events are not part of what is stored. *)
Theorem ticket_save_roundtrip t (w w' : World Tbl) t' tenantId :
  ticket_save t w = (Ok t', w') →
  ticket_findById (t_id t) tenantId w' =
    (Ok (if bool_decide (t_tenantId t = tenantId) then Some t' else None), w') ∧
  t' = t <| t_base := mkBase (t_id t) (w_now w) (w_now w) [] |>.
Proof.
  intros (Hn & Hr & -> & _)%ticket_save_ok. split; [|by destruct t].
  by rewrite ticket_findById_run, Hr, lookup_insert_eq.
Qed.

(** What [TicketRepository.update] stores.  The row of the ticket takes the entity's
    fields, except that a field the entity has cleared ([undefined]) keeps the column's old
    value; every other ticket is unchanged, and the result is what reading it back gives. *)
Theorem ticket_update_spec t (w w' : World Tbl) t' :
  ticket_update t w = (Ok t', w') →
  ∃ r, rows_of d_tickets w !! t_id t = Some r ∧
    ticket_findById (t_id t) (ti_tenantId r) w' = (Ok (Some t'), w') ∧
    (∀ i, i ≠ t_id t → rows_of d_tickets w' !! i = rows_of d_tickets w !! i) ∧
    t_status t' = t_status t ∧ t_priority t' = t_priority t ∧
    t_title t' = t_title t ∧ t_description t' = t_description t ∧
    t_category t' = t_category t ∧ t_tags t' = t_tags t ∧
    t_isEscalated t' = t_isEscalated t ∧ t_slaBreached t' = t_slaBreached t ∧
    t_assignedAgentId t' = t_assignedAgentId t ∪ ti_assignedAgentId r ∧
    t_escalatedAt t' = t_escalatedAt t ∪ ti_escalatedAt r ∧
    t_escalatedReason t' = t_escalatedReason t ∪ ti_escalatedReason r ∧
    t_resolvedAt t' = t_resolvedAt t ∪ ti_resolvedAt r ∧
    t_closedAt t' = t_closedAt t ∪ ti_closedAt r ∧
    t_firstResponseAt t' = t_firstResponseAt t ∪ ti_firstResponseAt r ∧
    t_dueAt t' = t_dueAt t ∪ ti_dueAt r ∧
    t_tenantId t' = ti_tenantId r ∧ t_ticketNumber t' = ti_ticketNumber r ∧
    t_customerId t' = ti_customerId r.
Proof.
  intros (r & Hr & Hw & -> & _)%ticket_update_ok. exists r.
  assert (∀ (A : Type) (o c : option A), assign_column (Some <$> o) c = o ∪ c) as Hc.
  { intros A [v|] c; simpl; [by rewrite assign_value; destruct c
                            |by rewrite assign_undefined; destruct c]. }
  split; [done|]. split.
  { rewrite ticket_findById_run, Hw, lookup_insert_eq. destruct r; simpl.
    by rewrite bool_decide_eq_true_2. }
  split; [intros i Hi; by rewrite Hw, lookup_insert_ne|].
  destruct r; cbn; rewrite !Hc. by split_and!.
Qed.

(** A sequence of reservations, by the tenants that make them. *)
Fixpoint reserve_all (tenants : list string) : W Tbl (list (string * Z)) :=
  match tenants with
  | [] => mret []
  | t :: tenants =>
      n ← getNextTicketNumber t; rest ← reserve_all tenants; mret ((t, n) :: rest)
  end.

(** Ticket numbers are consecutive and never reused within a tenant, whatever other
    tenants do in between: the numbers a tenant's reservations return continue its
    sequence one by one. *)
Theorem ticket_numbers_consecutive tenants (w : World Tbl) :
  ∃ res w', reserve_all tenants w = (Ok res, w') ∧ res.*1 = tenants ∧
  ∀ t, let mine := filter (λ tn, tn.1 = t) res in
       mine.*2 = map (λ k, default 0 (rows_of d_sequences w !! t) + Z.of_nat k)
                   (seq 1 (length mine)).
Proof.
  revert w. induction tenants as [|t0 tenants IH]; intros w; simpl.
  { by eexists _, w. }
  destruct (getNextTicketNumber_run t0 w) as (w1 & E & Hs & _).
  destruct (IH w1) as (res & w' & E' & Hf & Hall).
  unfold mbind, M_bind. rewrite E, E'. eexists _, w'. split; [done|].
  split; [by rewrite fmap_cons, Hf|]. intros t. specialize (Hall t). cbv zeta in *.
  rewrite Hs in Hall. destruct (decide (t0 = t)) as [->|Hne].
  - rewrite filter_cons_True by done. rewrite lookup_insert_eq in Hall. cbn [default] in Hall.
    cbn [length seq map]. rewrite fmap_cons, Hall, <-(seq_shift _ 1), map_map. cbn [snd]. f_equal.
    apply map_ext. intros k. simpl. lia.
  - rewrite filter_cons_False by done. by rewrite lookup_insert_ne in Hall.
Qed.

(** The breach flag is claimed once.  The call that finds an unflagged ticket of the
    tenant sets the flag and returns true; any later call for it returns false. *)
Theorem markSlaBreached_once i tenantId (w : World Tbl) :
  ∃ b w', repo_markSlaBreached i tenantId w = (Ok b, w') ∧
    (b = true ↔ ∃ r, rows_of d_tickets w !! i = Some r ∧ ti_tenantId r = tenantId ∧
                     ti_slaBreached r = false) ∧
    (∀ j, (ti_slaBreached <$> rows_of d_tickets w' !! j) =
          (λ r, ti_slaBreached r || bool_decide (j = i) && bool_decide (ti_tenantId r = tenantId))
            <$> rows_of d_tickets w !! j) ∧
    ∃ w'', repo_markSlaBreached i tenantId w' = (Ok false, w'').
Proof.
  unfold repo_markSlaBreached. set (p := λ j r, _ && _ && negb (ti_slaBreached r)).
  assert (Hkey : ∀ j r, p j r = true → j = i) by (unfold p; intros; by bool_to_prop).
  set (d := λ r : TicketRow, r <| ti_slaBreached := true |> <| ti_updatedAt := w_now w |>).
  destruct (update_many_run d_tickets p d w) as (n & w' & E & Hn & _).
  pose proof (update_many_rows d_tickets p d w) as Hrows. rewrite E in Hrows. cbn [snd] in Hrows.
  pose proof (update_many_now d_tickets p d w) as Hnow. rewrite E in Hnow. cbn [snd] in Hnow.
  destruct (update_many_run d_tickets p d w') as (n' & w'' & E' & Hn' & _).
  rewrite (size_matching_key p _ i Hkey) in Hn. rewrite (size_matching_key p _ i Hkey) in Hn'.
  eexists _, w'. unfold get_now, gets, mbind, M_bind, mret, M_ret. fold d. rewrite E.
  split; [done|]. rewrite Hnow. fold d.
  split; [|split].
  - rewrite bool_decide_eq_true, Hn. clear -Tbl. split.
    + destruct (rows_of d_tickets w !! i) as [r|]; [|lia]. destruct (p i r) eqn:Hp; [|lia].
      intros _. exists r. unfold p in Hp. by bool_to_prop.
    + intros (r & -> & <- & Hb). unfold p. by rewrite Hb, !bool_decide_eq_true_2.
  - intros j. rewrite Hrows. destruct (rows_of d_tickets w !! j) as [r|]; [|done]. simpl.
    f_equal. unfold p, d. repeat case_bool_decide; destruct r as [? ? ? ? ? ? ? ? ? ? ? ? ? ? ? ? ? ? ? []];
      done.
  - exists w''. rewrite E'. do 2 f_equal. apply bool_decide_eq_false. rewrite Hn', Hrows.
    destruct (rows_of d_tickets w !! i) as [r|]; [|done]. simpl.
    destruct (p i r) eqn:Hp; [|by rewrite Hp].
    replace (p i (d r)) with false; [done|]. unfold p, d. destruct r; simpl. by rewrite andb_false_r.
Qed.

(** Pagination loses and repeats nothing.  Every page of a listing reports the number
    of matching rows and of pages and holds at most [limit] of them; as long as no two
    matching rows share a sort key, the pages from 1 to [totalPages] laid end to end are
    the whole sorted listing. *)
Theorem pages_partition {R A} (table : Db Tbl → Tbl R) where_ orderBy
    (toDomain : string → R → A) limit (w : World Tbl) :
  0 < limit →
  (∀ i r j r', rows_of table w !! i = Some r → where_ i r = true →
     rows_of table w !! j = Some r' → where_ j r' = true →
     orderBy (i, r) = orderBy (j, r') → i = j) →
  let total := Z.of_nat (size (matching where_ (rows_of table w))) in
  let pages := toTotalPages total limit in
  (∀ k, ∃ pg, find_page table where_ orderBy toDomain k limit w = (Ok pg, w) ∧
      pg_total pg = total ∧ pg_totalPages pg = pages ∧
      Z.of_nat (length (pg_data pg)) <= limit) ∧
  concat (map (λ k, page_data table where_ orderBy toDomain limit w (Z.of_nat k))
            (seq 1 (Z.to_nat pages))) =
  map (λ '(i, r), toDomain i r) (findMany where_ orderBy None (table (w_db w))).
Proof.
  intros Hl Hinj total pages. split.
  { intros k. rewrite find_page_run. eexists. split; [done|]. split; [done|]. split; [done|].
    cbn [pg_data]. rewrite length_map, length_drop, findMany_length. unfold toSkip. nia. }
  set (all := findMany where_ orderBy None (table (w_db w))).
  assert (Z.of_nat (length all) = total) as Hlen.
  { unfold all, total. rewrite (pick_all _ _ _ (findMany_rows where_ orderBy None _)).
    by rewrite length_map_to_list. }
  transitivity (concat (map (map (λ '(i, r), toDomain i r))
    (map (λ k, drop ((k - 1) * Z.to_nat limit) (take (k * Z.to_nat limit) all))
       (seq 1 (Z.to_nat pages))))).
  - rewrite map_map. f_equal. apply map_ext_in. intros k Hk%List.in_seq. unfold page_data.
    rewrite find_page_run. cbn [fst pg_data]. rewrite findMany_take by exact Hinj.
    unfold toSkip. do 3 f_equal; nia.
  - rewrite <-concat_map, slices_take. f_equal. apply take_ge.
    destruct (toTotalPages_spec total limit) as [H|H]; unfold pages; nia.
Qed.
End properties.
