(* ===== verification/Accounts.v ===== *)
(** * Repositories of users, tenants and notifications

    [src/infrastructure/database/repositories/{user,tenant,notification}.repository.ts].
    Unlike the ticket repository, [UserRepository.update] writes [null] for a field the
    entity has cleared; [TenantRepository.update] leaves such a field as it was. *)

From Stdlib Require Import Ascii String.
From S2P Require Import Prelude Store Js Errors Domain Ticket Customer Tenant User Notification.
From S2P Require Import Schema World Outbox Logs Frames Repositories.

#[local] Open Scope string_scope.
#[local] Open Scope Z_scope.
#[local] Set Default Proof Using "Type*".

(** [records.map(toDomain)] for a [toDomain] that may throw *)
Fixpoint map_result {R A} (toDomain : string → R → result error A) (l : list (string * R))
  : result error (list A) :=
  match l with
  | [] => Ok []
  | (i, r) :: l => x ← toDomain i r; xs ← map_result toDomain l; Ok (x :: xs)
  end.

Section accounts.
Context {Tbl : Type → Type} `{!Prisma Tbl}.

(** A page whose records are mapped by a function that may throw. *)
Definition find_page_result {R A} (table : Db Tbl → Tbl R) (where_ : string → R → bool)
    (orderBy : string * R → Z) (toDomain : string → R → result error A) (page limit : Z)
  : W Tbl (PaginatedResult A) :=
  found ← find_page table where_ orderBy pair page limit;
  data ← lift (map_result toDomain (pg_data found));
  mret (mkPage data (pg_total found) (pg_page found) (pg_limit found) (pg_totalPages found)).

(** [record ? this.toDomain(record) : null] *)
Definition map_found {R A} (toDomain : string → R → result error A)
    (found : option (string * R)) : W Tbl (option A) :=
  match found with
  | Some (i, r) => x ← lift (toDomain i r); mret (Some x)
  | None => mret None
  end.

(** ** UserRepository *)

Definition user_toDomain (i : string) (r : UserRow) : result error UserEntity :=
  email ← email_create (us_email r);
  Ok (user_reconstitute (mkRt 0 (λ _, "")) i
        (mkUserProps (us_tenantId r) email (us_passwordHash r) (us_firstName r) (us_lastName r)
           (us_role r) (us_status r) (us_avatarUrl r) (us_phone r) (us_timezone r)
           (us_locale r) (us_emailVerifiedAt r) (us_lastLoginAt r) (us_lastLoginIp r)
           (us_failedLoginAttempts r) (us_lockedUntil r) (Some (us_createdAt r))
           (Some (us_updatedAt r)))).

(** [tenantId] is [None] when undefined, [Some None] when null. *)
Definition user_findById (i : string) (tenantId : option (option string))
  : W Tbl (option UserEntity) :=
  found ← find_first d_users
            (λ j r, bool_decide (j = i)
                    && on_some tenantId (λ t, bool_decide (us_tenantId r = t)));
  map_found user_toDomain found.

Definition user_findByEmail (email : string) : W Tbl (option UserEntity) :=
  found ← find_first d_users (λ _ r, bool_decide (us_email r = toLowerCase email));
  map_found user_toDomain found.

(** A filter that is one value or a list of values. *)
Inductive OneOrMany := One (value : string) | Many (values : list string).

Record UserFilters := mkUserFilters {
  uf_tenantId : option (option string);
  uf_role : option OneOrMany;
  uf_status : option OneOrMany;
  uf_search : option string;
}.

(** [if (filter) where.field = …]: the empty string is no filter. *)
Definition on_one_or_many (filter : option OneOrMany) (value : string) : bool :=
  match filter with
  | None => true
  | Some (One v) => negb (str_truthy v) || bool_decide (value = v)
  | Some (Many vs) => bool_decide (value ∈ vs)
  end.

Definition user_where (f : UserFilters) (_ : string) (r : UserRow) : bool :=
  on_some (uf_tenantId f) (λ t, bool_decide (us_tenantId r = t))
  && on_one_or_many (uf_role f) (role_string (us_role r))
  && on_one_or_many (uf_status f) (user_status_string (us_status r))
  && on_string (uf_search f) (λ s,
       contains_insensitive s (us_email r) || contains_insensitive s (us_firstName r)
       || contains_insensitive s (us_lastName r)).

(** The client refuses values the enumeration does not have. *)
Definition check_one_or_many (T : Type) `{Enum T} (filter : option OneOrMany) : W Tbl unit :=
  match filter with
  | None => mret ()
  | Some (One v) => if str_truthy v then check_enum T v else mret ()
  | Some (Many vs) => for_each (check_enum T) vs
  end.

(** [collate] gives the position of a string in the database's collation; an enumeration
    is ordered as it is declared. *)
Definition user_order (collate : string → Z) (sortBy : option string) (asc : bool)
    (kr : string * UserRow) : Z :=
  let dir z := if asc then z else - z in
  let r := kr.2 in
  let key := default "createdAt" sortBy in
  if bool_decide (key = "updatedAt") then dir (us_updatedAt r)
  else if bool_decide (key = "email") then dir (collate (us_email r))
  else if bool_decide (key = "firstName") then dir (collate (us_firstName r))
  else if bool_decide (key = "lastName") then dir (collate (us_lastName r))
  else if bool_decide (key = "role") then dir (enum_index (us_role r))
  else if bool_decide (key = "status") then dir (enum_index (us_status r))
  else dir (us_createdAt r).

Definition user_findAll (collate : string → Z) (f : UserFilters) (sortBy : option string)
    (asc : bool) (page limit : Z) : W Tbl (PaginatedResult UserEntity) :=
  _ ← check_one_or_many UserRole (uf_role f);
  _ ← check_one_or_many UserStatus (uf_status f);
  find_page_result d_users (user_where f) (user_order collate sortBy asc) user_toDomain
    page limit.

Definition user_row (now : Z) (u : UserEntity) : UserRow :=
  mkUserRow (u_tenantId u) (u_email u) (u_passwordHash u) (u_firstName u) (u_lastName u)
    (u_role u) (u_status u) (u_avatarUrl u) (u_phone u) (u_timezone u) (u_locale u)
    (u_emailVerifiedAt u) (u_lastLoginAt u) (u_lastLoginIp u) (u_failedLoginAttempts u)
    (u_lockedUntil u) (JObj []) now now.

(** [tenant ? { connect: { id: tenant } } : …]: the tenant must exist. *)
Definition connect_tenant (tenantId : option string) : W Tbl unit :=
  match tenantId with
  | Some t =>
      if str_truthy t then
        tenant ← find_unique d_tenants t;
        match tenant with
        | Some _ => mret ()
        | None => throw (PrismaError "P2025" "No 'Tenant' record was found for a nested connect.")
        end
      else mret ()
  | None => mret ()
  end.

(** The tenant column the [connect] or [disconnect] writes. *)
Definition tenant_column (tenantId : option string) : option string :=
  if truthy tenantId then tenantId else None.

Definition user_save (u : UserEntity) : W Tbl UserEntity :=
  now ← get_now;
  _ ← connect_tenant (u_tenantId u);
  let row := (user_row now u) <| us_tenantId := tenant_column (u_tenantId u) |> in
  _ ← create_row d_users (λ _ r, bool_decide (us_email r = u_email u)) (λ _, true) (u_id u) row;
  lift (user_toDomain (u_id u) row).

Definition user_update_data (now : Z) (u : UserEntity) (r : UserRow) : UserRow :=
  r <| us_email := u_email u |> <| us_firstName := u_firstName u |>
    <| us_lastName := u_lastName u |> <| us_role := u_role u |> <| us_status := u_status u |>
    <| us_timezone := u_timezone u |> <| us_locale := u_locale u |>
    <| us_failedLoginAttempts := u_failedLoginAttempts u |>
    <| us_tenantId := tenant_column (u_tenantId u) |>
    <| us_passwordHash := u_passwordHash u |> <| us_avatarUrl := u_avatarUrl u |>
    <| us_phone := u_phone u |> <| us_emailVerifiedAt := u_emailVerifiedAt u |>
    <| us_lastLoginAt := u_lastLoginAt u |> <| us_lastLoginIp := u_lastLoginIp u |>
    <| us_lockedUntil := u_lockedUntil u |> <| us_updatedAt := now |>.

Definition user_update (u : UserEntity) : W Tbl UserEntity :=
  now ← get_now;
  _ ← connect_tenant (u_tenantId u);
  clash ← find_first d_users
            (λ j r, negb (bool_decide (j = u_id u)) && bool_decide (us_email r = u_email u));
  match clash with
  | Some _ => throw (PrismaError "P2002" "Unique constraint failed")
  | None =>
      r ← update_one d_users (u_id u) (user_update_data now u);
      lift (user_toDomain (u_id u) r)
  end.

Definition user_countByTenantId (tenantId : string) : W Tbl Z :=
  count d_users (λ _ r, bool_decide (us_tenantId r = Some tenantId)).

Definition user_findByTenantId (tenantId : string) : W Tbl (list UserEntity) :=
  users ← find_many d_users (λ _ r, bool_decide (us_tenantId r = Some tenantId)) (λ _, 0) None;
  lift (map_result user_toDomain users).

Definition user_existsByEmail (email : string) : W Tbl bool :=
  n ← count d_users (λ _ r, bool_decide (us_email r = toLowerCase email));
  mret (0 <? n).

(** ** TenantRepository *)

Definition tenant_toDomain (i : string) (r : TenantRecord) : result error TenantEntity :=
  mapPrismaTenantToEntity (mkRt 0 (λ _, "")) i r.

Definition tenant_findById (i : string) : W Tbl (option TenantEntity) :=
  or_infrastructure "Failed to find tenant by id" (
    record ← find_unique d_tenants i;
    map_found tenant_toDomain (pair i <$> record)).

Definition tenant_findBySlug (slug : string) : W Tbl (option TenantEntity) :=
  or_infrastructure "Failed to find tenant by slug" (
    record ← find_first d_tenants (λ _ r, bool_decide (nr_slug r = slug));
    map_found tenant_toDomain record).

Definition tenant_findByDomain (domain : string) : W Tbl (option TenantEntity) :=
  or_infrastructure "Failed to find tenant by domain" (
    record ← find_first d_tenants (λ _ r, bool_decide (nr_domain r = Some domain));
    map_found tenant_toDomain record).

Record TenantFilters := mkTenantFilters {
  nf_status : option string;
  nf_plan : option string;
  nf_search : option string;
}.

Definition tenant_where (f : TenantFilters) (_ : string) (r : TenantRecord) : bool :=
  on_string (nf_status f) (λ s, bool_decide (nr_status r = s))
  && on_string (nf_plan f) (λ p, bool_decide (nr_plan r = p))
  && on_string (nf_search f) (λ s,
       contains_insensitive s (nr_name r) || contains_insensitive s (nr_slug r)
       || match nr_domain r with Some d => contains_insensitive s d | None => false end).

Definition tenant_findAll (f : TenantFilters) (page limit : Z)
  : W Tbl (PaginatedResult TenantEntity) :=
  or_infrastructure "Failed to list tenants" (
    _ ← match nf_status f with
        | Some s => if str_truthy s then check_enum TenantStatus s else mret ()
        | None => mret ()
        end;
    find_page_result d_tenants (tenant_where f) (λ kr, - nr_createdAt kr.2) tenant_toDomain
      page limit).

Definition tenant_row (now : Z) (n : TenantEntity) : TenantRecord :=
  mkTenantRecord (n_name n) (n_slug n) (tenant_status_string (n_status n)) (n_plan n)
    (n_domain n) (n_logoUrl n) (n_maxAgents n) (n_maxCustomers n) (n_maxTicketsPerDay n)
    (JObj (n_settings n)) (n_suspendedAt n) (n_suspendedReason n) now now.

(** Another tenant has the slug or the domain. *)
Definition tenant_clash (n : TenantEntity) (r : TenantRecord) : bool :=
  bool_decide (nr_slug r = n_slug n)
  || bool_decide (is_Some (n_domain n)) && bool_decide (nr_domain r = n_domain n).

Definition tenant_save (n : TenantEntity) : W Tbl TenantEntity :=
  try_catch (
    now ← get_now;
    _ ← create_row d_tenants (λ _ r, tenant_clash n r) (λ _, true) (n_id n) (tenant_row now n);
    lift (tenant_toDomain (n_id n) (tenant_row now n)))
  (λ error, match error with
            | PrismaError code _ =>
                if bool_decide (code = "P2002")
                then throw (InfrastructureError "Tenant slug or domain already exists")
                else throw (InfrastructureError "Failed to save tenant")
            | _ => throw (InfrastructureError "Failed to save tenant")
            end).

(** [(current?.settings as Record | null)?.featureFlags] *)
Definition stored_flags (current : option TenantRecord) : option Json :=
  current ≫= λ r, get_field "featureFlags" (settings_of (nr_settings r)).

Definition tenant_update_data (now : Z) (settings : list (string * Json)) (n : TenantEntity)
    (r : TenantRecord) : TenantRecord :=
  r <| nr_name := n_name n |> <| nr_status := tenant_status_string (n_status n) |>
    <| nr_plan := n_plan n |>
    <| nr_domain ::= assign_column (Some <$> n_domain n) |>
    <| nr_logoUrl ::= assign_column (Some <$> n_logoUrl n) |>
    <| nr_maxAgents := n_maxAgents n |> <| nr_maxCustomers := n_maxCustomers n |>
    <| nr_maxTicketsPerDay := n_maxTicketsPerDay n |>
    <| nr_settings := JObj settings |>
    <| nr_suspendedAt ::= assign_column (Some <$> n_suspendedAt n) |>
    <| nr_suspendedReason ::= assign_column (Some <$> n_suspendedReason n) |>
    <| nr_updatedAt := now |>.

Definition tenant_update (n : TenantEntity) : W Tbl TenantEntity :=
  or_infrastructure "Failed to update tenant" (
    record ← transaction (
      current ← find_unique d_tenants (n_id n);
      let settings := match stored_flags current with
                      | None => n_settings n
                      | Some flags => spread (n_settings n) [("featureFlags", flags)]
                      end in
      now ← get_now;
      clash ← find_first d_tenants
                (λ j r, negb (bool_decide (j = n_id n))
                        && bool_decide (is_Some (n_domain n))
                        && bool_decide (nr_domain r = n_domain n));
      match clash, current with
      | Some _, Some _ => throw (PrismaError "P2002" "Unique constraint failed")
      | _, _ => update_one d_tenants (n_id n) (tenant_update_data now settings n)
      end);
    lift (tenant_toDomain (n_id n) record)).

Definition existsBySlug (slug : string) : W Tbl bool :=
  n ← count d_tenants (λ _ r, bool_decide (nr_slug r = slug)); mret (0 <? n).
Definition existsByDomain (domain : string) : W Tbl bool :=
  n ← count d_tenants (λ _ r, bool_decide (nr_domain r = Some domain)); mret (0 <? n).
Definition tenant_count : W Tbl Z := count d_tenants (λ _ _, true).

(** ** NotificationRepository *)

Definition notification_toDomain (i : string) (r : NotificationRow) : NotificationEntity :=
  notification_new (mkRt 0 (λ _, "")) i
    (mkNotificationProps (nt_tenantId r) (nt_userId r) (nt_customerId r) (nt_ticketId r)
       (nt_channel r) (notification_status_string (nt_status r)) (nt_subject r)
       (nt_content r) (nt_metadata r) (nt_scheduledAt r) (nt_sentAt r) (nt_deliveredAt r)
       (nt_failedAt r) (nt_failReason r) (nt_retryCount r) (nt_maxRetries r) (nt_readAt r)
       (Some (nt_createdAt r))).

Definition notification_findById (i tenantId : string) : W Tbl (option NotificationEntity) :=
  found ← find_first d_notifications
            (λ j r, bool_decide (j = i) && bool_decide (nt_tenantId r = tenantId));
  mret ((λ '(j, r), notification_toDomain j r) <$> found).

Definition notification_order (sortBy : option string) (asc : bool)
    (kr : string * NotificationRow) : Z :=
  let dir z := if asc then z else - z in
  let date d := dir (default 8640000000000001 d) in
  let r := kr.2 in
  let key := default "createdAt" sortBy in
  if bool_decide (key = "scheduledAt") then date (nt_scheduledAt r)
  else if bool_decide (key = "sentAt") then date (nt_sentAt r)
  else if bool_decide (key = "deliveredAt") then date (nt_deliveredAt r)
  else if bool_decide (key = "failedAt") then date (nt_failedAt r)
  else if bool_decide (key = "readAt") then date (nt_readAt r)
  else if bool_decide (key = "status") then dir (enum_index (nt_status r))
  else if bool_decide (key = "channel") then dir (enum_index (nt_channel r))
  else dir (nt_createdAt r).

Definition findByUser (userId tenantId : string) (read : option bool)
    (sortBy : option string) (asc : bool) (page limit : Z)
  : W Tbl (PaginatedResult NotificationEntity) :=
  find_page d_notifications
    (λ _ r, bool_decide (nt_tenantId r = tenantId) && bool_decide (nt_userId r = Some userId)
            && on_some read (λ b, eqb (bool_decide (is_Some (nt_readAt r))) b))
    (notification_order sortBy asc) notification_toDomain page limit.

Definition notification_row (now : Z) (o : NotificationEntity) : NotificationRow :=
  mkNotificationRow (o_tenantId o) (o_userId o) (o_customerId o) (o_ticketId o) (o_channel o)
    (o_status o) (o_subject o) (o_content o) (o_metadata o) (o_scheduledAt o) (o_sentAt o)
    (o_deliveredAt o) (o_failedAt o) (o_failReason o) (o_retryCount o) (o_maxRetries o)
    (o_readAt o) now.

Definition notification_save (o : NotificationEntity) : W Tbl NotificationEntity :=
  now ← get_now;
  let row := notification_row now o in
  _ ← create_row d_notifications (λ _ _, false)
        (λ db, refers (d_tenants db) (Some (o_tenantId o)) && refers (d_users db) (o_userId o)
               && refers (d_customers db) (o_customerId o)
               && refers (d_tickets db) (o_ticketId o))
        (b_id (o_base o)) row;
  mret (notification_toDomain (b_id (o_base o)) row).

Definition notification_update_data (o : NotificationEntity) (r : NotificationRow)
  : NotificationRow :=
  r <| nt_status := o_status o |>
    <| nt_scheduledAt ::= assign_column (Some <$> o_scheduledAt o) |>
    <| nt_sentAt ::= assign_column (Some <$> o_sentAt o) |>
    <| nt_deliveredAt ::= assign_column (Some <$> o_deliveredAt o) |>
    <| nt_failedAt ::= assign_column (Some <$> o_failedAt o) |>
    <| nt_failReason ::= assign_column (Some <$> o_failReason o) |>
    <| nt_retryCount := o_retryCount o |>
    <| nt_readAt ::= assign_column (Some <$> o_readAt o) |>.

Definition notification_update (o : NotificationEntity) : W Tbl NotificationEntity :=
  r ← update_one d_notifications (b_id (o_base o)) (notification_update_data o);
  mret (notification_toDomain (b_id (o_base o)) r).

Definition read_data (now : Z) (r : NotificationRow) : NotificationRow :=
  r <| nt_readAt := Some now |> <| nt_status := NRead |>.

Definition repo_markAsRead (i tenantId userId : string) : W Tbl unit :=
  now ← get_now;
  _ ← update_many d_notifications
        (λ j r, bool_decide (j = i) && bool_decide (nt_tenantId r = tenantId)
                && bool_decide (nt_userId r = Some userId)) (read_data now);
  mret ().

Definition unread (userId tenantId : string) (_ : string) (r : NotificationRow) : bool :=
  bool_decide (nt_userId r = Some userId) && bool_decide (nt_tenantId r = tenantId)
  && bool_decide (nt_readAt r = None).

Definition markAllAsRead (userId tenantId : string) : W Tbl Z :=
  now ← get_now; update_many d_notifications (unread userId tenantId) (read_data now).

Definition countUnread (userId tenantId : string) : W Tbl Z :=
  count d_notifications (unread userId tenantId).

Definition notification_delete (i tenantId : string) : W Tbl unit :=
  _ ← delete_many d_notifications
        (λ j r, bool_decide (j = i) && bool_decide (nt_tenantId r = tenantId)); mret ().

Definition findDueNotifications (now : option Z) : W Tbl (list NotificationEntity) :=
  clock ← get_now;
  data ← find_many d_notifications
    (λ _ r, bool_decide (nt_status r = NPending)
            && match nt_scheduledAt r with
               | Some t => t <=? default clock now
               | None => false
               end) (λ _, 0) None;
  mret (map (λ '(i, r), notification_toDomain i r) data).
End accounts.
