(* ===== verification/TicketService.v ===== *)
(** * TicketService

    [src/application/ticket/services]: the use cases on tickets and comments.  Aggregate
    writes, activity and audit records and outbox inserts run in one transaction; calls to
    queues and the cache follow its commit.  The event bus is the [OutboxPublisher]. *)

From stdpp Require Import pretty.
From Stdlib Require Import Ascii String QArith.
From S2P Require Import Prelude Store Js Errors Dates Domain Ticket Customer Tenant User.
From S2P Require Import Permissions Schema World Outbox Logs Repositories.

#[local] Open Scope string_scope.
#[local] Open Scope Z_scope.
#[local] Set Default Proof Using "Type*".

(** system-actor.util.ts *)
Definition SYSTEM_ACTOR_ID : string := "system".
Definition toActorUserId (actorId : option string) : option string :=
  if bool_decide (actorId = Some SYSTEM_ACTOR_ID) then None else actorId.

(** ** Data transfer objects *)

Record CreateTicketDto := mkCreateTicketDto {
  ct_tenantId : string;
  ct_customerId : string;
  ct_createdById : string;
  ct_createdByRole : string;
  ct_title : string;
  ct_description : string;
  ct_priority : option string;
  ct_category : option string;
  ct_tags : option (list string);
  ct_source : option string;
  ct_dueAt : option Z;
  ct_assignedAgentId : option string;
}.

Record UpdateTicketDto := mkUpdateTicketDto {
  ut_tenantId : string;
  ut_ticketId : string;
  ut_updatedById : string;
  ut_updatedByRole : string;
  ut_title : option string;
  ut_description : option string;
  ut_priority : option string;
  ut_category : option string;
  ut_tags : option (list string);
  ut_dueAt : option Z;
}.

Record AssignTicketDto := mkAssignTicketDto {
  at_tenantId : string;
  at_ticketId : string;
  at_agentId : string;
  at_assignedById : string;
  at_assignedByRole : string;
}.

Record ChangeStatusDto := mkChangeStatusDto {
  cs_tenantId : string;
  cs_ticketId : string;
  cs_newStatus : string;
  cs_changedById : string;
  cs_changedByRole : string;
}.

Record EscalateTicketDto := mkEscalateTicketDto {
  es_tenantId : string;
  es_ticketId : string;
  es_reason : string;
  es_escalatedById : string;
  es_escalatedByRole : string;
}.

Record AddCommentDto := mkAddCommentDto {
  ac2_tenantId : string;
  ac2_ticketId : string;
  ac2_authorId : string;
  ac2_authorRole : string;
  ac2_content : string;
  ac2_type : CommentType;
}.

Record EditCommentDto := mkEditCommentDto {
  ec_tenantId : string;
  ec_commentId : string;
  ec_authorId : string;
  ec_authorRole : option string;
  ec_content : string;
}.

Record DeleteCommentDto := mkDeleteCommentDto {
  dc_tenantId : string;
  dc_commentId : string;
  dc_authorId : string;
  dc_authorRole : string;
}.

Section service.
Context {Tbl : Type → Type} `{!Prisma Tbl}.

(** [inTransaction] *)
Definition inTransaction {A} (work : W Tbl A) : W Tbl A := transaction work.

Definition publishTicketEvents (t : TicketEntity) : W Tbl unit :=
  enqueueMany (pullDomainEvents (t_base t)).1.

Definition invalidateDashboardCache (tenantId : string) : W Tbl unit :=
  _ ← delPattern ("dashboard:" ++ tenantId ++ ":*");
  delPattern ("analytics:" ++ tenantId ++ ":*").

Definition findAssignableAgentOrThrow (agentId tenantId : string) : W Tbl UserRow :=
  agent ← find_first d_users (λ i u,
    bool_decide (i = agentId) && bool_decide (us_tenantId u = Some tenantId)
    && (bool_decide (us_role u = AGENT) || bool_decide (us_role u = TENANT_MANAGER))
    && bool_decide (us_status u = UActive));
  match agent with
  | Some (_, u) => mret u
  | None => throw (NotFoundError "Agent" (Some agentId))
  end.

Definition getTicketOrThrow (i tenantId : string) : W Tbl TicketEntity :=
  ticket ← ticket_findById i tenantId;
  match ticket with
  | Some t => mret t
  | None => throw (NotFoundError "Ticket" (Some i))
  end.

(** ** createTicket *)

(** Inside the transaction. *)
Definition create_in_transaction (dto : CreateTicketDto) (customer : CustomerEntity)
    (tenant : TenantEntity) : W Tbl (TicketEntity * Z) :=
  ticketNumber ← or_infrastructure "Failed to get next ticket number"
                   (getNextTicketNumber (ct_tenantId dto));
  now ← get_now;
  ticketsCreatedToday ← countCreatedSince (ct_tenantId dto) (startOfUtcDay now);
  if negb (canCreateTicket tenant ticketsCreatedToday)
  then throw (ForbiddenError "Tenant ticket limit has been reached")
  else
    priority ← lift (priority_create (default "MEDIUM" (ct_priority dto)));
    i ← draw;
    dueAt ← (match ct_dueAt dto with
             | Some d => mret d
             | None =>
                 match computeDueAt (priority_string priority) now (Some (n_settings tenant)) with
                 | Some d => mret d
                 | None => throw (InfrastructureError "Failed to save ticket")
                 end
             end);
    rt ← draw_rt 1;
    let ticket := ticket_create rt i
      (mkTicketProps (ct_tenantId dto) ticketNumber (ct_customerId dto)
         (ct_assignedAgentId dto) (ct_createdById dto) (ct_title dto) (ct_description dto)
         OPEN priority (default "GENERAL" (ct_category dto)) (default [] (ct_tags dto))
         (default "web" (ct_source dto)) false None None None None None (Some dueAt) false
         [] None None) in
    saved ← ticket_save ticket;
    _ ← customer_update (recordActivity rt customer);
    _ ← activity_create (mkActivity (ct_tenantId dto) (Some (t_id saved))
          (Some (ct_customerId dto)) (Some (ct_createdById dto)) (Some (ct_createdByRole dto))
          "TICKET_CREATED"
          ("Ticket #" ++ pretty ticketNumber ++ " created: " ++ ct_title dto) None
          (Some [("ticketId", jstr (t_id saved)); ("ticketNumber", jnum ticketNumber);
                 ("title", jstr (ct_title dto))]));
    _ ← audit_create (mkAudit (Some (ct_tenantId dto)) (Some (ct_createdById dto))
          (Some (ct_createdByRole dto)) "CREATE" "tickets" (Some (t_id saved)) None
          (Some [("ticketNumber", jnum ticketNumber); ("title", jstr (ct_title dto));
                 ("status", jstr "OPEN")]) None None []);
    _ ← publishTicketEvents ticket;
    mret (saved, ticketNumber).

(** [AIQueue.add] *)
Definition ai_add (jobType tenantId : string) (ticketId customerId : option string)
    (content : string) (metadata : list (string * Json)) : W Tbl unit :=
  add_jobs [AiJob jobType tenantId ticketId customerId content metadata
              (if bool_decide (jobType = "urgency") then 1 else 5)].

(** [AIQueue.addTicketAnalysis]: three jobs in one call. *)
Definition addTicketAnalysis (ticketId tenantId content : string) : W Tbl unit :=
  add_jobs (map (λ jobType,
      AiJob jobType tenantId (Some ticketId) None content []
        (if bool_decide (jobType = "urgency") then 1 else 5))
    ["categorize"; "sentiment"; "urgency"]).

Definition two_newlines : string := String (of_code 10) (String (of_code 10) "").

Definition createTicket (dto : CreateTicketDto) : W Tbl TicketEntity :=
  customer ← customer_findById (ct_customerId dto) (ct_tenantId dto);
  match customer with
  | None => throw (NotFoundError "Customer" (Some (ct_customerId dto)))
  | Some customer =>
      if isBlocked customer
      then throw (ForbiddenError "Cannot create ticket for blocked customer")
      else
        tenantRecord ← find_unique d_tenants (ct_tenantId dto);
        match tenantRecord with
        | None => throw (NotFoundError "Tenant" (Some (ct_tenantId dto)))
        | Some record =>
            now ← get_now;
            tenant ← lift (mapPrismaTenantToEntity (mkRt now (λ _, "")) (ct_tenantId dto) record);
            _ ← (match ct_assignedAgentId dto with
                 | Some a =>
                     if str_truthy a
                     then (_ ← findAssignableAgentOrThrow a (ct_tenantId dto); mret ())
                     else mret ()
                 | None => mret ()
                 end);
            '(saved, _) ← inTransaction (create_in_transaction dto customer tenant);
            _ ← addTicketAnalysis (t_id saved) (ct_tenantId dto)
                  (ct_title dto ++ two_newlines ++ ct_description dto);
            _ ← invalidateDashboardCache (ct_tenantId dto);
            mret saved
        end
  end.

(** ** updateTicket *)

(** [if (dto.f && dto.f !== ticket.f)]: the new value of a changed string field. *)
Definition changed_string (new_ : option string) (old : string) : option string :=
  match new_ with
  | Some s => if str_truthy s && negb (bool_decide (s = old)) then Some s else None
  | None => None
  end.

(** [if (dto.f !== undefined && dto.f !== ticket.f)] *)
Definition changed_defined (new_ : option string) (old : string) : option string :=
  match new_ with
  | Some s => if bool_decide (s = old) then None else Some s
  | None => None
  end.

Definition jdate (t : Z) : Json := JStr (toISOString t).

(** The fields an update changes, in the order the code collects them, with the entry of
    [oldValues] (left out of the JSON when it is [undefined]) and of [newValues].  The
    entity's other fields are still the old ones when each comparison is made. *)
Definition ticket_changes (dto : UpdateTicketDto) (ticket : TicketEntity)
  : list (string * (option Json * Json)) :=
  let entry key (o : option string) (old : string) :=
    match o with Some v => [(key, (Some (JStr old), JStr v))] | None => [] end in
  (entry "priority" (changed_string (ut_priority dto) (priority_string (t_priority ticket)))
     (priority_string (t_priority ticket))
   ++ entry "category" (changed_string (ut_category dto) (t_category ticket))
        (t_category ticket)
   ++ entry "title" (changed_defined (ut_title dto) (t_title ticket)) (t_title ticket)
   ++ entry "description" (changed_defined (ut_description dto) (t_description ticket))
        (t_description ticket)
   ++ match ut_tags dto with
      | Some tags => [("tags", (Some (jstrs (t_tags ticket)), jstrs tags))]
      | None => []
      end
   ++ match ut_dueAt dto with
      | Some d => if bool_decide (t_dueAt ticket = Some d) then []
                  else [("dueAt", (jdate <$> t_dueAt ticket, jdate d))]
      | None => []
      end)%list.

(** The entity updates of [updateTicket]. *)
Definition ticket_apply_update (dto : UpdateTicketDto) (ticket : TicketEntity)
  : result error TicketEntity :=
  t ← match changed_string (ut_priority dto) (priority_string (t_priority ticket)) with
      | Some p => priority ← priority_create p; Ok (updatePriority priority ticket)
      | None => Ok ticket
      end;
  t ← match changed_string (ut_category dto) (t_category ticket) with
      | Some c => updateCategory c t
      | None => Ok t
      end;
  updateDetails (mkTicketDetails (ut_title dto) (ut_description dto) (ut_tags dto)
                   (ut_dueAt dto)) t.

Definition update_event_type (changed : list string) : string :=
  match changed with
  | ["priority"] => "TICKET_PRIORITY_CHANGED"
  | ["category"] => "TICKET_CATEGORY_CHANGED"
  | _ => "TICKET_UPDATED"
  end.

Definition updateTicket (dto : UpdateTicketDto) : W Tbl TicketEntity :=
  ticket ← getTicketOrThrow (ut_ticketId dto) (ut_tenantId dto);
  if negb (ticket_isActive ticket)
  then throw (domain_error "Cannot update a closed or resolved ticket")
  else
    let changes := ticket_changes dto ticket in
    let oldValues := omap (λ '(k, (o, _)), pair k <$> o) changes in
    let newValues := map (λ '(k, (_, n)), (k, n)) changes in
    ticket ← lift (ticket_apply_update dto ticket);
    updated ← inTransaction (
      updated ← ticket_update ticket;
      match changes with
      | [] => mret updated
      | _ =>
          _ ← activity_create (mkActivity (ut_tenantId dto) (Some (ut_ticketId dto)) None
                (Some (ut_updatedById dto)) (Some (ut_updatedByRole dto))
                (update_event_type changes.*1)
                ("Ticket updated: " ++ join ", " changes.*1)
                (Some oldValues) (Some newValues));
          _ ← audit_create (mkAudit (Some (ut_tenantId dto)) (Some (ut_updatedById dto))
                (Some (ut_updatedByRole dto)) "UPDATE" "tickets" (Some (ut_ticketId dto))
                (Some oldValues) (Some newValues) None None []);
          mret updated
      end);
    _ ← invalidateDashboardCache (ut_tenantId dto);
    mret updated.

(** ** assignTicket, changeStatus, escalateTicket *)

Definition assignTicket (dto : AssignTicketDto) : W Tbl TicketEntity :=
  ticket ← getTicketOrThrow (at_ticketId dto) (at_tenantId dto);
  agent ← findAssignableAgentOrThrow (at_agentId dto) (at_tenantId dto);
  if negb (canAssign ticket (role_string (us_role agent)))
  then throw (ForbiddenError "This ticket cannot be assigned to the selected user")
  else
    let previousAgentId := t_assignedAgentId ticket in
    rt ← draw_rt 1;
    let ticket := assign rt (at_agentId dto) (at_assignedById dto) ticket in
    updated ← inTransaction (
      updated ← ticket_update ticket;
      _ ← activity_create (mkActivity (at_tenantId dto) (Some (at_ticketId dto)) None
            (Some (at_assignedById dto)) (Some (at_assignedByRole dto))
            (if truthy previousAgentId then "TICKET_REASSIGNED" else "TICKET_ASSIGNED")
            ("Ticket assigned to " ++ us_firstName agent ++ " " ++ us_lastName agent)
            (match previousAgentId with
             | Some p => if str_truthy p then Some [("agentId", jstr p)] else None
             | None => None
             end)
            (Some [("agentId", jstr (at_agentId dto))]));
      _ ← audit_create (mkAudit (Some (at_tenantId dto)) (Some (at_assignedById dto))
            (Some (at_assignedByRole dto)) "ASSIGN" "tickets" (Some (at_ticketId dto)) None
            (Some [("agentId", jstr (at_agentId dto))]) None None []);
      _ ← publishTicketEvents ticket;
      mret updated);
    _ ← invalidateDashboardCache (at_tenantId dto);
    mret updated.

(** [TicketService.changeStatus] *)
Definition service_changeStatus (dto : ChangeStatusDto) : W Tbl TicketEntity :=
  ticket ← getTicketOrThrow (cs_ticketId dto) (cs_tenantId dto);
  let oldStatus := status_string (t_status ticket) in
  newStatus ← lift (status_create (cs_newStatus dto));
  rt ← draw_rt 2;
  ticket ← lift (if isResolved newStatus then resolve rt (cs_changedById dto) ticket
                 else changeStatus rt newStatus (cs_changedById dto) ticket);
  updated ← inTransaction (
    updated ← ticket_update ticket;
    _ ← activity_create (mkActivity (cs_tenantId dto) (Some (cs_ticketId dto)) None
          (Some (cs_changedById dto)) (Some (cs_changedByRole dto)) "TICKET_STATUS_CHANGED"
          ("Status changed from " ++ oldStatus ++ " to " ++ cs_newStatus dto)
          (Some [("status", jstr oldStatus)]) (Some [("status", jstr (cs_newStatus dto))]));
    _ ← audit_create (mkAudit (Some (cs_tenantId dto)) (Some (cs_changedById dto))
          (Some (cs_changedByRole dto)) "UPDATE" "tickets" (Some (cs_ticketId dto))
          (Some [("status", jstr oldStatus)]) (Some [("status", jstr (cs_newStatus dto))])
          None None []);
    _ ← publishTicketEvents ticket;
    mret updated);
  _ ← invalidateDashboardCache (cs_tenantId dto);
  _ ← (if isResolved newStatus
       then ai_add "summarize" (cs_tenantId dto) (Some (cs_ticketId dto)) None
              (t_title ticket ++ two_newlines ++ t_description ticket) []
       else mret ());
  mret updated.

Definition escalateTicket (dto : EscalateTicketDto) : W Tbl TicketEntity :=
  ticket ← getTicketOrThrow (es_ticketId dto) (es_tenantId dto);
  if negb (canEscalate ticket)
  then throw (domain_error "Ticket cannot be escalated in its current state")
  else
    rt ← draw_rt 1;
    ticket ← lift (escalate rt (es_reason dto) (es_escalatedById dto) ticket);
    updated ← inTransaction (
      updated ← ticket_update ticket;
      now ← get_now;
      _ ← activity_create (mkActivity (es_tenantId dto) (Some (es_ticketId dto)) None
            (toActorUserId (Some (es_escalatedById dto))) (Some (es_escalatedByRole dto))
            "TICKET_ESCALATED" ("Ticket escalated: " ++ es_reason dto) None
            (Some [("reason", jstr (es_reason dto)); ("escalatedAt", jdate now)]));
      _ ← audit_create (mkAudit (Some (es_tenantId dto))
            (toActorUserId (Some (es_escalatedById dto))) (Some (es_escalatedByRole dto))
            "ESCALATE" "tickets" (Some (es_ticketId dto)) None
            (Some [("reason", jstr (es_reason dto))]) None None []);
      _ ← publishTicketEvents ticket;
      mret updated);
    _ ← invalidateDashboardCache (es_tenantId dto);
    mret updated.

(** ** Comments *)

(** [TicketCommentWithAuthor]: the response of [addComment]. *)
Record TicketCommentWithAuthor := mkCommentWithAuthor {
  cw_comment : TicketCommentEntity;
  cw_createdAt : Z;
  cw_updatedAt : Z;
  cw_authorId : string;
  cw_firstName : string;
  cw_lastName : string;
  cw_role : UserRole;
  cw_avatarUrl : option string;
}.

Definition addComment (dto : AddCommentDto) : W Tbl TicketCommentWithAuthor :=
  ticket ← getTicketOrThrow (ac2_ticketId dto) (ac2_tenantId dto);
  author ← find_unique d_users (ac2_authorId dto);
  match author with
  | None => throw (NotFoundError "User" (Some (ac2_authorId dto)))
  | Some author =>
      if bool_decide (ac2_authorRole dto = "CUSTOMER") && bool_decide (ac2_type dto = INTERNAL)
      then throw (ForbiddenError "Customers cannot add internal notes")
      else
        commentId ← draw;
        rt ← draw_rt 1;
        let commentEntity := comment_create rt commentId
          (mkCommentProps (ac2_tenantId dto) (ac2_ticketId dto) (ac2_authorId dto)
             (ac2_content dto) (comment_type_string (ac2_type dto)) false None None [] None
             None) in
        _ ← inTransaction (
          _ ← comment_save commentEntity;
          ticket ← (if bool_decide (ac2_authorRole dto = "CUSTOMER")
                       && bool_decide (t_status ticket = PENDING_CUSTOMER)
                    then rt ← draw_rt 1;
                         ticket ← lift (changeStatus rt IN_PROGRESS (ac2_authorId dto) ticket);
                         _ ← ticket_update ticket;
                         mret ticket
                    else mret ticket);
          _ ← activity_create (mkActivity (ac2_tenantId dto) (Some (ac2_ticketId dto)) None
                (Some (ac2_authorId dto)) (Some (ac2_authorRole dto)) "COMMENT_ADDED"
                ((if bool_decide (ac2_type dto = INTERNAL) then "Internal note" else "Comment")
                 ++ " added by " ++ us_firstName author) None
                (Some [("commentId", jstr commentId);
                       ("type", jstr (comment_type_string (ac2_type dto)))]));
          _ ← publishTicketEvents ticket;
          enqueueMany (pullDomainEvents (c_base commentEntity)).1);
        now ← get_now;
        _ ← (if bool_decide (ac2_type dto = PUBLIC)
             then ai_add "sentiment" (ac2_tenantId dto) (Some (ac2_ticketId dto))
                    None (ac2_content dto)
                    [("commentId", jstr commentId); ("authorRole", jstr (ac2_authorRole dto))]
             else mret ());
        mret (mkCommentWithAuthor commentEntity now now (ac2_authorId dto)
                (us_firstName author) (us_lastName author) (us_role author)
                (us_avatarUrl author))
  end.

Definition editComment (dto : EditCommentDto) : W Tbl TicketCommentEntity :=
  comment ← comment_findById (ec_commentId dto) (ec_tenantId dto);
  match comment with
  | None => throw (NotFoundError "Comment" (Some (ec_commentId dto)))
  | Some comment =>
      if negb (bool_decide (c_authorId comment = ec_authorId dto))
      then throw (ForbiddenError "You can only edit your own comments")
      else
        ticket ← getTicketOrThrow (c_ticketId comment) (ec_tenantId dto);
        if negb (ticket_isActive ticket)
        then throw (domain_error "Cannot edit comments on a closed or resolved ticket")
        else
          rt ← draw_rt 0;
          comment ← lift (comment_edit rt (ec_content dto) comment);
          inTransaction (
            updated ← comment_update comment;
            _ ← activity_create (mkActivity (ec_tenantId dto) (Some (c_ticketId comment)) None
                  (Some (ec_authorId dto)) (ec_authorRole dto) "COMMENT_EDITED"
                  "Comment was edited" None
                  (Some [("commentId", jstr (b_id (c_base comment)))]));
            mret updated)
  end.

Definition deleteComment (dto : DeleteCommentDto) : W Tbl unit :=
  comment ← comment_findById (dc_commentId dto) (dc_tenantId dto);
  match comment with
  | None => throw (NotFoundError "Comment" (Some (dc_commentId dto)))
  | Some comment =>
      if negb (bool_decide (c_authorId comment = dc_authorId dto))
         && negb (bool_decide (dc_authorRole dto = "PLATFORM_ADMIN"))
         && negb (bool_decide (dc_authorRole dto = "TENANT_MANAGER"))
      then throw (ForbiddenError "You do not have permission to delete this comment")
      else
        ticket ← getTicketOrThrow (c_ticketId comment) (dc_tenantId dto);
        if negb (ticket_isActive ticket)
           && negb (bool_decide (dc_authorRole dto = "PLATFORM_ADMIN"))
        then throw (domain_error "Cannot delete comments on a closed or resolved ticket")
        else
          inTransaction (
            _ ← comment_delete (dc_commentId dto) (dc_tenantId dto);
            activity_create (mkActivity (dc_tenantId dto) (Some (c_ticketId comment)) None
              (Some (dc_authorId dto)) (Some (dc_authorRole dto)) "COMMENT_DELETED"
              "Comment was deleted"
              (Some [("commentId", jstr (b_id (c_base comment)))]) None))
  end.

(** ** Reads *)

Definition getTicket (i tenantId : string) : W Tbl TicketEntity := getTicketOrThrow i tenantId.

Definition listTickets (f : TicketFilters) (sortBy : option string) (asc : bool)
    (page limit : Z) : W Tbl (PaginatedResult TicketEntity) :=
  ticket_findAll f sortBy asc page limit.

Definition getTicketHistory (ticketId tenantId : string) (page limit : Z)
  : W Tbl (PaginatedResult ActivityRow) :=
  _ ← getTicketOrThrow ticketId tenantId;
  findByTicket ticketId tenantId page limit.

(** ** TicketAccessService *)

Record TicketActor := mkActor {
  ta_id : string;
  ta_role : string;
  ta_email : string;
  ta_tenantId : string;
}.

(** Restrictions applied to ticket listings for an actor. *)
Record TicketListScope := mkScope {
  sc_assignedAgentId : option string;
  sc_customerId : option string;
  sc_none : bool;
}.

Definition resolveViewer (actor : TicketActor) : W Tbl TicketViewer :=
  if negb (bool_decide (ta_role actor = "CUSTOMER"))
  then mret (mkViewer (ta_id actor) (ta_role actor) None)
  else
    link ← find_first d_customerLinks (λ i r,
      bool_decide (i = ta_id actor) && bool_decide (cl_tenantId r = ta_tenantId actor));
    mret (mkViewer (ta_id actor) (ta_role actor) ((λ kr, cl_customerId kr.2) <$> link)).

Definition assertCanAccess (actor : TicketActor) (ticketId : string) : W Tbl TicketEntity :=
  ticket ← ticket_findById ticketId (ta_tenantId actor);
  match ticket with
  | None => throw (NotFoundError "Ticket" (Some ticketId))
  | Some ticket =>
      viewer ← resolveViewer actor;
      if negb (canView viewer (t_assignedAgentId ticket) (t_customerId ticket))
      then throw (ForbiddenError "You do not have access to this ticket")
      else mret ticket
  end.

Definition listScope (actor : TicketActor) : W Tbl TicketListScope :=
  if bool_decide (ta_role actor = "TENANT_MANAGER") then mret (mkScope None None false)
  else if bool_decide (ta_role actor = "AGENT")
  then mret (mkScope (Some (ta_id actor)) None false)
  else if bool_decide (ta_role actor = "CUSTOMER") then
    viewer ← resolveViewer actor;
    mret (if truthy (tv_customerId viewer)
          then mkScope None (tv_customerId viewer) false
          else mkScope None None true)
  else mret (mkScope None None true).

(** ** TicketController: the requests that decide who sees what *)

(** [listTicketsQuerySchema]: the [isEscalated] query parameter goes through
    [z.string().optional().transform((v) => v === 'true')], which runs on an absent
    parameter too. *)
Definition query_isEscalated (v : option string) : bool := bool_decide (v = Some "true").

(** [findAll]: the filters of the request under the restrictions of the actor's scope. *)
Definition scope_filters (scope : TicketListScope) (f : TicketFilters) : TicketFilters :=
  mkTicketFilters (tf_tenantId f) (tf_status f) (tf_priority f) (tf_category f)
    (match sc_assignedAgentId scope with Some a => Some a | None => tf_assignedAgentId f end)
    (match sc_customerId scope with Some c => Some c | None => tf_customerId f end)
    (tf_isEscalated f) (tf_slaBreached f) (tf_dateFrom f) (tf_dateTo f) (tf_search f)
    (tf_tags f).

Definition controller_findAll (actor : TicketActor) (f : TicketFilters)
    (isEscalated sortBy : option string) (asc : bool) (page limit : Z)
  : W Tbl (PaginatedResult TicketEntity) :=
  scope ← listScope actor;
  if sc_none scope then mret (mkPage [] 0 page limit (toTotalPages 0 limit))
  else
    let f := mkTicketFilters (ta_tenantId actor) (tf_status f) (tf_priority f) (tf_category f)
               (tf_assignedAgentId f) (tf_customerId f) (Some (query_isEscalated isEscalated))
               None (tf_dateFrom f) (tf_dateTo f) (tf_search f) (tf_tags f) in
    listTickets (scope_filters scope f) sortBy asc page limit.

(** The customer record a CUSTOMER user acts for. *)
Definition requireOwnCustomerId (actor : TicketActor) : W Tbl string :=
  viewer ← resolveViewer actor;
  match tv_customerId viewer with
  | Some c => if str_truthy c then mret c
              else throw (ForbiddenError "Your account is not linked to a customer record")
  | None => throw (ForbiddenError "Your account is not linked to a customer record")
  end.

(** The validated body of [POST /tickets]. *)
Record CreateTicketBody := mkCreateTicketBody {
  cb_customerId : option string;
  cb_title : string;
  cb_description : string;
  cb_priority : string;
  cb_category : string;
  cb_tags : list string;
  cb_source : string;
  cb_assignedAgentId : option string;
  cb_dueAt : option Z;
}.

(** [create]: customers file tickets for their own record and cannot set triage fields. *)
Definition controller_create (actor : TicketActor) (body : CreateTicketBody)
  : W Tbl TicketEntity :=
  let isCustomer := bool_decide (ta_role actor = "CUSTOMER") in
  customerId ← (if isCustomer then c ← requireOwnCustomerId actor; mret (Some c)
                else mret (cb_customerId body));
  match customerId with
  | Some c =>
      if str_truthy c then
        createTicket (mkCreateTicketDto (ta_tenantId actor) c (ta_id actor) (ta_role actor)
          (cb_title body) (cb_description body)
          (if isCustomer then None else Some (cb_priority body)) (Some (cb_category body))
          (Some (cb_tags body)) (Some (cb_source body))
          (if isCustomer then None else cb_dueAt body)
          (if isCustomer then None else cb_assignedAgentId body))
      else throw (validation_error "Customer ID is required for staff tickets")
  | None => throw (validation_error "Customer ID is required for staff tickets")
  end.

(** [authorizeTicket] runs before every [/:id] route. *)
Definition controller_findOne (actor : TicketActor) (ticketId : string) : W Tbl TicketEntity :=
  _ ← assertCanAccess actor ticketId;
  getTicket ticketId (ta_tenantId actor).

Definition controller_getHistory (actor : TicketActor) (ticketId : string) (page limit : Z)
  : W Tbl (PaginatedResult ActivityRow) :=
  _ ← assertCanAccess actor ticketId;
  getTicketHistory ticketId (ta_tenantId actor) page limit.

Definition controller_addComment (actor : TicketActor) (ticketId content : string)
    (type : CommentType) : W Tbl TicketCommentWithAuthor :=
  _ ← assertCanAccess actor ticketId;
  addComment (mkAddCommentDto (ta_tenantId actor) ticketId (ta_id actor) (ta_role actor)
                content type).
End service.
