(* ===== verification/Members.v ===== *)
(** * Organizations and their members

    [src/application/tenant/services/tenant.service.ts],
    [src/application/user/services/user.service.ts] and [staff-lifecycle.service.ts]: the
    life of an organization, profiles and roles of its users, and agents leaving.  Except
    for the removal of an agent, a use case writes in separate statements; the event bus is
    the [OutboxPublisher] and sessions are revoked through [TokenService]. *)

From Stdlib Require Import Ascii String QArith.
From S2P Require Import Prelude Store Js Errors Domain Ticket Tenant User Schema World.
From S2P Require Import Outbox Logs Tokens Frames Repositories Accounts TicketService.

#[local] Open Scope string_scope.
#[local] Open Scope Z_scope.
#[local] Set Default Proof Using "Type*".

(** ** Commands *)

Record CreateTenantCommand := mkCreateTenantCommand {
  tc_actorId : string;
  tc_actorRole : string;
  tc_name : string;
  tc_slug : option string;
  tc_domain : option string;
  tc_plan : option string;
  tc_maxAgents : option Z;
  tc_maxCustomers : option Z;
}.

Record UpdateTenantCommand := mkUpdateTenantCommand {
  tu_tenantId : string;
  tu_actorId : string;
  tu_actorRole : string;
  tu_details : TenantDetails;
  tu_settings : option (list (string * Json));
}.

Record SuspendTenantCommand := mkSuspendTenantCommand {
  ts_tenantId : string;
  ts_actorId : string;
  ts_actorRole : string;
  ts_reason : string;
}.

Record RestoreTenantCommand := mkRestoreTenantCommand {
  tr_tenantId : string;
  tr_actorId : string;
  tr_actorRole : string;
}.

Record UpdateProfileDto := mkUpdateProfileDto {
  pf_userId : string;
  pf_tenantId : option string;
  pf_firstName : option string;
  pf_lastName : option string;
  pf_avatarUrl : option string;
  pf_phone : option string;
  pf_timezone : option string;
  pf_locale : option string;
}.

Record ChangeRoleDto := mkChangeRoleDto {
  cr_userId : string;
  cr_targetUserId : string;
  cr_tenantId : option string;
  cr_newRole : string;
  cr_actorRole : string;
}.

Section members.
Context {Tbl : Type → Type} `{!Prisma Tbl}.

(** [eventBus.publishAll(aggregate.pullDomainEvents())] *)
Definition publish_events (b : Base) : W Tbl unit := enqueueMany (pullDomainEvents b).1.

(** ** TenantService *)

Definition createTenant (command : CreateTenantCommand) : W Tbl TenantEntity :=
  slug ← lift (slug_create (default (tc_name command) (tc_slug command)));
  taken ← existsBySlug slug;
  if taken : bool then throw (ConflictError "Organization slug already taken")
  else
    registered ← (match tc_domain command with
                  | Some d => if str_truthy d then existsByDomain d else mret false
                  | None => mret false
                  end);
    if registered : bool then throw (ConflictError "Domain already registered")
    else
      i ← draw;
      rt ← draw_rt 1;
      let tenant := tenant_create rt i
        (mkTenantProps (tc_name command) slug TTrial (default "starter" (tc_plan command))
           (tc_domain command) None (default 5 (tc_maxAgents command))
           (default 1000 (tc_maxCustomers command)) 500 [] None None None None) in
      saved ← tenant_save tenant;
      _ ← audit_create (mkAudit None (toActorUserId (Some (tc_actorId command)))
            (Some (tc_actorRole command)) "CREATE" "tenants" (Some (n_id saved)) None
            (Some [("name", jstr (tc_name command)); ("slug", jstr slug)]) None None []);
      _ ← publish_events (n_base tenant);
      mret saved.

Definition getTenantOrThrow (i : string) : W Tbl TenantEntity :=
  tenant ← tenant_findById i;
  match tenant with
  | Some tenant => mret tenant
  | None => throw (NotFoundError "Tenant" (Some i))
  end.

Definition updateTenant (command : UpdateTenantCommand) : W Tbl TenantEntity :=
  tenant ← getTenantOrThrow (tu_tenantId command);
  let d := tu_details command in
  registered ← (match nd_domain d with
                | Some domain =>
                    if str_truthy domain && negb (bool_decide (nd_domain d = n_domain tenant))
                    then existsByDomain domain else mret false
                | None => mret false
                end);
  if registered : bool then throw (ConflictError "Domain already registered")
  else
    let tenant := updateSettings (default [] (tu_settings command))
                    (tenant_updateDetails d tenant) in
    updated ← tenant_update tenant;
    _ ← audit_create (mkAudit (Some (tu_tenantId command))
          (toActorUserId (Some (tu_actorId command))) (Some (tu_actorRole command)) "UPDATE"
          "tenants" (Some (tu_tenantId command)) None
          (Some (opt_field "name" (nd_name d) ++ opt_field "domain" (nd_domain d)
                 ++ opt_field "plan" (nd_plan d) ++ opt_num "maxAgents" (nd_maxAgents d)
                 ++ opt_num "maxCustomers" (nd_maxCustomers d)
                 ++ opt_num "maxTicketsPerDay" (nd_maxTicketsPerDay d)
                 ++ match tu_settings command with
                    | Some s => [("settings", JObj s)] | None => [] end)%list) None None []);
    mret updated.

Definition suspendTenant (command : SuspendTenantCommand) : W Tbl TenantEntity :=
  tenant ← getTenantOrThrow (ts_tenantId command);
  rt ← draw_rt 1;
  tenant ← lift (suspend rt (ts_reason command) tenant);
  updated ← tenant_update tenant;
  _ ← revokeAllTenantTokens (ts_tenantId command) "TENANT_SUSPENDED";
  _ ← audit_create (mkAudit (Some (ts_tenantId command))
        (toActorUserId (Some (ts_actorId command))) (Some (ts_actorRole command)) "SUSPEND"
        "tenants" (Some (ts_tenantId command)) None
        (Some [("reason", jstr (ts_reason command))]) None None []);
  _ ← publish_events (n_base tenant);
  mret updated.

Definition restoreTenant (command : RestoreTenantCommand) : W Tbl TenantEntity :=
  tenant ← getTenantOrThrow (tr_tenantId command);
  updated ← tenant_update (tenant_activate tenant);
  _ ← audit_create (mkAudit (Some (tr_tenantId command))
        (toActorUserId (Some (tr_actorId command))) (Some (tr_actorRole command)) "RESTORE"
        "tenants" (Some (tr_tenantId command)) None None None None []);
  mret updated.

Definition getTenant (tenantId : string) : W Tbl TenantEntity := getTenantOrThrow tenantId.

Definition listTenants (f : TenantFilters) (page limit : Z)
  : W Tbl (PaginatedResult TenantEntity) := tenant_findAll f page limit.

(** ** UserService *)

(** An undefined tenant is no condition. *)
Definition getUser (i : string) (tenantId : option string) : W Tbl UserEntity :=
  user ← user_findById i (Some <$> tenantId);
  match user with
  | Some user => mret user
  | None => throw (NotFoundError "User" (Some i))
  end.

Definition listUsers (collate : string → Z) (f : UserFilters) (sortBy : option string)
    (asc : bool) (page limit : Z) : W Tbl (PaginatedResult UserEntity) :=
  user_findAll collate f sortBy asc page limit.

Definition service_updateProfile (dto : UpdateProfileDto) : W Tbl UserEntity :=
  user ← getUser (pf_userId dto) (pf_tenantId dto);
  let user := updateProfile
    (mkProfileInput (pf_firstName dto) (pf_lastName dto) (Some <$> pf_avatarUrl dto)
       (Some <$> pf_phone dto) (pf_timezone dto) (pf_locale dto)) user in
  updated ← user_update user;
  _ ← audit_create (mkAudit (pf_tenantId dto) (Some (pf_userId dto))
        (Some (role_string (u_role user))) "UPDATE" "users" (Some (u_id user)) None
        (Some (opt_field "firstName" (pf_firstName dto)
               ++ opt_field "lastName" (pf_lastName dto))%list) None None []);
  _ ← publish_events (u_base user);
  mret updated.

Definition service_changeRole (dto : ChangeRoleDto) : W Tbl UserEntity :=
  targetUser ← getUser (cr_targetUserId dto) (cr_tenantId dto);
  newRole ← lift (role_create (cr_newRole dto));
  let previousRole := u_role targetUser in
  match role_assignment_evaluate
          (mkParty (cr_userId dto) (cr_actorRole dto) (cr_tenantId dto))
          (mkParty (u_id targetUser) (role_string (u_role targetUser)) (u_tenantId targetUser))
          (role_string newRole) with
  | Refused reason => throw (ForbiddenError reason)
  | Allowed =>
      rt ← draw_rt 1;
      let targetUser := changeRole rt newRole (Some (cr_userId dto)) (Some (cr_actorRole dto))
                          targetUser in
      updated ← user_update targetUser;
      _ ← (if negb (bool_decide (previousRole = u_role updated))
           then revokeAllUserTokens (u_id targetUser) "ROLE_CHANGED" else mret ());
      _ ← audit_create
            (mkAudit (match cr_tenantId dto with
                      | Some t => Some t | None => u_tenantId targetUser end)
               (Some (cr_userId dto)) (Some (cr_actorRole dto)) "ROLE_CHANGE" "users"
               (Some (u_id targetUser)) (Some [("role", jstr (role_string previousRole))])
               (Some [("role", jstr (cr_newRole dto))]) None None []);
      _ ← publish_events (u_base targetUser);
      mret updated
  end.

(** ** StaffLifecycleService *)

(** [findFirst({ where: { id, tenantId, role: 'AGENT' } })], of any or of active status *)
Definition find_agent (i tenantId : string) (active : bool) : W Tbl (option (string * UserRow)) :=
  find_first d_users
    (λ j r, bool_decide (j = i)
            && (bool_decide (us_tenantId r = Some tenantId) && bool_decide (us_role r = AGENT)
                && (negb active || bool_decide (us_status r = UActive)))).

(** [metadata && typeof metadata === 'object' && !Array.isArray(metadata) && 'removedAt' in metadata] *)
Definition removed (metadata : Json) : bool :=
  match metadata with
  | JObj fields => bool_decide (is_Some (get_field "removedAt" fields))
  | _ => false
  end.

Definition staff_status_data (now : Z) (active : bool) (u : UserRow) : UserRow :=
  u <| us_status := if active then UActive else UInactive |> <| us_updatedAt := now |>.

Definition setActive (tenantId actorId userId : string) (active : bool) : W Tbl unit :=
  if bool_decide (actorId = userId)
  then throw (ForbiddenError "You cannot change your own status")
  else
    target ← find_agent userId tenantId false;
    match target with
    | None => throw (NotFoundError "Agent" (Some userId))
    | Some (i, target) =>
        if active && removed (us_metadata target)
        then throw (ConflictError "Removed agents cannot be reactivated")
        else
          now ← get_now;
          _ ← update_one d_users i (staff_status_data now active);
          _ ← (if negb active then revokeAllUserTokens i "ACCOUNT_DISABLED" else mret ());
          audit_create (mkAudit (Some tenantId) (Some actorId) None "UPDATE" "users" (Some i)
            None (Some [("status", jstr (if active then "ACTIVE" else "INACTIVE"))])
            None None [])
    end.

(** [updateMany] of a foreign key: the rows it touches must refer to a row. *)
Definition update_many_refs {R} (table : Db Tbl → Tbl R) {U : Update table}
    (refs : Db Tbl → bool) (p : string → R → bool) (data : R → R) : W Tbl Z :=
  ok ← gets (λ w, refs (w_db w));
  n ← count table p;
  if negb ok && (0 <? n) then throw (PrismaError "P2003" "Foreign key constraint failed")
  else update_many table p data.

(** The tickets an agent leaves behind: the open ones. *)
Definition open_ticket_of (tenantId agentId : string) (_ : string) (r : TicketRow) : bool :=
  bool_decide (ti_tenantId r = tenantId) && bool_decide (ti_assignedAgentId r = Some agentId)
  && negb (bool_decide (ti_status r = RESOLVED)) && negb (bool_decide (ti_status r = CLOSED)).

Definition removed_data (now : Z) (target : UserRow) (u : UserRow) : UserRow :=
  u <| us_status := UInactive |>
    <| us_metadata := JObj (spread (settings_of (us_metadata target))
                              [("removedAt", jstr (toISOString now))]) |>
    <| us_updatedAt := now |>.

Definition remove_in_transaction (tenantId userId : string) (replacement : option string)
    (target : UserRow) : W Tbl unit :=
  now ← get_now;
  _ ← update_many_refs d_tickets (λ db, refers (d_users db) replacement)
        (open_ticket_of tenantId userId)
        (λ r, r <| ti_assignedAgentId := replacement |> <| ti_updatedAt := now |>);
  _ ← update_many_refs d_customers (λ db, refers (d_users db) replacement)
        (λ _ c, bool_decide (cu_tenantId c = tenantId)
                && bool_decide (cu_assignedAgentId c = Some userId))
        (λ c, c <| cu_assignedAgentId := replacement |> <| cu_updatedAt := now |>);
  _ ← delete_many d_memberships
        (λ _ m, bool_decide (me_userId m = userId) && bool_decide (me_tenantId m = tenantId));
  _ ← update_one d_users userId (removed_data now target);
  mret ().

(** [StaffLifecycleService.remove]; the empty string is no replacement, and the columns
    take [replacementAgentId ?? null]. *)
Definition remove_agent (tenantId actorId userId : string) (replacement : option string)
  : W Tbl unit :=
  if bool_decide (actorId = userId) then throw (ForbiddenError "You cannot remove yourself")
  else if bool_decide (replacement = Some userId)
  then throw (ConflictError "Replacement must be another agent")
  else
    target ← find_agent userId tenantId false;
    match target with
    | None => throw (NotFoundError "Agent" (Some userId))
    | Some (_, target) =>
        found ← (match replacement with
                 | Some a => if str_truthy a
                             then (r ← find_agent a tenantId true; mret (bool_decide (is_Some r)))
                             else mret true
                 | None => mret true
                 end);
        if negb found then throw (NotFoundError "Active replacement agent" replacement)
        else
          _ ← transaction (remove_in_transaction tenantId userId replacement target);
          _ ← revokeAllUserTokens userId "ACCOUNT_REMOVED";
          audit_create (mkAudit (Some tenantId) (Some actorId) None "DELETE" "users"
            (Some userId) None None None None
            [("replacementAgentId", match replacement with Some a => jstr a | None => JNull end)])
    end.
End members.
