(* ===== verification/MembersFacts.v ===== *)
(** * What the use cases on organizations and members achieve

    Suspending an organization, removing an agent and changing a role: the rows they
    write, the sessions they end, and what they leave alone. *)

From Stdlib Require Import Ascii String QArith.
From S2P Require Import Prelude Store Js Errors Domain Ticket Tenant User Schema World.
From S2P Require Import Outbox Logs Tokens Frames Repositories Accounts TicketService Members.

#[local] Open Scope string_scope.
#[local] Open Scope Z_scope.
#[local] Set Default Proof Using "Type*".

#[local] Notation tokens w := (rows_of d_refreshTokens w).
#[local] Notation users w := (rows_of d_users w).
#[local] Notation tenants w := (rows_of d_tenants w).
#[local] Notation tickets w := (rows_of d_tickets w).

Section facts.
Context {Tbl : Type → Type} `{!Prisma Tbl}.
Implicit Types (w : World Tbl).

Lemma tenant_update_ok n w t' w' :
  w_inTransaction w = false → tenant_update n w = (Ok t', w') →
  ∃ r settings, tenants w !! n_id n = Some r ∧
    tenants w' = <[n_id n := tenant_update_data (Tbl:=Tbl) (w_now w) settings n r]> (tenants w) ∧
    tenant_toDomain (n_id n) (tenant_update_data (Tbl:=Tbl) (w_now w) settings n r) = Ok t'.
Proof.
  intros Hin H. unfold tenant_update in H. rewrite or_infrastructure_ok in H. inv_ok.
  unfold lift in H. inv_ok.
  apply transaction_inv in H0 as (w0 & w1 & E & Hd & Hn & _ & Hd' & _); [|done].
  assert (∃ settings, update_one d_tenants (n_id n)
            (tenant_update_data (w_now w0) settings n) w0 = (Ok a, w1)) as [settings Hu].
  { inv_ok. unfold find_unique, get_now, gets in *. inv_ok.
    match goal with F : find_first _ _ _ = _ |- _ => apply find_first_state in F as -> end.
    case_match; [case_match; [done|]|]; eauto. }
  apply (update_one_ok d_tenants) in Hu as (r & Hr & -> & Hrows & _).
  unfold rows_of in *. rewrite Hd in Hr. rewrite Hd', Hrows, Hd, Hn in *. eauto.
Qed.

Lemma getTenantOrThrow_found i w t w' :
  getTenantOrThrow i w = (Ok t, w') →
  w' = w ∧ ∃ r, tenants w !! i = Some r ∧ tenant_toDomain i r = Ok t.
Proof.
  unfold getTenantOrThrow, tenant_findById. intros H. inv_ok.
  rewrite or_infrastructure_ok in H0. inv_ok. w_inv. unfold map_found in *.
  destruct (rows _ !! i) eqn:E; simpl in *; w_inv; eauto.
Qed.
Lemma tenant_toDomain_fields i r t :
  tenant_toDomain i r = Ok t →
  n_id t = i ∧ tenant_status_string (n_status t) = nr_status r ∧
  n_suspendedAt t = nr_suspendedAt r ∧ n_suspendedReason t = nr_suspendedReason r.
Proof.
  unfold tenant_toDomain, mapPrismaTenantToEntity. intros H. inv_ok. cbn.
  split_and!; try done. unfold tenant_status_create in *. inv_ok. by match goal with E : of_string _ = _ |- _ => apply of_string_spec in E end.
Qed.

Lemma revokeAllTenantTokens_complete i reason w x w' j tok u :
  revokeAllTenantTokens i reason w = (Ok x, w') → tokens w' !! j = Some tok →
  users w' !! rt_userId tok = Some u → us_tenantId u = Some i → rt_isRevoked tok = true.
Proof.
  unfold revokeAllTenantTokens, gets. intros H Hj Hu Ht. w_inv.
  match goal with E : revoke_where _ _ _ = _ |- _ =>
    apply revoke_where_ok in E as (_ & Hus & _ & _ & Hr) end.
  rewrite Hr in Hj. destruct (tokens _ !! j) as [r0|]; [|done]. simpl in Hj.
  injection Hj as <-. destruct (rt_isRevoked r0) eqn:E; simpl in *; [by rewrite andb_false_r|].
  rewrite andb_true_r in *. rewrite findUnique_rows in *. case_bool_decide as Hb; [by destruct r0|].
  unfold rows_of in *. rewrite Hus in Hu. destruct Hb. by rewrite Hu.
Qed.

Lemma suspend_ok rt reason n n' :
  suspend rt reason n = Ok n' →
  n_status n ≠ TSuspended ∧ n_id n' = n_id n ∧ n_status n' = TSuspended ∧
  n_suspendedAt n' = Some (now rt) ∧ n_suspendedReason n' = Some reason.
Proof.
  unfold suspend. case_bool_decide; [done|]. intros E. injection E as <-.
  destruct n as [[]]. by cbn in *.
Qed.

Lemma tenant_update_data_fields now st n r :
  let r' := tenant_update_data (Tbl:=Tbl) now st n r in
  nr_status r' = tenant_status_string (n_status n) ∧ nr_slug r' = nr_slug r ∧
  nr_suspendedAt r' = (match n_suspendedAt n with Some t => Some t | None => nr_suspendedAt r end) ∧
  nr_suspendedReason r' =
    (match n_suspendedReason n with Some s => Some s | None => nr_suspendedReason r end).
Proof.
  unfold tenant_update_data. destruct r; cbn.
  destruct (n_suspendedAt n), (n_suspendedReason n); cbn;
    rewrite ?assign_value, ?assign_undefined; done.
Qed.

(** Suspending an organization takes effect at once, and for everyone in it: the row is
    suspended with the reason given, every refresh token of its users is revoked, and
    none of its users passes the account check that every request and every token refresh
    makes.  Other organizations are not touched. *)
Theorem suspension_ends_sessions c w t' w' :
  w_inTransaction w = false → ts_tenantId c ≠ "" → suspendTenant c w = (Ok t', w') →
  (∃ r r', tenants w !! ts_tenantId c = Some r ∧ nr_status r ≠ "SUSPENDED" ∧
     tenants w' = <[ts_tenantId c := r']> (tenants w) ∧ nr_status r' = "SUSPENDED" ∧
     nr_suspendedReason r' = Some (ts_reason c) ∧ nr_suspendedAt r' = Some (w_now w)) ∧
  (∀ j tok u, tokens w' !! j = Some tok → users w' !! rt_userId tok = Some u →
     us_tenantId u = Some (ts_tenantId c) → rt_isRevoked tok = true) ∧
  (∀ u, us_tenantId u = Some (ts_tenantId c) → usable (w_now w') (tenants w') u = false).
Proof.
  intros Hin Hid H. unfold suspendTenant in H. inv_ok.
  apply getTenantOrThrow_found in H0 as (-> & r & Hr & Ht).
  apply tenant_toDomain_fields in Ht as (Hi & Hst & _ & _).
  unfold draw_rt, lift, mret, M_ret in *. inv_ok.
  match goal with E : suspend _ _ _ = Ok _ |- _ =>
    apply suspend_ok in E as (Hns & Hi' & Hst' & Hat & Hwhy) end.
  match goal with E : tenant_update _ _ = _ |- _ =>
    apply tenant_update_ok in E as (r0 & st & Hr0 & Hrows & _); [|by upd_simpl] end.
  keep_all (λ w : World Tbl, d_tenants (w_db w)). keep_all (λ w : World Tbl, d_users (w_db w)).
  keep_all (λ w : World Tbl, d_refreshTokens (w_db w)).
  cbv beta in *. unfold rows_of in *. upd_simpl in Hr0. upd_simpl in Hrows.
  destruct (tenant_update_data_fields (w_now w) st a1 r0) as (Fs & _ & Fa & Fr).
  rewrite Hst' in Fs. rewrite Hat in Fa. rewrite Hwhy in Fr. rewrite Hi', Hi in *.
  assert (rows (d_tenants (w_db w')) =
    <[ts_tenantId c := tenant_update_data (Tbl:=Tbl) (w_now w) st a1 r0]>
      (rows (d_tenants (w_db w)))) as Hw by congruence.
  split_and!.
  - exists r, (tenant_update_data (Tbl:=Tbl) (w_now w) st a1 r0). split_and!; try done.
    rewrite <-Hst. by destruct (n_status a).
  - intros j tok u Hj Hu Hten. eapply (revokeAllTenantTokens_complete _ _ _ _ _ j tok u);
      [eassumption| | |exact Hten]; unfold rows_of; congruence.
  - intros u Hten. unfold usable. rewrite Hten, Hw, lookup_insert_eq, Fs.
    destruct (ts_tenantId c); [done|]. simpl. by rewrite andb_false_r.
Qed.

(** Restoring an organization makes it active again, but leaves the date and the reason of
    the suspension in its row: the entity clears them, and a cleared field is left out of
    the update. *)
Theorem restored_tenant_keeps_suspension c w t' w' :
  w_inTransaction w = false → restoreTenant c w = (Ok t', w') →
  ∃ r r', tenants w !! tr_tenantId c = Some r ∧
    tenants w' = <[tr_tenantId c := r']> (tenants w) ∧ nr_status r' = "ACTIVE" ∧
    nr_suspendedAt r' = nr_suspendedAt r ∧ nr_suspendedReason r' = nr_suspendedReason r ∧
    n_suspendedAt t' = nr_suspendedAt r.
Proof.
  intros Hin H. unfold restoreTenant in H. inv_ok. unfold mret, M_ret in *. inv_ok.
  apply getTenantOrThrow_found in H0 as (-> & r & Hr & Ht).
  apply tenant_toDomain_fields in Ht as (Hi & _).
  match goal with E : tenant_update _ _ = _ |- _ =>
    apply tenant_update_ok in E as (r0 & st & Hr0 & Hrows & Hd); [|done] end.
  keep_all (λ w : World Tbl, d_tenants (w_db w)). cbv beta in *. unfold rows_of in *.
  apply tenant_toDomain_fields in Hd as (_ & _ & Ha & _).
  destruct (tenant_update_data_fields (w_now w) st (tenant_activate a) r0) as (Fs & _ & Fa & Fr).
  assert (n_id (tenant_activate a) = tr_tenantId c) as Hid by (by destruct a).
  rewrite Hid in *.
  assert (r0 = r) as -> by congruence.
  exists r, (tenant_update_data (Tbl:=Tbl) (w_now w) st (tenant_activate a) r).
  assert (n_suspendedAt (tenant_activate a) = None) as E1 by (by destruct a).
  assert (n_suspendedReason (tenant_activate a) = None) as E2 by (by destruct a).
  assert (n_status (tenant_activate a) = TActive) as E3 by (by destruct a).
  rewrite E1 in Fa. rewrite E2 in Fr. rewrite E3 in Fs. split_and!; first [exact Fs|congruence].
Qed.

(** ** Agents leaving *)

Lemma update_many_refs_ok {R} (table : Db Tbl → Tbl R) {U : Update table}
    {G : GetUpdate table} refs p d w n w' :
  update_many_refs table refs p d w = (Ok n, w') →
  ∀ i, rows_of table w' !! i = (λ r, if p i r then d r else r) <$> rows_of table w !! i.
Proof.
  unfold update_many_refs, gets. intros H i. inv_ok. match goal with E : count _ _ _ = _ |- _ => rewrite count_run in E end. inv_ok.
  case_match; [done|]. pose proof (update_many_rows table p d s0 i) as Hr.
  by rewrite H in Hr.
Qed.

Lemma find_agent_ok i tenantId active w j r w' :
  find_agent i tenantId active w = (Ok (Some (j, r)), w') →
  w' = w ∧ j = i ∧ users w !! i = Some r ∧ us_tenantId r = Some tenantId ∧
  us_role r = AGENT ∧ (active = true → us_status r = UActive).
Proof.
  unfold find_agent. intros H. apply find_first_some in H as (-> & Hr & Hp).
  bool_to_prop. subst. split_and!; try done. intros ->. simpl in *; by bool_to_prop.
Qed.

Definition agent_gone (tenantId userId : string) (w : World Tbl) : Prop :=
  (∀ i r, tickets w !! i = Some r → open_ticket_of tenantId userId i r = false) ∧
  (∀ i r, rows_of d_customers w !! i = Some r → cu_tenantId r = tenantId →
     cu_assignedAgentId r ≠ Some userId) ∧
  (∀ i r, rows_of d_memberships w !! i = Some r → me_userId r = userId →
     me_tenantId r ≠ tenantId).

Lemma reassigned_not_open tenantId userId replacement now i r :
  replacement ≠ Some userId →
  open_ticket_of tenantId userId i
    (if open_ticket_of tenantId userId i r
     then r <| ti_assignedAgentId := replacement |> <| ti_updatedAt := now |> else r) = false.
Proof.
  intros Hne. destruct (open_ticket_of tenantId userId i r) eqn:E; [|done].
  unfold open_ticket_of. destruct r; cbn. rewrite (bool_decide_eq_false_2 (replacement = _)) by done.
  by rewrite andb_false_r.
Qed.

Lemma remove_in_transaction_ok tenantId userId replacement target w u w' :
  replacement ≠ Some userId →
  remove_in_transaction tenantId userId replacement target w = (Ok u, w') →
  agent_gone tenantId userId w' ∧
  (∃ r, users w !! userId = Some r ∧
     users w' = <[userId := removed_data (w_now w) target r]> (users w)) ∧
  (∀ i r, tickets w !! i = Some r →
     ∃ r', tickets w' !! i = Some r' ∧
       ti_assignedAgentId r' = if open_ticket_of tenantId userId i r then replacement
                               else ti_assignedAgentId r).
Proof.
  intros Hne H. unfold remove_in_transaction, get_now, gets in H. inv_ok.
  unfold mret, M_ret in H. inv_ok.
  keep_all (λ w : World Tbl, d_tickets (w_db w)).
  keep_all (λ w : World Tbl, d_customers (w_db w)).
  keep_all (λ w : World Tbl, d_memberships (w_db w)).
  keep_all (λ w : World Tbl, d_users (w_db w)). cbv beta in *.
  match goal with T : update_many_refs d_tickets _ _ _ _ = _,
    C : update_many_refs d_customers _ _ _ _ = _, M : delete_many _ _ _ = _,
    A : update_one _ _ _ _ = _ |- _ =>
      pose proof (update_many_refs_ok d_tickets _ _ _ _ _ _ T) as Ht;
      pose proof (update_many_refs_ok d_customers _ _ _ _ _ _ C) as Hc;
      pose proof (delete_many_ok d_memberships _ _ _ _ M) as Hm;
      apply (update_one_ok d_users) in A as (u0 & Hu & _ & Hus & _)
  end.
  unfold agent_gone, rows_of in *.
  replace (d_tickets (w_db w')) with (d_tickets (w_db s0)) by congruence.
  replace (d_customers (w_db w')) with (d_customers (w_db s1)) by congruence.
  replace (d_memberships (w_db w')) with (d_memberships (w_db s2)) by congruence.
  replace (d_users (w_db s2)) with (d_users (w_db s)) in * by congruence.
  split_and!; [| | |by eauto|].
  - intros i r. rewrite Ht. intros (r0 & _ & ->)%fmap_Some. by apply reassigned_not_open.
  - intros i r. rewrite Hc. intros (r0 & _ & ->)%fmap_Some. case_match eqn:E; bool_to_prop.
    + by destruct r0.
    + intros Hten Hag. by rewrite !bool_decide_eq_true_2 in E.
  - intros i r. rewrite Hm. intros (r0 & _ & Hr)%bind_Some Hu1 Hu2.
    case_match eqn:E; [done|]. injection Hr as ->. by rewrite !bool_decide_eq_true_2 in E.
  - intros i r Hi. rewrite Ht, Hi. eexists. split; [done|].
    case_match; [|done]. by destruct r.
Qed.

Lemma find_agent_run i tenantId active w :
  find_agent i tenantId active w =
  (Ok (match users w !! i with
       | Some r => if bool_decide (us_tenantId r = Some tenantId) && bool_decide (us_role r = AGENT)
                      && (negb active || bool_decide (us_status r = UActive))
                   then Some (i, r) else None
       | None => None
       end), w).
Proof. apply (find_first_key d_users). Qed.

Lemma removed_after metadata at_ :
  removed (JObj (spread (settings_of metadata) [("removedAt", jstr at_)])) = true.
Proof.
  unfold removed. rewrite bool_decide_eq_true. unfold spread. simpl.
  induction (settings_of metadata) as [|[k v] l IH]; simpl; [eauto|].
  case_bool_decide as Hk; simpl.
  - rewrite bool_decide_eq_true_2 by done. destruct (get_field _ l); eauto.
  - destruct IH as [x IH]. rewrite IH. eauto.
Qed.

Lemma agent_gone_frame tenantId userId w w' :
  tickets w' = tickets w → rows_of d_customers w' = rows_of d_customers w →
  rows_of d_memberships w' = rows_of d_memberships w →
  agent_gone tenantId userId w → agent_gone tenantId userId w'.
Proof. unfold agent_gone. by intros -> -> ->. Qed.

Lemma replacement_found tenantId replacement w b s :
  match replacement with
  | Some a => if str_truthy a
              then (r ← find_agent a tenantId true; mret (bool_decide (is_Some r)))
              else mret true
  | None => mret true
  end w = (Ok b, s) → b = true →
  s = w ∧ ∀ a, replacement = Some a → a ≠ "" →
    ∃ r, users w !! a = Some r ∧ us_tenantId r = Some tenantId ∧ us_role r = AGENT ∧
      us_status r = UActive.
Proof.
  intros H ->. destruct replacement as [a|]; [|unfold mret, M_ret in H; by inv_ok].
  destruct (str_truthy a) eqn:Ha; unfold mret, M_ret in H.
  - inv_ok. destruct a0 as [[j r]|]; [|by case_bool_decide as E; [destruct E|]].
    match goal with E : find_agent _ _ _ _ = _ |- _ =>
      apply find_agent_ok in E as (-> & -> & Hr & Ht & Hro & Hac) end.
    split; [done|]. intros a1 [= <-] _. eauto 10.
  - inv_ok. split; [done|]. intros a1 [= <-] Hne. by destruct a.
Qed.

(** C19: Removing an agent leaves nothing behind: no open ticket and no customer of the
    organization is assigned to the agent any more (the open tickets went to the
    replacement, an active agent of the same organization other than the one removed, or to
    nobody), no membership is left, the account is inactive and marked as removed, every
    session is revoked, and nobody else's account changed.  As long as the account stays as
    it is now, the activation of agents refuses it.  (Verifying an e-mail address would set
    it active without looking at the mark; nothing in the program issues tokens for that.) *)
Theorem removed_agent_leaves_nothing tenantId actorId userId replacement w w' :
  w_inTransaction w = false →
  remove_agent tenantId actorId userId replacement w = (Ok tt, w') →
  agent_gone tenantId userId w' ∧
  (∀ i r, tickets w !! i = Some r →
     ∃ r', tickets w' !! i = Some r' ∧
       ti_assignedAgentId r' = if open_ticket_of tenantId userId i r then replacement
                               else ti_assignedAgentId r) ∧
  (∀ a, replacement = Some a → a ≠ "" →
     a ≠ userId ∧ ∃ r, users w' !! a = Some r ∧ us_tenantId r = Some tenantId ∧
       us_role r = AGENT ∧ us_status r = UActive) ∧
  (∀ j tok, tokens w' !! j = Some tok → rt_userId tok = userId → rt_isRevoked tok = true) ∧
  (∃ r, users w' = <[userId := r]> (users w) ∧ us_status r = UInactive ∧
     removed (us_metadata r) = true) ∧
  (∀ actor w'', actor ≠ userId → users w'' !! userId = users w' !! userId →
     setActive tenantId actor userId true w'' =
       (Err (ConflictError "Removed agents cannot be reactivated"), w'')).
Proof.
  intros Hin H. unfold remove_agent in H.
  case_bool_decide as Hself; [done|]. case_bool_decide as Hrep; [done|]. inv_ok.
  destruct a as [[j target]|]; [|done].
  match goal with E : find_agent _ _ _ _ = _ |- _ =>
    apply find_agent_ok in E as (-> & -> & Htarget & Hten & Hrole & _) end.
  inv_ok. case_match; [done|]. bool_to_prop.
  match goal with E : match replacement with _ => _ end _ = _ |- _ =>
    apply replacement_found in E as [-> Hfound]; [|done] end.
  inv_ok.
  match goal with E : transaction _ _ = _ |- _ =>
    apply transaction_inv in E as (w0 & w1 & E & Hd & _ & _ & Hd1 & _); [|done];
    apply remove_in_transaction_ok in E as (Hgone & (r0 & Hr0 & Hus) & Htk); [|done] end.
  keep_all (λ w : World Tbl, d_tickets (w_db w)).
  keep_all (λ w : World Tbl, d_customers (w_db w)).
  keep_all (λ w : World Tbl, d_memberships (w_db w)).
  keep_all (λ w : World Tbl, d_users (w_db w)).
  keep_all (λ w : World Tbl, d_refreshTokens (w_db w)). cbv beta in *.
  set (r' := removed_data (w_now w0) target r0) in *.
  assert (users w' = <[userId := r']> (users w)) as Hu by (unfold rows_of in *; congruence).
  assert (tickets w' = tickets w1) as Ht by (unfold rows_of; congruence).
  assert (us_tenantId r' = Some tenantId ∧ us_role r' = AGENT ∧ us_status r' = UInactive
          ∧ removed (us_metadata r') = true) as (F1 & F2 & F3 & F4).
  { assert (r0 = target) as Heq by (unfold rows_of in *; rewrite Hd in Hr0; congruence).
    pose proof (removed_after (us_metadata target) (toISOString (w_now w0))) as Hrem.
    subst r'. rewrite Heq. destruct target. split_and!; [exact Hten|exact Hrole|done|exact Hrem]. }
  split_and!.
  - eapply agent_gone_frame; [..|exact Hgone]; unfold rows_of; congruence.
  - intros i r Hi. rewrite Ht. apply Htk. unfold rows_of in *. by rewrite Hd.
  - intros b -> Hb. assert (b ≠ userId) as Hbu by congruence. split; [done|].
    rewrite Hu, lookup_insert_ne by done. by apply Hfound.
  - intros j tok Hj Htok. eapply (revokeAll_complete _ _ _ _ _ j tok); [eassumption| |done].
    unfold rows_of in *. congruence.
  - eauto.
  - intros actor w'' Hactor Hw. unfold setActive. rewrite bool_decide_eq_false_2 by done.
    unfold mbind, M_bind. rewrite find_agent_run, Hw, Hu, lookup_insert_eq, F1, F2.
    rewrite !bool_decide_eq_true_2 by done. simpl. by rewrite F4.
Qed.

(** ** Roles *)

Lemma user_update_ok u w u' w' :
  user_update u w = (Ok u', w') →
  ∃ r, users w !! u_id u = Some r ∧
    users w' = <[u_id u := user_update_data (w_now w) u r]> (users w) ∧
    user_toDomain (u_id u) (user_update_data (w_now w) u r) = Ok u'.
Proof.
  unfold user_update, get_now, gets, lift. intros H. inv_ok.
  assert (s0 = s) as ->.
  { match goal with E : connect_tenant _ _ = _ |- _ =>
      unfold connect_tenant in E; clear -E; w_inv; done end. }
  match goal with E : find_first _ _ _ = _ |- _ => apply find_first_state in E as -> end.
  case_match; [done|]. inv_ok.
  match goal with E : update_one _ _ _ _ = _ |- _ =>
    apply (update_one_ok d_users) in E as (r & Hr & -> & Hrows & _) end.
  eauto.
Qed.

Lemma user_toDomain_fields i r u :
  user_toDomain i r = Ok u →
  u_id u = i ∧ u_role u = us_role r ∧ u_tenantId u = us_tenantId r ∧
  u_passwordHash u = us_passwordHash r ∧ u_status u = us_status r.
Proof. unfold user_toDomain. intros H. inv_ok. by cbn. Qed.

Lemma getUser_found i tenantId w u w' :
  getUser i tenantId w = (Ok u, w') →
  w' = w ∧ ∃ r, users w !! i = Some r ∧ user_toDomain i r = Ok u ∧
    ∀ t, tenantId = Some t → us_tenantId r = Some t.
Proof.
  unfold getUser, user_findById. intros H. inv_ok. case_match; [|done].
  unfold mret, M_ret in *. inv_ok.
  match goal with E : find_first _ _ _ = (Ok ?o, _) |- _ =>
    destruct o as [[j r]|]; [apply find_first_some in E as (-> & Hr & Hp)|];
    unfold map_found, lift in *; inv_ok end; [|done].
  bool_to_prop. subst. unfold mret, M_ret in *. inv_ok. split; [done|].
  exists r. split_and!; [done|congruence|]. intros t ->. simpl in *. by bool_to_prop.
Qed.

Lemma changeRole_fields rt nr b c u :
  u_role (changeRole rt nr b c u) = nr ∧ u_id (changeRole rt nr b c u) = u_id u.
Proof.
  unfold changeRole. case_bool_decide as E.
  - split; [|done]. by apply (enum_inj (T:=UserRole)).
  - by destruct u as [[]].
Qed.

Lemma assignable_roles role :
  role_string role ∈ TENANT_MANAGER_ASSIGNABLE → role = AGENT ∨ role = CUSTOMER.
Proof. destruct role; intros H; try (by eauto); apply (bool_decide_unpack _) in H || idtac; set_solver. Qed.

(** Changing a role: nobody changes their own; the PLATFORM_ADMIN role is granted by
    platform administrators only, to a user without an organization; anyone else who
    changes a role is a tenant manager, acts on a member of their own organization, and
    moves them between AGENT and CUSTOMER only.  The row has the new role, no other row
    changed, and a user whose role changed has no session left. *)
Theorem role_change_safe dto w u' w' :
  service_changeRole dto w = (Ok u', w') →
  ∃ r r' newRole, users w !! cr_targetUserId dto = Some r ∧
    role_create (cr_newRole dto) = Ok newRole ∧
    users w' = <[cr_targetUserId dto := r']> (users w) ∧ us_role r' = newRole ∧
    cr_userId dto ≠ cr_targetUserId dto ∧
    (newRole = PLATFORM_ADMIN →
       cr_actorRole dto = "PLATFORM_ADMIN" ∧ truthy (us_tenantId r) = false) ∧
    (cr_actorRole dto ≠ "PLATFORM_ADMIN" →
       cr_actorRole dto = "TENANT_MANAGER" ∧ us_tenantId r = cr_tenantId dto ∧
       (us_role r = AGENT ∨ us_role r = CUSTOMER) ∧ (newRole = AGENT ∨ newRole = CUSTOMER)) ∧
    (us_role r ≠ newRole →
       ∀ j tok, tokens w' !! j = Some tok → rt_userId tok = cr_targetUserId dto →
         rt_isRevoked tok = true).
Proof.
  intros H. unfold service_changeRole in H. inv_ok.
  apply getUser_found in H0 as (-> & r & Hr & Hu & _).
  apply user_toDomain_fields in Hu as (Hid & Hrole & Hten & _).
  unfold lift in H1. inv_ok.
  case_match eqn:Hpol; [|done].
  apply role_assignment_safe in Hpol as (Hself & Hadmin & Hmanager). cbn in Hself, Hadmin, Hmanager.
  unfold draw_rt in H. inv_ok.
  match goal with E : user_update (changeRole ?rt ?nr ?b ?c a) _ = _ |- _ =>
    destruct (changeRole_fields rt nr b c a) as [Hrole1 Hid1];
    set (u1 := changeRole rt nr b c a) in *;
    apply user_update_ok in E as (r0 & Hr0 & Hrows & Hdom) end.
  apply user_toDomain_fields in Hdom as (_ & Hrole' & _). upd_simpl in Hrole'.
  keep_all (λ w : World Tbl, d_users (w_db w)).
  keep_all (λ w : World Tbl, d_refreshTokens (w_db w)). cbv beta in *.
  unfold rows_of in *. upd_simpl in Hrows. rewrite Hid1, Hid in *.
  exists r, (user_update_data (w_now s0) u1 r0), a0.
  assert (us_role (user_update_data (w_now s0) u1 r0) = a0) as Hnew by (rewrite <-Hrole1; by destruct r0).
  rewrite Hnew, Hrole, Hten in *.
  split_and!; [done|done|congruence|done|done| | |].
  - intros ->. by apply Hadmin.
  - intros Hna. destruct (Hmanager Hna) as (? & ? & _ & Ha1 & Ha2).
    apply assignable_roles in Ha1, Ha2. done.
  - intros Hne j tok Hj Htok.
    match goal with E : (if _ then _ else _) _ = _ |- _ =>
      rewrite Hrole', bool_decide_eq_false_2 in E by congruence;
      eapply (revokeAll_complete _ _ _ _ _ j tok) in E; [done| |done] end.
    unfold rows_of. congruence.
Qed.
End facts.

(** ** A concrete organization *)

Definition org_tenant : TenantRecord :=
  mkTenantRecord "Acme" "acme" "ACTIVE" "pro" None None 5 100 10 (JObj []) None None 0 0.

Definition org_user (email : string) (role : UserRole) : UserRow :=
  mkUserRow (Some "t1") email None "Ann" "Lee" role UActive None None "UTC" "en" None
    None None 0 None (JObj []) 0 0.

Definition org : World (gmap string) :=
  world_of 1000 (empty_db
    <| d_tenants := {["t1" := org_tenant]} |>
    <| d_users := {["m" := org_user "m@acme.io" TENANT_MANAGER;
                    "a" := org_user "a@acme.io" AGENT; "b" := org_user "b@acme.io" AGENT]} |>
    <| d_tickets := {["k" := mkTicketRow "t1" 1 "c1" (Some "a") "m" "Printer" "It smokes" OPEN
                       MEDIUM "GENERAL" [] "web" false None None None None None None false []
                       None 10 500]} |>
    <| d_refreshTokens := {["r" := mkRefreshTokenRow "a" "h" "f" false None None 9000 None
                              None 0]} |>).

Lemma suspension_ends_sessions_witness :
  let c := mkSuspendTenantCommand "t1" "m" "PLATFORM_ADMIN" "unpaid" in
  ∃ t' w', suspendTenant c org = (Ok t', w') ∧
    usable (w_now w') (rows_of d_tenants w') (org_user "a@acme.io" AGENT) = false.
Proof.
  intros c. assert (∃ t' w', suspendTenant c org = (Ok t', w')) as (t' & w' & E)
    by (do 2 eexists; vm_compute; reflexivity).
  exists t', w'. split; [exact E|].
  apply (suspension_ends_sessions c org t' w' eq_refl ltac:(discriminate) E). reflexivity.
Defined.

Definition suspended_org : World (gmap string) :=
  org <| w_db ::= λ d, d <| d_tenants := {["t1" := org_tenant <| nr_status := "SUSPENDED" |>
    <| nr_suspendedAt := Some 7 |>]} |> |>.

Lemma restored_tenant_keeps_suspension_witness :
  let c := mkRestoreTenantCommand "t1" "m" "PLATFORM_ADMIN" in
  ∃ t' w' r', restoreTenant c suspended_org = (Ok t', w') ∧
    rows_of d_tenants w' !! "t1" = Some r' ∧ nr_status r' = "ACTIVE" ∧ n_suspendedAt t' = Some 7.
Proof.
  intros c. assert (∃ t' w', restoreTenant c suspended_org = (Ok t', w')) as (t' & w' & E)
    by (do 2 eexists; vm_compute; reflexivity).
  destruct (restored_tenant_keeps_suspension c suspended_org t' w' eq_refl E)
    as (r & r' & Hr & Hw & Hs & _ & _ & Ha).
  exists t', w', r'. rewrite Hw, Ha. split_and!; [exact E|reflexivity|exact Hs|].
  cbn in Hr. vm_compute in Hr. by injection Hr as <-.
Defined.

Lemma removed_agent_leaves_nothing_witness :
  ∃ w' r', remove_agent "t1" "m" "a" (Some "b") org = (Ok tt, w') ∧
    rows_of d_tickets w' !! "k" = Some r' ∧ ti_assignedAgentId r' = Some "b".
Proof.
  assert (∃ w', remove_agent "t1" "m" "a" (Some "b") org = (Ok tt, w')) as (w' & E)
    by (eexists; vm_compute; reflexivity).
  destruct (removed_agent_leaves_nothing "t1" "m" "a" (Some "b") org w' eq_refl E)
    as (_ & Ht & _).
  edestruct (Ht "k") as (r' & Hr & Ha); [vm_compute; reflexivity|].
  exists w', r'. split_and!; [exact E|exact Hr|]. rewrite Ha. reflexivity.
Defined.

Lemma role_change_safe_witness :
  let dto := mkChangeRoleDto "m" "a" (Some "t1") "CUSTOMER" "TENANT_MANAGER" in
  ∃ u' w', service_changeRole dto org = (Ok u', w') ∧
    ∀ tok, rows_of d_refreshTokens w' !! "r" = Some tok → rt_userId tok = "a" →
      rt_isRevoked tok = true.
Proof.
  intros dto. assert (∃ u' w', service_changeRole dto org = (Ok u', w')) as (u' & w' & E)
    by (do 2 eexists; vm_compute; reflexivity).
  exists u', w'. split; [exact E|].
  destruct (role_change_safe dto org u' w' E)
    as (r & r' & nr & Hr & Hn & _ & _ & _ & _ & _ & Hrev).
  vm_compute in Hr, Hn. injection Hr as <-. injection Hn as <-.
  intros tok Htok. apply (Hrev ltac:(discriminate) "r" tok Htok).
Defined.
