(* ===== verification/Invitations.v ===== *)
(** * Invitations

    [src/application/auth/services/invitation.service.ts]: an organization invites an
    address; whoever holds the mailed token joins with a new account, or with an account
    they prove to own.  Accepting claims the invitation, checks the organization and its
    staff limit and changes the account in one transaction. *)

From Stdlib Require Import Ascii String.
From S2P Require Import Prelude Store Js Errors Domain Ticket Customer Tenant User Schema World.
From S2P Require Import Outbox Logs Tokens Auth Frames.

#[local] Open Scope string_scope.
#[local] Open Scope Z_scope.
#[local] Set Default Proof Using "Type*".

Definition INVITATION_LIFETIME_MS : Z := 24 * 60 * 60 * 1000.

(** The input of [create]; [role] is one of CUSTOMER, AGENT and TENANT_MANAGER. *)
Record InvitationInput := mkInvitationInput {
  in_tenantId : string;
  in_actorId : string;
  in_email : string;
  in_role : UserRole;
  in_customerId : option string;
}.

(** The input of [accept]. *)
Record AcceptInput := mkAcceptInput {
  ac_token : string;
  ac_password : option string;
  ac_firstName : option string;
  ac_lastName : option string;
  ac_authenticatedUserId : option string;
}.

(** [existing.tenantId || existing.role !== 'CUSTOMER' || existing.status === 'SUSPENDED'] *)
Definition cannot_join (u : UserRow) : bool :=
  truthy (us_tenantId u) || negb (bool_decide (us_role u = CUSTOMER))
  || bool_decide (us_status u = USuspended).

Definition is_staff (r : UserRole) : bool :=
  bool_decide (r = AGENT) || bool_decide (r = TENANT_MANAGER).

(** The active staff of an organization. *)
Definition active_staff (tenantId : string) (_ : string) (u : UserRow) : bool :=
  bool_decide (us_tenantId u = Some tenantId) && is_staff (us_role u)
  && bool_decide (us_status u = UActive).

(** [acceptedAt: null, revokedAt: null] *)
Definition pending (r : InvitationRow) : bool :=
  bool_decide (iv_acceptedAt r = None) && bool_decide (iv_revokedAt r = None).

Section service.
Context {Tbl : Type → Type} `{!Prisma Tbl} {Cr : Crypto} (frontendUrl : string).

Definition invitation_list (tenantId : string) : W Tbl (list (string * InvitationRow)) :=
  find_many d_invitations (λ _ r, bool_decide (iv_tenantId r = tenantId))
    (λ kr, - iv_createdAt kr.2) (Some 100%nat).

Definition sendEmail (email token : string) : W Tbl unit :=
  let url := frontendUrl ++ "/accept-invitation?token=" ++ encodeURIComponent token in
  add_jobs [EmailJob 1 None email "Your OmniSupport invitation"
    ("<p>You have been invited to OmniSupport.</p><a href=" ++ dquote ++ escapeHtml url
     ++ dquote ++ ">Accept invitation</a><p>This link expires in 24 hours.</p>")].

(** The customer checks of [create]. *)
Definition check_customer (tenantId email customerId : string) : W Tbl unit :=
  found ← find_first d_customers (λ j r, bool_decide (j = customerId)
            && bool_decide (cu_tenantId r = tenantId));
  match found with
  | None => throw (NotFoundError "Customer" (Some customerId))
  | Some (_, customer) =>
      if negb (bool_decide (toLowerCase (cu_email customer) = email))
      then throw (validation_error "Invitation email must match the customer record")
      else
        linked ← find_first d_customerLinks
                   (λ _ l, bool_decide (cl_customerId l = customerId));
        match linked with
        | Some _ => throw (ConflictError "Customer already has a portal account")
        | None => mret ()
        end
  end.

(** [InvitationService.create], with the identifier and the deadline it returns. *)
Definition invitation_create (input : InvitationInput) : W Tbl (string * Z) :=
  let email := toLowerCase (in_email input) in
  if bool_decide (in_role input = CUSTOMER) && negb (truthy (in_customerId input))
  then throw (validation_error "A customer record is required")
  else if negb (bool_decide (in_role input = CUSTOMER)) && truthy (in_customerId input)
  then throw (validation_error "Staff invitations cannot link a customer record")
  else
    _ ← (match in_customerId input with
         | Some c => if str_truthy c then check_customer (in_tenantId input) email c else mret ()
         | None => mret ()
         end);
    existing ← findUserByEmail email;
    if match existing with Some (_, u) => cannot_join u | None => false end
    then throw (ConflictError "Email cannot accept an organization invitation")
    else
      token ← draw;
      now ← get_now;
      let expiresAt := now + INVITATION_LIFETIME_MS in
      i ← draw;
      _ ← create_row d_invitations
            (λ _ r, bool_decide (iv_tokenHash r = sha256 token))
            (λ db, refers (d_tenants db) (Some (in_tenantId input))
                   && refers (d_customers db) (in_customerId input)
                   && refers (d_users db) (Some (in_actorId input))) i
            (mkInvitationRow (in_tenantId input) email (in_role input) (in_customerId input)
               (sha256 token) (in_actorId input) expiresAt None None now);
      _ ← sendEmail email token;
      _ ← audit_create (mkAudit (Some (in_tenantId input)) (Some (in_actorId input)) None
            "CREATE" "invitations" (Some i) None
            (Some (("role", jstr (role_string (in_role input)))
                   :: opt_field "customerId" (in_customerId input))) None None []);
      mret (i, expiresAt).

(** ** Accepting *)

(** The proof of ownership: the hash of the password to store, if any, and whether the
    credentials of the account are reset. *)
Definition accept_credentials (input : AcceptInput) (existing : option (string * UserRow))
  : W Tbl (option string * bool) :=
  match existing with
  | None =>
      _ ← lift (password_create (default "" (ac_password input)));
      h ← hashPassword (default "" (ac_password input));
      mret (Some h, false)
  | Some (i, user) =>
      if bool_decide (is_Some (us_emailVerifiedAt user)) then
        let signedIn := bool_decide (ac_authenticatedUserId input = Some i) in
        let passwordMatches :=
          match ac_password input, us_passwordHash user with
          | Some p, Some h => str_truthy p && str_truthy h && argon2_verify h p
          | _, _ => false
          end in
        if negb signedIn && negb passwordMatches
        then throw (ForbiddenError "Sign in to the invited account, or give its password, to accept")
        else mret (None, false)
      else if negb (truthy (ac_password input))
      then throw (validation_error "Choose a password to activate this account")
      else
        _ ← lift (password_create (default "" (ac_password input)));
        h ← hashPassword (default "" (ac_password input));
        mret (Some h, true)
  end.

(** What accepting writes into an account that existed. *)
Definition joined_data (now : Z) (invitation : InvitationRow) (passwordHash : option string)
    (u : UserRow) : UserRow :=
  let u := u <| us_tenantId := Some (iv_tenantId invitation) |> <| us_role := iv_role invitation |>
             <| us_status := UActive |> <| us_emailVerifiedAt := Some now |>
             <| us_failedLoginAttempts := 0 |> <| us_lockedUntil := None |>
             <| us_updatedAt := now |> in
  if truthy passwordHash then u <| us_passwordHash := passwordHash |> else u.

(** The account accepting creates. *)
Definition joined_row (now : Z) (invitation : InvitationRow) (passwordHash : option string)
    (firstName lastName : string) : UserRow :=
  mkUserRow (Some (iv_tenantId invitation)) (iv_email invitation) passwordHash firstName lastName
    (iv_role invitation) UActive None None "UTC" "en" (Some now) None None 0 None (JObj []) now now.

(** The claim: [updateMany] of the invitation while it is pending and not expired. *)
Definition invitation_claim (id : string) : W Tbl unit :=
  now ← get_now;
  claimed ← update_many d_invitations
    (λ j r, bool_decide (j = id) && pending r && (now <? iv_expiresAt r))
    (λ r, r <| iv_acceptedAt := Some now |>);
  if bool_decide (claimed = 1) then mret ()
  else throw (ConflictError "Invitation has already been used").

(** The organization is active and the customer record is the one invited. *)
Definition accept_checks (invitation : InvitationRow) : W Tbl unit :=
  tenant ← find_unique d_tenants (iv_tenantId invitation);
  if negb (includes ["ACTIVE"; "TRIAL"] (default "" (nr_status <$> tenant)))
  then throw (ConflictError "Organization is not active")
  else
    _ ← (match iv_customerId invitation with
         | Some c =>
             if str_truthy c then
               found ← find_first d_customers (λ j r, bool_decide (j = c)
                         && bool_decide (cu_tenantId r = iv_tenantId invitation));
               if bool_decide ((toLowerCase ∘ cu_email ∘ snd) <$> found
                               = Some (iv_email invitation)) then mret ()
               else throw (ConflictError "Customer record changed since invitation")
             else mret ()
         | None => mret ()
         end);
    if is_staff (iv_role invitation) then
      staff ← count d_users (active_staff (iv_tenantId invitation));
      if default 0 (nr_maxAgents <$> tenant) <=? staff
      then throw (ConflictError "Organization has reached its staff limit")
      else mret ()
    else mret ().

(** The account that joins: changed, or created. *)
Definition accept_user (input : AcceptInput) (invitation : InvitationRow)
    (existing : option (string * UserRow)) (passwordHash : option string) (reset : bool)
  : W Tbl string :=
  now ← get_now;
  match existing with
  | Some (i, _) =>
      _ ← (if reset then
             _ ← delete_many d_oauthAccounts (λ _ o, bool_decide (oa_userId o = i));
             revokeAllUserTokens i "INVITATION_ACCEPTED"
           else mret ());
      current ← find_unique d_users i;
      if bool_decide (us_tenantId <$> current = Some None)
      then _ ← update_one d_users i (joined_data now invitation passwordHash); mret i
      else throw (PrismaError "P2025" "Record to update not found.")
  | None =>
      i ← draw;
      _ ← create_row d_users (λ _ u, bool_decide (us_email u = iv_email invitation))
            (λ db, refers (d_tenants db) (Some (iv_tenantId invitation))) i
            (joined_row now invitation passwordHash (default "" (ac_firstName input))
               (default "" (ac_lastName input)));
      mret i
  end.

Definition accept_in_transaction (input : AcceptInput) (id : string) (invitation : InvitationRow)
    (existing : option (string * UserRow)) (passwordHash : option string) (reset : bool)
  : W Tbl unit :=
  _ ← invitation_claim id;
  _ ← accept_checks invitation;
  userId ← accept_user input invitation existing passwordHash reset;
  match iv_customerId invitation with
  | Some c =>
      if str_truthy c then
        create_row d_customerLinks (λ j l, bool_decide (j = userId)
                                           || bool_decide (cl_customerId l = c))
          (λ db, refers (d_users db) (Some userId) && refers (d_customers db) (Some c)
                 && refers (d_tenants db) (Some (iv_tenantId invitation))) userId
          (mkCustomerLinkRow c (iv_tenantId invitation))
      else mret ()
  | None => mret ()
  end.

(** The reads and checks of [accept] before its transaction. *)
Definition accept_check (input : AcceptInput)
  : W Tbl ((string * InvitationRow) * option (string * UserRow)) :=
  found ← find_first d_invitations
            (λ _ r, bool_decide (iv_tokenHash r = sha256 (ac_token input)));
  now ← get_now;
  match found with
  | Some (id, invitation) =>
      if negb (pending invitation) || (iv_expiresAt invitation <=? now)
      then throw (validation_error "Invitation is invalid or expired")
      else
        existing ← findUserByEmail (iv_email invitation);
        if match existing with Some (_, u) => cannot_join u | None => false end
        then throw (ConflictError "Account cannot accept this invitation")
        else if truthy (ac_authenticatedUserId input)
                && negb (bool_decide (fst <$> existing = ac_authenticatedUserId input))
        then throw (ForbiddenError "This invitation was sent to a different account")
        else if bool_decide (existing = None)
                && negb (truthy (ac_password input) && truthy (ac_firstName input)
                         && truthy (ac_lastName input))
        then throw (validation_error "Name and password are required for a new account")
        else mret ((id, invitation), existing)
  | None => throw (validation_error "Invitation is invalid or expired")
  end.

(** [InvitationService.accept] *)
Definition accept (input : AcceptInput) : W Tbl unit :=
  '((id, invitation), existing) ← accept_check input;
  '(passwordHash, reset) ← accept_credentials input existing;
  _ ← transaction (accept_in_transaction input id invitation existing passwordHash reset);
  audit_create (mkAudit (Some (iv_tenantId invitation)) None None "UPDATE" "invitations"
    (Some id) None None None None [("action", jstr "ACCEPTED")]).

(** ** Revoking and resending *)

Definition invitation_revoke (id tenantId actorId : string) : W Tbl unit :=
  now ← get_now;
  changed ← update_many d_invitations
    (λ j r, bool_decide (j = id) && bool_decide (iv_tenantId r = tenantId) && pending r)
    (λ r, r <| iv_revokedAt := Some now |>);
  if bool_decide (changed = 1) then
    audit_create (mkAudit (Some tenantId) (Some actorId) None "DELETE" "invitations" (Some id)
      None None None None [])
  else throw (NotFoundError "Active invitation" (Some id)).

Definition invitation_resend (id tenantId actorId : string) : W Tbl unit :=
  found ← find_first d_invitations
    (λ j r, bool_decide (j = id) && (bool_decide (iv_tenantId r = tenantId) && pending r));
  match found with
  | None => throw (NotFoundError "Active invitation" (Some id))
  | Some (_, invitation) =>
      token ← draw;
      now ← get_now;
      clash ← find_first d_invitations
        (λ j r, negb (bool_decide (j = id)) && bool_decide (iv_tokenHash r = sha256 token));
      match clash with
      | Some _ => throw (PrismaError "P2002" "Unique constraint failed")
      | None =>
          _ ← update_one d_invitations id
                (λ r, r <| iv_tokenHash := sha256 token |>
                        <| iv_expiresAt := now + INVITATION_LIFETIME_MS |>);
          _ ← sendEmail (iv_email invitation) token;
          audit_create (mkAudit (Some tenantId) (Some actorId) None "UPDATE" "invitations"
            (Some id) None None None None [("action", jstr "RESENT")])
      end
  end.
End service.
