(* ===== verification/InvitationFacts.v ===== *)
(** * Who may join an organization

    An invitation lets one account join, once, and only an account whose owner proves to
    own it. *)

From Stdlib Require Import Ascii String.
From S2P Require Import Prelude Store Js Errors Domain Ticket Customer Tenant User Schema World.
From S2P Require Import Outbox Logs Tokens Auth Frames Invitations.

#[local] Open Scope string_scope.
#[local] Open Scope Z_scope.
#[local] Set Default Proof Using "Type*".

#[local] Notation tokens w := (rows_of d_refreshTokens w).
#[local] Notation users w := (rows_of d_users w).
#[local] Notation tenants w := (rows_of d_tenants w).
#[local] Notation invitations w := (rows_of d_invitations w).
#[local] Notation oauths w := (rows_of d_oauthAccounts w).

Section facts.
Context {Tbl : Type → Type} `{!Prisma Tbl} {Cr : Crypto}.
Implicit Types (w : World Tbl).

(** What accepting with [input] requires of an account [i] that existed, and leaves of it
    as [user]: a verified account keeps its password, and its owner was signed in or gave
    it; an unverified account, which anyone may have registered, gets the new password and
    loses its sessions and social logins. *)
Definition owner_proved (input : AcceptInput) w w' (i : string) (user : UserRow) : Prop :=
  match users w !! i with
  | None => (∀ j r, users w !! j = Some r → us_email r ≠ us_email user) ∧
      ∃ p salt, ac_password input = Some p ∧ is_ok (password_create p) = true ∧
        us_passwordHash user = Some (argon2_hash salt p)
  | Some old =>
      cannot_join old = false ∧ us_tenantId old = None ∧
      if bool_decide (is_Some (us_emailVerifiedAt old)) then
        us_passwordHash user = us_passwordHash old ∧
        (ac_authenticatedUserId input = Some i ∨
         ∃ p h, ac_password input = Some p ∧ us_passwordHash old = Some h ∧
           argon2_verify h p = true)
      else
        (∃ p salt, ac_password input = Some p ∧ is_ok (password_create p) = true ∧
           (argon2_hash salt p ≠ "" → us_passwordHash user = Some (argon2_hash salt p))) ∧
        (∀ j tok, tokens w' !! j = Some tok → rt_userId tok = i → rt_isRevoked tok = true) ∧
        (∀ j o, oauths w' !! j = Some o → oa_userId o ≠ i)
  end.

(** The account an address belongs to, as [accept] finds it. *)
Definition owner_of w (email : string) (existing : option (string * UserRow)) : Prop :=
  match existing with
  | Some (i, u) => users w !! i = Some u ∧ us_email u = email
  | None => ∀ i u, users w !! i = Some u → us_email u ≠ email
  end.

Lemma findUserByEmail_ok email w existing w' :
  findUserByEmail email w = (Ok existing, w') → w' = w ∧ owner_of w email existing.
Proof.
  unfold findUserByEmail. destruct existing as [[i u]|]; intros H; cbn.
  - apply find_first_some in H as (-> & Hu & Hp). by bool_to_prop.
  - apply find_first_none in H as (-> & Hno). split; [done|]. intros i u Hu.
    apply Hno in Hu. by bool_to_prop.
Qed.

Lemma accept_check_ok input w id inv existing w' :
  accept_check input w = (Ok ((id, inv), existing), w') →
  w' = w ∧ invitations w !! id = Some inv ∧ iv_tokenHash inv = sha256 (ac_token input) ∧
  pending inv = true ∧ w_now w < iv_expiresAt inv ∧ owner_of w (iv_email inv) existing ∧
  match existing with
  | Some (i, u) => cannot_join u = false ∧
      (truthy (ac_authenticatedUserId input) = true → ac_authenticatedUserId input = Some i)
  | None => truthy (ac_authenticatedUserId input) = false ∧ truthy (ac_password input) = true
  end.
Proof.
  unfold accept_check, get_now, gets. intros H. inv_ok.
  match goal with E : find_first _ _ _ = (Ok ?o, _) |- _ => destruct o as [[j r]|]; [|done];
    apply find_first_some in E as (-> & Hr & Hp) end.
  destruct (negb (pending r) || (iv_expiresAt r <=? w_now w)) eqn:E1; [done|]. inv_ok.
  match goal with E : findUserByEmail _ _ = _ |- _ => apply findUserByEmail_ok in E as [-> Ho] end.
  bool_to_prop.
  repeat (case_match; [done|]). unfold mret, M_ret in H. inv_ok. simplify_eq.
  split_and!; try done.
  assert (truthy (ac_authenticatedUserId input) = true →
          fst <$> existing = ac_authenticatedUserId input) as Hauth.
  { intros Ha. rewrite Ha in *. simpl in *. by bool_to_prop. }
  destruct existing as [[i u]|]; cbn in *; [split; [done|]; intros Ha; by rewrite Hauth|].
  split; [|by destruct (truthy (ac_password input))].
  destruct (truthy (ac_authenticatedUserId input)) eqn:Ha; [|done]. by rewrite <-Hauth in Ha.
Qed.

Lemma claim_ok id w u w' :
  invitation_claim id w = (Ok u, w') →
  ∃ r, invitations w !! id = Some r ∧ pending r = true ∧ w_now w < iv_expiresAt r ∧
    invitations w' = <[id := r <| iv_acceptedAt := Some (w_now w) |>]> (invitations w).
Proof.
  unfold invitation_claim, get_now, gets. intros H. inv_ok. case_match; [|done].
  unfold mret, M_ret in H. inv_ok. bool_to_prop. subst.
  match goal with E : update_many _ _ _ _ = _ |- _ =>
    apply (update_many_one d_invitations id) in E as (r & Hr & Hp & Hrows) end.
  - bool_to_prop. eauto.
  - intros j r Hp. by bool_to_prop.
Qed.

Lemma accept_checks_ok inv w u w' :
  accept_checks inv w = (Ok u, w') →
  w' = w ∧ ∃ t, tenants w !! iv_tenantId inv = Some t ∧
    (nr_status t = "ACTIVE" ∨ nr_status t = "TRIAL") ∧
    (is_staff (iv_role inv) = true →
       Z.of_nat (size (matching (active_staff (iv_tenantId inv)) (users w))) < nr_maxAgents t).
Proof.
  intros H. split; [by apply reads_only in H; [|keeps_tac]|].
  unfold accept_checks in H. inv_ok. unfold find_unique, gets in H0. inv_ok.
  rewrite findUnique_rows in H. fold (rows_of d_tenants s) in H. case_match eqn:Hst; [done|].
  destruct (tenants s !! iv_tenantId inv) as [t|]; [|done]. exists t. bool_to_prop. simpl in *.
  split_and!; [done| |].
  - apply includes_true in Hst. set_solver.
  - intros Hstaff. inv_ok. apply reads_only in H0; [|by keeps_tac]. subst. rewrite Hstaff in H.
    inv_ok. rewrite count_run in H0. inv_ok. case_match; [done|]. by bool_to_prop.
Qed.

(** What [accept_credentials] established. *)
Definition credentials_proved (input : AcceptInput) (existing : option (string * UserRow))
    (passwordHash : option string) (reset : bool) : Prop :=
  match existing with
  | None => reset = false ∧ ∃ p salt, default "" (ac_password input) = p ∧
      is_ok (password_create p) = true ∧ passwordHash = Some (argon2_hash salt p)
  | Some (i, u) =>
      if bool_decide (is_Some (us_emailVerifiedAt u)) then
        reset = false ∧ passwordHash = None ∧
        (ac_authenticatedUserId input = Some i ∨
         ∃ p h, ac_password input = Some p ∧ us_passwordHash u = Some h ∧
           argon2_verify h p = true)
      else
        reset = true ∧ ∃ p salt, ac_password input = Some p ∧
          is_ok (password_create p) = true ∧ passwordHash = Some (argon2_hash salt p)
  end.

Lemma password_create_ok p q : password_create p = Ok q → is_ok (password_create p) = true.
Proof. by intros ->. Qed.

Lemma accept_credentials_ok input existing w ph reset w' :
  accept_credentials input existing w = (Ok (ph, reset), w') →
  credentials_proved input existing ph reset ∧ w_db w' = w_db w ∧ w_now w' = w_now w ∧
  w_inTransaction w' = w_inTransaction w.
Proof.
  intros H. split; [|keep_all (λ w : World Tbl, w_db w); keep_all (λ w : World Tbl, w_now w);
                     keep_all (λ w : World Tbl, w_inTransaction w); by split_and!].
  unfold accept_credentials, credentials_proved, hashPassword, lift in *.
  destruct existing as [[i u]|].
  - case_bool_decide.
    + case_match eqn:E; [done|]. unfold mret, M_ret in H. inv_ok. simplify_eq.
      split_and!; try done. apply andb_false_iff in E as [E|E]; bool_to_prop; [by left|right].
      repeat (case_match; try done). bool_to_prop. eauto.
    + case_match eqn:E; [done|]. bool_to_prop. unfold mret, M_ret in H. inv_ok.
      destruct (ac_password input) as [p|]; [|done]. simpl in *. simplify_eq.
      eauto 10 using password_create_ok.
  - unfold mret, M_ret in H. inv_ok. simplify_eq. split; [done|].
    eauto 10 using password_create_ok.
Qed.

(** The account an accepted invitation leaves. *)
Definition member_of (inv : InvitationRow) (u : UserRow) : Prop :=
  us_email u = iv_email inv ∧ us_tenantId u = Some (iv_tenantId inv) ∧
  us_role u = iv_role inv ∧ us_status u = UActive ∧ is_Some (us_emailVerifiedAt u).

Lemma joined_data_fields now inv ph u :
  us_email u = iv_email inv →
  member_of inv (joined_data now inv ph u) ∧
  us_passwordHash (joined_data now inv ph u) =
    if truthy ph then ph else us_passwordHash u.
Proof.
  unfold joined_data, member_of. destruct u. cbn. intros ->. destruct (truthy ph); cbn; eauto 10.
Qed.

Lemma accept_user_ok input inv existing ph reset w i w' :
  accept_user input inv existing ph reset w = (Ok i, w') →
  owner_of w (iv_email inv) existing → 
  (∀ j u, existing = Some (j, u) → cannot_join u = false) →
  (existing = None → truthy (ac_password input) = true) →
  credentials_proved input existing ph reset →
  ∃ user, users w' = <[i := user]> (users w) ∧ member_of inv user ∧
    owner_proved input w w' i user.
Proof.
  unfold accept_user, get_now, gets, find_unique. intros H Hown Hjoin Hpw Hcred. inv_ok.
  destruct existing as [[j u]|].
  - inv_ok. unfold gets in *. inv_ok. rewrite findUnique_rows in *.
    case_match eqn:Hten; [|done]. unfold mret at 1, M_ret at 1 in H. inv_ok.
    keep_all (λ w : World Tbl, d_users (w_db w)).
    keep_all (λ w : World Tbl, d_refreshTokens (w_db w)).
    keep_all (λ w : World Tbl, d_oauthAccounts (w_db w)). cbv beta in *.
    match goal with E : update_one _ _ _ _ = _ |- _ =>
      apply (update_one_ok d_users) in E as (u0 & Hu0 & _ & Hus & _) end.
    destruct Hown as [Hu Hem]. bool_to_prop.
    assert (users s1 = users s) as Heq by (unfold rows_of; congruence).
    change (rows (d_users (w_db s1))) with (users s1) in Hten.
    rewrite Heq in *. rewrite Hu in Hten. assert (u0 = u) as -> by congruence.
    destruct (joined_data_fields (w_now s) inv ph u Hem) as [Hm Hph].
    eexists. split_and!; [exact Hus|exact Hm|].
    unfold owner_proved, credentials_proved in *. rewrite Hu.
    split_and!; [by eapply Hjoin|by simplify_eq/=|].
    case_bool_decide.
    + destruct Hcred as (-> & -> & Hp). by split; [rewrite Hph|].
    + destruct Hcred as (-> & p & salt & Hp & Hok & ->). inv_ok.
      keep_all (λ w : World Tbl, d_oauthAccounts (w_db w)). cbv beta in *.
      match goal with D : delete_many _ _ _ = _, T : revokeAllUserTokens _ _ _ = _ |- _ =>
        pose proof (delete_many_ok d_oauthAccounts _ _ _ _ D) as Hdel;
        pose proof (λ k t, revokeAll_complete _ _ _ _ _ k t T) as Hrev end.
      split_and!.
      * exists p, salt. split_and!; [done|done|]. intros Hne. rewrite Hph. simpl.
        by destruct (argon2_hash salt p).
      * intros k t Hk Ht. apply (Hrev k t); [|done]. unfold rows_of in *. congruence.
      * intros k o Hk. replace (oauths w') with (oauths s0) in Hk by (unfold rows_of; congruence).
        rewrite Hdel in Hk. destruct (oauths s !! k) as [o'|]; [|done]. simpl in Hk.
        case_match; [done|]. injection Hk as <-. by bool_to_prop.
  - inv_ok. unfold mret, M_ret in H. inv_ok. specialize (Hpw eq_refl).
    match goal with E : draw _ = _ |- _ => apply draw_ok in E as [-> ->] end.
    match goal with E : create_row _ _ _ _ _ _ = _ |- _ =>
      apply (create_row_ok d_users) in E as (Hnew & _ & Hus & _) end.
    unfold rows_of in Hnew, Hus. upd_simpl in Hnew. upd_simpl in Hus.
    destruct Hcred as (_ & p & salt & Hp & Hok & ->).
    eexists. split_and!; [exact Hus|by unfold member_of; cbn; eauto 10|].
    unfold owner_proved, rows_of. rewrite Hnew. split; [exact Hown|].
    exists p, salt. destruct (ac_password input); [|done]. simpl in Hp. by subst.
Qed.

Lemma accept_spec input w w' :
  w_inTransaction w = false → accept input w = (Ok tt, w') →
  ∃ id inv t i user,
    invitations w !! id = Some inv ∧ iv_tokenHash inv = sha256 (ac_token input) ∧
    pending inv = true ∧ w_now w < iv_expiresAt inv ∧
    invitations w' = <[id := inv <| iv_acceptedAt := Some (w_now w) |>]> (invitations w) ∧
    tenants w !! iv_tenantId inv = Some t ∧ (nr_status t = "ACTIVE" ∨ nr_status t = "TRIAL") ∧
    (is_staff (iv_role inv) = true →
       Z.of_nat (size (matching (active_staff (iv_tenantId inv)) (users w))) < nr_maxAgents t) ∧
    users w' = <[i := user]> (users w) ∧ member_of inv user ∧ owner_proved input w w' i user.
Proof.
  intros Hin H. unfold accept in H. inv_ok. destruct a as [[id inv] existing].
  match goal with E : accept_check _ _ = _ |- _ =>
    apply accept_check_ok in E as (-> & Hinv & Hhash & Hpend & Hexp & Hown & Hex) end.
  inv_ok. destruct a as [ph reset].
  match goal with E : accept_credentials _ _ _ = _ |- _ =>
    apply accept_credentials_ok in E as (Hcred & Hdb & Hnow & Hin') end.
  inv_ok.
  match goal with E : transaction _ _ = _ |- _ =>
    apply transaction_inv in E as (w0 & w1 & E & Hd & Hn & _ & Hd1 & _); [|congruence] end.
  unfold accept_in_transaction in *. inv_ok.
  match goal with C : invitation_claim _ _ = _, K : accept_checks _ _ = _,
      U : accept_user _ _ _ _ _ _ = _ |- _ =>
    keep_all (λ w : World Tbl, d_users (w_db w)); keep_all (λ w : World Tbl, d_tenants (w_db w));
    keep_all (λ w : World Tbl, d_invitations (w_db w)); keep_all (λ w : World Tbl, w_now w);
    keep_all (λ w : World Tbl, d_refreshTokens (w_db w));
    keep_all (λ w : World Tbl, d_oauthAccounts (w_db w)); cbv beta in *;
    assert (users s1 = users w ∧ users w' = users s3 ∧ tenants s1 = tenants w ∧
            tokens w' = tokens s3 ∧ oauths w' = oauths s3 ∧ invitations w0 = invitations w ∧
            invitations w' = invitations s1 ∧ w_now w0 = w_now w)
      as (E1 & E2 & E3 & E4 & E5 & E6 & E7 & E8)
      by (unfold rows_of; split_and!; congruence);
    apply claim_ok in C as (r & Hr & _ & _ & Hrows);
    apply accept_checks_ok in K as (-> & t & Ht & Hst & Hstaff);
    apply accept_user_ok in U as (user & Hus & Hm & Hproof)
  end; [|by unfold owner_of in *; rewrite E1|by intros j u ->; apply Hex|by intros ->; apply Hex
    |exact Hcred].
  unfold owner_proved in Hproof. rewrite E1 in *. rewrite E3 in Ht.
  eexists id, inv, t, _, user. split_and!; try done.
  - rewrite E7, Hrows, E6, E8 in *. congruence.
  - by rewrite E2, Hus.
  - unfold owner_proved. rewrite E4, E5. exact Hproof.
Qed.

Lemma accept_spends input w w' :
  w_inTransaction w = false → accept input w = (Ok tt, w') →
  ∃ id r r', invitations w !! id = Some r ∧ iv_tokenHash r = sha256 (ac_token input) ∧
    pending r' = false ∧ invitations w' = <[id := r']> (invitations w).
Proof.
  intros Hin H. destruct (accept_spec _ _ _ Hin H) as (id & inv & t & i & user & H1 & H2 & _ & _ & H3 & _).
  exists id, inv. eexists. split_and!; [done|done| |exact H3]. by destruct inv.
Qed.

(** A token no live invitation is stored under is refused, whoever presents it, and the
    attempt changes nothing. *)
Lemma dead_token_refused input w :
  (∀ i r, invitations w !! i = Some r → iv_tokenHash r = sha256 (ac_token input) →
     pending r = false ∨ iv_expiresAt r <= w_now w) →
  accept input w = (Err (validation_error "Invitation is invalid or expired"), w).
Proof.
  intros Hdead. destruct (find_first d_invitations
    (λ _ r, bool_decide (iv_tokenHash r = sha256 (ac_token input))) w) as [o s] eqn:E.
  assert (s = w) as -> by (by apply reads_only in E; [|keeps_tac]).
  unfold accept, accept_check, get_now, gets, mbind, M_bind. rewrite E.
  destruct o as [[[i r]|]|e]; [|done|by unfold find_first, find_many, gets, mbind, M_bind in E].
  apply find_first_some in E as (_ & Hr & Hp). bool_to_prop.
  destruct (Hdead i r Hr Hp) as [Hd|Hd]; [by rewrite Hd|].
  by rewrite (proj2 (Z.leb_le _ _)), orb_true_r by exact Hd.
Qed.

Lemma revoke_spends id tenantId actorId w w' :
  invitation_revoke id tenantId actorId w = (Ok tt, w') →
  ∃ r, invitations w !! id = Some r ∧
    invitations w' = <[id := r <| iv_revokedAt := Some (w_now w) |>]> (invitations w).
Proof.
  unfold invitation_revoke, get_now, gets. intros H. inv_ok. case_match; [|done]. bool_to_prop.
  subst. keep_all (λ w : World Tbl, d_invitations (w_db w)). cbv beta in *.
  match goal with E : update_many _ _ _ _ = _ |- _ =>
    apply (update_many_one d_invitations id) in E as (r & Hr & _ & Hrows) end.
  - exists r. split; [done|]. unfold rows_of in *. congruence.
  - intros j r Hp. by bool_to_prop.
Qed.

(** An invitation is good for one account: once it was accepted, its token is refused for
    ever after, whatever is done with invitations of other tokens, and also once it was
    revoked or, under the old token, sent again. *)
Theorem spent_invitation_refused w w' (spend : W Tbl unit) input :
  (∀ i j r r', invitations w !! i = Some r → invitations w !! j = Some r' →
     iv_tokenHash r = iv_tokenHash r' → i = j) →
  spend w = (Ok tt, w') →
  (w_inTransaction w = false ∧ spend = accept input) ∨
  (∃ id tenantId actorId r, spend = invitation_revoke id tenantId actorId ∧
     invitations w !! id = Some r ∧ iv_tokenHash r = sha256 (ac_token input)) →
  ∀ input' w'', ac_token input' = ac_token input → invitations w'' = invitations w' →
    accept input' w'' = (Err (validation_error "Invitation is invalid or expired"), w'').
Proof.
  intros Huniq Hrun Hspend input' w'' Htok Hw''. apply dead_token_refused.
  assert (∃ id r r', invitations w !! id = Some r ∧ iv_tokenHash r = sha256 (ac_token input) ∧
    pending r' = false ∧ invitations w' = <[id := r']> (invitations w)) as (id & r & r' & Hr & Hh & Hp & Hrows).
  { destruct Hspend as [[Hin ->]|(id & ten & act & r & -> & Hr & Hh)].
    - apply accept_spends in Hrun; naive_solver.
    - apply revoke_spends in Hrun as (r0 & Hr0 & Hrows). exists id, r0. eexists.
      split_and!; [done|congruence| |exact Hrows].
      unfold pending. destruct r0. cbn. apply andb_false_r. }
  intros i x Hx Hxh. rewrite Hw'', Hrows in Hx. left.
  apply lookup_insert_Some in Hx as [[-> <-]|[Hne Hx]]; [done|].
  destruct Hne. apply (Huniq id i r x Hr Hx). congruence.
Qed.

(** C20: Accepting an invitation that succeeds: the invitation was stored under the token given,
    pending and not expired, and is accepted now; its organization is active and, for a
    member of staff, below its staff limit; exactly one account changed or was created, the
    one of the invited address, which is now an active verified member in the invited role;
    and whoever accepted proved to own it.  No other invitation changed. *)
Theorem accept_sound input w w' :
  w_inTransaction w = false → accept input w = (Ok tt, w') →
  ∃ id inv t i user,
    invitations w !! id = Some inv ∧ iv_tokenHash inv = sha256 (ac_token input) ∧
    pending inv = true ∧ w_now w < iv_expiresAt inv ∧
    invitations w' = <[id := inv <| iv_acceptedAt := Some (w_now w) |>]> (invitations w) ∧
    tenants w !! iv_tenantId inv = Some t ∧ (nr_status t = "ACTIVE" ∨ nr_status t = "TRIAL") ∧
    (is_staff (iv_role inv) = true →
       Z.of_nat (size (matching (active_staff (iv_tenantId inv)) (users w))) < nr_maxAgents t) ∧
    users w' = <[i := user]> (users w) ∧ member_of inv user ∧ owner_proved input w w' i user.
Proof. apply accept_spec. Qed.
End facts.

(** ** A concrete invitation *)

Definition invited : InvitationRow :=
  mkInvitationRow "t1" "new@x.io" AGENT None "tok" "m" 5000 None None 0.

Definition inviting : World (gmap string) :=
  world_of 1000 (empty_db
    <| d_tenants := {["t1" := mkTenantRecord "Acme" "acme" "ACTIVE" "pro" None None 5 100 10
                                (JObj []) None None 0 0]} |>
    <| d_invitations := {["i" := invited]} |>).

Definition newcomer : AcceptInput :=
  mkAcceptInput "tok" (Some "Str0ng-pw") (Some "Nia") (Some "Wu") None.

Lemma accept_sound_witness :
  ∃ w' i user, accept newcomer inviting = (Ok tt, w') ∧
    rows_of d_users w' !! i = Some user ∧ us_email user = "new@x.io" ∧ us_role user = AGENT.
Proof.
  assert (∃ w', accept newcomer inviting = (Ok tt, w')) as (w' & E)
    by (eexists; vm_compute; reflexivity).
  destruct (accept_sound newcomer inviting w' eq_refl E)
    as (id & inv & t & i & user & Hinv & _ & _ & _ & _ & _ & _ & _ & Hus & (Hem & _ & Hr & _) & _).
  change (({["i" := invited]} : gmap string InvitationRow) !! id = Some inv) in Hinv.
  apply lookup_singleton_Some in Hinv as [<- <-].
  exists w', i, user. split_and!; [exact E|rewrite Hus; apply lookup_insert_eq|exact Hem|exact Hr].
Defined.

Lemma spent_invitation_refused_witness :
  ∃ w', accept newcomer inviting = (Ok tt, w') ∧
    ∀ input', ac_token input' = "tok" →
      accept input' w' = (Err (validation_error "Invitation is invalid or expired"), w').
Proof.
  assert (∃ w', accept newcomer inviting = (Ok tt, w')) as (w' & E)
    by (eexists; vm_compute; reflexivity).
  exists w'. split; [exact E|]. intros input' Ht.
  apply (spent_invitation_refused inviting w' (accept newcomer) newcomer); [|exact E| |done|done].
  - intros i j r r' Hr Hr' _.
    change (({["i" := invited]} : gmap string InvitationRow) !! i = Some r) in Hr.
    change (({["i" := invited]} : gmap string InvitationRow) !! j = Some r') in Hr'.
    apply lookup_singleton_Some in Hr as [<- _]. by apply lookup_singleton_Some in Hr' as [<- _].
  - left. by split.
Defined.
