(* ===== verification/Roles.v ===== *)
(** * Effective permissions and tenant roles

    [src/application/auth/services/permission.service.ts] resolves what a user may do:
    the defaults of the account class plus the grants of the roles the user is a member
    of, clipped to the class boundary ([Permissions]).
    [src/application/user/services/role-management.service.ts] lets tenant managers define
    roles and hand them out.  The tables of role permissions and memberships have composite
    keys; [pair_key] writes one down (identifiers hold no comma). *)

From Stdlib Require Import Ascii String.
From S2P Require Import Prelude Store Js Errors Domain Ticket Customer Tenant User Permissions.
From S2P Require Import Schema World Outbox Logs Frames Repositories.

#[local] Open Scope string_scope.
#[local] Open Scope Z_scope.
#[local] Set Default Proof Using "Type*".

Definition pair_key (a b : string) : string := a ++ "," ++ b.

(** [`${permission.resource}:${permission.action}`] *)
Definition permission_key (p : PermissionRow) : string := pe_resource p ++ ":" ++ pe_action p.

(** [PermissionSubject] *)
Record PermissionSubject := mkSubject {
  sb_id : string;
  sb_role : string;
  sb_tenantId : option string;
}.

Record RoleActor := mkRoleActor {
  ra_id : string;
  ra_role : string;
  ra_tenantId : string;
}.
Definition subject_of (a : RoleActor) : PermissionSubject :=
  mkSubject (ra_id a) (ra_role a) (Some (ra_tenantId a)).

Record RoleView := mkRoleView {
  rv_id : string;
  rv_name : string;
  rv_displayName : string;
  rv_description : option string;
  rv_isSystem : bool;
  rv_permissions : list string;
  rv_memberCount : option Z;
}.

(** A role with what [roleInclude] adds: the keys of its permissions, and how many
    memberships it has. *)
Record RoleRecord := mkRoleRecord {
  rr_id : string;
  rr_row : RoleRow;
  rr_permissions : list string;
  rr_count : option Z;
}.

Definition leb_dec : RelDecision (λ a b, String.leb a b = true) := λ a b, decide _.

(** [list.sort()] *)
Definition sort_strings (l : list string) : list string :=
  merge_sort (H:=leb_dec) (λ a b, String.leb a b = true) l.

Definition toView (role : RoleRecord) : RoleView :=
  mkRoleView (rr_id role) (ro_name (rr_row role)) (ro_displayName (rr_row role))
    (ro_description (rr_row role)) (ro_isSystem (rr_row role))
    (sort_strings (rr_permissions role)) (rr_count role).

Definition account_classes : list UserRole := [PLATFORM_ADMIN; TENANT_MANAGER; AGENT; CUSTOMER].
Definition SYSTEM_ROLE_NAMES : list string := map role_string account_classes.

(** [catalog]: a permission, the classes whose boundary has it, and those that have it by
    default. *)
Definition catalog : list (string * list UserRole * list UserRole) :=
  map (λ key, (key, filter (λ c, includes (CLASS_BOUNDARY c) key = true) account_classes,
               filter (λ c, includes (DEFAULT_GRANTS c) key = true) account_classes))
    ALL_PERMISSIONS.

Section service.
Context {Tbl : Type → Type} `{!Prisma Tbl}.

(** ** PermissionService *)

(** The keys of the permissions a role grants. *)
Definition role_grants (roleId : string) : W Tbl (list string) :=
  links ← find_many d_rolePermissions (λ _ l, bool_decide (rp_roleId l = roleId)) (λ _, 0) None;
  permissions ← gets (λ w, d_permissions (w_db w));
  mret (omap (λ '(_, l), permission_key <$> findUnique (rp_permissionId l) permissions) links).

Fixpoint grants_of_roles (memberships : list (string * MembershipRow)) : W Tbl (list string) :=
  match memberships with
  | [] => mret []
  | (_, m) :: rest =>
      grants ← role_grants (me_roleId m);
      more ← grants_of_roles rest;
      mret (grants ++ more)%list
  end.

Definition getEffectivePermissions (subject : PermissionSubject) : W Tbl (gset string) :=
  match sb_tenantId subject with
  | Some tenantId =>
      if str_truthy tenantId then
        memberships ← find_many d_memberships
          (λ _ m, bool_decide (me_userId m = sb_id subject)
                  && bool_decide (me_tenantId m = tenantId)) (λ _, 0) None;
        grants ← grants_of_roles memberships;
        mret (computeEffectivePermissions (sb_role subject) grants)
      else mret (computeEffectivePermissions (sb_role subject) [])
  | None => mret (computeEffectivePermissions (sb_role subject) [])
  end.

Definition permission_has (subject : PermissionSubject) (permission : string) : W Tbl bool :=
  held ← getEffectivePermissions subject; mret (bool_decide (permission ∈ held)).

Definition permission_assert (subject : PermissionSubject) (permission : string) : W Tbl unit :=
  ok ← permission_has subject permission;
  if ok : bool then mret ()
  else throw (ForbiddenError ("This action requires the " ++ permission ++ " permission")).

(** ** RoleManagementService *)

(** The role with its grants and its memberships ([counted] tells which). *)
Definition include_role (counted : string → MembershipRow → bool) (i : string) (r : RoleRow)
  : W Tbl RoleRecord :=
  grants ← role_grants i;
  n ← count d_memberships (λ k m, bool_decide (me_roleId m = i) && counted k m);
  mret (mkRoleRecord i r grants (Some n)).

Fixpoint include_roles (counted : string → MembershipRow → bool) (l : list (string * RoleRow))
  : W Tbl (list RoleRecord) :=
  match l with
  | [] => mret []
  | (i, r) :: l =>
      role ← include_role counted i r; rest ← include_roles counted l; mret (role :: rest)
  end.

(** A system role, or one of the tenant. *)
Definition visible (tenantId : string) (r : RoleRow) : bool :=
  bool_decide (ro_tenantId r = None) && ro_isSystem r || bool_decide (ro_tenantId r = Some tenantId).

(** [order] gives the position of a role in [isSystem] descending, then [name] ascending in
    the collation of the database. *)
Definition role_list (order : string * RoleRow → Z) (tenantId : string) : W Tbl (list RoleView) :=
  roles ← find_many d_roles (λ _ r, visible tenantId r) order None;
  records ← include_roles (λ _ m, bool_decide (me_tenantId m = tenantId)) roles;
  mret (map toView records).

Definition findVisible (id tenantId : string) : W Tbl RoleRecord :=
  role ← find_first d_roles (λ j r, bool_decide (j = id) && visible tenantId r);
  match role with
  | None => throw (NotFoundError "Role" (Some id))
  | Some (i, r) => include_role (λ _ _, true) i r
  end.

Definition role_get (id tenantId : string) : W Tbl RoleView :=
  role ← findVisible id tenantId; mret (toView role).

Definition findMutable (id tenantId : string) : W Tbl RoleRecord :=
  role ← findVisible id tenantId;
  if ro_isSystem (rr_row role) then throw (ForbiddenError "System roles cannot be modified")
  else mret role.

Definition findMember (userId tenantId : string) : W Tbl UserRow :=
  user ← find_first d_users (λ j r, bool_decide (j = userId)
                                    && bool_decide (us_tenantId r = Some tenantId));
  match user with
  | None => throw (NotFoundError "User" (Some userId))
  | Some (_, user) =>
      if bool_decide (us_status user = UActive) then mret user
      else throw (ConflictError "User is not active")
  end.

Definition assertActorHolds (actor : RoleActor) (grants : list string) : W Tbl unit :=
  held ← getEffectivePermissions (subject_of actor);
  match filter (λ g, g ∉ held) grants with
  | [] => mret ()
  | missing => throw (ForbiddenError ("You cannot grant permissions you do not hold: "
                                      ++ join ", " missing))
  end.

(** [{ resource, action }] of [grant.split(':')] *)
Definition names_permission (grant : string) (p : PermissionRow) : bool :=
  match split_on ":" grant with
  | resource :: action :: _ =>
      bool_decide (pe_resource p = resource) && bool_decide (pe_action p = action)
  | [resource] => bool_decide (pe_resource p = resource)
  | [] => true
  end.

Definition resolveGrantable (actor : RoleActor) (grants : list string) : W Tbl (list string) :=
  let unique := dedup grants in
  match filter (λ g, isTenantPermission g = false) unique with
  | [] =>
      _ ← assertActorHolds actor unique;
      rows ← find_many d_permissions (λ _ p, existsb (λ g, names_permission g p) unique)
               (λ _, 0) None;
      if bool_decide (length rows = length unique) then mret rows.*1
      else throw (validation_error "Permission catalog is not initialised")
  | invalid => throw (validation_error ("Permissions cannot be granted: " ++ join ", " invalid))
  end.

Definition role_audit (actor : RoleActor) (action resourceId : string)
    (detail : list (string * Json)) : W Tbl unit :=
  audit_create (mkAudit (Some (ra_tenantId actor)) (Some (ra_id actor)) (Some (ra_role actor))
    action (if bool_decide (action = "ROLE_CHANGE") then "users" else "roles")
    (Some resourceId) None (Some detail) None None []).

(** [rolePermission.create] for every identifier. *)
Definition link_permissions (now : Z) (roleId : string) (permissionIds : list string) : W Tbl unit :=
  for_each (λ p, create_row d_rolePermissions
                   (λ _ l, bool_decide (rp_roleId l = roleId) && bool_decide (rp_permissionId l = p))
                   (λ db, refers (d_roles db) (Some roleId) && refers (d_permissions db) (Some p))
                   (pair_key roleId p) (mkRolePermissionRow roleId p now)) permissionIds.

Definition create_role_rows (actor : RoleActor) (i name displayName : string)
    (description : option string) (permissionIds : list string) : W Tbl unit :=
  now ← get_now;
  _ ← create_row d_roles
        (λ _ r, bool_decide (ro_tenantId r = Some (ra_tenantId actor)) && bool_decide (ro_name r = name))
        (λ db, refers (d_tenants db) (Some (ra_tenantId actor))) i
        (mkRoleRow (Some (ra_tenantId actor)) name displayName description false now now);
  link_permissions now i permissionIds.

Definition role_create' (actor : RoleActor) (name displayName : string)
    (description : option string) (permissions : list string) : W Tbl RoleView :=
  if includes SYSTEM_ROLE_NAMES (toUpperCase name)
  then throw (validation_error "Role name is reserved for a system role")
  else
    permissionIds ← resolveGrantable actor permissions;
    existing ← find_first d_roles (λ _ r, bool_decide (ro_tenantId r = Some (ra_tenantId actor))
                                          && bool_decide (ro_name r = name));
    match existing with
    | Some _ => throw (ConflictError "A role with this name already exists")
    | None =>
        i ← draw;
        now ← get_now;
        _ ← transaction (create_role_rows actor i name displayName description permissionIds);
        role ← include_role (λ _ _, true) i
                 (mkRoleRow (Some (ra_tenantId actor)) name displayName description false now now);
        _ ← role_audit actor "CREATE" i [("permissions", jstrs permissions)];
        mret (toView role)
    end.

(** The classes of the members of a role, each once. *)
Definition member_classes (roleId : string) : W Tbl (list string) :=
  members ← find_many d_memberships (λ _ m, bool_decide (me_roleId m = roleId)) (λ _, 0) None;
  users ← gets (λ w, d_users (w_db w));
  mret (dedup (omap (λ '(_, m), (role_string ∘ us_role) <$> findUnique (me_userId m) users) members)).

Definition assertMembersWithinBoundary (roleId : string) (grants : list string) : W Tbl unit :=
  classes ← member_classes roleId;
  for_each (λ c, match grantsOutsideBoundary c grants with
                 | [] => mret ()
                 | _ => throw (ConflictError ("Role has " ++ c
                                 ++ " members that cannot hold these permissions"))
                 end) classes.

Definition role_update_data (now : Z) (displayName description : option string) (r : RoleRow)
  : RoleRow :=
  r <| ro_displayName ::= assign_column displayName |>
    <| ro_description ::= assign_column (Some <$> description) |>
    <| ro_updatedAt := now |>.

Definition update_role_rows (roleId : string) (permissionIds : option (list string))
    (displayName description : option string) : W Tbl RoleRecord :=
  now ← get_now;
  _ ← (match permissionIds with
       | Some ids =>
           _ ← delete_many d_rolePermissions (λ _ l, bool_decide (rp_roleId l = roleId));
           link_permissions now roleId ids
       | None => mret ()
       end);
  r ← update_one d_roles roleId (role_update_data now displayName description);
  include_role (λ _ _, true) roleId r.

Definition role_update (actor : RoleActor) (id : string) (displayName description : option string)
    (permissions : option (list string)) : W Tbl RoleView :=
  role ← findMutable id (ra_tenantId actor);
  permissionIds ← (match permissions with
                   | Some grants =>
                       ids ← resolveGrantable actor grants;
                       _ ← assertMembersWithinBoundary (rr_id role) grants;
                       mret (Some ids)
                   | None => mret None
                   end);
  updated ← transaction (update_role_rows (rr_id role) permissionIds displayName description);
  _ ← role_audit actor "UPDATE" (rr_id role)
        (("before", jstrs (rv_permissions (toView role)))
         :: match permissions with Some l => [("after", jstrs l)] | None => [] end);
  mret (toView updated).

(** [role.delete]: the database deletes the grants and the memberships with it. *)
Definition delete_role_rows (id : string) : W Tbl unit :=
  role ← find_unique d_roles id;
  match role with
  | None => throw (PrismaError "P2025" "Record to delete does not exist.")
  | Some _ =>
      _ ← delete_many d_roles (λ j _, bool_decide (j = id));
      _ ← delete_many d_rolePermissions (λ _ l, bool_decide (rp_roleId l = id));
      _ ← delete_many d_memberships (λ _ m, bool_decide (me_roleId m = id)); mret ()
  end.

Definition role_remove (actor : RoleActor) (id : string) : W Tbl unit :=
  role ← findMutable id (ra_tenantId actor);
  _ ← delete_role_rows (rr_id role);
  role_audit actor "DELETE" (rr_id role) [("name", jstr (ro_name (rr_row role)))].

(** The members of a role; [collate] is the collation of the database. *)
Definition role_listMembers (collate : string → Z) (id tenantId : string)
  : W Tbl (list (string * UserRow)) :=
  role ← findVisible id tenantId;
  if ro_isSystem (rr_row role) then
    _ ← check_enum UserRole (ro_name (rr_row role));
    find_many d_users (λ _ u, bool_decide (us_tenantId u = Some tenantId)
                              && bool_decide (role_string (us_role u) = ro_name (rr_row role)))
      (λ kr, collate (us_email kr.2)) (Some 500%nat)
  else
    memberships ← find_many d_memberships
      (λ _ m, bool_decide (me_roleId m = rr_id role) && bool_decide (me_tenantId m = tenantId))
      (λ kr, me_createdAt kr.2) None;
    users ← gets (λ w, d_users (w_db w));
    mret (omap (λ '(_, m), (λ u, (me_userId m, u)) <$> findUnique (me_userId m) users) memberships).

(** The roles of a user, without their member counts; Prisma drops no membership, its role
    being a foreign key. *)
Definition role_listUserRoles (userId tenantId : string) : W Tbl (list RoleView) :=
  memberships ← find_many d_memberships
    (λ _ m, bool_decide (me_userId m = userId) && bool_decide (me_tenantId m = tenantId))
    (λ _, 0) None;
  roles ← gets (λ w, d_roles (w_db w));
  records ← include_roles (λ _ _, false)
    (omap (λ '(_, m), (λ r, (me_roleId m, r)) <$> findUnique (me_roleId m) roles) memberships);
  mret (map (λ r, toView (mkRoleRecord (rr_id r) (rr_row r) (rr_permissions r) None)) records).

Definition role_assign (actor : RoleActor) (roleId userId : string) : W Tbl unit :=
  if bool_decide (ra_id actor = userId)
  then throw (ForbiddenError "You cannot change your own roles")
  else
    role ← findMutable roleId (ra_tenantId actor);
    target ← findMember userId (ra_tenantId actor);
    let grants := rv_permissions (toView role) in
    match grantsOutsideBoundary (role_string (us_role target)) grants with
    | [] =>
        _ ← assertActorHolds actor grants;
        now ← get_now;
        existing ← find_first d_memberships
          (λ _ m, bool_decide (me_userId m = userId) && bool_decide (me_roleId m = roleId));
        _ ← (match existing with
             | Some _ => mret ()
             | None =>
                 create_row d_memberships
                   (λ _ m, bool_decide (me_userId m = userId) && bool_decide (me_roleId m = roleId))
                   (λ db, refers (d_users db) (Some userId) && refers (d_roles db) (Some roleId)
                          && refers (d_tenants db) (Some (ra_tenantId actor))
                          && refers (d_users db) (Some (ra_id actor)))
                   (pair_key userId roleId)
                   (mkMembershipRow userId roleId (ra_tenantId actor) (Some (ra_id actor)) now)
             end);
        role_audit actor "ROLE_CHANGE" userId [("granted", jstr (ro_name (rr_row role)))]
    | outside =>
        throw (validation_error ("Role grants permissions a " ++ role_string (us_role target)
                 ++ " account cannot hold: " ++ join ", " outside))
    end.

Definition role_unassign (actor : RoleActor) (roleId userId : string) : W Tbl unit :=
  if bool_decide (ra_id actor = userId)
  then throw (ForbiddenError "You cannot change your own roles")
  else
    role ← findMutable roleId (ra_tenantId actor);
    deleted ← delete_many d_memberships
      (λ _ m, bool_decide (me_userId m = userId) && bool_decide (me_roleId m = rr_id role)
              && bool_decide (me_tenantId m = ra_tenantId actor));
    if bool_decide (deleted = 0) then throw (NotFoundError "Role membership" (Some userId))
    else role_audit actor "ROLE_CHANGE" userId [("revoked", jstr (ro_name (rr_row role)))].
End service.
