(* ===== verification/RoleFacts.v ===== *)
(** * Nobody gains a permission by handing out roles

    The effective permissions of a user as a fact about the tables, and the theorem that
    the operations on roles never give anyone a permission that neither they nor the actor
    held before. *)

From Stdlib Require Import Ascii String.
From S2P Require Import Prelude Store Js Errors Domain Ticket Customer Tenant User Permissions.
From S2P Require Import Schema World Outbox Logs Frames Repositories Roles.

#[local] Open Scope string_scope.
#[local] Open Scope Z_scope.
#[local] Set Default Proof Using "Type*".

#[local] Notation memberships w := (rows_of d_memberships w).
#[local] Notation links w := (rows_of d_rolePermissions w).
#[local] Notation permissions w := (rows_of d_permissions w).
#[local] Notation roles w := (rows_of d_roles w).

(** The class boundary of an account, by the name of its class. *)
Definition within_boundary (accountClass g : string) : Prop :=
  ∃ c, account_class accountClass = Some c ∧ g ∈ CLASS_BOUNDARY c.

Lemma effective_grants accountClass grants g :
  g ∈ computeEffectivePermissions accountClass grants ↔
  g ∈ computeEffectivePermissions accountClass [] ∨ (g ∈ grants ∧ within_boundary accountClass g).
Proof.
  unfold computeEffectivePermissions, within_boundary.
  destruct (account_class accountClass) as [c|]; [|set_solver].
  rewrite !effective_fold. split.
  - intros [?|(? & ? & ?)]; [by left; left|right; eauto].
  - intros [[?|(Hn & _)]|(? & c' & Heq & ?)]; [by left|by apply elem_of_nil in Hn|right].
    injection Heq as <-. eauto with omni.
Qed.

Section facts.
Context {Tbl : Type → Type} `{!Prisma Tbl}.
Implicit Types (w : World Tbl).

(** Role [roleId] grants [g]. *)
Definition role_has w (roleId g : string) : Prop :=
  ∃ k l p, links w !! k = Some l ∧ rp_roleId l = roleId ∧
    permissions w !! rp_permissionId l = Some p ∧ g = permission_key p.

(** A role of the user in the organization grants [g]. *)
Definition granted w (userId tenantId g : string) : Prop :=
  ∃ k m, memberships w !! k = Some m ∧ me_userId m = userId ∧ me_tenantId m = tenantId ∧
    role_has w (me_roleId m) g.

Definition effective w (s : PermissionSubject) : gset string :=
  match (getEffectivePermissions s w).1 with Ok held => held | Err _ => ∅ end.

Lemma role_grants_run roleId w :
  ∃ gs, role_grants roleId w = (Ok gs, w) ∧ ∀ g, g ∈ gs ↔ role_has w roleId g.
Proof.
  unfold role_grants, find_many, gets, mbind, M_bind, mret, M_ret. eexists. split; [done|].
  intros g. unfold role_has. rewrite list_elem_of_omap. split.
  - intros ([k l] & Hl & Hg). apply findMany_elem in Hl as [Hl Hr]. bool_to_prop.
    rewrite findUnique_rows in Hg. apply fmap_Some in Hg as (p & Hp & ->). eauto 10.
  - intros (k & l & p & Hl & Hr & Hp & ->). exists (k, l). split.
    + apply findMany_all. split; [done|]. by apply bool_decide_eq_true.
    + rewrite findUnique_rows. unfold rows_of in Hp. by rewrite Hp.
Qed.

Lemma grants_of_roles_run ms w :
  ∃ gs, grants_of_roles ms w = (Ok gs, w) ∧
    ∀ g, g ∈ gs ↔ ∃ k m, (k, m) ∈ ms ∧ role_has w (me_roleId m) g.
Proof.
  induction ms as [|[k m] ms (gs & E & Hgs)].
  - eexists. split; [done|]. set_solver.
  - destruct (role_grants_run (me_roleId m) w) as (gs1 & E1 & Hgs1).
    exists (gs1 ++ gs)%list. cbn [grants_of_roles]. unfold mbind, M_bind. rewrite E1, E.
    split; [done|]. intros g. rewrite elem_of_app, Hgs, Hgs1. set_solver.
Qed.

Lemma effective_run s w : getEffectivePermissions s w = (Ok (effective w s), w).
Proof.
  assert (∃ held, getEffectivePermissions s w = (Ok held, w)) as [held E];
    [|unfold effective; by rewrite E].
  unfold getEffectivePermissions, find_many, gets, mbind, M_bind, mret, M_ret.
  destruct (sb_tenantId s) as [t|]; [|eauto]. destruct (str_truthy t); [|eauto].
  match goal with |- context [grants_of_roles ?ms w] =>
    destruct (grants_of_roles_run ms w) as (gs & -> & _) end. eauto.
Qed.

Lemma effective_elem s w g :
  g ∈ effective w s ↔
  g ∈ computeEffectivePermissions (sb_role s) [] ∨
  (within_boundary (sb_role s) g ∧
   ∃ t, sb_tenantId s = Some t ∧ t ≠ "" ∧ granted w (sb_id s) t g).
Proof.
  unfold effective, getEffectivePermissions, find_many, gets, mbind, M_bind, mret, M_ret.
  destruct (sb_tenantId s) as [t|]; [|set_solver].
  destruct (str_truthy t) eqn:Ht; cbn [fst].
  - match goal with |- context [grants_of_roles ?ms w] =>
      destruct (grants_of_roles_run ms w) as (gs & -> & Hgs) end. cbn [fst].
    rewrite effective_grants, Hgs. unfold granted. split; (intros [?|H]; [by left|right]).
    + destruct H as ((k & m & Hm & Hh) & Hb). apply findMany_elem in Hm as [Hm Hp]. bool_to_prop.
      split; [done|]. exists t. split_and!; [done|by destruct t|]. eauto 10.
    + destruct H as (Hb & t' & [= <-] & _ & k & m & Hm & Hu & Htm & Hh). split; [|done].
      exists k, m. split; [|done]. apply findMany_all. split; [done|].
      by rewrite !bool_decide_eq_true_2.
  - split; [by left|]. intros [?|(_ & t' & [= <-] & Hne & _)]; [done|]. by destruct t.
Qed.

(** ** What the checks establish *)

Lemma assertActorHolds_ok actor grants w u w' :
  assertActorHolds actor grants w = (Ok u, w') →
  w' = w ∧ ∀ g, g ∈ grants → g ∈ effective w (subject_of actor).
Proof.
  unfold assertActorHolds, mbind, M_bind. rewrite effective_run.
  destruct (filter _ grants) as [|x l] eqn:E; [|done]. intros H. unfold mret, M_ret in H. inv_ok.
  split; [done|]. intros g Hg. destruct (decide (g ∈ effective w' (subject_of actor))); [done|].
  assert (g ∈ filter (λ g, g ∉ effective w' (subject_of actor)) grants) as Hin
    by by apply list_elem_of_filter.
  rewrite E in Hin. by apply not_elem_of_nil in Hin.
Qed.

Lemma tenant_permission_key g p :
  isTenantPermission g = true → names_permission g p = true → permission_key p = g.
Proof.
  unfold isTenantPermission, names_permission, permission_key. intros Hg%includes_true.
  assert (Hall : forallb (λ g, match split_on ":" g with
                               | [r; a] => bool_decide (r ++ ":" ++ a = g)
                               | _ => false
                               end) TENANT_PERMISSIONS = true) by by vm_compute.
  rewrite forallb_forall in Hall. apply list_elem_of_In, Hall in Hg.
  destruct (split_on ":" g) as [|r [|a [|]]]; try done. bool_to_prop.
  intros Hp. bool_to_prop. congruence.
Qed.

(** The permissions a list of grants resolves to are all held by the actor. *)
Lemma resolveGrantable_ok actor grants w ids w' :
  resolveGrantable actor grants w = (Ok ids, w') →
  w' = w ∧ ∀ i, i ∈ ids → ∃ p, permissions w !! i = Some p ∧
    permission_key p ∈ effective w (subject_of actor).
Proof.
  unfold resolveGrantable. destruct (filter _ (dedup grants)) as [|x l] eqn:Hf; [|done].
  intros H. inv_ok.
  match goal with E : assertActorHolds _ _ _ = _ |- _ =>
    apply assertActorHolds_ok in E as [-> Hheld] end.
  unfold find_many, gets in *. inv_ok. case_match; [|done]. unfold mret, M_ret in H. inv_ok.
  split; [done|]. intros i ([i' p] & -> & Hp)%list_elem_of_fmap. cbn.
  apply findMany_elem in Hp as [Hp Hn]. exists p. split; [exact Hp|].
  apply existsb_exists in Hn as (g & Hg%list_elem_of_In & Hn).
  assert (isTenantPermission g = true) as Ht.
  { destruct (isTenantPermission g) eqn:E; [done|].
    assert (g ∈ filter (λ g, isTenantPermission g = false) (dedup grants)) as Hin
      by by apply list_elem_of_filter.
    rewrite Hf in Hin. by apply not_elem_of_nil in Hin. }
  rewrite (tenant_permission_key g p Ht Hn). by apply Hheld.
Qed.

(** New links belong to the role and to the permissions named. *)
Lemma link_permissions_ok now roleId ids w u w' :
  link_permissions now roleId ids w = (Ok u, w') →
  ∀ k l, links w' !! k = Some l →
    links w !! k = Some l ∨ (rp_roleId l = roleId ∧ rp_permissionId l ∈ ids).
Proof.
  unfold link_permissions. revert w. induction ids as [|p ids IH]; intros w H k l Hl.
  - simpl in H. unfold mret, M_ret in H. inv_ok. by left.
  - cbn [for_each] in H. inv_ok. destruct (IH _ H k l Hl) as [Hk|[? ?]]; [|right; set_solver].
    match goal with E : create_row _ _ _ _ _ _ = _ |- _ =>
      apply (create_row_ok d_rolePermissions) in E as (_ & _ & Hrows & _) end.
    rewrite Hrows in Hk. apply lookup_insert_Some in Hk as [[_ <-]|[_ Hk]]; [|by left].
    right. cbn. set_solver.
Qed.

(** ** The operations *)

Lemma include_role_keeps {X} (obs : World Tbl → X) counted i r : Keeps obs (include_role counted i r).
Proof. keeps_tac. Qed.

Lemma findMutable_ok id tenantId w role w' :
  findMutable id tenantId w = (Ok role, w') →
  w' = w ∧ rr_id role = id ∧ is_Some (roles w !! id) ∧
  ∀ g, g ∈ rv_permissions (toView role) ↔ role_has w id g.
Proof.
  unfold findMutable, findVisible. intros H. inv_ok. case_match; [done|].
  match goal with E : find_first _ _ _ = (Ok ?o, _) |- _ => destruct o as [[j r]|]; [|done];
    apply find_first_some in E as (-> & Hr & Hp) end.
  unfold include_role, mret, M_ret in *. inv_ok. bool_to_prop. subst.
  rewrite count_run in *. inv_ok.
  match goal with E : role_grants _ ?w0 = _ |- _ =>
    destruct (role_grants_run id w0) as (gs & E' & Hgs); rewrite E' in E end. inv_ok.
  split_and!; [done|done|eauto|]. intros g. cbn. rewrite <-Hgs. unfold sort_strings.
  by rewrite merge_sort_Permutation.
Qed.

Inductive RoleCommand :=
| RCreate (name displayName : string) (description : option string) (permissions : list string)
| RUpdate (id : string) (displayName description : option string)
    (permissions : option (list string))
| RRemove (id : string)
| RAssign (roleId userId : string)
| RUnassign (roleId userId : string).

Definition run_role (actor : RoleActor) (c : RoleCommand) : W Tbl unit :=
  match c with
  | RCreate name displayName description permissions =>
      _ ← role_create' actor name displayName description permissions; mret ()
  | RUpdate id displayName description permissions =>
      _ ← role_update actor id displayName description permissions; mret ()
  | RRemove id => role_remove actor id
  | RAssign roleId userId => role_assign actor roleId userId
  | RUnassign roleId userId => role_unassign actor roleId userId
  end.

(** The step the theorem needs of every operation. *)
Definition delegates (actor : RoleActor) w w' : Prop :=
  ∀ u t g, granted w' u t g → granted w u t g ∨ g ∈ effective w (subject_of actor).

Lemma delegates_submap actor w w' :
  memberships w' ⊆ memberships w → links w' ⊆ links w → permissions w' = permissions w →
  delegates actor w w'.
Proof.
  intros Hm Hl Hp u t g (k & m & Hk & Hu & Ht & lk & l & p & Hlk & Hr & Hpk & ->). left.
  exists k, m. split_and!; [by eapply lookup_weaken|done|done|].
  exists lk, l, p. rewrite Hp in Hpk. split_and!; [by eapply lookup_weaken|done..].
Qed.

(** New links of one role, to permissions the actor holds. *)
Lemma delegates_links actor roleId (ids : list string) w w' :
  memberships w' = memberships w → permissions w' = permissions w →
  (∀ k l, links w' !! k = Some l →
     links w !! k = Some l ∨ (rp_roleId l = roleId ∧ rp_permissionId l ∈ ids)) →
  (∀ i, i ∈ ids → ∃ p, permissions w !! i = Some p ∧
     permission_key p ∈ effective w (subject_of actor)) →
  delegates actor w w'.
Proof.
  intros Hm Hp Hl Hids u t g (k & m & Hk & Hu & Ht & lk & l & p & Hlk & Hr & Hpk & ->).
  rewrite Hm in Hk. rewrite Hp in Hpk. destruct (Hl _ _ Hlk) as [Hold|[_ Hin]].
  - left. exists k, m. split_and!; [done..|]. exists lk, l, p. done.
  - right. destruct (Hids _ Hin) as (p' & Hp' & He). by simplify_eq.
Qed.

(** The role tables along the runs in the context. *)
Ltac role_frames :=
  keep_all (λ w : World Tbl, d_memberships (w_db w));
  keep_all (λ w : World Tbl, d_permissions (w_db w));
  keep_all (λ w : World Tbl, d_rolePermissions (w_db w)); cbv beta in *.

(** Rewrite every table to its oldest known state. *)
Ltac same_tables :=
  repeat match goal with
  | E : ?f (w_db ?a) = ?f (w_db ?b) |- _ => rewrite E in *; clear E
  end; done.

Lemma delegates_create actor name dn desc perms w r w' :
  w_inTransaction w = false →
  role_create' actor name dn desc perms w = (Ok r, w') → delegates actor w w'.
Proof.
  intros Hin H. unfold role_create' in H. case_match; [done|]. inv_ok.
  match goal with E : resolveGrantable _ _ _ = _ |- _ =>
    apply resolveGrantable_ok in E as [-> Hids] end.
  match goal with E : find_first _ _ _ = _ |- _ => apply find_first_state in E as -> end.
  case_match; [done|]. unfold get_now, gets in H. inv_ok.
  match goal with E : transaction _ ?w0 = _ |- _ => 
    assert (w_inTransaction w0 = false) as Hin0
      by (by match goal with D : draw _ = _ |- _ => apply draw_ok in D as [_ ->]; upd_simpl end);
    apply transaction_inv in E as (w0' & w1 & E & Hd & Hn & _ & Hd1 & _); [|exact Hin0] end.
  unfold create_role_rows, get_now, gets in *. inv_ok.
  role_frames.
  match goal with E : link_permissions _ ?i _ _ = _ |- _ =>
    pose proof (link_permissions_ok _ _ _ _ _ _ E) as Hl;
    apply (delegates_links actor i a); [| | |exact Hids]; unfold rows_of in * end;
    [congruence|congruence|].
  intros k l Hk. destruct (Hl k l) as [Ho|Ho]; [congruence|left; congruence|by right].
Qed.

Lemma delegates_update actor id dn desc perms w r w' :
  w_inTransaction w = false →
  role_update actor id dn desc perms w = (Ok r, w') → delegates actor w w'.
Proof.
  intros Hin H. unfold role_update in H. inv_ok.
  match goal with E : findMutable _ _ _ = _ |- _ =>
    apply findMutable_ok in E as (-> & Hid & _) end.
  match goal with E : match perms with _ => _ end _ = (Ok ?o, ?s) |- _ =>
    assert (s = w ∧ ∀ ids i, o = Some ids → i ∈ ids → ∃ p, permissions w !! i = Some p ∧
              permission_key p ∈ effective w (subject_of actor)) as [-> Hids] end.
  { destruct perms as [l|]; unfold mret, M_ret in *; inv_ok; [|done].
    match goal with E : resolveGrantable _ _ _ = _ |- _ =>
      apply resolveGrantable_ok in E as [-> Hids] end.
    match goal with E : assertMembersWithinBoundary _ _ _ = _ |- _ =>
      apply reads_only in E; [|by keeps_tac] end. subst. split; [done|].
    intros ids i [= <-] Hi. by apply Hids. }
  match goal with E : transaction _ _ = _ |- _ =>
    apply transaction_inv in E as (w0 & w1 & E & Hd & Hn & _ & Hd1 & _); [|exact Hin] end.
  unfold update_role_rows, get_now, gets in *. inv_ok. role_frames.
  match goal with E : match a0 with _ => _ end ?s = (_, ?s') |- _ =>
    assert (∀ k l, links s' !! k = Some l →
      links s !! k = Some l ∨ (rp_roleId l = rr_id a ∧ rp_permissionId l ∈ default [] a0)) as Hl end.
  { destruct a0 as [ids|]; [|unfold mret, M_ret in *; inv_ok; by left]. inv_ok. intros k l Hk.
    match goal with E : link_permissions _ _ _ _ = _ |- _ =>
      destruct (link_permissions_ok _ _ _ _ _ _ E k l Hk) as [Ho|Ho]; [left|by right] end.
    match goal with E : delete_many _ _ _ = _ |- _ =>
      rewrite (delete_many_ok d_rolePermissions _ _ _ _ E) in Ho end.
    apply bind_Some in Ho as (l' & Hl' & Heq). case_match; [done|]. by injection Heq as ->. }
  apply (delegates_links actor (rr_id a) (default [] a0)); unfold rows_of in *;
    [congruence|congruence| |].
  - intros k l Hk. destruct (Hl k l) as [Ho|Ho]; [congruence|left; congruence|by right].
  - intros i Hi. destruct a0 as [ids|]; [by eapply Hids|by apply not_elem_of_nil in Hi].
Qed.

Lemma delete_many_submap {R} (table : Db Tbl → Tbl R) {U : Update table} {G : GetUpdate table}
    p w n w' :
  delete_many table p w = (Ok n, w') → rows_of table w' ⊆ rows_of table w.
Proof.
  intros H. apply map_subseteq_spec. intros i r. rewrite (delete_many_ok table _ _ _ _ H).
  intros (r' & Hr & Heq)%bind_Some. case_match; [done|]. by injection Heq as ->.
Qed.

Lemma delegates_remove actor id w w' :
  role_remove actor id w = (Ok tt, w') → delegates actor w w'.
Proof.
  intros H. unfold role_remove in H. inv_ok.
  match goal with E : findMutable _ _ _ = _ |- _ => apply findMutable_ok in E as (-> & _) end.
  unfold delete_role_rows, find_unique, gets in *. inv_ok. case_match; [|done]. inv_ok.
  unfold mret, M_ret in *. inv_ok. role_frames.
  match goal with L : delete_many d_rolePermissions _ _ = _, M : delete_many d_memberships _ _ = _ |- _ =>
    apply (delete_many_submap d_rolePermissions) in L;
    apply (delete_many_submap d_memberships) in M end.
  apply delegates_submap; unfold rows_of in *; same_tables.
Qed.

Lemma delegates_unassign actor roleId userId w w' :
  role_unassign actor roleId userId w = (Ok tt, w') → delegates actor w w'.
Proof.
  intros H. unfold role_unassign in H. case_bool_decide; [done|]. inv_ok.
  match goal with E : findMutable _ _ _ = _ |- _ => apply findMutable_ok in E as (-> & _) end.
  case_bool_decide; [done|]. role_frames.
  match goal with M : delete_many d_memberships _ _ = _ |- _ =>
    apply (delete_many_submap d_memberships) in M end.
  apply delegates_submap; unfold rows_of in *; same_tables.
Qed.

Lemma delegates_assign actor roleId userId w w' :
  role_assign actor roleId userId w = (Ok tt, w') → delegates actor w w'.
Proof.
  intros H. unfold role_assign in H. case_bool_decide; [done|]. inv_ok.
  match goal with E : findMutable _ _ _ = _ |- _ =>
    apply findMutable_ok in E as (-> & _ & _ & Hgrants) end.
  match goal with E : findMember _ _ _ = _ |- _ => apply reads_only in E; [|by keeps_tac] end.
  subst. case_match; [|done]. unfold get_now, gets in H. inv_ok.
  match goal with E : assertActorHolds _ _ _ = _ |- _ =>
    apply assertActorHolds_ok in E as [-> Hheld] end.
  match goal with E : find_first _ _ _ = _ |- _ => apply find_first_state in E as -> end.
  role_frames.
  assert (∀ k m, memberships w' !! k = Some m →
    memberships w !! k = Some m ∨ me_roleId m = roleId) as Hm.
  { intros k m Hk. case_match; unfold mret, M_ret in *; inv_ok;
      [left; unfold rows_of in *; congruence|].
    match goal with E : create_row _ _ _ _ _ _ = _ |- _ =>
      apply (create_row_ok d_memberships) in E as (_ & _ & Hrows & _) end.
    unfold rows_of in *.
    match goal with E : d_memberships (w_db w') = _ |- _ => rewrite E, Hrows in Hk end. apply lookup_insert_Some in Hk as [[_ <-]|[_ Hk]]; [by right|by left]. }
  intros u t g (k & m & Hk & Hu & Ht & lk & l & p & Hlk & Hr & Hpk & ->).
  assert (role_has w (me_roleId m) (permission_key p)) as Hhas.
  { exists lk, l, p. unfold rows_of in *. split_and!; congruence. }
  destruct (Hm _ _ Hk) as [Ho|Ho].
  - left. exists k, m. done.
  - right. apply Hheld. rewrite Hgrants. congruence.
Qed.

(** C18: No operation on roles gives anyone a permission that neither they nor the actor held
    before; in particular nobody extends their own permissions.  This holds for any user of
    any organization, whatever the class and the roles they have. *)
Theorem no_privilege_escalation actor c w w' :
  w_inTransaction w = false → run_role actor c w = (Ok tt, w') →
  (∀ s g, g ∈ effective w' s → g ∈ effective w s ∨ g ∈ effective w (subject_of actor)) ∧
  effective w' (subject_of actor) ⊆ effective w (subject_of actor).
Proof.
  intros Hin H.
  assert (delegates actor w w') as Hd.
  { destruct c; cbn [run_role] in H; inv_ok; unfold mret, M_ret in H; inv_ok;
      eauto using delegates_create, delegates_update, delegates_remove, delegates_assign,
        delegates_unassign. }
  assert (∀ s g, g ∈ effective w' s → g ∈ effective w s ∨ g ∈ effective w (subject_of actor))
    as Hall; [|split; [done|]; intros g Hg; by destruct (Hall _ _ Hg)].
  intros s g. rewrite (effective_elem s w'), (effective_elem s w).
  intros [Hg|(Hb & t & Ht & Hne & Hg)]; [by left; left|].
  destruct (Hd _ _ _ Hg) as [Ho|Ho]; [left; right; eauto|by right].
Qed.
End facts.

(** ** A concrete organization: a manager gives an agent the analyst role *)

Definition analyst_org : World (gmap string) :=
  let user role := mkUserRow (Some "t1") "a@acme.io" None "Ann" "Lee" role UActive None None
                     "UTC" "en" None None None 0 None (JObj []) 0 0 in
  world_of 1000 (empty_db
    <| d_tenants := {["t1" := mkTenantRecord "Acme" "acme" "ACTIVE" "pro" None None 5 100 10
                                (JObj []) None None 0 0]} |>
    <| d_users := {["m" := user TENANT_MANAGER; "a" := user AGENT]} |>
    <| d_permissions := {["p" := mkPermissionRow "analytics" "read" None 0]} |>
    <| d_roles := {["r" := mkRoleRow (Some "t1") "analyst" "Analyst" None false 0 0]} |>
    <| d_rolePermissions := {["r,p" := mkRolePermissionRow "r" "p" 0]} |>).

Lemma no_privilege_escalation_witness :
  let m := mkRoleActor "m" "TENANT_MANAGER" "t1" in
  ∃ w', run_role m (RAssign "r" "a") analyst_org = (Ok tt, w') ∧
    "analytics:read" ∈ effective w' (mkSubject "a" "AGENT" (Some "t1")) ∧
    effective w' (subject_of m) ⊆ effective analyst_org (subject_of m).
Proof.
  intros m. exists (run_role m (RAssign "r" "a") analyst_org).2.
  assert (run_role m (RAssign "r" "a") analyst_org =
          (Ok tt, (run_role m (RAssign "r" "a") analyst_org).2)) as E by (vm_compute; reflexivity).
  split_and!; [exact E| |exact (proj2 (no_privilege_escalation m (RAssign "r" "a") analyst_org _ eq_refl E))].
  apply (bool_decide_unpack _). vm_compute. exact I.
Defined.
