(* ===== verification/Webhooks.v ===== *)
(** * Inbound WhatsApp messages

    [src/presentation/webhooks/whatsapp.webhook.ts] stores what Twilio posts;
    [WebhookProcessingService] ([src/application/messaging/services]) claims a stored event
    under a lease, parses it ([TwilioWhatsAppProvider]) and hands the message to
    [ProcessInboundWhatsAppHandler], which adds a comment to the open ticket of the sender
    or opens one through [TicketService].  Twilio's signature check is a parameter. *)

From Stdlib Require Import Ascii String.
From S2P Require Import Prelude Store Js Errors Domain Ticket Customer Tenant User Permissions.
From S2P Require Import Schema World Outbox Logs Frames Repositories TicketService.

#[local] Open Scope string_scope.
#[local] Open Scope Z_scope.
#[local] Set Default Proof Using "Type*".

(** [WhatsAppWebhookPayload] *)
Record WhatsAppWebhookPayload := mkInboundMessage {
  wm_from : string;
  wm_to : string;
  wm_body : string;
  wm_messageId : string;
  wm_timestamp : option string;
  wm_mediaUrl : option string;
}.

(** [s.replace(pattern, '')]: the first occurrence. *)
Fixpoint replace_first (pattern s : string) : string :=
  if String.prefix pattern s
  then String.substring (String.length pattern) (String.length s - String.length pattern) s
  else match s with
       | EmptyString => EmptyString
       | String c s => String c (replace_first pattern s)
       end.

Definition text (key : string) (fields : list (string * Json)) : option string :=
  match get_field key fields with Some (JStr s) => Some s | _ => None end.

(** [TwilioWhatsAppProvider.parseInboundMessage]; the fields of a form are strings, and the
    timestamp defaults to the current time. *)
Definition parseInboundMessage (payload : Json) : option WhatsAppWebhookPayload :=
  match payload with
  | JObj fields =>
      match text "From" fields, text "Body" fields, text "To" fields with
      | Some from, Some body, Some to =>
          if str_truthy from && str_truthy body && str_truthy to then
            Some (mkInboundMessage (replace_first "whatsapp:" from) (replace_first "whatsapp:" to)
                    body (default "" (text "MessageSid" fields)) (text "Timestamp" fields)
                    (text "MediaUrl0" fields))
          else None
      | _, _, _ => None
      end
  | _ => None
  end.

(** [value.replace(/\D/g, '')] *)
Definition only_digits (s : string) : string :=
  str_flat_map (λ c, if is_digit c then String c "" else "") s.

Definition normalizePhone (value : string) : string :=
  let trimmed := trim value in
  (if String.prefix "+" trimmed then "+" else "") ++ only_digits trimmed.

Inductive InboundWhatsAppOutcome :=
| Commented (ticketId : string)
| TicketCreated (ticketId : string)
| SkippedMessage (reason : string).

(** ** The states of a stored event *)

Definition W_RECEIVED : string := "RECEIVED".
Definition W_PROCESSING : string := "PROCESSING".
Definition W_PROCESSED : string := "PROCESSED".
Definition W_SKIPPED : string := "SKIPPED".
Definition W_FAILED : string := "FAILED".
Definition W_CANCELLED : string := "CANCELLED".

Definition RETRYABLE_WEBHOOK_STATUSES : list string := [W_RECEIVED; W_SKIPPED; W_FAILED].
Definition LEASE_MS : Z := 5 * 60 * 1000.

Inductive WebhookProcessingOutcome :=
| NotClaimed
| Outcome (status : string) (detail : option string).

Section service.
Context {Tbl : Type → Type} `{!Prisma Tbl}.

(** ** ProcessInboundWhatsAppHandler *)

Definition has_number (target : string) (r : IntegrationRow) : bool :=
  match ig_config r with
  | JObj fields => match get_field "phoneNumber" fields with
                   | Some (JStr phone) => bool_decide (normalizePhone phone = target)
                   | _ => false
                   end
  | _ => false
  end.

Definition resolveTenantId (businessNumber : string) : W Tbl (option string) :=
  integrations ← find_many d_integrations
    (λ _ r, bool_decide (ig_provider r = "whatsapp") && ig_isEnabled r) (λ _, 0) None;
  match filter (λ kr, has_number (normalizePhone businessNumber) kr.2 = true) integrations with
  | [(_, r)] => mret (Some (ig_tenantId r))
  | _ => mret None
  end.

(** [user: { status: 'ACTIVE' }] of a customer link, whose key is the user. *)
Definition active_link (tenantId customerId : string) (users : Tbl UserRow)
    (userId : string) (l : CustomerLinkRow) : bool :=
  bool_decide (cl_tenantId l = tenantId) && bool_decide (cl_customerId l = customerId)
  && bool_decide (us_status <$> findUnique userId users = Some UActive).

Definition thread_of (tenantId customerId from : string) (_ : string) (r : TicketRow) : bool :=
  bool_decide (ti_tenantId r = tenantId) && bool_decide (ti_customerId r = customerId)
  && bool_decide (ti_externalRef r = Some from)
  && negb (bool_decide (ti_status r = RESOLVED)) && negb (bool_decide (ti_status r = CLOSED)).

(** [ProcessInboundWhatsAppHandler.execute] *)
Definition inbound_execute (message : WhatsAppWebhookPayload) : W Tbl InboundWhatsAppOutcome :=
  tenant ← resolveTenantId (wm_to message);
  match tenant with
  | Some tenantId =>
      if str_truthy tenantId then
        let from := normalizePhone (wm_from message) in
        customer ← find_first d_customers
          (λ _ r, bool_decide (cu_tenantId r = tenantId) && bool_decide (cu_phone r = Some from));
        match customer with
        | None => mret (SkippedMessage "Unknown sender")
        | Some (customerId, customer) =>
            users ← gets (λ w, d_users (w_db w));
            link ← find_first d_customerLinks (active_link tenantId customerId users);
            match link with
            | None => mret (SkippedMessage "Customer has no linked user account")
            | Some (authorId, _) =>
                open ← find_many d_tickets (thread_of tenantId customerId from)
                         (λ kr, - ti_createdAt kr.2) (Some 1%nat);
                match open with
                | (ticketId, _) :: _ =>
                    _ ← addComment (mkAddCommentDto tenantId ticketId authorId "CUSTOMER"
                                      (wm_body message) PUBLIC);
                    mret (Commented ticketId)
                | [] =>
                    ticket ← createTicket (mkCreateTicketDto tenantId customerId authorId
                      "CUSTOMER" ("WhatsApp message from " ++ cu_fullName customer)
                      (wm_body message) None None None (Some "whatsapp") None None);
                    now ← get_now;
                    _ ← update_many d_tickets
                          (λ j r, bool_decide (j = t_id ticket) && bool_decide (ti_tenantId r = tenantId))
                          (λ r, r <| ti_externalRef := Some from |> <| ti_updatedAt := now |>);
                    mret (TicketCreated (t_id ticket))
                end
            end
        end
      else mret (SkippedMessage "No organization uses this WhatsApp number")
  | None => mret (SkippedMessage "No organization uses this WhatsApp number")
  end.

(** ** WebhookProcessingService *)

Definition webhook_claimable (now : Z) (r : WebhookRow) : bool :=
  bool_decide (we_eventType r = "WHATSAPP_INBOUND")
  && (includes RETRYABLE_WEBHOOK_STATUSES (we_status r)
      || bool_decide (we_status r = W_PROCESSING)
         && match we_lockedAt r with Some t => t <? now - LEASE_MS | None => false end).

Definition webhook_claim_data (workerId : string) (now : Z) (r : WebhookRow) : WebhookRow :=
  r <| we_status := W_PROCESSING |> <| we_lockedAt := Some now |> <| we_lockedBy := Some workerId |>.

(** The unique index [webhook_events_active_replay_key]: one unfinished replay of an event. *)
Definition active_replay (r : WebhookRow) : option string :=
  if includes [W_RECEIVED; W_PROCESSING; W_FAILED] (we_status r) then we_replayOfId r else None.

Definition webhook_claim (eventId workerId : string) : W Tbl Z :=
  now ← get_now;
  update_many_unique d_webhookEvents active_replay (λ j r, bool_decide (j = eventId) && webhook_claimable now r)
    (webhook_claim_data workerId now).

(** Parsing and handling the payload; what is thrown becomes FAILED. *)
Definition webhook_work (parse : Json → option WhatsAppWebhookPayload) (payload : Json)
  : W Tbl (string * option string) :=
  try_catch
    (match parse payload with
     | None => mret (W_SKIPPED, Some "Payload is not an inbound message")
     | Some m =>
         result ← inbound_execute m;
         match result with
         | SkippedMessage reason => mret (W_SKIPPED, Some reason)
         | _ => mret (W_PROCESSED, None)
         end
     end)
    (λ error, mret (W_FAILED, Some (message error))).

Definition webhook_done_data (now : Z) (status : string) (detail : option string)
    (r : WebhookRow) : WebhookRow :=
  r <| we_status := status |> <| we_processed := bool_decide (status = W_PROCESSED) |>
    <| we_processedAt := Some now |> <| we_error := slice0 2000 <$> detail |>
    <| we_lockedAt := None |> <| we_lockedBy := None |>
    <| we_retryCount ::= λ n, if bool_decide (status = W_FAILED) then n + 1 else n |>.

Definition webhook_process (parse : Json → option WhatsAppWebhookPayload) (eventId : string)
  : W Tbl WebhookProcessingOutcome :=
  workerId ← draw;
  claimed ← webhook_claim eventId workerId;
  if negb (bool_decide (claimed = 1)) then mret NotClaimed
  else
    event ← find_unique d_webhookEvents eventId;
    match event with
    | None => throw (PrismaError "P2025" "No WebhookEvent found")
    | Some event =>
        '(status, detail) ← webhook_work parse (we_payload event);
        now ← get_now;
        _ ← update_many d_webhookEvents
              (λ j r, bool_decide (j = eventId) && bool_decide (we_lockedBy r = Some workerId))
              (webhook_done_data now status detail);
        mret (Outcome status detail)
    end.

(** ** The webhook routes *)

Definition recordEvent (eventType : string) (payload : Json) (signature : string)
  : W Tbl string :=
  i ← draw;
  now ← get_now;
  _ ← create_row d_webhookEvents (λ _ _, false) (λ _, true) i
        (mkWebhookRow None eventType "twilio" payload (Some signature) false None None 0
           W_RECEIVED None None None now);
  mret i.

(** The HTTP status of [POST /inbound], after which the event is processed; [verify] is
    [verifyWebhook] for the signature header. *)
Definition post_inbound (verify : string → string → Json → bool)
    (parse : Json → option WhatsAppWebhookPayload) (signature : option string) (body : Json)
  : W Tbl Z :=
  match signature with
  | Some s =>
      if str_truthy s && verify s "/inbound" body then
        match parse body with
        | None => mret 200
        | Some _ =>
            i ← recordEvent "WHATSAPP_INBOUND" body s;
            _ ← try_catch (_ ← webhook_process parse i; mret ()) (λ _, mret ());
            mret 200
        end
      else mret 403
  | None => mret 403
  end.

Definition post_status (verify : string → string → Json → bool) (signature : option string)
    (body : Json) : W Tbl Z :=
  match signature with
  | Some s =>
      if str_truthy s && verify s "/status" body
      then _ ← recordEvent "WHATSAPP_STATUS" body s; mret 200
      else mret 403
  | None => mret 403
  end.
End service.
