(* ===== verification/WebhookFacts.v ===== *)
(** * What becomes of an inbound message

    A stored event is processed by one worker at a time and always ends in a final or
    retryable state; a message acts only on the one organization that owns the number, for
    the customer with that phone and the linked account. *)

From Stdlib Require Import Ascii String.
From S2P Require Import Prelude Store Js Errors Domain Ticket Customer Tenant User Permissions.
From S2P Require Import Schema World Outbox Logs Frames Repositories TicketService Webhooks.

#[local] Open Scope string_scope.
#[local] Open Scope Z_scope.
#[local] Set Default Proof Using "Type*".

#[local] Notation webhooks w := (rows_of d_webhookEvents w).
#[local] Notation integrations w := (rows_of d_integrations w).

Section facts.
Context {Tbl : Type → Type} `{!Prisma Tbl}.
Implicit Types (w : World Tbl).

(** ** The claim *)

(** The unique index of the database: no event has two unfinished replays. *)
Definition replays_unique w : Prop := index_ok active_replay (webhooks w).

(** Another unfinished replay of the event that [r], stored as [id], replays. *)
Definition rival_replay w (id : string) (r : WebhookRow) : Prop :=
  map_Exists (λ j r', j ≠ id ∧ active_replay r' = we_replayOfId r ∧ we_replayOfId r ≠ None)
    (webhooks w).

#[local] Instance rival_dec w id r : Decision (rival_replay w id r).
Proof. unfold rival_replay. apply _. Defined.

Definition claim_where (id : string) (now : Z) (j : string) (r : WebhookRow) : bool :=
  bool_decide (j = id) && webhook_claimable now r.

Lemma claim_where_key id now j r : claim_where id now j r = true → j = id.
Proof. unfold claim_where. intros H. by bool_to_prop. Qed.

Lemma claim_where_id id now r : claim_where id now id r = webhook_claimable now r.
Proof. unfold claim_where. by rewrite bool_decide_eq_true_2. Qed.

Lemma claim_where_other id now j r : j ≠ id → claim_where id now j r = false.
Proof. unfold claim_where. intros H. by rewrite bool_decide_eq_false_2. Qed.

(** The statement of the claim as a plain [updateMany]. *)
Lemma claim_update id worker w :
  ∃ n w', update_many d_webhookEvents (claim_where id (w_now w))
            (webhook_claim_data worker (w_now w)) w = (Ok n, w') ∧ w_now w' = w_now w ∧
    match webhooks w !! id with
    | Some r =>
        if webhook_claimable (w_now w) r
        then n = 1 ∧ webhooks w' = <[id := webhook_claim_data worker (w_now w) r]> (webhooks w)
        else n = 0 ∧ webhooks w' = webhooks w
    | None => n = 0 ∧ webhooks w' = webhooks w
    end.
Proof.
  set (p := claim_where _ _). set (d := webhook_claim_data _ _).
  destruct (update_many_run d_webhookEvents p d w) as (n & w' & E & Hn & _).
  pose proof (update_many_rows d_webhookEvents p d w) as Hr.
  pose proof (update_many_now d_webhookEvents p d w) as Hnow. rewrite E in Hr, Hnow.
  exists n, w'. split_and!; [exact E|exact Hnow|]. cbn [snd] in Hr.
  rewrite (size_matching_key p _ id (claim_where_key _ _)) in Hn.
  assert (∀ j, j ≠ id → webhooks w' !! j = webhooks w !! j) as Hother.
  { intros j Hj. rewrite Hr. destruct (webhooks w !! j) as [r|]; [|done]. simpl. unfold p.
    by rewrite claim_where_other. }
  assert (∀ r, p id r = webhook_claimable (w_now w) r) as Hpid by (intros r; apply claim_where_id).
  destruct (webhooks w !! id) as [r|] eqn:Hid; [rewrite Hpid in Hn; case_match eqn:Hc|].
  all: split; [done|]; apply map_eq; intros j; destruct (decide (j = id)) as [->|Hne];
    [rewrite Hr, Hid; simpl; rewrite ?Hpid, ?Hc, ?lookup_insert_eq, ?Hid; done|].
  all: rewrite ?lookup_insert_ne by done; by apply Hother.
Qed.

(** The index allows the claim unless the event is a replay with a rival. *)
Lemma claim_index id worker now w :
  replays_unique w →
  ¬ index_ok active_replay (map_imap (λ i r, Some (if claim_where id now i r
                              then webhook_claim_data worker now r else r)) (webhooks w)) →
  ∃ r, webhooks w !! id = Some r ∧ webhook_claimable now r = true ∧ rival_replay w id r.
Proof.
  intros Hok Hbad. destruct (webhooks w !! id) as [r|] eqn:Hid.
  2: { destruct Hbad. replace (map_imap _ _) with (webhooks w); [done|].
       apply map_eq. intros j. rewrite map_lookup_imap. destruct (webhooks w !! j) as [r|] eqn:Hj; [|done].
       simpl. rewrite claim_where_other; [done|congruence]. }
  destruct (webhook_claimable now r) eqn:Hc.
  2: { destruct Hbad. replace (map_imap _ _) with (webhooks w); [done|].
       apply map_eq. intros j. rewrite map_lookup_imap. destruct (webhooks w !! j) as [r'|] eqn:Hj; [|done].
       simpl. destruct (decide (j = id)) as [->|Hne]; [|by rewrite claim_where_other].
       simplify_eq. by rewrite claim_where_id, Hc. }
  exists r. split_and!; [done|done|].
  destruct (decide (rival_replay w id r)) as [|Hno]; [done|]. destruct Hbad.
  assert (∀ j r' k, j ≠ id → webhooks w !! j = Some r' → active_replay r' = Some k →
    active_replay (webhook_claim_data worker now r) = Some k → False) as Hrival.
  { intros j r' k Hj Hr' Hk Hd. apply Hno. exists j, r'. split; [done|]. assert (we_replayOfId r = Some k) as -> by (by destruct r). done. }
  intros i j ri rj k Hi Hj Hki Hkj. rewrite map_lookup_imap in Hi, Hj.
  destruct (webhooks w !! i) as [xi|] eqn:Ei, (webhooks w !! j) as [xj|] eqn:Ej; simplify_eq/=.
  destruct (decide (i = id)) as [->|Hni], (decide (j = id)) as [->|Hnj]; simplify_eq; [done|..];
    rewrite ?(claim_where_other id now i) in * by done;
    rewrite ?(claim_where_other id now j) in * by done;
    rewrite ?claim_where_id, ?Hc in *; [exfalso; by eapply Hrival..|by eapply Hok].
Qed.

(** The claim: refused by the index, or the plain update above. *)
Lemma webhook_claim_run id worker w :
  replays_unique w →
  ((∃ r, webhooks w !! id = Some r ∧ webhook_claimable (w_now w) r = true ∧ rival_replay w id r) ∧
   webhook_claim id worker w = (Err (PrismaError "P2002" "Unique constraint failed"), w)) ∨
  ∃ n w', webhook_claim id worker w = (Ok n, w') ∧ w_now w' = w_now w ∧
    match webhooks w !! id with
    | Some r =>
        if webhook_claimable (w_now w) r
        then n = 1 ∧ webhooks w' = <[id := webhook_claim_data worker (w_now w) r]> (webhooks w)
        else n = 0 ∧ webhooks w' = webhooks w
    | None => n = 0 ∧ webhooks w' = webhooks w
    end.
Proof.
  intros Hok. unfold webhook_claim, get_now, gets, mbind, M_bind.
  change (λ j r, bool_decide (j = id) && webhook_claimable (w_now w) r)
    with (claim_where id (w_now w)).
  destruct (update_many_unique_run d_webhookEvents active_replay (claim_where id (w_now w))
              (webhook_claim_data worker (w_now w)) w) as [[_ ->]|[Hbad ->]].
  - right. apply claim_update.
  - left. split; [|done]. by apply claim_index in Hbad.
Qed.

Lemma inbound_keeps_webhooks m : Keeps (λ w : World Tbl, d_webhookEvents (w_db w)) (inbound_execute m).
Proof. keeps_tac. Qed.

Lemma inbound_keeps_now m : Keeps (λ w : World Tbl, w_now w) (inbound_execute m).
Proof. keeps_tac. Qed.

(** Processing the payload always returns a final status and leaves the stored events
    alone. *)
Lemma webhook_work_run parse payload w :
  ∃ status detail w', webhook_work parse payload w = (Ok (status, detail), w') ∧
    status ∈ [W_PROCESSED; W_SKIPPED; W_FAILED] ∧ webhooks w' = webhooks w ∧ w_now w' = w_now w.
Proof.
  unfold webhook_work, try_catch. destruct (parse payload) as [m|].
  - pose proof (inbound_keeps_webhooks m w) as Hk. pose proof (inbound_keeps_now m w) as Hn.
    unfold mbind, M_bind. destruct (inbound_execute m w) as [[out|e] w1]; cbn in Hk, Hn.
    + unfold rows_of. destruct out; do 3 eexists; (split; [done|]); rewrite Hk;
        (split; [set_solver|done]).
    + unfold rows_of. do 3 eexists. split; [done|]. rewrite Hk. split; [set_solver|done].
  - do 3 eexists. split; [done|]. split; [set_solver|done].
Qed.

(** [webhook_process] up to its claim. *)
Lemma webhook_process_claims parse id w :
  replays_unique w → ∃ worker w0, w_db w0 = w_db w ∧ webhooks w0 = webhooks w ∧ w_now w0 = w_now w ∧ replays_unique w0 ∧
    rows_of d_tickets w0 = rows_of d_tickets w ∧ rows_of d_comments w0 = rows_of d_comments w ∧
    webhook_process parse id w =
      (claimed ← webhook_claim id worker;
       if negb (bool_decide (claimed = 1)) then mret NotClaimed
       else
         event ← find_unique d_webhookEvents id;
         match event with
         | None => throw (PrismaError "P2025" "No WebhookEvent found")
         | Some event =>
             '(status, detail) ← webhook_work parse (we_payload event);
             now ← get_now;
             _ ← update_many d_webhookEvents
                   (λ j r, bool_decide (j = id) && bool_decide (we_lockedBy r = Some worker))
                   (webhook_done_data now status detail);
             mret (Outcome status detail)
         end) w0.
Proof.
  intros Hok. exists (w_uuid w (w_draws w + 0)%nat), (w <| w_draws ::= Nat.add 1 |>).
  unfold replays_unique, rows_of in *. by upd_simpl.
Qed.

(** The claim writes the stored events only. *)
Lemma webhook_claim_db id worker w n w' :
  webhook_claim id worker w = (Ok n, w') → ∃ t, w_db w' = (w_db w) <| d_webhookEvents := t |>.
Proof.
  unfold webhook_claim, get_now, gets, mbind, M_bind, update_many_unique.
  destruct (updateMany _ _ _) as [k t]. case_bool_decide; intros E; inv_ok. exists t. by upd_simpl.
Qed.

(** How the handling of a message settles its event. *)
Definition settlement (handled : result error InboundWhatsAppOutcome) : string * option string :=
  match handled with
  | Ok (SkippedMessage reason) => ("SKIPPED", Some reason)
  | Ok _ => ("PROCESSED", None)
  | Err e => ("FAILED", Some (message e))
  end.

Lemma webhook_work_settles parse payload w :
  ∃ status detail w', webhook_work parse payload w = (Ok (status, detail), w') ∧
    (status, detail) = match parse payload with
                       | None => ("SKIPPED", Some "Payload is not an inbound message")
                       | Some m => settlement (inbound_execute m w).1
                       end ∧
    status ∈ [W_PROCESSED; W_SKIPPED; W_FAILED] ∧ webhooks w' = webhooks w ∧ w_now w' = w_now w.
Proof.
  destruct (webhook_work_run parse payload w) as (status & detail & w' & E & H).
  exists status, detail, w'. split; [done|]. split; [|exact H]. clear H.
  unfold webhook_work, try_catch, mbind, M_bind, mret, M_ret in E.
  destruct (parse payload) as [m|]; [|by injection E as <- <- _].
  destruct (inbound_execute m w) as [[[]|e] w1]; cbn; by injection E as <- <- _.
Qed.


(** One worker at a time: while the lease of a claim lasts, and for ever once an event is
    processed or cancelled, another call to process it changes no stored event and runs no
    handler. *)
Theorem webhook_exclusive parse id w r :
  replays_unique w → webhooks w !! id = Some r →
  (we_status r = W_PROCESSING ∧ (∃ t, we_lockedAt r = Some t ∧ w_now w <= t + LEASE_MS)) ∨
  we_status r = W_PROCESSED ∨ we_status r = W_CANCELLED →
  ∃ w', webhook_process parse id w = (Ok NotClaimed, w') ∧
    webhooks w' = webhooks w ∧ rows_of d_tickets w' = rows_of d_tickets w ∧
    rows_of d_comments w' = rows_of d_comments w.
Proof.
  intros Hok Hr Hst.
  assert (webhook_claimable (w_now w) r = false) as Hc.
  { unfold webhook_claimable. destruct Hst as [[Hs (t & Ht & Hle)]|[Hs|Hs]]; rewrite Hs;
      [rewrite Ht, (proj2 (Z.ltb_ge _ _)) by lia|..]; by rewrite andb_false_r. }
  destruct (webhook_process_claims parse id w Hok)
    as (worker & w0 & _ & Hw0 & Hn0 & Hok0 & Ht0 & Hc0 & ->).
  unfold mbind, M_bind.
  destruct (webhook_claim_run id worker w0 Hok0)
    as [[(r' & Hr' & Hc' & _) _]|(n & w1 & E & Hn1 & Hcl)]; rewrite Hw0, Hn0 in *; [congruence|].
  rewrite Hr, Hc in Hcl. destruct Hcl as [-> Hrows]. rewrite E. eexists. split; [done|].
  keep_all (λ w : World Tbl, d_tickets (w_db w)). keep_all (λ w : World Tbl, d_comments (w_db w)).
  cbv beta in *. unfold rows_of in *. split_and!; congruence.
Qed.

(** ** Who a message acts for *)

(** An enabled WhatsApp integration of this number, however the two are written. *)
Definition carries_number (number : string) (r : IntegrationRow) : Prop :=
  ig_provider r = "whatsapp" ∧ ig_isEnabled r = true ∧
  ∃ fields phone, ig_config r = JObj fields ∧ get_field "phoneNumber" fields = Some (JStr phone) ∧
    normalizePhone phone = normalizePhone number.

(** The organization [tenantId] is the only one with such an integration. *)
Definition owns_number (w : World Tbl) (number tenantId : string) : Prop :=
  ∃ i r, integrations w !! i = Some r ∧ ig_tenantId r = tenantId ∧ carries_number number r ∧
    ∀ j r', integrations w !! j = Some r' → carries_number number r' → j = i.

Lemma has_number_spec number r :
  has_number (normalizePhone number) r = true ↔
  ∃ fields phone, ig_config r = JObj fields ∧ get_field "phoneNumber" fields = Some (JStr phone) ∧
    normalizePhone phone = normalizePhone number.
Proof.
  unfold has_number. destruct (ig_config r) as [| | | | |fields]; try naive_solver.
  destruct (get_field _ fields) as [[| | |phone| |]|] eqn:E; try naive_solver.
  rewrite bool_decide_eq_true. naive_solver.
Qed.

Lemma resolveTenantId_ok number w t w' :
  resolveTenantId number w = (Ok (Some t), w') → w' = w ∧ owns_number w number t.
Proof.
  unfold resolveTenantId, find_many, gets. intros H. inv_ok.
  destruct (filter _ _) as [|[i r] [|]] eqn:E; [done| |done]. unfold mret, M_ret in H. inv_ok.
  split; [done|]. assert (∀ j r', (j, r') ∈ [(i, r)] ↔ integrations w' !! j = Some r' ∧
    carries_number number r') as Hx.
  { intros j r'. rewrite <-E, list_elem_of_filter, findMany_all. cbn [fst snd].
    rewrite has_number_spec, andb_true_iff, bool_decide_eq_true. unfold carries_number. naive_solver. }
  destruct (proj1 (Hx i r)) as [Hi Hc]; [by left|]. exists i, r. split_and!; [done..|].
  intros j r' Hj Hc'. assert ((j, r') ∈ [(i, r)]) as Hin by by apply Hx.
  apply list_elem_of_singleton in Hin. congruence.
Qed.

Lemma resolveTenantId_state number w o w' :
  resolveTenantId number w = (Ok o, w') → w' = w.
Proof.
  unfold resolveTenantId, find_many, gets. intros H. inv_ok.
  destruct (filter _ _) as [|[i r] [|]]; by w_inv.
Qed.

Lemma no_thread thread order w i r :
  findMany thread order (Some 1%nat) (d_tickets (w_db w)) = [] →
  rows_of d_tickets w !! i = Some r → thread i r = false.
Proof.
  intros Hnil Hi. destruct (thread i r) eqn:Ht; [|done].
  destruct (findMany_first thread order 1 _ i r Hi Ht) as [Hl _]; rewrite Hnil in *;
    [set_solver|done].
Qed.

(** C25: A message changes something only when exactly one organization has an enabled WhatsApp
    integration of the number it was sent to, that organization has a customer with the sender's phone, and an active user
    account is linked to that customer.  It is then added, in the name of that user, as a
    public comment to an open thread of the sender; or, when there is none, it opens a
    ticket of that customer.  In every other case nothing changes. *)
Theorem inbound_authorship m w out w' :
  inbound_execute m w = (Ok out, w') →
  (∃ reason, out = SkippedMessage reason ∧ w' = w) ∨
  ∃ tenantId customerId c userId link u,
    owns_number w (wm_to m) tenantId ∧
    rows_of d_customers w !! customerId = Some c ∧ cu_tenantId c = tenantId ∧
    cu_phone c = Some (normalizePhone (wm_from m)) ∧
    rows_of d_customerLinks w !! userId = Some link ∧ cl_customerId link = customerId ∧
    cl_tenantId link = tenantId ∧
    rows_of d_users w !! userId = Some u ∧ us_status u = UActive ∧
    let thread := thread_of tenantId customerId (normalizePhone (wm_from m)) in
    ((∃ ticketId r comment, out = Commented ticketId ∧
        rows_of d_tickets w !! ticketId = Some r ∧ thread ticketId r = true ∧
        addComment (mkAddCommentDto tenantId ticketId userId "CUSTOMER" (wm_body m) PUBLIC) w
          = (Ok comment, w')) ∨
     (∃ ticket w1, out = TicketCreated (t_id ticket) ∧
        (∀ i r, rows_of d_tickets w !! i = Some r → thread i r = false) ∧
        createTicket (mkCreateTicketDto tenantId customerId userId "CUSTOMER"
          ("WhatsApp message from " ++ cu_fullName c) (wm_body m) None None None
          (Some "whatsapp") None None) w = (Ok ticket, w1) ∧
        ∀ r, rows_of d_tickets w1 !! t_id ticket = Some r → ti_tenantId r = tenantId →
          ∃ r', rows_of d_tickets w' !! t_id ticket = Some r' ∧
            ti_externalRef r' = Some (normalizePhone (wm_from m)))).
Proof.
  unfold inbound_execute. intros H. inv_ok.
  match goal with E : resolveTenantId _ _ = _ |- _ =>
    pose proof (resolveTenantId_state _ _ _ _ E); subst; rename E into Hres end.
  destruct a as [t|]; [destruct (str_truthy t)|].
  2, 3: left; unfold mret, M_ret in H; inv_ok; eauto.
  apply resolveTenantId_ok in Hres as [_ Hown].
  set (from := normalizePhone (wm_from m)) in *.
  inv_ok.
  destruct a as [[ci c]|];
    [|left; match goal with E : find_first _ _ _ = _ |- _ => apply find_first_state in E end;
      unfold mret, M_ret in H; inv_ok; subst; eauto].
  match goal with E : find_first d_customers _ _ = _ |- _ =>
    apply find_first_some in E as (-> & Hc & Hpc) end.
  bool_to_prop. unfold gets, find_many in H. inv_ok.
  destruct a as [[ui l]|];
    [|left; match goal with E : find_first _ _ _ = _ |- _ => apply find_first_state in E end;
      unfold mret, M_ret in H; inv_ok; subst; eauto].
  match goal with E : find_first d_customerLinks _ _ = _ |- _ =>
    apply find_first_some in E as (-> & Hl & Hpl) end.
  unfold active_link in Hpl. rewrite findUnique_rows in Hpl. bool_to_prop.
  right. apply fmap_Some in H2 as (u & Hu & Hua). symmetry in Hua.
  exists (cu_tenantId c), ci, c, ui, l, u. repeat (split; [done|]). cbv zeta.
  unfold gets in H. inv_ok.
  match type of H with context [match ?open with [] => _ | _ => _ end] =>
    destruct open as [|[ticketId r] more] eqn:Hopen end.
  - right. pose proof (λ i r, no_thread _ _ _ i r Hopen) as Hno.
    inv_ok. unfold get_now, gets in *. inv_ok.
    match goal with E : update_many d_tickets ?p ?d ?v = _ |- _ =>
      pose proof (update_many_rows d_tickets p d v) as Hrows; rewrite E in Hrows end.
    unfold mret, M_ret in H. inv_ok. do 2 eexists. split; [done|]. split; [done|].
    split; [eassumption|]. intros r Hr Htr. eexists. split.
    { cbn [snd] in Hrows. rewrite Hrows, Hr. simpl. by rewrite !bool_decide_eq_true_2. }
    by destruct r.
  - left. assert ((ticketId, r) ∈ (ticketId, r) :: more) as Hin by left.
    rewrite <-Hopen in Hin. apply findMany_elem in Hin as [Hr Ht].
    inv_ok. unfold mret, M_ret in H. inv_ok. do 3 eexists. eauto.
Qed.
End facts.

(** ** A small organization that receives a message *)

Definition inbox_customer (phone : string) : CustomerRow :=
  mkCustomerRow "t1" None "Cy Doe" "cy@x.io" (Some phone) None None CActive None None [] None
    None 0 0.

Definition inbox_user : UserRow :=
  mkUserRow (Some "t1") "cy@x.io" None "Cy" "Doe" CUSTOMER UActive None None "UTC" "en" None
    None None 0 None (JObj []) 0 0.

Definition inbox_thread : TicketRow :=
  mkTicketRow "t1" 1 "c1" None "cust" "WhatsApp message" "Hi" OPEN MEDIUM
    "GENERAL" [] "whatsapp" false None None None None None None false [] (Some "+15550100") 10 10.

Definition inbox_event : WebhookRow :=
  mkWebhookRow None "WHATSAPP_INBOUND" "twilio" (JObj []) None false None None 0 W_PROCESSING
    (Some 900) (Some "worker") None 10.

Definition inbox_tenant : TenantRecord :=
  mkTenantRecord "Acme" "acme" "ACTIVE" "pro" None None 5 100 10 (JObj []) None None 0 0.

Definition inbox (phone : string) : World (gmap string) :=
  world_of 1000 (empty_db
    <| d_tenants := {["t1" := inbox_tenant]} |>
    <| d_users := {["cust" := inbox_user]} |>
    <| d_customers := {["c1" := inbox_customer phone]} |>
    <| d_customerLinks := {["cust" := mkCustomerLinkRow "c1" "t1"]} |>
    <| d_integrations := {["i1" := mkIntegrationRow "t1" "whatsapp" true
         (JObj [("phoneNumber", JStr "+1 (555) 0199")]) None None None (JObj []) 0 0]} |>
    <| d_tickets := {["k1" := inbox_thread]} |>
    <| d_webhookEvents := {["e1" := inbox_event]} |>).

Definition hello : WhatsAppWebhookPayload :=
  mkInboundMessage "+15550100" "+1 555 0199" "Hello again" "SM1" None None.

Lemma inbox_replays phone : replays_unique (inbox phone).
Proof.
  intros i j r r' k Hr Hr' _ _.
  change (({["e1" := inbox_event]} : gmap string WebhookRow) !! i = Some r) in Hr.
  change (({["e1" := inbox_event]} : gmap string WebhookRow) !! j = Some r') in Hr'.
  apply lookup_singleton_Some in Hr as [<- _]. by apply lookup_singleton_Some in Hr' as [<- _].
Qed.

Lemma inbound_authorship_witness :
  ∃ w', inbound_execute hello (inbox "+15550100") = (Ok (Commented "k1"), w') ∧
    ∃ tenantId, owns_number (inbox "+15550100") (wm_to hello) tenantId.
Proof.
  assert (∃ w', inbound_execute hello (inbox "+15550100") = (Ok (Commented "k1"), w')) as (w' & E)
    by (eexists; vm_compute; reflexivity).
  exists w'. split; [exact E|].
  destruct (inbound_authorship hello (inbox "+15550100") _ w' E)
    as [(reason & Hs & _)|(t & _ & _ & _ & _ & _ & Hown & _)]; [discriminate|by exists t].
Defined.

Lemma webhook_exclusive_witness :
  ∃ w', webhook_process parseInboundMessage "e1" (inbox "+15550100") = (Ok NotClaimed, w').
Proof.
  destruct (webhook_exclusive parseInboundMessage "e1" (inbox "+15550100") inbox_event)
    as (w' & E & _).
  - apply inbox_replays.
  - apply lookup_insert_eq.
  - left. split; [done|]. exists 900. split; [done|]. vm_compute. discriminate.
  - by exists w'.
Defined.

(** The event before a worker claims it. *)
Definition inbox_ready : World (gmap string) :=
  (inbox "+15550100") <| w_db ::= λ d, d <| d_webhookEvents :=
    {["e1" := inbox_event <| we_status := W_RECEIVED |> <| we_lockedAt := None |> <| we_lockedBy := None |>]} |> |>.


(** A customer whose phone was stored with separators is never recognised: the number of the
    sender is normalized, the stored one is not. *)
Lemma formatted_phone_unknown :
  inbound_execute hello (inbox "+1 555-0100") =
    (Ok (SkippedMessage "Unknown sender"), inbox "+1 555-0100").
Proof. vm_compute. reflexivity. Qed.
