(* ===== verification/Operations.v ===== *)
(** * Operator controls

    [OperationalSettingsService] and [PlatformOperationsService]
    ([src/application/admin/services]): platform administrators retry, replay and cancel
    stored outbox and webhook events, change the processing settings and purge old records;
    every intervention is recorded with its reason.  [redactSensitive]
    ([src/shared/utils/redact.util.ts]) hides personal data in what they see. *)

From Stdlib Require Import Ascii String QArith Qround.
From S2P Require Import Prelude Store Js Errors Domain Ticket Customer Tenant User Permissions.
From S2P Require Import Schema World Outbox Logs Frames Repositories TicketService Webhooks.

#[local] Open Scope string_scope.
#[local] Open Scope Z_scope.
#[local] Set Default Proof Using "Type*".

(** ** Redaction *)

(** [s.includes(pattern)], for the unanchored alternatives of the patterns *)
Fixpoint str_includes (pattern s : string) : bool :=
  String.prefix pattern s ||
  match s with EmptyString => false | String _ s => str_includes pattern s end.

(** [/pattern$/] *)
Definition ends_with (pattern s : string) : bool :=
  bool_decide (String.length pattern ≤ String.length s)%nat &&
  bool_decide (String.substring (String.length s - String.length pattern)
                 (String.length pattern) s = pattern).

Definition any_of (words : list string) (key : string) : bool :=
  existsb (λ word, str_includes word key) words.

Definition SENSITIVE_KEY (key : string) : bool :=
  let key := toLowerCase key in
  any_of ["pass"; "secret"; "token"; "authorization"; "signature"; "apikey"; "api_key";
          "credential"; "cookie"; "email"; "phone"; "address"; "body"; "content";
          "description"; "title"; "message"; "media"; "ipaddress"] key
  || ends_with "name" key || includes ["auth"; "from"; "to"; "waid"; "ip"] key.

Definition SECRET_KEY (key : string) : bool :=
  any_of ["pass"; "secret"; "token"; "authorization"; "signature"; "apikey"; "api_key";
          "credential"; "cookie"] (toLowerCase key).

Definition REDACTED : string := "[REDACTED]".

Definition is_null (j : Json) : bool := match j with JNull => true | _ => false end.

Fixpoint redact (pattern : string → bool) (depth : nat) (value : Json) {struct value} : Json :=
  if (8 <? depth)%nat then JStr REDACTED
  else match value with
       | JArr l => JArr (map (redact pattern (S depth)) l)
       | JObj fields =>
           JObj (map (λ '(key, item),
             (key, if pattern key && negb (is_null item) then JStr REDACTED
                   else redact pattern (S depth) item)) fields)
       | value => value
       end.

Definition redactSensitive : Json → Json := redact SENSITIVE_KEY 0.
Definition redactSecrets : Json → Json := redact SECRET_KEY 0.

(** ** OperationalSettingsService *)

Definition DEFAULT_OPERATIONAL_SETTINGS : OperationalSettings := mkSettings false 5 14 30.
Definition CACHE_MS : Z := 15000.

(** [Partial<OperationalSettings>] *)
Record PartialSettings := mkPartial {
  ps_outboxPaused : option bool;
  ps_retryMaxAttempts : option Z;
  ps_outboxRetentionDays : option Z;
  ps_webhookRetentionDays : option Z;
}.
#[export] Instance PartialSettings_eta : Eta PartialSettings := λ p,
  mkPartial (ps_outboxPaused p) (ps_retryMaxAttempts p) (ps_outboxRetentionDays p)
    (ps_webhookRetentionDays p).

(** [z.boolean()] *)
Definition z_boolean (j : Json) : option bool :=
  match j with JBool b => Some b | _ => None end.

(** [z.number().int().min(lo).max(hi)] *)
Definition z_int (lo hi : Z) (j : Json) : option Z :=
  match j with
  | JNum q =>
      let n := Qfloor q in
      if Qeq_bool (inject_Z n) q && (lo <=? n) && (n <=? hi) then Some n else None
  | _ => None
  end.

(** One entry under [operationalSettingsSchema.partial()], which is strict. *)
Definition parse_setting (acc : option PartialSettings) (entry : string * Json)
  : option PartialSettings :=
  let '(key, value) := entry in
  acc ← acc;
  if bool_decide (key = "outboxPaused") then
    b ← z_boolean value; Some (acc <| ps_outboxPaused := Some b |>)
  else if bool_decide (key = "retryMaxAttempts") then
    n ← z_int 1 20 value; Some (acc <| ps_retryMaxAttempts := Some n |>)
  else if bool_decide (key = "outboxRetentionDays") then
    n ← z_int 1 365 value; Some (acc <| ps_outboxRetentionDays := Some n |>)
  else if bool_decide (key = "webhookRetentionDays") then
    n ← z_int 1 365 value; Some (acc <| ps_webhookRetentionDays := Some n |>)
  else None.

Definition safeParse (stored : list (string * Json)) : option PartialSettings :=
  foldl parse_setting (Some (mkPartial None None None None)) stored.

(** [{ ...base, ...changes }] *)
Definition override (base : OperationalSettings) (changes : PartialSettings)
  : OperationalSettings :=
  mkSettings (default (outboxPaused base) (ps_outboxPaused changes))
    (default (retryMaxAttempts base) (ps_retryMaxAttempts changes))
    (default (outboxRetentionDays base) (ps_outboxRetentionDays changes))
    (default (webhookRetentionDays base) (ps_webhookRetentionDays changes)).

(** [Object.entries(changes)] *)
Definition setting_entries (changes : PartialSettings) : list (string * Json) :=
  match ps_outboxPaused changes with Some b => [("outboxPaused", JBool b)] | None => [] end
  ++ opt_num "retryMaxAttempts" (ps_retryMaxAttempts changes)
  ++ opt_num "outboxRetentionDays" (ps_outboxRetentionDays changes)
  ++ opt_num "webhookRetentionDays" (ps_webhookRetentionDays changes).

Definition settings_json (s : OperationalSettings) : Json :=
  JObj [("outboxPaused", JBool (outboxPaused s));
        ("retryMaxAttempts", jnum (retryMaxAttempts s));
        ("outboxRetentionDays", jnum (outboxRetentionDays s));
        ("webhookRetentionDays", jnum (webhookRetentionDays s))].

Section settings.
Context {Tbl : Type → Type} `{!Prisma Tbl}.

Definition load_settings : W Tbl OperationalSettings :=
  rows ← find_many d_settings (λ _ _, true) (λ _, 0) None;
  let parsed := safeParse (map (λ '(key, r), (key, se_value r)) rows) in
  let value := match parsed with
               | Some data => override DEFAULT_OPERATIONAL_SETTINGS data
               | None => DEFAULT_OPERATIONAL_SETTINGS
               end in
  now ← get_now;
  _ ← modify (λ w, w <| w_settings := Some (value, now) |>);
  mret value.

(** [OperationalSettingsService.get] *)
Definition settings_get : W Tbl OperationalSettings :=
  cached ← gets w_settings;
  now ← get_now;
  match cached with
  | Some (value, at_) => if now - at_ <? CACHE_MS then mret value else load_settings
  | None => load_settings
  end.

Definition upsert_setting (actorId : string) (entry : string * Json) : W Tbl unit :=
  now ← get_now;
  existing ← find_unique d_settings entry.1;
  match existing with
  | Some _ =>
      _ ← update_one d_settings entry.1
            (λ r, r <| se_value := entry.2 |> <| se_updatedById := Some actorId |>
                    <| se_updatedAt := now |>);
      mret ()
  | None =>
      create_row d_settings (λ _ _, false) (λ _, true) entry.1
        (mkSettingRow entry.2 (Some actorId) now)
  end.

(** [OperationalSettingsService.update] *)
Definition settings_update (changes : PartialSettings) (actorId : string)
  : W Tbl (OperationalSettings * OperationalSettings) :=
  before ← settings_get;
  _ ← transaction (for_each (upsert_setting actorId) (setting_entries changes));
  _ ← modify (λ w, w <| w_settings := None |>);
  after ← settings_get;
  mret (before, after).
End settings.

(** ** PlatformOperationsService *)

Record OperatorActor := mkOperator { op_id : string; op_role : string }.

Record RecordFilter := mkRecordFilter {
  fl_status : option string;
  fl_eventType : option string;
  fl_tenantId : option string;
  fl_from : option Z;
  fl_to : option Z;
  fl_page : Z;
  fl_limit : Z;
}.

(** What [record] is told about an intervention. *)
Record InterventionResult := mkResult {
  rs_outcome : string;
  rs_resultId : option string;
  rs_error : option string;
  rs_detail : option Json;
}.

Inductive WebhookEventType := WHATSAPP_INBOUND | WHATSAPP_STATUS | EMAIL_BOUNCE | EMAIL_DELIVERED.
#[export] Instance WebhookEventType_eq_dec : EqDecision WebhookEventType.
Proof. solve_decision. Defined.
Definition webhook_type_string (t : WebhookEventType) : string :=
  match t with
  | WHATSAPP_INBOUND => "WHATSAPP_INBOUND" | WHATSAPP_STATUS => "WHATSAPP_STATUS"
  | EMAIL_BOUNCE => "EMAIL_BOUNCE" | EMAIL_DELIVERED => "EMAIL_DELIVERED"
  end.
#[export] Instance WebhookEventType_enum : Enum WebhookEventType :=
  Build_Enum WebhookEventType [WHATSAPP_INBOUND; WHATSAPP_STATUS; EMAIL_BOUNCE; EMAIL_DELIVERED]
    webhook_type_string ltac:(enum_complete) ltac:(enum_injective).

Definition OUTBOX_RETRYABLE : list OutboxStatus := [OFailed; ODeadLetter].
Definition OUTBOX_CANCELLABLE : list OutboxStatus := [OPending; OFailed; ODeadLetter].
Definition OUTBOX_REPLAYABLE : list OutboxStatus := [OProcessed; ODeadLetter; OCancelled].
Definition WEBHOOK_REPLAYABLE : list string := [W_PROCESSED; W_SKIPPED; W_CANCELLED].

(** [field ? { column: field } : {}] *)
Definition equals (filter : option string) (column : option string) : bool :=
  match filter with
  | Some v => if str_truthy v then bool_decide (column = Some v) else true
  | None => true
  end.

Definition dateRange (filter : RecordFilter) (createdAt : Z) : bool :=
  match fl_from filter with Some t => t <=? createdAt | None => true end
  && match fl_to filter with Some t => createdAt <=? t | None => true end.

(** [outboxSelect] and [webhookSelect]: the fields left out are blank. *)
Definition outboxSelect (r : OutboxRow) : OutboxRow :=
  r <| ob_payload := [] |> <| ob_lockedBy := None |>.
Definition webhookSelect (r : WebhookRow) : WebhookRow :=
  r <| we_payload := JNull |> <| we_signature := None |> <| we_lockedBy := None |>.

(** The unique index [outbox_events_active_replay_key]. *)
Definition active_outbox_replay (r : OutboxRow) : option string :=
  if bool_decide (ob_status r ∈ [OPending; OProcessing; OFailed]) then ob_replayOfId r else None.

Definition outbox_where (filter : RecordFilter) (_ : string) (r : OutboxRow) : bool :=
  equals (fl_status filter) (Some (outbox_status_string (ob_status r)))
  && equals (fl_eventType filter) (Some (ob_eventType r))
  && equals (fl_tenantId filter) (ob_tenantId r) && dateRange filter (ob_createdAt r).

Definition webhook_where (filter : RecordFilter) (_ : string) (r : WebhookRow) : bool :=
  equals (fl_status filter) (Some (we_status r))
  && equals (fl_eventType filter) (Some (we_eventType r))
  && equals (fl_tenantId filter) (we_tenantId r) && dateRange filter (we_createdAt r).

Definition retry_data (now : Z) (maxAttempts : Z) (r : OutboxRow) : OutboxRow :=
  r <| ob_status := OPending |> <| ob_availableAt := now |> <| ob_maxAttempts := maxAttempts |>
    <| ob_deadLetterReason := None |> <| ob_failedAt := None |> <| ob_updatedAt := now |>.

Definition cancel_data (now : Z) (r : OutboxRow) : OutboxRow :=
  r <| ob_status := OCancelled |> <| ob_lockedAt := None |> <| ob_lockedBy := None |>
    <| ob_updatedAt := now |>.

Definition replay_row (now : Z) (id eventId : string) (maxAttempts : Z) (r : OutboxRow) : OutboxRow :=
  mkOutboxRow (ob_tenantId r) (ob_aggregateType r) (ob_aggregateId r) (ob_eventType r) eventId
    (ob_occurredAt r) (ob_payload r) OPending 0 maxAttempts now None None None None None
    (Some id) now now.

Definition replay_webhook_row (now : Z) (id : string) (r : WebhookRow) : WebhookRow :=
  mkWebhookRow (we_tenantId r) (we_eventType r) (we_provider r) (we_payload r) (we_signature r)
    false None None 0 W_RECEIVED None None (Some id) now.

Definition day : Z := 24 * 60 * 60 * 1000.

Definition purged_outbox (now : Z) (settings : OperationalSettings) (_ : string) (r : OutboxRow)
  : bool :=
  bool_decide (ob_status r ∈ [OProcessed; OCancelled])
  && (ob_updatedAt r <? now - outboxRetentionDays settings * day).

Definition purged_webhook (now : Z) (settings : OperationalSettings) (_ : string) (r : WebhookRow)
  : bool :=
  includes [W_PROCESSED; W_SKIPPED; W_CANCELLED] (we_status r)
  && (we_createdAt r <? now - webhookRetentionDays settings * day).

Section operations.
Context {Tbl : Type → Type} `{!Prisma Tbl}.
(** The provider's [parseInboundMessage] *)
Context (parse : Json → option WhatsAppWebhookPayload).

(** One page of a listing. *)
Definition record_page {R} (table : Db Tbl → Tbl R) (where_ : string → R → bool)
    (createdAt : R → Z) (select : R → R) (filter : RecordFilter)
  : W Tbl (PaginatedResult (string * R)) :=
  let skip := (fl_page filter - 1) * fl_limit filter in
  rows ← find_many table where_ (λ kr, - createdAt kr.2)
           (Some (Z.to_nat (skip + fl_limit filter)));
  total ← count table where_;
  mret (mkPage (map (λ '(i, r), (i, select r)) (drop (Z.to_nat skip) rows)) total
          (fl_page filter) (fl_limit filter) (- ((- total) / fl_limit filter))).

Definition listOutbox (filter : RecordFilter) : W Tbl (PaginatedResult (string * OutboxRow)) :=
  record_page d_outbox (outbox_where filter) ob_createdAt outboxSelect filter.

Definition listWebhooks (filter : RecordFilter) : W Tbl (PaginatedResult (string * WebhookRow)) :=
  _ ← match fl_eventType filter with
      | Some t => if str_truthy t then check_enum WebhookEventType t else mret ()
      | None => mret ()
      end;
  record_page d_webhookEvents (webhook_where filter) we_createdAt webhookSelect filter.

Definition listInterventions (targetType targetId : option string)
  : W Tbl (list (string * InterventionRow)) :=
  find_many d_interventions
    (λ _ r, equals targetType (Some (in_targetType r)) && equals targetId (in_targetId r))
    (λ kr, - in_createdAt kr.2) (Some 200%nat).

(** A record with its payload redacted; the identifier, status and date of its replays; and
    the interventions on it. *)
Record EventDetails (R : Type) := mkDetails {
  ed_row : R;
  ed_payload : Json;
  ed_replays : list (string * string * Z);
  ed_interventions : list (string * InterventionRow);
}.
Arguments mkDetails {R}.

Definition getOutbox (id : string) : W Tbl (EventDetails OutboxRow) :=
  row ← find_unique d_outbox id;
  match row with
  | None => throw (NotFoundError "Outbox event" (Some id))
  | Some r =>
      replays ← find_many d_outbox (λ _ r, bool_decide (ob_replayOfId r = Some id)) (λ _, 0) None;
      interventions ← listInterventions (Some "outbox") (Some id);
      mret (mkDetails (outboxSelect r) (redactSensitive (JObj (ob_payload r)))
              (map (λ '(i, r), (i, outbox_status_string (ob_status r), ob_createdAt r)) replays)
              interventions)
  end.

Definition getWebhook (id : string) : W Tbl (EventDetails WebhookRow) :=
  row ← find_unique d_webhookEvents id;
  match row with
  | None => throw (NotFoundError "Webhook event" (Some id))
  | Some r =>
      replays ← find_many d_webhookEvents (λ _ r, bool_decide (we_replayOfId r = Some id)) (λ _, 0) None;
      interventions ← listInterventions (Some "webhook") (Some id);
      mret (mkDetails (webhookSelect r) (redactSensitive (we_payload r))
              (map (λ '(i, r), (i, we_status r, we_createdAt r)) replays) interventions)
  end.

Definition findOutbox (id : string) : W Tbl OutboxRow :=
  row ← find_unique d_outbox id;
  match row with
  | None => throw (NotFoundError "Outbox event" (Some id))
  | Some r => mret r
  end.

Definition findWebhook (id : string) : W Tbl WebhookRow :=
  row ← find_unique d_webhookEvents id;
  match row with
  | None => throw (NotFoundError "Webhook event" (Some id))
  | Some r => mret r
  end.

Definition record (targetType : string) (targetId : option string) (action : string)
    (actor : OperatorActor) (reason : string) (result : InterventionResult)
  : W Tbl (string * InterventionRow) :=
  i ← draw;
  now ← get_now;
  let row := mkInterventionRow targetType targetId action reason (op_id actor)
               (rs_resultId result) (rs_outcome result) (slice0 2000 <$> rs_error result) now in
  _ ← create_row d_interventions (λ _ _, false) (λ _, true) i row;
  _ ← audit_create (mkAudit None (Some (op_id actor)) (Some (op_role actor))
        (if bool_decide (action = "CANCEL") then "DELETE" else "UPDATE")
        ("operations." ++ targetType) targetId None None None None
        ([("intervention", jstr i); ("action", jstr action); ("reason", jstr reason);
          ("outcome", jstr (rs_outcome result))]
         ++ opt_field "resultId" (rs_resultId result)
         ++ match rs_detail result with Some d => [("detail", d)] | None => [] end));
  mret (i, row).

(** [catch]: P2002 becomes a [ConflictError]. *)
Definition on_active_replay {A} (work : W Tbl A) : W Tbl A :=
  try_catch work (λ error,
    match error with
    | PrismaError "P2002" _ => throw (ConflictError "A replay of this event is still in progress")
    | error => throw error
    end).

Definition refused_outbox (r : OutboxRow) (verb : string) : error :=
  ConflictError ("Outbox events in status " ++ outbox_status_string (ob_status r)
                 ++ " cannot be " ++ verb).
Definition refused_webhook (r : WebhookRow) (verb : string) : error :=
  ConflictError ("Webhook events in status " ++ we_status r ++ " cannot be " ++ verb).

Definition retryOutbox (id : string) (actor : OperatorActor) (reason : string)
  : W Tbl (string * InterventionRow) :=
  settings ← settings_get;
  row ← findOutbox id;
  now ← get_now;
  updated ← update_many_unique d_outbox active_outbox_replay
    (λ j r, bool_decide (j = id) && bool_decide (ob_status r ∈ OUTBOX_RETRYABLE))
    (retry_data now (ob_attempts row + retryMaxAttempts settings));
  if negb (bool_decide (updated = 1)) then throw (refused_outbox row "retried")
  else record "outbox" (Some id) "RETRY" actor reason (mkResult "ACCEPTED" None None None).

Definition cancelOutbox (id : string) (actor : OperatorActor) (reason : string)
  : W Tbl (string * InterventionRow) :=
  row ← findOutbox id;
  now ← get_now;
  updated ← update_many d_outbox
    (λ j r, bool_decide (j = id) && bool_decide (ob_status r ∈ OUTBOX_CANCELLABLE))
    (cancel_data now);
  if negb (bool_decide (updated = 1)) then throw (refused_outbox row "cancelled")
  else record "outbox" (Some id) "CANCEL" actor reason (mkResult "SUCCEEDED" None None None).

Definition replayOutbox (id : string) (actor : OperatorActor) (reason : string)
  : W Tbl (string * InterventionRow) :=
  row ← find_unique d_outbox id;
  match row with
  | None => throw (NotFoundError "Outbox event" (Some id))
  | Some original =>
      if negb (bool_decide (ob_status original ∈ OUTBOX_REPLAYABLE))
      then throw (refused_outbox original "replayed")
      else
        settings ← settings_get;
        replayId ← draw;
        eventId ← draw;
        now ← get_now;
        let row := replay_row now id eventId (retryMaxAttempts settings) original in
        _ ← on_active_replay
              (create_row d_outbox
                 (λ _ r, bool_decide (ob_eventId r = eventId)
                         || bool_decide (active_outbox_replay r = Some id))
                 (λ _, true) replayId row);
        record "outbox" (Some id) "REPLAY" actor reason
          (mkResult "ACCEPTED" (Some replayId) None None)
  end.

Definition retryWebhook (id : string) (actor : OperatorActor) (reason : string)
  : W Tbl (string * InterventionRow) :=
  row ← findWebhook id;
  result ← webhook_process parse id;
  match result with
  | NotClaimed => throw (refused_webhook row "retried (or are being processed)")
  | Outcome status detail =>
      record "webhook" (Some id) "RETRY" actor reason
        (mkResult (if bool_decide (status = W_PROCESSED) then "SUCCEEDED" else "FAILED")
           None detail None)
  end.

Definition replayWebhook (id : string) (actor : OperatorActor) (reason : string)
  : W Tbl (string * InterventionRow) :=
  row ← find_unique d_webhookEvents id;
  match row with
  | None => throw (NotFoundError "Webhook event" (Some id))
  | Some original =>
      if negb (bool_decide (we_eventType original = "WHATSAPP_INBOUND"))
      then throw (ConflictError "Only inbound message events can be replayed")
      else if negb (includes WEBHOOK_REPLAYABLE (we_status original))
      then throw (refused_webhook original "replayed")
      else
        replayId ← draw;
        now ← get_now;
        _ ← on_active_replay
              (create_row d_webhookEvents (λ _ r, bool_decide (active_replay r = Some id))
                 (λ _, true) replayId (replay_webhook_row now id original));
        result ← webhook_process parse replayId;
        record "webhook" (Some id) "REPLAY" actor reason
          (match result with
           | NotClaimed => mkResult "FAILED" (Some replayId) (Some "Replay was claimed elsewhere") None
           | Outcome status detail =>
               mkResult (if bool_decide (status = W_PROCESSED) then "SUCCEEDED" else "FAILED")
                 (Some replayId) detail None
           end)
  end.

Definition cancelWebhook (id : string) (actor : OperatorActor) (reason : string)
  : W Tbl (string * InterventionRow) :=
  row ← findWebhook id;
  updated ← update_many d_webhookEvents
    (λ j r, bool_decide (j = id) && includes RETRYABLE_WEBHOOK_STATUSES (we_status r))
    (λ r, r <| we_status := W_CANCELLED |>);
  if negb (bool_decide (updated = 1)) then throw (refused_webhook row "cancelled")
  else record "webhook" (Some id) "CANCEL" actor reason (mkResult "SUCCEEDED" None None None).

Definition updateSettings (changes : PartialSettings) (actor : OperatorActor) (reason : string)
  : W Tbl OperationalSettings :=
  '(before, after) ← settings_update changes (op_id actor);
  _ ← record "settings" None "CONFIGURE" actor reason
        (mkResult "SUCCEEDED" None None
           (Some (JObj [("before", settings_json before); ("after", settings_json after)])));
  mret after.

(** The numbers of outbox and of webhook events deleted. *)
Definition purge (operator : option (OperatorActor * string)) : W Tbl (Z * Z) :=
  settings ← settings_get;
  now ← get_now;
  outbox ← delete_many d_outbox (purged_outbox now settings);
  webhooks ← delete_many d_webhookEvents (purged_webhook now settings);
  _ ← match operator with
      | Some (actor, reason) =>
          if str_truthy reason then
            _ ← record "settings" None "PURGE" actor reason
                  (mkResult "SUCCEEDED" None None
                     (Some (JObj [("outboxDeleted", jnum outbox); ("webhooksDeleted", jnum webhooks)])));
            mret ()
          else mret ()
      | None => mret ()
      end;
  mret (outbox, webhooks).
End operations.
Arguments mkDetails {R}.
