(* ===== verification/OperationsFacts.v ===== *)
(** * What operators can and cannot do

    Redacted views show no secret; the processing settings are always within their bounds,
    whatever is stored; every intervention that returns is recorded once and one that throws
    is not; a retry gives an event attempts to run with; a replay copies a finished event and
    leaves it alone; a purge deletes only finished events. *)

From stdpp Require Import pretty.
From Stdlib Require Import Ascii String QArith Qround.
From S2P Require Import Prelude Store Js Errors Domain Ticket Customer Tenant User Permissions.
From S2P Require Import Schema World Outbox Logs Frames Repositories TicketService Webhooks.
From S2P Require Import WebhookFacts Operations.

#[local] Open Scope string_scope.
#[local] Open Scope Z_scope.
#[local] Set Default Proof Using "Type*".

(** ** Redaction *)

(** [field_at j k v]: somewhere in [j] an object has the value [v] under the key [k]. *)
Inductive field_at : Json → string → Json → Prop :=
| field_here fields k v : (k, v) ∈ fields → field_at (JObj fields) k v
| field_in_field fields k' v' k v : (k', v') ∈ fields → field_at v' k v → field_at (JObj fields) k v
| field_in_item l item k v : item ∈ l → field_at item k v → field_at (JArr l) k v.

Lemma redact_hides_at pattern depth j j' k v :
  field_at j' k v → j' = redact pattern depth j → pattern k = true → v = JNull ∨ v = JStr REDACTED.
Proof.
  intros H. revert depth j. induction H as [fields k v Hin|fields k' v' k v Hin Hv IH|l item k v Hin _ IH];
    intros depth j Heq Hk.
  all: destruct j as [| | | |l'|fields']; cbn [redact] in Heq; destruct (8 <? depth)%nat;
    try discriminate Heq.
  all: injection Heq as ->; apply list_elem_of_fmap in Hin.
  - destruct Hin as ([k1 item] & [= -> ->] & _). rewrite Hk. destruct item; cbn [is_null negb andb redact];
      try (by right). destruct (8 <? S depth)%nat; auto.
  - destruct Hin as ([k1 item] & [= -> Heq] & _). destruct (pattern k1 && negb (is_null item)).
    + subst. by inversion Hv.
    + by eapply IH.
  - destruct Hin as (item' & -> & _). by eapply IH.
Qed.

(** No sensitive value of a stored payload reaches an operator: under a key that matches the
    pattern there is only [null] or the placeholder, at any depth. *)
Theorem redact_hides j k v :
  field_at (redactSensitive j) k v → SENSITIVE_KEY k = true → v = JNull ∨ v = JStr REDACTED.
Proof. intros H. by eapply redact_hides_at. Qed.

(** ** Settings *)

Definition settings_ok (s : OperationalSettings) : Prop :=
  1 <= retryMaxAttempts s <= 20 ∧ 1 <= outboxRetentionDays s <= 365 ∧
  1 <= webhookRetentionDays s <= 365.

Definition partial_ok (p : PartialSettings) : Prop :=
  (∀ n, ps_retryMaxAttempts p = Some n → 1 <= n <= 20) ∧
  (∀ n, ps_outboxRetentionDays p = Some n → 1 <= n <= 365) ∧
  (∀ n, ps_webhookRetentionDays p = Some n → 1 <= n <= 365).

Lemma z_int_some lo hi j n : z_int lo hi j = Some n → lo <= n <= hi.
Proof.
  unfold z_int. destruct j as [| |q| | |]; try done. intros H. case_match eqn:E; simplify_eq.
  bool_to_prop. lia.
Qed.

Lemma parse_setting_ok acc entry p :
  parse_setting (Some acc) entry = Some p → partial_ok acc → partial_ok p.
Proof.
  unfold parse_setting. destruct entry as [key value]. intros H (H1 & H2 & H3). destruct acc; cbn in *.
  repeat case_bool_decide; try done;
    apply bind_Some in H as (x & Hx & [= <-]); try apply z_int_some in Hx;
    (split_and!; cbn; [| |]; first [done|by intros n [= <-]]).
Qed.

Lemma foldl_parse_none l : foldl parse_setting None l = None.
Proof. by induction l as [|[k v] l IH]. Qed.

Lemma safeParse_ok stored p : safeParse stored = Some p → partial_ok p.
Proof.
  unfold safeParse. assert (partial_ok (mkPartial None None None None)) as H by (by split_and!).
  revert H. generalize (mkPartial None None None None). induction stored as [|e l IH]; intros acc H Hp.
  - by injection Hp as <-.
  - cbn in Hp. destruct (parse_setting (Some acc) e) as [acc'|] eqn:E.
    + eapply IH; [|done]. by eapply parse_setting_ok.
    + by rewrite foldl_parse_none in Hp.
Qed.

Lemma override_ok base p : settings_ok base → partial_ok p → settings_ok (override base p).
Proof.
  intros (H1 & H2 & H3) (P1 & P2 & P3). destruct p as [o0 o1 o2 o3]. unfold settings_ok. cbn in *.
  split; [destruct o1; auto|split; [destruct o2; auto|destruct o3; auto]].
Qed.

Lemma default_settings_ok : settings_ok DEFAULT_OPERATIONAL_SETTINGS.
Proof. unfold settings_ok. cbn. lia. Qed.

Section facts.
Context {Tbl : Type → Type} `{!Prisma Tbl}.
Implicit Types (w : World Tbl).

Definition cache_ok w : Prop := ∀ v t, w_settings w = Some (v, t) → settings_ok v.

(** Reading the settings returns and only fills the cache. *)
Lemma settings_get_run w :
  ∃ v c, settings_get w = (Ok v, w <| w_settings := c |>) ∧
    (cache_ok w → settings_ok v) ∧ (cache_ok w → ∀ v' t, c = Some (v', t) → settings_ok v').
Proof.
  assert (∃ v, settings_ok v ∧ load_settings w = (Ok v, w <| w_settings := Some (v, w_now w) |>))
    as (v & Hv & Hload).
  { unfold load_settings, find_many, gets, get_now, modify, mbind, M_bind, mret, M_ret, gets.
    set (stored := map _ _). destruct (safeParse stored) as [p|] eqn:E; eexists; (split; [|done]).
    - apply override_ok; [apply default_settings_ok|by eapply safeParse_ok].
    - apply default_settings_ok. }
  unfold settings_get, gets, get_now, mbind, M_bind, gets.
  destruct (w_settings w) as [[v' t]|] eqn:Hc.
  - case_match.
    + exists v', (Some (v', t)). split; [|split; [naive_solver|]].
      * unfold mret, M_ret. f_equal. destruct w; cbn in *; by subst.
      * intros H' ? ? [= <- <-]. by eapply H'.
    + exists v, (Some (v, w_now w)). split; [done|]. split; [done|]. by intros _ ? ? [= <- <-].
  - exists v, (Some (v, w_now w)). split; [done|]. split; [done|]. by intros _ ? ? [= <- <-].
Qed.

(** C32: The settings the program works with are well formed whatever the table holds (unknown
    keys, values of another type or out of range): reading them always returns, settings
    within their bounds, and leaves a cache that is well formed again. *)
Theorem settings_always_valid w :
  cache_ok w →
  ∃ v w', settings_get w = (Ok v, w') ∧ settings_ok v ∧ cache_ok w' ∧ w_db w' = w_db w.
Proof.
  intros Hc. destruct (settings_get_run w) as (v & c & E & Hv & Hc').
  exists v, (w <| w_settings := c |>). split; [exact E|]. split; [by apply Hv|].
  split; [|by upd_simpl]. intros v' t. upd_simpl. by apply Hc'.
Qed.

(** ** Every intervention is recorded *)

#[local] Notation interventions w := (rows_of d_interventions w).

(** [record] inserts one row; it can only throw on an identifier that is taken. *)
Lemma record_run targetType targetId action actor reason result w res w' :
  w_inTransaction w = false → record targetType targetId action actor reason result w = (res, w') →
  match res with
  | Ok (i, r) => interventions w !! i = None ∧ interventions w' = <[i := r]> (interventions w) ∧
      in_targetType r = targetType ∧ in_targetId r = targetId ∧ in_action r = action ∧
      in_reason r = reason ∧ in_actorId r = op_id actor ∧ in_outcome r = rs_outcome result ∧
      in_resultId r = rs_resultId result
  | Err _ => interventions w' = interventions w
  end ∧ d_outbox (w_db w') = d_outbox (w_db w) ∧ d_webhookEvents (w_db w') = d_webhookEvents (w_db w).
Proof.
  intros Ht H. split; [|split].
  2, 3: match goal with |- ?f (w_db _) = _ =>
    apply (keeps_run (λ w : World Tbl, f (w_db w)) _ _ w w' H); unfold record, audit_create; keeps_tac end.
  unfold record, draw, draw_rt, get_now, gets, mbind, M_bind, mret, M_ret in H.
  cbv beta iota zeta in H. set (w1 := w <| w_draws ::= _ |>) in *.
  assert (interventions w1 = interventions w ∧ w_inTransaction w1 = false) as [H1 Ht1]
    by (unfold w1, rows_of; upd_simpl; done).
  match type of H with context [create_row d_interventions ?c ?f ?i ?r w1] =>
    destruct (create_row d_interventions c f i r w1) as [[[]|e] w2] eqn:E end.
  - assert (w_inTransaction w2 = false) as Ht2.
    { rewrite <-Ht1. apply (keeps_run w_inTransaction _ _ _ _ E). keeps_tac. }
    apply (create_row_ok d_interventions) in E as (Hnone & _ & Hrows & _). rewrite H1 in *.
    match type of H with context [audit_create ?e w2] =>
      destruct (audit_create_outside e w2 Ht2) as (w3 & E3);
      assert (interventions w3 = interventions w2) as H3
        by (unfold rows_of; f_equal; apply (keeps_run (λ w : World Tbl, d_interventions (w_db w)) _ _ _ _ E3);
            unfold audit_create; keeps_tac) end.
    rewrite E3 in H. inv_ok. rewrite H3. by split_and!.
  - apply create_row_err in E as ->. inv_ok. done.
Qed.

(** The interventions a platform administrator can make. *)
Inductive OperatorCommand :=
| RetryOutbox (id : string) | CancelOutbox (id : string) | ReplayOutbox (id : string)
| RetryWebhook (id : string) | CancelWebhook (id : string) | ReplayWebhook (id : string)
| UpdateSettings (changes : PartialSettings) | Purge.

Definition run_operator parse (c : OperatorCommand) (actor : OperatorActor) (reason : string)
  : W Tbl unit :=
  match c with
  | RetryOutbox id => _ ← retryOutbox id actor reason; mret ()
  | CancelOutbox id => _ ← cancelOutbox id actor reason; mret ()
  | ReplayOutbox id => _ ← replayOutbox id actor reason; mret ()
  | RetryWebhook id => _ ← retryWebhook parse id actor reason; mret ()
  | CancelWebhook id => _ ← cancelWebhook id actor reason; mret ()
  | ReplayWebhook id => _ ← replayWebhook parse id actor reason; mret ()
  | UpdateSettings changes => _ ← updateSettings changes actor reason; mret ()
  | Purge => _ ← purge (Some (actor, reason)); mret ()
  end.

Definition command_action (c : OperatorCommand) : string * option string * string :=
  match c with
  | RetryOutbox id => ("outbox", Some id, "RETRY")
  | CancelOutbox id => ("outbox", Some id, "CANCEL")
  | ReplayOutbox id => ("outbox", Some id, "REPLAY")
  | RetryWebhook id => ("webhook", Some id, "RETRY")
  | CancelWebhook id => ("webhook", Some id, "CANCEL")
  | ReplayWebhook id => ("webhook", Some id, "REPLAY")
  | UpdateSettings _ => ("settings", None, "CONFIGURE")
  | Purge => ("settings", None, "PURGE")
  end.

(** What a run may do to the recorded interventions: nothing, or one more of this kind. *)
Definition recorded {A} (m : W Tbl A) (target : string * option string * string)
    (actor : OperatorActor) (reason : string) : Prop :=
  ∀ w res w', w_inTransaction w = false → m w = (res, w') →
    match res with
    | Ok _ => ∃ i r, interventions w !! i = None ∧ interventions w' = <[i := r]> (interventions w) ∧
        (in_targetType r, in_targetId r, in_action r) = target ∧
        in_actorId r = op_id actor ∧ in_reason r = reason
    | Err _ => interventions w' = interventions w
    end.

Lemma recorded_record t i a actor reason result :
  recorded (record t i a actor reason result) (t, i, a) actor reason.
Proof.
  intros w res w' Ht H. destruct (record_run _ _ _ _ _ _ _ _ _ Ht H) as [Hr _].
  destruct res as [[j r]|e]; [|done].
  destruct Hr as (Hn & Hi & Ht1 & Hi1 & Ha1 & Hre & Hac & _). exists j, r. by subst.
Qed.

(** Work before the record that keeps the interventions and the transaction flag. *)
Lemma recorded_bind {A B} (m : W Tbl A) (f : A → W Tbl B) target actor reason :
  Keeps (λ w, d_interventions (w_db w)) m → Keeps w_inTransaction m →
  (∀ a, recorded (f a) target actor reason) → recorded (m ≫= f) target actor reason.
Proof.
  intros Hk Ht Hf w res w' Hin H. unfold mbind, M_bind in H. specialize (Hk w). specialize (Ht w).
  destruct (m w) as [[a|e] w1] eqn:E; cbn [snd] in Hk, Ht.
  - specialize (Hf a w1 res w' ltac:(congruence) H). unfold rows_of in *. by rewrite Hk in Hf.
  - injection H as <- <-. unfold rows_of. by rewrite Hk.
Qed.

Lemma recorded_after {A B} (m : W Tbl A) (f : A → W Tbl B) target actor reason :
  (∀ a, ∃ b, f a = mret b) → recorded m target actor reason → recorded (m ≫= f) target actor reason.
Proof.
  intros Hf Hm w res w' Hin H. unfold mbind, M_bind in H.
  destruct (m w) as [[a|e] w1] eqn:E; [|by injection H as <- <-; specialize (Hm _ _ _ Hin E)].
  destruct (Hf a) as [b Hb]. rewrite Hb in H. unfold mret, M_ret in H. injection H as <- <-.
  by specialize (Hm _ _ _ Hin E).
Qed.

Lemma recorded_throw {A} e target actor reason : recorded (throw (A:=A) e) target actor reason.
Proof. intros w res w' _ H. unfold throw in H. by injection H as <- <-. Qed.

Ltac recorded_step :=
  cbv beta;
  match goal with
  | |- recorded (record _ _ _ _ _ _) _ _ _ => apply recorded_record
  | |- recorded (throw _) _ _ _ => apply recorded_throw
  | |- recorded (record _ _ _ _ _ _ ≫= _) _ _ _ => apply recorded_after; [by eauto|]
  | |- recorded (match _ with _ => _ end) _ _ _ => case_match
  | |- recorded (if _ then _ else _) _ _ _ => case_match
  | |- recorded (_ ≫= _) _ _ _ => apply recorded_bind; [keeps_tac|keeps_tac|intros ?]
  end.

Lemma webhook_process_keeps_interventions parse id :
  Keeps (λ w : World Tbl, d_interventions (w_db w)) (webhook_process parse id).
Proof. keeps_tac. Qed.

Lemma webhook_process_keeps_flag parse id : Keeps w_inTransaction (webhook_process (Tbl:=Tbl) parse id).
Proof. keeps_tac. Qed.

Lemma settings_get_keeps {X} (g : World Tbl → X) :
  (∀ w c, g (w <| w_settings := c |>) = g w) → Keeps g settings_get.
Proof.
  intros Hg w. destruct (settings_get_run w) as (v & c & -> & _). apply Hg.
Qed.
#[local] Hint Resolve webhook_process_keeps_interventions webhook_process_keeps_flag : keeps.

(** Every intervention is accountable: a command that returns adds exactly one record to the
    interventions, with its target, action, operator and reason; a command that throws adds
    none; no record is ever changed or removed. *)
Theorem interventions_recorded parse c actor reason w res w' :
  w_inTransaction w = false → str_truthy reason = true →
  run_operator parse c actor reason w = (res, w') →
  match res with
  | Ok _ => ∃ i r, interventions w !! i = None ∧ interventions w' = <[i := r]> (interventions w) ∧
      (in_targetType r, in_targetId r, in_action r) = command_action c ∧
      in_actorId r = op_id actor ∧ in_reason r = reason
  | Err _ => interventions w' = interventions w
  end.
Proof.
  intros Ht Hreason. revert w res w' Ht. change (recorded (run_operator parse c actor reason) (command_action c) actor reason).
  destruct c; cbn [run_operator command_action]; (apply recorded_after; [by eauto|]).
  - unfold retryOutbox. repeat recorded_step.
  - unfold cancelOutbox. repeat recorded_step.
  - unfold replayOutbox. repeat recorded_step.
  - unfold retryWebhook. repeat recorded_step.
  - unfold cancelWebhook. repeat recorded_step.
  - unfold replayWebhook. repeat recorded_step.
  - unfold updateSettings. repeat recorded_step.
  - unfold purge. rewrite Hreason. do 4 recorded_step.
    apply recorded_after; [by eauto|]. repeat recorded_step.
Qed.

(** ** Retry, replay, purge *)

#[local] Notation outbox w := (rows_of d_outbox w).
#[local] Notation webhooks w := (rows_of d_webhookEvents w).

Lemma findOutbox_ok id w r w' :
  findOutbox id w = (Ok r, w') → w' = w ∧ outbox w !! id = Some r.
Proof. unfold findOutbox. intros H. w_inv. by split. Qed.

Lemma update_many_unique_ok {R K} `{!EqDecision K} (table : Db Tbl → Tbl R) {U : Update table}
    {G : GetUpdate table} (key : R → option K) p d w n w' :
  update_many_unique table key p d w = (Ok n, w') → update_many table p d w = (Ok n, w').
Proof.
  destruct (update_many_unique_run table key p d w) as [[_ ->]|[_ ->]]; [done|by intros [=]].
Qed.

(** The end of a command: it was told that one row changed, and recorded the intervention. *)
Lemma checked_record u e t i a actor reason result w x w' :
  w_inTransaction w = false →
  (if negb (bool_decide (u = 1)) then throw e else record t i a actor reason result) w = (Ok x, w') →
  u = 1 ∧ d_outbox (w_db w') = d_outbox (w_db w) ∧ d_webhookEvents (w_db w') = d_webhookEvents (w_db w).
Proof.
  intros Ht H. case_bool_decide; cbn [negb] in H; [|unfold throw in H; by inv_ok].
  by apply record_run in H as [_ ?].
Qed.

(** A retry that returns makes a failed or dead event due at once, with between 1 and 20
    attempts left before it is given up again; what it says and to whom it belongs stay, and
    so does every other event. *)
Theorem retry_gives_attempts id actor reason w x w' :
  w_inTransaction w = false → cache_ok w → retryOutbox id actor reason w = (Ok x, w') →
  ∃ r r', outbox w !! id = Some r ∧ ob_status r ∈ OUTBOX_RETRYABLE ∧
    outbox w' = <[id := r']> (outbox w) ∧ ob_status r' = OPending ∧
    (∀ leaseMs, claimable (w_now w) leaseMs r' = true) ∧
    1 <= ob_maxAttempts r' - ob_attempts r' <= 20 ∧ ob_attempts r' = ob_attempts r ∧
    ob_payload r' = ob_payload r ∧ ob_eventId r' = ob_eventId r ∧ ob_tenantId r' = ob_tenantId r.
Proof.
  intros Ht Hc H. unfold retryOutbox in H.
  destruct (settings_get_run w) as (v & c & E & Hv & _). specialize (Hv Hc).
  set (w1 := w <| w_settings := c |>) in *.
  assert (outbox w1 = outbox w ∧ w_now w1 = w_now w ∧ w_inTransaction w1 = false) as (Ho & Hn & Ht1)
    by (unfold w1, rows_of; upd_simpl; done).
  clearbody w1. unfold mbind at 1, M_bind at 1 in H. rewrite E in H. inv_ok.
  match goal with F : findOutbox _ _ = _ |- _ => apply findOutbox_ok in F as [-> Hr] end.
  inv_ok. unfold get_now, gets in *. inv_ok.
  match goal with F : update_many_unique _ _ _ _ _ = _ |- _ =>
    pose proof (keeps_run w_inTransaction _ _ _ _ F ltac:(keeps_tac)) as Hin;
    apply (update_many_unique_ok d_outbox) in F end.
  apply checked_record in H as (-> & Ho' & _); [|congruence].
  match goal with F : update_many _ _ _ _ = _ |- _ =>
    apply (update_many_one d_outbox id) in F as (r & Hr' & Hp & Hrows); [|intros j r' Hj; by bool_to_prop] end.
  bool_to_prop. rewrite Hr in Hr'. injection Hr' as ->.
  exists r, (retry_data (w_now w) (ob_attempts r + retryMaxAttempts v) r).
  destruct Hv as [Hv _]. unfold rows_of in *. rewrite Ho', Hrows, <-Ho, <-Hn.
  split_and!; try done; try (by destruct r); try (destruct r; cbn; lia).
  intros leaseMs. unfold claimable. destruct r; cbn. by rewrite Z.leb_refl.
Qed.

Lemma on_active_replay_ok {A} (work : W Tbl A) w a w' :
  on_active_replay work w = (Ok a, w') → work w = (Ok a, w').
Proof.
  unfold on_active_replay, try_catch. destruct (work w) as [[b|e] w1]; [done|].
  intros H. exfalso. destruct e; try done. revert H. unfold throw. by repeat case_match.
Qed.

Lemma no_match {R} (p : string → R → bool) (m : gmap string R) j r :
  matching p m = ∅ → m !! j = Some r → p j r = false.
Proof.
  intros Hm Hj. destruct (p j r) eqn:E; [|done].
  assert (matching p m !! j = Some r) as H by (by apply matching_lookup). by rewrite Hm in H.
Qed.

(** A replay that returns leaves the finished event as it was and adds one pending event that
    says the same, under an event identifier no other event has, so that handlers take it for
    new work; no other replay of that event was unfinished. *)
Theorem replay_fresh id actor reason w x w' :
  w_inTransaction w = false → cache_ok w → replayOutbox id actor reason w = (Ok x, w') →
  ∃ r i r', outbox w !! id = Some r ∧ ob_status r ∈ OUTBOX_REPLAYABLE ∧
    outbox w !! i = None ∧ outbox w' = <[i := r']> (outbox w) ∧
    (∀ j q, outbox w !! j = Some q →
       active_outbox_replay q ≠ Some id ∧ ob_eventId q ≠ ob_eventId r') ∧
    active_outbox_replay r' = Some id ∧ ob_status r' = OPending ∧ ob_attempts r' = 0 ∧
    1 <= ob_maxAttempts r' <= 20 ∧
    (ob_tenantId r', ob_aggregateType r', ob_aggregateId r', ob_eventType r', ob_occurredAt r',
     ob_payload r') =
    (ob_tenantId r, ob_aggregateType r, ob_aggregateId r, ob_eventType r, ob_occurredAt r,
     ob_payload r).
Proof.
  intros Ht Hc H. unfold replayOutbox in H. inv_ok. unfold find_unique, gets in *. inv_ok.
  rewrite findUnique_rows in H. destruct (rows _ !! id) as [r|] eqn:Hr; [|unfold throw in H; by inv_ok].
  destruct (decide (ob_status r ∈ OUTBOX_REPLAYABLE)) as [Hst|Hst];
    [rewrite bool_decide_eq_true_2 in H by done
    |rewrite bool_decide_eq_false_2 in H by done; cbn [negb] in H; unfold throw in H; by inv_ok].
  cbn [negb] in H.
  destruct (settings_get_run s) as (v & c & E & Hv & _). specialize (Hv Hc).
  set (w1 := s <| w_settings := c |>) in *.
  assert (outbox w1 = outbox s ∧ w_inTransaction w1 = false) as (Ho & Ht1)
    by (unfold w1, rows_of; upd_simpl; done).
  clearbody w1. unfold mbind at 1, M_bind at 1 in H. rewrite E in H. inv_ok.
  keep_all (λ w : World Tbl, d_outbox (w_db w)). keep_all (λ w : World Tbl, w_inTransaction w). cbv beta in *.
  match goal with F : on_active_replay _ _ = _ |- _ =>
    pose proof (keeps_run w_inTransaction _ _ _ _ F ltac:(unfold on_active_replay; keeps_tac)) as Hin;
    apply on_active_replay_ok, (create_row_ok d_outbox) in F as (Hnone & Hclash & Hrows & _) end.
  apply record_run in H as (_ & Ho' & _); [|congruence].
  unfold rows_of in *.
  replace (rows (d_outbox (w_db s2))) with (rows (d_outbox (w_db s))) in * by congruence.
  exists r, a, (replay_row a1 id a0 (retryMaxAttempts v) r). destruct Hv as [Hv _].
  rewrite Ho'. split; [done|]. split; [done|]. split; [done|]. split; [done|].
  split.
  { intros j q Hj. pose proof (no_match _ _ _ _ Hclash Hj) as Hno. cbv beta in Hno.
    by bool_to_prop. }
  split_and!; try done; apply Hv.
Qed.

Lemma delete_many_run {R} (table : Db Tbl → Tbl R) {U : Update table} {G : GetUpdate table} p w :
  ∃ n w', delete_many table p w = (Ok n, w') ∧
    ∀ i, rows_of table w' !! i = rows_of table w !! i ≫= λ r, if p i r then None else Some r.
Proof.
  destruct (delete_many table p w) as [[n|e] w'] eqn:E.
  - exists n, w'. split; [done|]. intros i. by apply (delete_many_ok table _ _ _ _ E).
  - unfold delete_many in E. by destruct (deleteMany _ _).
Qed.

(** What a purge leaves of a table: nothing is added or changed, and a row that is gone
    satisfies [old]. *)
Definition purged {R} (m m' : gmap string R) (old : R → Prop) : Prop :=
  ∀ i, match m !! i with
       | Some r => m' !! i = Some r ∨ (m' !! i = None ∧ old r)
       | None => m' !! i = None
       end.

Lemma purged_by {R} (p : string → R → bool) (m m' : gmap string R) (old : R → Prop) :
  (∀ i, m' !! i = m !! i ≫= λ r, if p i r then None else Some r) →
  (∀ i r, p i r = true → old r) → purged m m' old.
Proof.
  intros Hm Hold i. rewrite Hm. destruct (m !! i) as [r|]; [|done]. simpl.
  destruct (p i r) eqn:E; [right|by left]. split; [done|by eapply Hold].
Qed.

(** A purge, returning or not, deletes only outbox events that were processed or cancelled and
    webhook events that were processed, skipped or cancelled, each more than a day old: no
    event that still waits, runs, failed or died is lost. *)
Theorem purge_only_finished operator w res w' :
  w_inTransaction w = false → cache_ok w → purge operator w = (res, w') →
  purged (outbox w) (outbox w') (λ r, ob_status r ∈ [OProcessed; OCancelled] ∧
    ob_updatedAt r < w_now w - day) ∧
  purged (webhooks w) (webhooks w') (λ r, we_status r ∈ [W_PROCESSED; W_SKIPPED; W_CANCELLED] ∧
    we_createdAt r < w_now w - day).
Proof.
  intros Ht Hc H. unfold purge in H.
  destruct (settings_get_run w) as (v & c & E & Hv & _). specialize (Hv Hc).
  set (w1 := w <| w_settings := c |>) in *.
  assert (outbox w1 = outbox w ∧ webhooks w1 = webhooks w ∧ w_now w1 = w_now w ∧ w_inTransaction w1 = false)
    as (Ho & Hw & Hn & Ht1) by (unfold w1, rows_of; upd_simpl; done).
  clearbody w1. unfold get_now, gets, mbind, M_bind in H. rewrite E in H. cbv beta iota in H.
  destruct (delete_many_run d_outbox (purged_outbox (w_now w1) v) w1) as (n & w2 & E2 & H2).
  rewrite E2 in H. cbv beta iota in H.
  destruct (delete_many_run d_webhookEvents (purged_webhook (w_now w1) v) w2) as (n3 & w3 & E3 & H3).
  rewrite E3 in H. cbv beta iota in H.
  keep_all (λ w : World Tbl, d_outbox (w_db w)). keep_all (λ w : World Tbl, d_webhookEvents (w_db w)).
  keep_all (λ w : World Tbl, w_inTransaction w). cbv beta in *.
  assert (d_outbox (w_db w') = d_outbox (w_db w3) ∧ d_webhookEvents (w_db w') = d_webhookEvents (w_db w3))
    as [Ho' Hw'].
  { destruct operator as [[actor reason]|]; [destruct (str_truthy reason)|];
      unfold mret, M_ret in H; try by inv_ok.
    destruct (record _ _ _ _ _ _ w3) as [[x|e] w4] eqn:E4; inv_ok; apply record_run in E4; naive_solver congruence. }
  rewrite Hn in *. destruct Hv as (_ & Hod & Hwd). unfold rows_of in *.
  rewrite Ho', Hw'. split.
  - apply (purged_by (purged_outbox (w_now w) v)).
    + intros i. replace (d_outbox (w_db w3)) with (d_outbox (w_db w2)) by done. by rewrite H2, Ho.
    + unfold purged_outbox. intros i r Hp. bool_to_prop. split; [done|]. unfold day in *. nia.
  - apply (purged_by (purged_webhook (w_now w) v)).
    + intros i. rewrite H3, <-Hw.
      by replace (d_webhookEvents (w_db w2)) with (d_webhookEvents (w_db w1)) by done.
    + unfold purged_webhook, includes. intros i r Hp. bool_to_prop. split; [done|]. unfold day in *. nia.
Qed.
End facts.

(** ** A platform with finished and failed events *)

Definition stored_event (status : OutboxStatus) : OutboxRow :=
  mkOutboxRow (Some "t1") (Some "Ticket") (Some "k1") "TICKET_CREATED" "ev1" 10
    [("ticketId", JStr "k1")] status 5 5 10 None None (Some 20) None None None 10 20.

Definition platform (status : OutboxStatus) : World (gmap string) :=
  world_of (100 * day) (empty_db <| d_outbox := {["o1" := stored_event status]} |>).

Definition root_operator : OperatorActor := mkOperator "u1" "PLATFORM_ADMIN".

Lemma platform_cache status : cache_ok (platform status).
Proof. by intros v t H. Qed.

Lemma settings_always_valid_witness :
  ∃ v w', settings_get (platform OProcessed) = (Ok v, w') ∧ settings_ok v.
Proof.
  destruct (settings_always_valid (platform OProcessed) (platform_cache _)) as (v & w' & E & Hv & _).
  by exists v, w'.
Defined.

Lemma redact_hides_witness :
  redactSensitive (JObj [("ticketId", JStr "k1"); ("customerEmail", JStr "cy@x.io")]) =
    JObj [("ticketId", JStr "k1"); ("customerEmail", JStr REDACTED)] ∧
  (JStr REDACTED = JNull ∨ JStr REDACTED = JStr REDACTED).
Proof.
  split; [reflexivity|].
  apply (redact_hides (JObj [("ticketId", JStr "k1"); ("customerEmail", JStr "cy@x.io")])
           "customerEmail" (JStr REDACTED)); [|reflexivity].
  apply field_here. right. left.
Defined.

Lemma interventions_recorded_witness :
  ∃ w' i r, run_operator parseInboundMessage (CancelOutbox "o1") root_operator "duplicate of ev2"
    (platform ODeadLetter) = (Ok tt, w') ∧
    rows_of d_interventions w' !! i = Some r ∧ in_action r = "CANCEL" ∧
    in_reason r = "duplicate of ev2".
Proof.
  assert (∃ w', run_operator parseInboundMessage (CancelOutbox "o1") root_operator "duplicate of ev2"
    (platform ODeadLetter) = (Ok tt, w')) as (w' & E) by (eexists; vm_compute; reflexivity).
  destruct (interventions_recorded parseInboundMessage (CancelOutbox "o1") root_operator
    "duplicate of ev2" (platform ODeadLetter) (Ok tt) w' eq_refl eq_refl E)
    as (i & r & _ & Hi & [= _ _ Ha] & _ & Hr).
  exists w', i, r. split; [exact E|]. rewrite Hi, lookup_insert_eq. by split_and!.
Defined.

Lemma retry_gives_attempts_witness :
  ∃ x w' r', retryOutbox "o1" root_operator "broker is back" (platform ODeadLetter) = (Ok x, w') ∧
    rows_of d_outbox w' !! "o1" = Some r' ∧ ob_status r' = OPending.
Proof.
  assert (∃ x w', retryOutbox "o1" root_operator "broker is back" (platform ODeadLetter) = (Ok x, w'))
    as (x & w' & E) by (do 2 eexists; vm_compute; reflexivity).
  destruct (retry_gives_attempts "o1" root_operator "broker is back" (platform ODeadLetter) x w' eq_refl
    (platform_cache _) E) as (r & r' & _ & _ & Ho & Hs & _).
  exists x, w', r'. split; [exact E|]. rewrite Ho, lookup_insert_eq. by split.
Defined.

Lemma replay_fresh_witness :
  ∃ x w' i r', replayOutbox "o1" root_operator "consumer lost it" (platform OProcessed) = (Ok x, w') ∧
    rows_of d_outbox w' !! i = Some r' ∧ active_outbox_replay r' = Some "o1".
Proof.
  assert (∃ x w', replayOutbox "o1" root_operator "consumer lost it" (platform OProcessed) = (Ok x, w'))
    as (x & w' & E) by (do 2 eexists; vm_compute; reflexivity).
  destruct (replay_fresh "o1" root_operator "consumer lost it" (platform OProcessed) x w' eq_refl
    (platform_cache _) E) as (r & i & r' & _ & _ & _ & Ho & _ & Ha & _).
  exists x, w', i, r'. split; [exact E|]. rewrite Ho, lookup_insert_eq. by split.
Defined.

Lemma purge_only_finished_witness :
  ∃ res w', purge None (platform OProcessed) = (res, w') ∧ res = Ok (1, 0) ∧
    purged (rows_of d_outbox (platform OProcessed)) (rows_of d_outbox w')
      (λ r, ob_status r ∈ [OProcessed; OCancelled] ∧ ob_updatedAt r < 100 * day - day).
Proof.
  assert (∃ w', purge None (platform OProcessed) = (Ok (1, 0), w')) as (w' & E)
    by (eexists; vm_compute; reflexivity).
  destruct (purge_only_finished None (platform OProcessed) _ w' eq_refl (platform_cache _) E) as [H _].
  exists (Ok (1, 0)), w'. split; [exact E|]. split; [done|exact H].
Defined.
