(* ===== verification/Gate.v ===== *)
(** * The checks in front of every route

    [src/presentation/http/middlewares]: a request is authenticated by its bearer token,
    placed in an organization that is active, and checked for a permission, in this order,
    before the handler of a route runs.  A middleware passes the request on ([next()]) with
    the fields it sets, or throws. *)

From Stdlib Require Import Ascii String.
From S2P Require Import Prelude Store Js Errors Domain Ticket Customer Tenant User Permissions.
From S2P Require Import Schema World Outbox Logs Tokens Frames Repositories Accounts Roles RoleFacts.

#[local] Open Scope string_scope.
#[local] Open Scope Z_scope.
#[local] Set Default Proof Using "Type*".

(** ** Bearer tokens *)

(** [extractBearerTokenFromHeader] *)
Definition extractBearerTokenFromHeader (authHeader : option string) : option string :=
  match authHeader with
  | Some h =>
      if String.prefix "Bearer " h then Some (String.substring 7 (String.length h - 7) h) else None
  | None => None
  end.

(** [cookieHeader.split(';').reduce(…)]: the value is what stands between the first two
    equals signs; a later cookie of the same name wins. *)
Definition parse_cookie (cookie : string) : list (string * string) :=
  match split_on "=" (trim cookie) with
  | key :: rest => if str_truthy key then [(trim key, default "" (trim <$> head rest))] else []
  | [] => []
  end.
Definition parseCookies (cookieHeader : string) : list (string * string) :=
  flat_map parse_cookie (split_on ";" cookieHeader).

(** [extractBearerTokenFromWebSocketRequest]: the [token] of the query string, then the
    header, then the cookie [access_token]. *)
Definition extractBearerTokenFromWebSocketRequest (query authorization cookie : option string)
  : option string :=
  if truthy query then query
  else
    let token := extractBearerTokenFromHeader authorization in
    if truthy token then token
    else get_field "access_token" (parseCookies (default "" cookie)).

(** ** Requests *)

(** [req.user] *)
Record RequestUser := mkRequestUser {
  ru_id : string;
  ru_email : string;
  ru_role : string;
  ru_tenantId : option string;
}.

(** The fields of a request the middlewares read and set. *)
Record HttpRequest := mkHttpRequest {
  rq_authorization : option string;
  rq_user : option RequestUser;
  rq_tenantId : option string;
  rq_permissions : option (gset string);
}.
#[export] Instance HttpRequest_eta : Eta HttpRequest := λ q,
  mkHttpRequest (rq_authorization q) (rq_user q) (rq_tenantId q) (rq_permissions q).

(** A request as it arrives. *)
Definition incoming (authorization : option string) : HttpRequest :=
  mkHttpRequest authorization None None None.

Definition subject_of_user (u : RequestUser) : PermissionSubject :=
  mkSubject (ru_id u) (ru_role u) (ru_tenantId u).

Definition user_of_payload (payload : JwtPayload) : RequestUser :=
  mkRequestUser (p_sub payload) (p_email payload) (p_role payload) (p_tenantId payload).

Section middlewares.
Context {Tbl : Type → Type} `{!Prisma Tbl} {Cr : Crypto} (cfg : JwtConfig).

Definition Middleware : Type := HttpRequest → W Tbl HttpRequest.

(** [createAuthMiddleware] *)
Definition authMiddleware : Middleware := λ req,
  let token := extractBearerTokenFromHeader (rq_authorization req) in
  match token with
  | Some token =>
      if str_truthy token then
        payload ← verifyAccessToken cfg token;
        _ ← assertAccessTokenUsable payload;
        mret (req <| rq_user := Some (user_of_payload payload) |>
                  <| rq_tenantId := p_tenantId payload |>)
      else throw (UnauthorizedError "No authentication token provided")
  | None => throw (UnauthorizedError "No authentication token provided")
  end.

(** [createOptionalAuthMiddleware]: a token that does not verify is ignored. *)
Definition optionalAuthMiddleware : Middleware := λ req,
  try_catch
    (match extractBearerTokenFromHeader (rq_authorization req) with
     | Some token =>
         if str_truthy token then
           payload ← verifyAccessToken cfg token;
           mret (req <| rq_user := Some (user_of_payload payload) |>
                     <| rq_tenantId := p_tenantId payload |>)
         else mret req
     | None => mret req
     end)
    (λ _, mret req).

(** [createTenantMiddleware] *)
Definition tenantMiddleware (allowTenantless : bool) : Middleware := λ req,
  match rq_user req with
  | None => throw (UnauthorizedError "Authentication required")
  | Some user =>
      if bool_decide (ru_role user = "PLATFORM_ADMIN") then mret (req <| rq_tenantId := None |>)
      else if truthy (ru_tenantId user) then
        let tenantId := default "" (ru_tenantId user) in
        record ← find_unique d_tenants tenantId;
        match record with
        | None => throw (ForbiddenError "Organization not found")
        | Some r =>
            tenant ← lift (tenant_toDomain tenantId r);
            if tenant_active_satisfied tenant then mret (req <| rq_tenantId := Some tenantId |>)
            else if bool_decide (n_status tenant = TSuspended)
            then throw (ForbiddenError "Your organization has been suspended. Please contact support.")
            else if bool_decide (n_status tenant = TCancelled)
            then throw (ForbiddenError "Your organization account has been cancelled")
            else throw (ForbiddenError "Your organization is not active")
        end
      else if allowTenantless then mret (req <| rq_tenantId := None |>)
      else throw (ForbiddenError "User is not associated with any organization")
  end.

Definition requireTenantContext : Middleware := λ req,
  if truthy (rq_tenantId req) then mret req
  else throw (ForbiddenError "This action requires an organization context").

Definition resolvePermissions (req : HttpRequest) : W Tbl (gset string * HttpRequest) :=
  match rq_user req with
  | None => throw (UnauthorizedError "Authentication required")
  | Some user =>
      match rq_permissions req with
      | Some held => mret (held, req)
      | None =>
          held ← getEffectivePermissions (subject_of_user user);
          mret (held, req <| rq_permissions := Some held |>)
      end
  end.

(** [createPermissionGuard(service)(...permissions)] *)
Definition permissionGuard (permissions : list string) : Middleware := λ req,
  '(granted, req) ← resolvePermissions req;
  if existsb (λ p, bool_decide (p ∈ granted)) permissions then mret req
  else throw (ForbiddenError ("This action requires the " ++ join " or " permissions ++ " permission")).

(** [router.use(…)]: the middlewares in front of a handler, in order. *)
Fixpoint run_chain (ms : list Middleware) (req : HttpRequest) : W Tbl HttpRequest :=
  match ms with
  | [] => mret req
  | m :: ms => req ← m req; run_chain ms req
  end.

(** The usual route of an organization, and one of the platform. *)
Definition tenant_chain (permissions : list string) : list Middleware :=
  [authMiddleware; tenantMiddleware false; requireTenantContext; permissionGuard permissions].
Definition admin_chain (permissions : list string) : list Middleware :=
  [authMiddleware; tenantMiddleware false; permissionGuard permissions].
End middlewares.

(** ** What a request that reaches a handler has *)

Section facts.
Context {Tbl : Type → Type} `{!Prisma Tbl} {Cr : Crypto} (cfg : JwtConfig).
Implicit Types (w : World Tbl) (req : HttpRequest).

(** The bearer token of [req] was signed for [payload] by this service and has not expired;
    [u] is the account it was issued to, unchanged since, and usable. *)
Definition authenticated (authorization : option string) (payload : JwtPayload) (u : UserRow) w
  : Prop :=
  (∃ token, extractBearerTokenFromHeader authorization = Some token ∧ token ≠ "" ∧
     jwt_verify (w_now w) token (accessSecret cfg) = JwtValid payload) ∧
  p_type payload = "access" ∧
  rows_of d_users w !! p_sub payload = Some u ∧ role_string (us_role u) = p_role payload ∧
  us_email u = p_email payload ∧ us_tenantId u = p_tenantId payload ∧
  usable (w_now w) (rows_of d_tenants w) u = true.

Lemma auth_ok req w req' w' :
  authMiddleware cfg req w = (Ok req', w') →
  w' = w ∧ ∃ payload u, authenticated (rq_authorization req) payload u w ∧
    req' = req <| rq_user := Some (user_of_payload payload) |>
               <| rq_tenantId := p_tenantId payload |>.
Proof.
  unfold authMiddleware. intros H.
  destruct (extractBearerTokenFromHeader _) as [token|] eqn:Ht; [|unfold throw in H; by inv_ok].
  destruct (str_truthy token) eqn:Htr; [|unfold throw in H; by inv_ok].
  unfold verifyAccessToken, verify_token in H. inv_ok. unfold get_now, gets in *. inv_ok.
  destruct (jwt_verify _ _ _) as [payload| |] eqn:Hv; [|unfold throw in *; by inv_ok..].
  destruct (bool_decide _) eqn:Hty; [|unfold throw in *; by inv_ok]. bool_to_prop.
  unfold mret, M_ret in *. inv_ok.
  destruct (assertAccessTokenUsable_run a s) as (res & E & Hres). rewrite E in *. inv_ok.
  split; [done|]. destruct Hres as [(u & Hu & Hr & He & Hten & Hus) _]; [done|].
  exists a, u. split; [|done]. split_and!; try done. exists token. split_and!; [done| |done].
  by intros ->.
Qed.

Lemma tenant_ok req w req' w' :
  tenantMiddleware false req w = (Ok req', w') →
  w' = w ∧ ∃ user, rq_user req = Some user ∧
    ((ru_role user = "PLATFORM_ADMIN" ∧ req' = req <| rq_tenantId := None |>) ∨
     (ru_role user ≠ "PLATFORM_ADMIN" ∧ ∃ t n, ru_tenantId user = Some t ∧ t ≠ "" ∧
        rows_of d_tenants w !! t = Some n ∧ req' = req <| rq_tenantId := Some t |>)).
Proof.
  unfold tenantMiddleware. intros H.
  destruct (rq_user req) as [user|] eqn:Hu; [|unfold throw in H; by inv_ok].
  case_bool_decide as Hrole.
  { unfold mret, M_ret in H. inv_ok. split; [done|]. exists user. split; [done|]. by left. }
  destruct (ru_tenantId user) as [t|] eqn:Ht; [|unfold throw in H; by inv_ok].
  cbn [truthy default] in H. destruct (str_truthy t) eqn:Htr; [|unfold throw in H; by inv_ok].
  unfold find_unique, gets in H. inv_ok.
  rewrite findUnique_rows in H. destruct (rows _ !! t) as [n|] eqn:Hn; [|unfold throw in H; by inv_ok].
  inv_ok. unfold lift in *. inv_ok.
  destruct (tenant_active_satisfied _); [|unfold throw in H; repeat case_match; by inv_ok].
  unfold mret, M_ret in H. inv_ok. split; [done|]. exists user. split; [done|]. right.
  split; [done|]. exists t, n. split_and!; try done. by intros ->.
Qed.

Lemma guard_ok permissions req w req' w' :
  permissionGuard permissions req w = (Ok req', w') → rq_permissions req = None →
  w' = w ∧ rq_user req' = rq_user req ∧ rq_tenantId req' = rq_tenantId req ∧
  ∃ user p, rq_user req = Some user ∧ p ∈ permissions ∧ p ∈ effective w (subject_of_user user).
Proof.
  unfold permissionGuard, resolvePermissions. intros H Hp.
  destruct (rq_user req) as [user|] eqn:Hu; [rewrite Hp in H|unfold throw in H; by inv_ok].
  unfold mbind, M_bind in H. rewrite effective_run in H. unfold mret, M_ret in H. cbv beta iota in H.
  destruct (existsb _ _) eqn:E; [|unfold throw in H; by inv_ok]. inv_ok.
  apply existsb_exists in E as (p & Hin & Hp'). bool_to_prop.
  split_and!; [done|by destruct req|by destruct req|].
  exists user, p. split_and!; [done| |done]. by apply list_elem_of_In.
Qed.

(** What every authenticated chain that ends with a permission guard establishes. *)
Lemma chain_ok authorization w req1 w1 req2 w' :
  authMiddleware cfg (incoming authorization) w = (Ok req1, w1) →
  tenantMiddleware false req1 w1 = (Ok req2, w') →
  w' = w ∧ rq_permissions req2 = None ∧ ∃ payload u, authenticated authorization payload u w ∧
    rq_user req2 = Some (user_of_payload payload) ∧
    ((us_role u = PLATFORM_ADMIN ∧ rq_tenantId req2 = None) ∨
     (us_role u ≠ PLATFORM_ADMIN ∧ ∃ t n, us_tenantId u = Some t ∧ t ≠ "" ∧
        rows_of d_tenants w !! t = Some n ∧ includes BLOCKED_TENANT_STATUSES (nr_status n) = false ∧
        rq_tenantId req2 = Some t)).
Proof.
  intros E H. apply auth_ok in E as (-> & payload & u & Ha & ->).
  apply tenant_ok in H as (-> & user & [= <-] & Hcase). split; [done|].
  pose proof Ha as (_ & _ & Hu & Hr & _ & Ht & Hus). cbn [user_of_payload ru_role ru_tenantId] in Hcase.
  rewrite <-Hr in Hcase. destruct Hcase as [[Hp ->]|(Hp & t & n & Htt & Hne & Hn & ->)].
  - split; [done|]. exists payload, u. split_and!; [done|done|]. left. split; [|done].
    by destruct (us_role u).
  - split; [done|]. exists payload, u. split_and!; [done|done|]. right.
    split; [by intros E; rewrite E in Hp|]. exists t, n. rewrite Ht. split_and!; try done.
    unfold usable in Hus. bool_to_prop. rewrite Ht, Htt in *.
    destruct (str_truthy t) eqn:Htr; [|by destruct t]. rewrite Hn in *. by bool_to_prop.
Qed.

(** C9: A request that reaches the handler of an organization's route carries an unexpired token
    of an account that still is what the token says and is usable; the organization the
    handler works in is the account's own, and it is neither suspended nor cancelled; the
    account holds one of the permissions of the route; and nothing was changed on the way. *)
Theorem tenant_route_sound permissions authorization w req' w' :
  run_chain (tenant_chain cfg permissions) (incoming authorization) w = (Ok req', w') →
  w' = w ∧ ∃ payload u t n p, authenticated authorization payload u w ∧
    rq_user req' = Some (user_of_payload payload) ∧ us_role u ≠ PLATFORM_ADMIN ∧
    us_tenantId u = Some t ∧ rq_tenantId req' = Some t ∧
    rows_of d_tenants w !! t = Some n ∧ includes BLOCKED_TENANT_STATUSES (nr_status n) = false ∧
    p ∈ permissions ∧ p ∈ effective w (mkSubject (p_sub payload) (role_string (us_role u)) (Some t)).
Proof.
  cbn [tenant_chain run_chain]. intros H. inv_ok. unfold mret, M_ret in H. inv_ok.
  match goal with E : authMiddleware _ _ _ = _, F : tenantMiddleware _ _ _ = _ |- _ =>
    destruct (chain_ok _ _ _ _ _ _ E F) as (-> & Hp & payload & u & Ha & Huser & Hcase) end.
  match goal with E : requireTenantContext _ _ = _ |- _ => unfold requireTenantContext in E;
    destruct (truthy _) eqn:Htr in E; [|unfold throw in E; by inv_ok] end.
  unfold mret, M_ret in *. inv_ok.
  match goal with E : permissionGuard _ _ _ = _ |- _ =>
    apply guard_ok in E as (-> & Hu' & Ht' & user & p & Huser' & Hin & Heff); [|done] end.
  split; [done|]. destruct Hcase as [[_ Hn]|(Hrole & t & n & Ht & Hne & Hn & Hb & Hreq)];
    [by rewrite Hn in Htr|].
  rewrite Huser in Huser'. injection Huser' as <-.
  pose proof Ha as (_ & _ & _ & Hr & _ & Hpt & _).
  exists payload, u, t, n, p. rewrite Hu', Ht', Hr. split_and!; try done.
  unfold subject_of_user, user_of_payload in Heff. cbn in Heff. by rewrite <-Hpt, Ht in Heff.
Qed.

Lemma platform_permission_admin c p grants :
  p ∈ PLATFORM_PERMISSIONS → p ∈ computeEffectivePermissions (role_string c) grants →
  c = PLATFORM_ADMIN.
Proof using Type.
  intros Hp He%effective_within_boundary.
  assert (H : ∀ c, c = PLATFORM_ADMIN ∨
    forallb (λ p, negb (includes (CLASS_BOUNDARY c) p)) PLATFORM_PERMISSIONS = true)
    by (intros []; by (left + right)).
  destruct (H c) as [->|Hc]; [done|]. rewrite forallb_forall in Hc.
  apply list_elem_of_In, Hc in Hp. apply includes_true in He. by rewrite He in Hp.
Qed.

Lemma admin_chain_ok permissions authorization w req' w' :
  run_chain (admin_chain cfg permissions) (incoming authorization) w = (Ok req', w') →
  w' = w ∧ ∃ payload u p, authenticated authorization payload u w ∧
    rq_user req' = Some (user_of_payload payload) ∧ role_string (us_role u) = p_role payload ∧
    p ∈ permissions ∧ p ∈ effective w (subject_of_user (user_of_payload payload)) ∧
    ((us_role u = PLATFORM_ADMIN ∧ rq_tenantId req' = None) ∨
     (us_role u ≠ PLATFORM_ADMIN ∧ us_tenantId u ≠ None ∧ rq_tenantId req' = us_tenantId u)).
Proof.
  cbn [admin_chain run_chain]. intros H. inv_ok. unfold mret, M_ret in H. inv_ok.
  match goal with E : authMiddleware _ _ _ = _, F : tenantMiddleware _ _ _ = _ |- _ =>
    destruct (chain_ok _ _ _ _ _ _ E F) as (-> & Hp & payload & u & Ha & Huser & Hcase) end.
  match goal with E : permissionGuard _ _ _ = _ |- _ =>
    apply guard_ok in E as (-> & Hu' & Ht' & user & p & Huser' & Hin & Heff); [|done] end.
  rewrite Huser in Huser'. injection Huser' as <-. split; [done|].
  pose proof Ha as (_ & _ & _ & Hr & _). exists payload, u, p. rewrite Hu', Ht'.
  repeat (split; [done|]). destruct Hcase as [?|(? & t & n & -> & _ & _ & _ & ?)]; [by left|by right].
Qed.

(** Nobody but a platform administrator gets past a guard that asks for permissions of the
    platform only, whatever roles their organization gave them. *)
Theorem platform_routes_admin_only permissions authorization w req' w' :
  permissions ⊆ PLATFORM_PERMISSIONS →
  run_chain (admin_chain cfg permissions) (incoming authorization) w = (Ok req', w') →
  w' = w ∧ rq_tenantId req' = None ∧ ∃ payload u, authenticated authorization payload u w ∧
    rq_user req' = Some (user_of_payload payload) ∧ us_role u = PLATFORM_ADMIN.
Proof.
  intros Hsub H. apply admin_chain_ok in H as (-> & payload & u & p & Ha & Hu & Hr & Hin & Heff & Hcase).
  assert (us_role u = PLATFORM_ADMIN) as Hadmin.
  { apply effective_elem in Heff. cbn in Heff. rewrite <-Hr in Heff. apply Hsub in Hin.
    destruct Heff as [Heff|[(c & Hc & Hb) _]].
    - by eapply platform_permission_admin.
    - assert (account_class (role_string (us_role u)) = Some (us_role u)) as Hcc
        by (by destruct (us_role u)).
      rewrite Hcc in Hc. injection Hc as ->.
      apply (platform_permission_admin c p [p]); [done|].
      apply effective_spec. right. split_and!; [left|done|by eapply boundary_in_catalog]. }
  split; [done|]. destruct Hcase as [[_ Hn]|(Hno & _)]; [|done].
  split; [done|]. by exists payload, u.
Qed.
End facts.

(** ** Requests to a small service *)

Definition gate_user (role : UserRole) (tenantId : option string) : UserRow :=
  mkUserRow tenantId "a@acme.io" None "Ann" "Lee" role UActive None None "UTC" "en" (Some 0)
    None None 0 None (JObj []) 0 0.

Definition gate_world (role : UserRole) (tenantId : option string) : World (gmap string) :=
  world_of 1000 (empty_db
    <| d_users := {["u1" := gate_user role tenantId]} |>
    <| d_tenants := {["t1" := mkTenantRecord "Acme" "acme" "ACTIVE" "pro" None None 5 100 10
                                (JObj []) None None 0 0]} |>).

(** The header of a request whose access token was just issued. *)
Definition gate_header (role : UserRole) (tenantId : option string) : option string :=
  match (generateAccessToken demo_cfg "u1" tenantId (role_string role) "a@acme.io"
           (gate_world role tenantId)).1 with
  | Ok token => Some ("Bearer " ++ token)
  | Err _ => None
  end.

Lemma tenant_route_sound_witness :
  ∃ req', run_chain (tenant_chain demo_cfg ["tickets:create"])
      (incoming (gate_header AGENT (Some "t1"))) (gate_world AGENT (Some "t1"))
    = (Ok req', gate_world AGENT (Some "t1")) ∧ rq_tenantId req' = Some "t1".
Proof.
  assert (∃ req', run_chain (tenant_chain demo_cfg ["tickets:create"])
      (incoming (gate_header AGENT (Some "t1"))) (gate_world AGENT (Some "t1"))
    = (Ok req', gate_world AGENT (Some "t1"))) as (req' & E) by (eexists; vm_compute; reflexivity).
  exists req'. split; [exact E|].
  destruct (tenant_route_sound demo_cfg ["tickets:create"] (gate_header AGENT (Some "t1"))
    (gate_world AGENT (Some "t1")) req' _ E) as (_ & payload & u & t & n & p & Ha & _ & _ & Hut & Ht & _).
  destruct Ha as (_ & _ & Hu & _).
  change (({["u1" := gate_user AGENT (Some "t1")]} : gmap string UserRow) !! p_sub payload = Some u) in Hu.
  apply lookup_singleton_Some in Hu as [_ <-]. cbn in Hut. by rewrite Ht, <-Hut.
Defined.

Lemma platform_routes_admin_only_witness :
  ∃ req', run_chain (admin_chain demo_cfg ["platform:operations"])
      (incoming (gate_header PLATFORM_ADMIN None)) (gate_world PLATFORM_ADMIN None)
    = (Ok req', gate_world PLATFORM_ADMIN None) ∧ rq_tenantId req' = None.
Proof.
  assert (∃ req', run_chain (admin_chain demo_cfg ["platform:operations"])
      (incoming (gate_header PLATFORM_ADMIN None)) (gate_world PLATFORM_ADMIN None)
    = (Ok req', gate_world PLATFORM_ADMIN None)) as (req' & E) by (eexists; vm_compute; reflexivity).
  exists req'. split; [exact E|].
  apply (platform_routes_admin_only demo_cfg ["platform:operations"] (gate_header PLATFORM_ADMIN None)
    (gate_world PLATFORM_ADMIN None) req' (gate_world PLATFORM_ADMIN None)); [|exact E].
  intros p Hp. apply list_elem_of_singleton in Hp as ->. vm_compute. set_solver.
Defined.
