(* ===== verification/Admin.v ===== *)
(** * The administration routes

    [src/presentation/http/routes/v1/admin.routes.ts]: audit records for managers and
    platform administrators, and the operator controls of [Operations], each behind the
    checks of [Gate].  A route is a computation from the request to the body of its response.
    The health and provider summaries, which read outside services, are left out. *)

From Stdlib Require Import Ascii String.
From S2P Require Import Prelude Store Js Errors Domain Ticket Customer Tenant User Permissions.
From S2P Require Import Schema World Outbox Logs Tokens Frames Repositories Accounts Roles.
From S2P Require Import RoleFacts Webhooks Operations Gate.

#[local] Open Scope string_scope.
#[local] Open Scope Z_scope.
#[local] Set Default Proof Using "Type*".

(** [auditQuerySchema], parsed *)
Record AuditQuery := mkAuditQuery {
  aq_page : Z;
  aq_limit : Z;
  aq_resource : option string;
  aq_resourceId : option string;
  aq_actorId : option string;
  aq_action : option string;
  aq_tenantId : option string;
  aq_from : option Z;
  aq_to : option Z;
}.

(** The [where] clause of the listing; a [tenantId] that is undefined does not filter. *)
Definition audit_where (isPlatform : bool) (tenantId : option string) (query : AuditQuery)
    (_ : string) (r : AuditRow) : bool :=
  (if isPlatform then equals (aq_tenantId query) (au_tenantId r)
   else match tenantId with Some t => bool_decide (au_tenantId r = Some t) | None => true end)
  && equals (aq_resource query) (Some (au_resource r))
  && equals (aq_resourceId query) (au_resourceId r)
  && equals (aq_actorId query) (au_actorId r)
  && equals (aq_action query) (Some (au_action r))
  && match aq_from query with Some t => t <=? au_occurredAt r | None => true end
  && match aq_to query with Some t => au_occurredAt r <=? t | None => true end.

(** [select]: the values, addresses and metadata of a record are left out of a listing. *)
Definition audit_select (r : AuditRow) : AuditRow :=
  mkAuditRow (au_tenantId r) (au_actorId r) (au_actorRole r) (au_action r) (au_resource r)
    (au_resourceId r) None None None None [] (au_occurredAt r).

Definition redact_fields (fields : list (string * Json)) : list (string * Json) :=
  match redactSecrets (JObj fields) with JObj fields => fields | _ => [] end.

Definition audit_redact (r : AuditRow) : AuditRow :=
  mkAuditRow (au_tenantId r) (au_actorId r) (au_actorRole r) (au_action r) (au_resource r)
    (au_resourceId r) (redact_fields <$> au_oldValue r) (redact_fields <$> au_newValue r)
    (au_ipAddress r) (au_userAgent r) (redact_fields (au_metadata r)) (au_occurredAt r).

Definition json_type (j : Json) : string :=
  match j with
  | JNull => "null" | JBool _ => "boolean" | JNum _ => "number" | JStr _ => "string"
  | JArr _ => "array" | JObj _ => "object"
  end.

(** [interventionSchema], with the messages of the library *)
Definition interventionSchema (reason : option Json) : result error string :=
  let refuse m := Err (ValidationError "Validation failed" [("reason", [m])]) in
  match reason with
  | None => refuse "Required"
  | Some (JStr s) =>
      let s := trim s in
      if str_length s <? 10 then refuse "String must contain at least 10 character(s)"
      else if 1000 <? str_length s then refuse "String must contain at most 1000 character(s)"
      else Ok s
  | Some j => refuse ("Expected string, received " ++ json_type j)
  end.

Section routes.
Context {Tbl : Type → Type} `{!Prisma Tbl} {Cr : Crypto} (cfg : JwtConfig).
Context (parse : Json → option WhatsAppWebhookPayload).

Definition actor_of (req : HttpRequest) : OperatorActor :=
  match rq_user req with
  | Some u => mkOperator (ru_id u) (ru_role u)
  | None => mkOperator "" ""
  end.

Definition isPlatform (req : HttpRequest) : bool :=
  bool_decide (op_role (actor_of req) = "PLATFORM_ADMIN").

Definition auditView (req : HttpRequest) (resource : string) (resourceId : option string)
  : W Tbl unit :=
  audit_create (mkAudit None (Some (op_id (actor_of req))) (Some (op_role (actor_of req)))
    "VIEW" resource resourceId None None None None []).

(** [GET /audit] *)
Definition get_audit (authorization : option string) (query : AuditQuery)
  : W Tbl (PaginatedResult (string * AuditRow)) :=
  req ← run_chain (admin_chain cfg ["audit:read"]) (incoming authorization);
  let where_ := audit_where (isPlatform req) (rq_tenantId req) query in
  let skip := (aq_page query - 1) * aq_limit query in
  records ← find_many d_audits where_ (λ kr, - au_occurredAt kr.2)
              (Some (Z.to_nat (skip + aq_limit query)));
  total ← count d_audits where_;
  mret (mkPage (map (λ '(i, r), (i, audit_select r)) (drop (Z.to_nat skip) records)) total
          (aq_page query) (aq_limit query) (- ((- total) / aq_limit query))).

(** [GET /audit/:id] *)
Definition get_audit_record (authorization : option string) (id : string)
  : W Tbl (string * AuditRow) :=
  req ← run_chain (admin_chain cfg ["audit:read"]) (incoming authorization);
  record ← find_first d_audits (λ j r, bool_decide (j = id) &&
             (if isPlatform req then true
              else match rq_tenantId req with
                   | Some t => bool_decide (au_tenantId r = Some t)
                   | None => true
                   end));
  match record with
  | None => throw (NotFoundError "Audit record" (Some id))
  | Some (i, r) => mret (i, audit_redact r)
  end.

(** The routes below [requirePermission('platform:operations')]. *)
Definition operator_route {A} (authorization : option string) (handler : HttpRequest → W Tbl A)
  : W Tbl A :=
  req ← run_chain (admin_chain cfg ["platform:operations"]) (incoming authorization);
  handler req.

(** A listing or a record is shown, and the view audited. *)
Definition viewed {A} (resource : string) (resourceId : option string) (show : W Tbl A)
    (req : HttpRequest) : W Tbl A :=
  result ← show; _ ← auditView req resource resourceId; mret result.

Definition get_outbox_list authorization filter :=
  operator_route authorization (viewed "operations.outbox" None (listOutbox filter)).
Definition get_outbox_record authorization id :=
  operator_route authorization (viewed "operations.outbox" (Some id) (getOutbox id)).
Definition get_webhook_list authorization filter :=
  operator_route authorization (viewed "operations.webhooks" None (listWebhooks filter)).
Definition get_webhook_record authorization id :=
  operator_route authorization (viewed "operations.webhooks" (Some id) (getWebhook id)).

(** [validate(interventionSchema)] in front of an intervention. *)
Definition intervention_route {A} (authorization : option string) (reason : option Json)
    (intervene : OperatorActor → string → W Tbl A) : W Tbl A :=
  operator_route authorization (λ req,
    reason ← lift (interventionSchema reason);
    intervene (actor_of req) reason).

Definition post_outbox_retry authorization id reason :=
  intervention_route authorization reason (retryOutbox id).
Definition post_outbox_replay authorization id reason :=
  intervention_route authorization reason (replayOutbox id).
Definition post_outbox_cancel authorization id reason :=
  intervention_route authorization reason (cancelOutbox id).
Definition post_webhook_retry authorization id reason :=
  intervention_route authorization reason (retryWebhook parse id).
Definition post_webhook_replay authorization id reason :=
  intervention_route authorization reason (replayWebhook parse id).
Definition post_webhook_cancel authorization id reason :=
  intervention_route authorization reason (cancelWebhook id).
Definition post_purge authorization reason :=
  intervention_route authorization reason (λ actor reason, purge (Some (actor, reason))).

Definition get_settings authorization := operator_route authorization (λ _, settings_get).

(** [PATCH /operations/settings], with a body that [settingsUpdateSchema] accepted as
    [changes] and some [reason]. *)
Definition patch_settings authorization changes reason :=
  operator_route authorization (λ req, updateSettings changes (actor_of req) reason).

Definition get_interventions authorization targetType targetId :=
  operator_route authorization (λ _, listInterventions targetType targetId).
End routes.

(** ** Who sees which audit records *)

Section facts.
Context {Tbl : Type → Type} `{!Prisma Tbl} {Cr : Crypto} (cfg : JwtConfig).
Implicit Types (w : World Tbl).

(** The organization's staff see the audit records of their own organization and no other,
    in the listing with whatever filters and one by one. *)
Theorem audit_isolated authorization w :
  (∀ query page w', get_audit cfg authorization query w = (Ok page, w') →
     ∃ payload u, authenticated cfg authorization payload u w ∧
       (us_role u ≠ PLATFORM_ADMIN → us_tenantId u ≠ None ∧
          ∀ i r, (i, r) ∈ pg_data page → au_tenantId r = us_tenantId u)) ∧
  (∀ id i r w', get_audit_record cfg authorization id w = (Ok (i, r), w') →
     ∃ payload u, authenticated cfg authorization payload u w ∧
       (us_role u ≠ PLATFORM_ADMIN → us_tenantId u ≠ None ∧ au_tenantId r = us_tenantId u)).
Proof.
  assert (∀ req payload u, rq_user req = Some (user_of_payload payload) →
    role_string (us_role u) = p_role payload → us_role u ≠ PLATFORM_ADMIN → isPlatform req = false)
    as Hplat.
  { intros req payload u Hu Hr Hne. unfold isPlatform, actor_of. rewrite Hu. cbn.
    rewrite <-Hr. case_bool_decide as E; [|done]. by destruct (us_role u). }
  split.
  - intros query page w' H. unfold get_audit in H. inv_ok.
    match goal with E : run_chain _ _ _ = _ |- _ =>
      apply admin_chain_ok in E as (-> & payload & u & p & Ha & Hu & Hr & _ & _ & Hcase) end.
    exists payload, u. split; [done|]. intros Hne.
    destruct Hcase as [[? _]|(_ & Hsome & Ht)]; [done|]. split; [done|].
    rewrite (Hplat _ _ _ Hu Hr Hne) in *. rewrite Ht in *.
    unfold find_many, gets in *. inv_ok. unfold mret, M_ret in *. inv_ok. cbn [pg_data].
    intros i r Hin. apply list_elem_of_fmap in Hin as ([j r'] & [= -> ->] & Hin).
    apply subseteq_drop, findMany_elem in Hin as [_ Hw]. unfold audit_where in Hw. cbn [audit_select au_tenantId].
    destruct (us_tenantId u) as [t|]; [|done]. bool_to_prop. done.
  - intros id i r w' H. unfold get_audit_record in H. inv_ok.
    match goal with E : run_chain _ _ _ = _ |- _ =>
      apply admin_chain_ok in E as (-> & payload & u & p & Ha & Hu & Hr & _ & _ & Hcase) end.
    exists payload, u. split; [done|]. intros Hne.
    destruct Hcase as [[? _]|(_ & Hsome & Ht)]; [done|]. split; [done|].
    rewrite (Hplat _ _ _ Hu Hr Hne) in *. rewrite Ht in *.
    match goal with E : find_first _ _ _ = (Ok ?o, _) |- _ =>
      destruct o as [[j r']|]; [apply find_first_some in E as (-> & Hj & Hp)|unfold throw in H; by inv_ok] end.
    unfold mret, M_ret in H. inv_ok.
    destruct (us_tenantId u) as [t|]; [|done]. bool_to_prop. done.
Qed.
End facts.

(** An agent of one organization asks for the audit records. *)

Definition audited (tenantId : string) : AuditRow :=
  mkAuditRow (Some tenantId) None None "UPDATE" "tickets" None None None None None [] 10.

Definition audit_world : World (gmap string) :=
  (gate_world TENANT_MANAGER (Some "t1"))
    <| w_db ::= λ d, d <| d_audits := {["a1" := audited "t1"; "a2" := audited "t2"]} |> |>.

Definition all_records : AuditQuery := mkAuditQuery 1 20 None None None None None None None.

Lemma audit_isolated_witness :
  ∃ w', get_audit demo_cfg (gate_header TENANT_MANAGER (Some "t1")) all_records audit_world
    = (Ok (mkPage [("a1", audited "t1")] 1 1 20 1), w') ∧
    ∃ u, ∀ i r, (i, r) ∈ [("a1", audited "t1")] →
      us_role u ≠ PLATFORM_ADMIN → au_tenantId r = us_tenantId u.
Proof.
  assert (∃ w', get_audit demo_cfg (gate_header TENANT_MANAGER (Some "t1")) all_records audit_world
    = (Ok (mkPage [("a1", audited "t1")] 1 1 20 1), w')) as (w' & E)
    by (eexists; vm_compute; reflexivity).
  exists w'. split; [exact E|].
  destruct (audit_isolated demo_cfg (gate_header TENANT_MANAGER (Some "t1")) audit_world) as [H _].
  destruct (H _ _ _ E) as (payload & u & _ & Hu). exists u. intros i r Hin Hne.
  by apply Hu in Hin.
Defined.
