(* ===== verification/Notifications.v ===== *)
(** * Notifications of ticket events

    [NotificationService] ([src/application/notification/services]) mails the people
    concerned by a ticket event, stores an in-app notification and pushes a realtime event;
    [registerNotificationHandlers] ([src/application/event-bus/handlers]) subscribes it to the
    event bus. *)

From stdpp Require Import pretty.
From Stdlib Require Import Ascii String.
From S2P Require Import Prelude Store Js Errors Domain Ticket Customer Tenant User.
From S2P Require Import Notification Schema World Outbox Logs Frames Repositories Accounts.

#[local] Open Scope string_scope.
#[local] Open Scope Z_scope.
#[local] Set Default Proof Using "Type*".

(** ** Mail templates

    A template literal is a list of literal parts, in which [`] stands for a double quote,
    and of values, which are escaped. *)

Inductive Part := Lit (s : string) | Val (s : string).

Definition unquote (s : string) : string :=
  str_flat_map (λ c, if Ascii.eqb c "`" then String (of_code 34) "" else String c "") s.

Definition render_part (p : Part) : string :=
  match p with Lit s => unquote s | Val s => escapeHtml s end.

Definition render (parts : list Part) : string := String.concat "" (map render_part parts).

Definition buildTicketCreatedEmail (customerName : string) (ticketNumber : Z) (title :
    string) (ticketUrl : string) (tenantName : string) : list Part :=
  [Lit "
      <div style=`font-family:Arial,sans-serif;max-width:600px;margin:0 auto;`>
        <h2 style=`color:#4F46E5;`>";
   Val tenantName;
   Lit " Support</h2>
        <p>Hi ";
   Val customerName;
   Lit ",</p>
        <p>Your support ticket has been created successfully.</p>
        <div style=`background:#F3F4F6;padding:16px;border-radius:8px;margin:16px 0;`>
          <p><strong>Ticket #";
   Val (pretty ticketNumber);
   Lit "</strong></p>
          <p>";
   Val title;
   Lit "</p>
        </div>
        <a href=`";
   Val ticketUrl;
   Lit "` style=`background:#4F46E5;color:white;padding:12px 24px;text-decoration:none;border-radius:4px;display:inline-block;`>
          View Ticket
        </a>
        <p style=`color:#6B7280;font-size:12px;margin-top:32px;`>
          This is an automated message from ";
   Val tenantName;
   Lit " Support.
        </p>
      </div>
    "].

Definition buildTicketAssignedEmail (agentName : string) (ticketNumber : Z) (title :
    string) (ticketUrl : string) (tenantName : string) : list Part :=
  [Lit "
      <div style=`font-family:Arial,sans-serif;max-width:600px;margin:0 auto;`>
        <h2 style=`color:#4F46E5;`>";
   Val tenantName;
   Lit " Support</h2>
        <p>Hi ";
   Val agentName;
   Lit ",</p>
        <p>Ticket #";
   Val (pretty ticketNumber);
   Lit " has been assigned to you.</p>
        <div style=`background:#F3F4F6;padding:16px;border-radius:8px;margin:16px 0;`>
          <p><strong>";
   Val title;
   Lit "</strong></p>
        </div>
        <a href=`";
   Val ticketUrl;
   Lit "` style=`background:#4F46E5;color:white;padding:12px 24px;text-decoration:none;border-radius:4px;display:inline-block;`>
          View Ticket
        </a>
      </div>
    "].

Definition buildTicketEscalatedEmail (recipientName : string) (ticketNumber : Z) (title :
    string) (reason : string) (ticketUrl : string) (tenantName : string) : list Part :=
  [Lit "
      <div style=`font-family:Arial,sans-serif;max-width:600px;margin:0 auto;`>
        <h2 style=`color:#DC2626;`>🚨 Escalation Alert - ";
   Val tenantName;
   Lit "</h2>
        <p>Hi ";
   Val recipientName;
   Lit ",</p>
        <p>Ticket #";
   Val (pretty ticketNumber);
   Lit " requires immediate attention.</p>
        <div style=`background:#FEF2F2;border:1px solid #DC2626;padding:16px;border-radius:8px;margin:16px 0;`>
          <p><strong>";
   Val title;
   Lit "</strong></p>
          <p><strong>Reason:</strong> ";
   Val reason;
   Lit "</p>
        </div>
        <a href=`";
   Val ticketUrl;
   Lit "` style=`background:#DC2626;color:white;padding:12px 24px;text-decoration:none;border-radius:4px;display:inline-block;`>
          View Escalated Ticket
        </a>
      </div>
    "].

Definition buildTicketResolvedEmail (customerName : string) (ticketNumber : Z) (title :
    string) (ticketUrl : string) (tenantName : string) : list Part :=
  [Lit "
      <div style=`font-family:Arial,sans-serif;max-width:600px;margin:0 auto;`>
        <h2 style=`color:#059669;`>";
   Val tenantName;
   Lit " Support</h2>
        <p>Hi ";
   Val customerName;
   Lit ",</p>
        <p>Your support ticket has been resolved.</p>
        <div style=`background:#ECFDF5;padding:16px;border-radius:8px;margin:16px 0;`>
          <p><strong>Ticket #";
   Val (pretty ticketNumber);
   Lit "</strong></p>
          <p>";
   Val title;
   Lit "</p>
        </div>
        <a href=`";
   Val ticketUrl;
   Lit "` style=`background:#059669;color:white;padding:12px 24px;text-decoration:none;border-radius:4px;display:inline-block;`>
          View Resolution
        </a>
        <p>If you're not satisfied, you can reopen your ticket from the link above.</p>
      </div>
    "].

Definition buildCommentNotificationEmail (recipientName : string) (ticketNumber : Z)
    (title : string) (authorName : string) (ticketUrl : string) (tenantName : string) :
    list Part :=
  [Lit "
      <div style=`font-family:Arial,sans-serif;max-width:600px;margin:0 auto;`>
        <h2 style=`color:#4F46E5;`>";
   Val tenantName;
   Lit " Support</h2>
        <p>Hi ";
   Val recipientName;
   Lit ",</p>
        <p><strong>";
   Val authorName;
   Lit "</strong> replied to Ticket #";
   Val (pretty ticketNumber);
   Lit ".</p>
        <div style=`background:#F3F4F6;padding:16px;border-radius:8px;margin:16px 0;`>
          <p>";
   Val title;
   Lit "</p>
        </div>
        <a href=`";
   Val ticketUrl;
   Lit "` style=`background:#4F46E5;color:white;padding:12px 24px;text-decoration:none;border-radius:4px;display:inline-block;`>
          View Reply
        </a>
      </div>
    "].

(** ** NotificationService *)

Record NotifyTicketCreatedDto := mkNotifyCreated {
  nc_tenantId : string;
  nc_ticketId : string;
  nc_ticketNumber : Z;
  nc_title : string;
  nc_customerId : string;
  nc_assignedAgentId : option string;
}.

Record NotifyTicketAssignedDto := mkNotifyAssigned {
  na_tenantId : string;
  na_ticketId : string;
  na_ticketNumber : Z;
  na_title : string;
  na_agentId : string;
  na_assignedById : string;
}.

Record NotifyTicketEscalatedDto := mkNotifyEscalated {
  ne_tenantId : string;
  ne_ticketId : string;
  ne_ticketNumber : Z;
  ne_title : string;
  ne_reason : string;
  ne_assignedAgentId : option string;
}.

Record NotifyCommentAddedDto := mkNotifyComment {
  nm_tenantId : string;
  nm_ticketId : string;
  nm_ticketNumber : Z;
  nm_title : string;
  nm_authorId : string;
  nm_authorName : string;
  nm_commentType : string;
  nm_customerId : string;
}.

Section service.
Context {Tbl : Type → Type} `{!Prisma Tbl} (frontendUrl : string).

(** [RealtimePublisher.sendToUser], [sendToTenant], [sendToTicket]: best effort. *)
Definition push (target : PushTarget) (event : string) (data : list (string * Json)) : W Tbl unit :=
  modify (λ w, w <| w_effects ::= λ l, (l ++ [Push target event data])%list |>).

(** [try { work } catch (error) { logger.error(…) }] *)
Definition logged (work : W Tbl unit) : W Tbl unit := try_catch work (λ _, mret ()).

Definition ticketUrl (ticketId : string) : string := frontendUrl ++ "/tickets/" ++ ticketId.

Definition createNotification (tenantId : string) (userId customerId ticketId : option string)
    (subject : option string) (content : string) : W Tbl unit :=
  i ← draw;
  rt ← draw_rt 0;
  let n := notification_new rt i
    (mkNotificationProps tenantId userId customerId ticketId IN_APP "SENT" subject content []
       None (Some (now rt)) None None None 0 3 None (Some (now rt))) in
  _ ← notification_save n; mret ().

Definition notifyTicketAssigned (dto : NotifyTicketAssignedDto) : W Tbl unit :=
  logged (
    agent ← find_unique d_users (na_agentId dto);
    tenant ← find_unique d_tenants (na_tenantId dto);
    match agent, tenant with
    | Some agent, Some tenant =>
        _ ← add_jobs [EmailJob 5 None (us_email agent)
              ("[" ++ nr_name tenant ++ "] Ticket #" ++ pretty (na_ticketNumber dto)
               ++ " Assigned to You")
              (render (buildTicketAssignedEmail (us_firstName agent) (na_ticketNumber dto)
                 (na_title dto) (ticketUrl (na_ticketId dto)) (nr_name tenant)))];
        _ ← push (ToUser (na_agentId dto)) "notification:ticket-assigned"
              [("ticketId", jstr (na_ticketId dto)); ("ticketNumber", jnum (na_ticketNumber dto));
               ("title", jstr (na_title dto))];
        createNotification (na_tenantId dto) (Some (na_agentId dto)) None (Some (na_ticketId dto))
          (Some ("Ticket #" ++ pretty (na_ticketNumber dto) ++ " Assigned"))
          ("Ticket " ++ unquote "`" ++ na_title dto ++ unquote "`" ++ " has been assigned to you.")
    | _, _ => mret ()
    end).

Definition notifyTicketCreated (dto : NotifyTicketCreatedDto) : W Tbl unit :=
  logged (
    customer ← find_unique d_customers (nc_customerId dto);
    tenant ← find_unique d_tenants (nc_tenantId dto);
    match customer, tenant with
    | Some customer, Some tenant =>
        _ ← add_jobs [EmailJob 5 (Some (nc_tenantId dto)) (cu_email customer)
              ("[" ++ nr_name tenant ++ "] Ticket #" ++ pretty (nc_ticketNumber dto)
               ++ " Created: " ++ nc_title dto)
              (render (buildTicketCreatedEmail (cu_fullName customer) (nc_ticketNumber dto)
                 (nc_title dto) (ticketUrl (nc_ticketId dto)) (nr_name tenant)))];
        _ ← createNotification (nc_tenantId dto) None (Some (nc_customerId dto))
              (Some (nc_ticketId dto))
              (Some ("Ticket #" ++ pretty (nc_ticketNumber dto) ++ " Created"))
              ("Your support ticket " ++ unquote "`" ++ nc_title dto ++ unquote "`"
               ++ " has been received and is being reviewed.");
        _ ← (if truthy (nc_assignedAgentId dto) then
               notifyTicketAssigned (mkNotifyAssigned (nc_tenantId dto) (nc_ticketId dto)
                 (nc_ticketNumber dto) (nc_title dto) (default "" (nc_assignedAgentId dto)) "system")
             else mret ());
        push (ToTenant (nc_tenantId dto)) "notification:ticket-created"
          [("ticketId", jstr (nc_ticketId dto)); ("ticketNumber", jnum (nc_ticketNumber dto));
           ("title", jstr (nc_title dto))]
    | _, _ => mret ()
    end).

Definition escalation_mail (dto : NotifyTicketEscalatedDto) (user : UserRow) (tenant : TenantRecord)
    (subject : string) : W Tbl unit :=
  add_jobs [EmailJob 1 None (us_email user) subject
    (render (buildTicketEscalatedEmail (us_firstName user) (ne_ticketNumber dto) (ne_title dto)
       (ne_reason dto) (ticketUrl (ne_ticketId dto)) (nr_name tenant)))].

Definition notifyTicketEscalated (dto : NotifyTicketEscalatedDto) : W Tbl unit :=
  logged (
    tenant ← find_unique d_tenants (ne_tenantId dto);
    match tenant with
    | None => mret ()
    | Some tenant =>
        managers ← find_many d_users
          (λ _ u, bool_decide (us_tenantId u = Some (ne_tenantId dto))
                  && bool_decide (us_role u = TENANT_MANAGER) && bool_decide (us_status u = UActive))
          (λ _, 0) None;
        _ ← for_each (λ '(i, manager),
              _ ← escalation_mail dto manager tenant
                    ("[" ++ nr_name tenant ++ "] Ticket #" ++ pretty (ne_ticketNumber dto)
                     ++ " ESCALATED");
              push (ToUser i) "notification:ticket-escalated"
                [("ticketId", jstr (ne_ticketId dto)); ("ticketNumber", jnum (ne_ticketNumber dto));
                 ("title", jstr (ne_title dto)); ("reason", jstr (ne_reason dto))]) managers;
        _ ← (if truthy (ne_assignedAgentId dto) then
               agent ← find_unique d_users (default "" (ne_assignedAgentId dto));
               match agent with
               | Some agent => escalation_mail dto agent tenant
                   ("🚨 Ticket #" ++ pretty (ne_ticketNumber dto) ++ " Has Been Escalated")
               | None => mret ()
               end
             else mret ());
        push (ToTenant (ne_tenantId dto)) "notification:ticket-escalated"
          [("ticketId", jstr (ne_ticketId dto)); ("ticketNumber", jnum (ne_ticketNumber dto));
           ("title", jstr (ne_title dto))]
    end).

(** [include: { customer: true, tenant: true }] of a ticket, whose foreign keys refer to
    rows. *)
Definition include_parties (t : TicketRow) : W Tbl (CustomerRow * TenantRecord) :=
  customer ← find_unique d_customers (ti_customerId t);
  tenant ← find_unique d_tenants (ti_tenantId t);
  customer ← lift (opt_or (PlainError "Inconsistent query result") customer);
  tenant ← lift (opt_or (PlainError "Inconsistent query result") tenant);
  mret (customer, tenant).

Definition find_ticket (ticketId tenantId : string) : W Tbl (option (string * TicketRow)) :=
  find_first d_tickets (λ j t, bool_decide (j = ticketId) && bool_decide (ti_tenantId t = tenantId)).

Definition notifyTicketResolved (ticketId tenantId : string) : W Tbl unit :=
  logged (
    ticket ← find_ticket ticketId tenantId;
    match ticket with
    | None => mret ()
    | Some (_, ticket) =>
        '(customer, tenant) ← include_parties ticket;
        _ ← add_jobs [EmailJob 5 (Some tenantId) (cu_email customer)
              ("[" ++ nr_name tenant ++ "] Ticket #" ++ pretty (ti_ticketNumber ticket) ++ " Resolved")
              (render (buildTicketResolvedEmail (cu_fullName customer) (ti_ticketNumber ticket)
                 (ti_title ticket) (ticketUrl ticketId) (nr_name tenant)))];
        push (ToTicket ticketId) "notification:ticket-resolved"
          [("ticketId", jstr ticketId); ("ticketNumber", jnum (ti_ticketNumber ticket))]
    end).

Definition notifyCommentAdded (dto : NotifyCommentAddedDto) : W Tbl unit :=
  logged (
    let who := [("ticketId", jstr (nm_ticketId dto)); ("authorId", jstr (nm_authorId dto));
                ("authorName", jstr (nm_authorName dto))] in
    if bool_decide (nm_commentType dto = "INTERNAL")
    then push (ToTicket (nm_ticketId dto)) "notification:internal-note-added" who
    else
      ticket ← find_ticket (nm_ticketId dto) (nm_tenantId dto);
      match ticket with
      | None => mret ()
      | Some (_, ticket) =>
          '(customer, tenant) ← include_parties ticket;
          users ← gets (λ w, d_users (w_db w));
          let assignedAgent := i ← ti_assignedAgentId ticket; _ ← findUnique i users; Some i in
          author ← find_unique d_users (nm_authorId dto);
          _ ← match author with
              | Some author =>
                  if bool_decide (us_role author = CUSTOMER) then
                    match assignedAgent with
                    | Some agentId =>
                        push (ToUser agentId) "notification:customer-replied"
                          [("ticketId", jstr (nm_ticketId dto));
                           ("ticketNumber", jnum (nm_ticketNumber dto));
                           ("customerName", jstr (nm_authorName dto))]
                    | None => mret ()
                    end
                  else
                    add_jobs [EmailJob 5 (Some (nm_tenantId dto)) (cu_email customer)
                      ("[" ++ nr_name tenant ++ "] New reply on Ticket #"
                       ++ pretty (nm_ticketNumber dto))
                      (render (buildCommentNotificationEmail (cu_fullName customer)
                         (nm_ticketNumber dto) (nm_title dto) (nm_authorName dto)
                         (ticketUrl (nm_ticketId dto)) (nr_name tenant)))]
              | None => mret ()
              end;
          push (ToTicket (nm_ticketId dto)) "notification:comment-added" who
      end).

(** ** registerNotificationHandlers *)

Definition notification_handler (event : EventBody) : W Tbl unit :=
  match event with
  | TicketCreatedEvent ticketId tenantId customerId _ _ _ =>
      ticket ← find_ticket ticketId tenantId;
      match ticket with
      | Some (_, t) => notifyTicketCreated (mkNotifyCreated tenantId ticketId (ti_ticketNumber t)
                         (ti_title t) customerId (ti_assignedAgentId t))
      | None => mret ()
      end
  | TicketAssignedEvent ticketId tenantId _ agentId _ assignedById =>
      ticket ← find_ticket ticketId tenantId;
      match ticket with
      | Some (_, t) => notifyTicketAssigned (mkNotifyAssigned tenantId ticketId (ti_ticketNumber t)
                         (ti_title t) agentId assignedById)
      | None => mret ()
      end
  | TicketEscalatedEvent ticketId tenantId _ assignedAgentId reason _ =>
      ticket ← find_ticket ticketId tenantId;
      match ticket with
      | Some (_, t) => notifyTicketEscalated (mkNotifyEscalated tenantId ticketId
                         (ti_ticketNumber t) (ti_title t) reason assignedAgentId)
      | None => mret ()
      end
  | TicketResolvedEvent ticketId tenantId _ _ _ => notifyTicketResolved ticketId tenantId
  | CommentAddedEvent ticketId tenantId _ authorId commentType =>
      ticket ← find_ticket ticketId tenantId;
      author ← find_unique d_users authorId;
      match ticket, author with
      | Some (_, t), Some author =>
          notifyCommentAdded (mkNotifyComment tenantId ticketId (ti_ticketNumber t) (ti_title t)
            authorId (us_firstName author ++ " " ++ us_lastName author) commentType
            (ti_customerId t))
      | _, _ => mret ()
      end
  | _ => mret ()
  end.
End service.
