(* ===== verification/NotificationFacts.v ===== *)
(** * What notifications may and may not do

    The mails keep their markup whatever titles and names say; a handler never fails, so that
    a mail the queue refuses is lost; an internal note reaches nobody by mail. *)

From stdpp Require Import pretty.
From Stdlib Require Import Ascii String.
From S2P Require Import Prelude Store Js Errors Domain Ticket Customer Tenant User.
From S2P Require Import Notification Schema World Outbox Logs Frames Repositories Accounts.
From S2P Require Import Notifications.

#[local] Open Scope string_scope.
#[local] Open Scope Z_scope.
#[local] Set Default Proof Using "Type*".

(** ** Markup *)

(** The characters of a mail that delimit tags and attributes, in order. *)
Definition markup (s : string) : string :=
  str_flat_map (λ c, if html_special c then String c "" else "") s.

Lemma str_flat_map_app f s t :
  str_flat_map f (s ++ t) = (str_flat_map f s ++ str_flat_map f t).
Proof.
  induction s as [|c s IH]; [done|]. cbn. rewrite IH. apply str_app_assoc.
Qed.

Lemma markup_escaped s : markup (escapeHtml s) = "".
Proof.
  pose proof (escapeHtml_safe s) as H. revert H. unfold markup. generalize (escapeHtml s).
  intros t. induction t as [|c t IH]; [done|]. cbn. intros H. bool_to_prop.
  destruct (html_special c); [done|]. by apply IH.
Qed.

(** The literal part of a template, and the place of a value. *)
Definition shape (p : Part) : option string := match p with Lit s => Some s | Val _ => None end.

Lemma markup_render parts :
  markup (render parts) = String.concat "" (map (λ p, markup (default "" (unquote <$> shape p))) parts).
Proof.
  assert (∀ l : list string, String.concat "" l = foldr String.append "" l) as Hc.
  { induction l as [|x [|y l] IH]; [done| |].
    - cbn. by rewrite str_app_nil_r.
    - change (String.concat "" (x :: y :: l)) with (x ++ "" ++ String.concat "" (y :: l)).
      by rewrite IH. }
  unfold render. rewrite !Hc. induction parts as [|p parts IH]; [done|].
  cbn [map foldr]. rewrite <-IH. unfold markup at 1. rewrite str_flat_map_app. fold (markup (render_part p)).
  f_equal. destruct p; [done|apply markup_escaped].
Qed.

Lemma markup_shape parts parts' :
  map shape parts = map shape parts' → markup (render parts) = markup (render parts').
Proof.
  intros H. rewrite !markup_render. f_equal.
  rewrite <-!(map_map shape (λ o, markup (default "" (unquote <$> o)))). by rewrite H.
Qed.

(** The markup of a mail does not depend on what it is about: whatever the names, the title
    and the reason contain, they add no tag, close none, and leave no attribute. *)
Theorem mails_keep_markup :
  (∀ a n t u o a' n' t' u' o',
    markup (render (buildTicketCreatedEmail a n t u o)) =
    markup (render (buildTicketCreatedEmail a' n' t' u' o'))) ∧
  (∀ a n t u o a' n' t' u' o',
    markup (render (buildTicketAssignedEmail a n t u o)) =
    markup (render (buildTicketAssignedEmail a' n' t' u' o'))) ∧
  (∀ a n t r u o a' n' t' r' u' o',
    markup (render (buildTicketEscalatedEmail a n t r u o)) =
    markup (render (buildTicketEscalatedEmail a' n' t' r' u' o'))) ∧
  (∀ a n t u o a' n' t' u' o',
    markup (render (buildTicketResolvedEmail a n t u o)) =
    markup (render (buildTicketResolvedEmail a' n' t' u' o'))) ∧
  (∀ a n t b u o a' n' t' b' u' o',
    markup (render (buildCommentNotificationEmail a n t b u o)) =
    markup (render (buildCommentNotificationEmail a' n' t' b' u' o'))).
Proof. split_and!; intros; by apply markup_shape. Qed.

(** ** Failures *)

Definition is_email (e : Effect) : bool :=
  match e with EmailJob _ _ _ _ _ => true | _ => false end.

Section facts.
Context {Tbl : Type → Type} `{!Prisma Tbl} (frontendUrl : string).
Implicit Types (w : World Tbl).

(** The mails that were handed to the queue. *)
Definition mails w : list Effect := List.filter is_email (w_effects w).

(** While the queue refuses jobs, [m] adds no mail. *)
Definition NoMail {A} (m : W Tbl A) : Prop :=
  ∀ w, w_queues w = false → w_queues (m w).2 = false ∧ mails (m w).2 = mails w.

Lemma nomail_bind {A B} (m : W Tbl A) (f : A → W Tbl B) :
  NoMail m → (∀ a, NoMail (f a)) → NoMail (m ≫= f).
Proof.
  intros Hm Hf w Hq. unfold mbind, M_bind. specialize (Hm w Hq).
  destruct (m w) as [[a|e] w1]; cbn [snd] in *; [|done]. destruct Hm as [Hq1 <-]. by apply Hf.
Qed.

Lemma nomail_try {A} (m : W Tbl A) (h : error → W Tbl A) :
  NoMail m → (∀ e, NoMail (h e)) → NoMail (try_catch m h).
Proof.
  intros Hm Hh w Hq. unfold try_catch. specialize (Hm w Hq).
  destruct (m w) as [[a|e] w1]; cbn [snd] in *; [done|]. destruct Hm as [Hq1 <-]. by apply Hh.
Qed.

Lemma nomail_for_each {A} (body : A → W Tbl unit) l :
  (∀ a, NoMail (body a)) → NoMail (for_each body l).
Proof.
  intros Hb. induction l as [|a l IH]; [by intros w Hq|]. cbn [for_each].
  by apply nomail_bind.
Qed.

Lemma nomail_keeps {A} (m : W Tbl A) :
  Keeps (λ w, w_queues w) m → Keeps (λ w, w_effects w) m → NoMail m.
Proof.
  intros Hq He w Hw. specialize (Hq w). specialize (He w). cbv beta in *. unfold mails.
  by rewrite Hq, He.
Qed.

Lemma nomail_push target event data : NoMail (push (Tbl:=Tbl) target event data).
Proof.
  intros w Hq. unfold push, modify. cbn [snd]. unfold mails. upd_simpl. split; [done|].
  by rewrite List.filter_app, app_nil_r.
Qed.

Lemma nomail_add_jobs jobs : NoMail (add_jobs (Tbl:=Tbl) jobs).
Proof.
  intros w Hq. unfold add_jobs, gets, mbind, M_bind, throw. rewrite Hq. by split.
Qed.

Lemma createNotification_nomail t u c k s x : NoMail (createNotification (Tbl:=Tbl) t u c k s x).
Proof. unfold createNotification. apply nomail_keeps; keeps_tac. Qed.

Ltac nomail :=
  cbv beta;
  match goal with
  | |- NoMail (createNotification _ _ _ _ _ _) => apply createNotification_nomail
  | H : ∀ dto, NoMail (notifyTicketAssigned _ dto) |- NoMail (notifyTicketAssigned _ _) => apply H
  | |- NoMail (push _ _ _) => apply nomail_push
  | |- NoMail (add_jobs _) => apply nomail_add_jobs
  | |- NoMail (_ ≫= _) => apply nomail_bind; [|intros ?]
  | |- NoMail (try_catch _ _) => apply nomail_try; [|intros ?]
  | |- NoMail (for_each _ _) => apply nomail_for_each; intros ?
  | |- NoMail (match _ with _ => _ end) => case_match
  | |- NoMail (if _ then _ else _) => case_match
  | |- NoMail _ => apply nomail_keeps; [keeps_tac|keeps_tac]
  end.

Lemma assigned_nomail dto : NoMail (notifyTicketAssigned (Tbl:=Tbl) frontendUrl dto).
Proof.
  unfold notifyTicketAssigned, logged.
  repeat nomail.
Qed.

Lemma handler_nomail event : NoMail (notification_handler (Tbl:=Tbl) frontendUrl event).
Proof.
  pose proof assigned_nomail as Ha. unfold notification_handler, notifyTicketCreated, notifyTicketEscalated, notifyTicketResolved,
    notifyCommentAdded, escalation_mail, include_parties, logged.
  repeat nomail.
Qed.

(** A computation that never throws. *)
Definition Returns {A} (m : W Tbl A) : Prop := ∀ w, ∃ a w', m w = (Ok a, w').

Lemma returns_bind {A B} (m : W Tbl A) (f : A → W Tbl B) :
  Returns m → (∀ a, Returns (f a)) → Returns (m ≫= f).
Proof.
  intros Hm Hf w. unfold mbind, M_bind. destruct (Hm w) as (a & w1 & ->). apply Hf.
Qed.

Lemma returns_ret {A} (a : A) : Returns (mret a).
Proof. intros w. by do 2 eexists. Qed.

Lemma returns_logged (work : W Tbl unit) : Returns (logged work).
Proof.
  intros w. unfold logged, try_catch. destruct (work w) as [[a|e] w1]; by do 2 eexists.
Qed.

Lemma returns_find_ticket i t : Returns (find_ticket (Tbl:=Tbl) i t).
Proof. intros w. unfold find_ticket, find_first, find_many. by do 2 eexists. Qed.

Lemma returns_find_unique {R} (table : Db Tbl → Tbl R) i : Returns (find_unique table i).
Proof. intros w. by do 2 eexists. Qed.

Lemma handler_returns event : Returns (notification_handler (Tbl:=Tbl) frontendUrl event).
Proof.
  destruct event; cbn [notification_handler]; try apply returns_ret; try apply returns_logged.
  all: apply returns_bind; [apply returns_find_ticket|intros [[j t]|]].
  all: try (apply returns_bind; [apply returns_find_unique|intros [u|]]).
  all: try apply returns_ret; apply returns_logged.
Qed.

(** A handler of ticket events never fails, so the event bus never reports a failure and the
    outbox never delivers the event again: a mail that the queue refuses is lost. *)
Theorem notifications_swallow_failures event w :
  ∃ w', notification_handler frontendUrl event w = (Ok tt, w') ∧
    (w_queues w = false → mails w' = mails w).
Proof.
  destruct (handler_returns event w) as ([] & w' & E).
  exists w'. split; [exact E|]. intros Hq.
  destruct (handler_nomail event w Hq) as [_ Hm]. by rewrite E in Hm.
Qed.

(** An internal note of a ticket is announced in the room of the ticket and nowhere else:
    no mail, no in-app notification, no push to a person or an organization. *)
Theorem internal_note_only_in_room ticketId tenantId commentId authorId w w' :
  notification_handler frontendUrl
    (CommentAddedEvent ticketId tenantId commentId authorId "INTERNAL") w = (Ok tt, w') →
  w_db w' = w_db w ∧
  (w_effects w' = w_effects w ∨
   ∃ data, w_effects w' = (w_effects w ++ [Push (ToTicket ticketId) "notification:internal-note-added" data])%list).
Proof.
  cbn [notification_handler]. intros H. inv_ok.
  match goal with E : find_ticket _ _ _ = _ |- _ => unfold find_ticket in E; apply find_first_state in E as -> end.
  destruct a as [[j t]|], a0 as [u|]; unfold find_unique, gets, mret, M_ret in *; inv_ok;
    try (by split; [|left]).
  unfold notifyCommentAdded, logged, try_catch, push, modify in H. destruct s0. cbn in H.
  injection H as <-. cbn. split; [done|right]. by eexists.
Qed.

End facts.

(** ** A note of an agent, and a reply, on a ticket *)

Definition note_desk (queues : bool) : World (gmap string) :=
  (world_of 1000 (empty_db
    <| d_tenants := {["t1" := mkTenantRecord "Acme" "acme" "ACTIVE" "pro" None None 5 100 10
                                (JObj []) None None 0 0]} |>
    <| d_users := {["agent" := mkUserRow (Some "t1") "a@acme.io" None "Ann" "Lee" AGENT UActive None
                      None "UTC" "en" None None None 0 None (JObj []) 0 0]} |>
    <| d_customers := {["c1" := mkCustomerRow "t1" None "Cy Doe" "cy@x.io" None None None CActive
                          None None [] None None 0 0]} |>
    <| d_tickets := {["k1" := mkTicketRow "t1" 1 "c1" (Some "agent") "agent" "Printer" "It smokes"
                        OPEN MEDIUM "GENERAL" [] "web" false None None None None None None false []
                        None 10 10]} |>)) <| w_queues := queues |>.

Lemma internal_note_only_in_room_witness :
  ∃ w', notification_handler "https://x" (CommentAddedEvent "k1" "t1" "m1" "agent" "INTERNAL")
          (note_desk true) = (Ok tt, w') ∧ w_db w' = w_db (note_desk true).
Proof.
  assert (∃ w', notification_handler "https://x" (CommentAddedEvent "k1" "t1" "m1" "agent" "INTERNAL")
          (note_desk true) = (Ok tt, w')) as (w' & E) by (eexists; vm_compute; reflexivity).
  exists w'. split; [exact E|].
  by destruct (internal_note_only_in_room "https://x" "k1" "t1" "m1" "agent" (note_desk true) w' E).
Defined.

(** A public reply is mailed to the customer; when the queue is down the handler still
    succeeds and there is no mail. *)
Example reply_mailed :
  (length (mails (notification_handler "https://x"
     (CommentAddedEvent "k1" "t1" "m1" "agent" "PUBLIC") (note_desk true)).2),
   is_ok (notification_handler "https://x"
     (CommentAddedEvent "k1" "t1" "m1" "agent" "PUBLIC") (note_desk false)).1,
   length (mails (notification_handler "https://x"
     (CommentAddedEvent "k1" "t1" "m1" "agent" "PUBLIC") (note_desk false)).2))
  = (1, true, 0)%nat.
Proof. vm_compute. reflexivity. Qed.
