(* ===== verification/Gateway.v ===== *)
(** * Realtime connections

    [src/infrastructure/realtime]: [RoomManager], [WebSocketAuth] and [WebSocketGateway].  A
    connection joins rooms; an event is sent to the connections in a room.  Access is checked
    asynchronously, so other handlers run between the question and its answer: a pending
    check is part of the state, and every answer is a step of its own, taken in the state of
    the database at that moment. *)

From Stdlib Require Import Ascii String.
From S2P Require Import Prelude Store Js Errors Domain Ticket Customer Tenant User Permissions.
From S2P Require Import Schema World Outbox Logs Tokens Frames Repositories Accounts Roles.
From S2P Require Import TicketService Gate.

#[local] Open Scope string_scope.

(** ** RoomManager *)

Record RoomManager := mkRooms {
  rm_rooms : gmap string (gset string);
  rm_clientRooms : gmap string (gset string);
}.
#[export] Instance RoomManager_eta : Eta RoomManager := λ m,
  mkRooms (rm_rooms m) (rm_clientRooms m).

(** [this.rooms.get(room) ?? []] *)
Definition getClientsInRoom (m : RoomManager) (room : string) : gset string :=
  default ∅ (rm_rooms m !! room).
Definition getClientRooms (m : RoomManager) (clientId : string) : gset string :=
  default ∅ (rm_clientRooms m !! clientId).

Definition joinRoom (clientId room : string) (m : RoomManager) : RoomManager :=
  mkRooms (<[room := {[clientId]} ∪ getClientsInRoom m room]> (rm_rooms m))
    (<[clientId := {[room]} ∪ getClientRooms m clientId]> (rm_clientRooms m)).

(** [this.rooms.get(room)?.delete(clientId)], and an empty room is removed. *)
Definition drop_from_room (clientId room : string) (rooms : gmap string (gset string))
  : gmap string (gset string) :=
  match rooms !! room with
  | Some clients =>
      if bool_decide (clients ∖ {[clientId]} = ∅) then delete room rooms
      else <[room := clients ∖ {[clientId]}]> rooms
  | None => rooms
  end.

Definition leaveRoom (clientId room : string) (m : RoomManager) : RoomManager :=
  mkRooms (drop_from_room clientId room (rm_rooms m))
    (match rm_clientRooms m !! clientId with
     | Some rooms => <[clientId := rooms ∖ {[room]}]> (rm_clientRooms m)
     | None => rm_clientRooms m
     end).

Definition removeClient (clientId : string) (m : RoomManager) : RoomManager :=
  mkRooms (set_fold (drop_from_room clientId) (rm_rooms m) (getClientRooms m clientId))
    (delete clientId (rm_clientRooms m)).

Definition getRoomCount (m : RoomManager) : nat := size (rm_rooms m).
Definition getClientCount (m : RoomManager) : nat := size (rm_clientRooms m).

(** ** WebSocketAuth *)

(** [WSAuthResult] *)
Record WSAuthResult := mkWsAuth {
  wa_userId : string;
  wa_email : string;
  wa_tenantId : option string;
  wa_role : string;
}.

Section auth.
Context {Tbl : Type → Type} `{!Prisma Tbl} {Cr : Crypto} (cfg : JwtConfig).
Implicit Types (w : World Tbl).

Definition isTenantUsable (tenantId : option string) w : bool :=
  if truthy tenantId then
    match findUnique (default "" tenantId) (d_tenants (w_db w)) with
    | Some t => negb (bool_decide (nr_status t = "SUSPENDED")) && negb (bool_decide (nr_status t = "CANCELLED"))
    | None => false
    end
  else true.

Definition isStillAuthorized (client : WSAuthResult) w : bool :=
  match findUnique (wa_userId client) (d_users (w_db w)) with
  | Some user =>
      bool_decide (us_status user = UActive) && bool_decide (us_email user = wa_email client)
      && bool_decide (role_string (us_role user) = wa_role client)
      && bool_decide (us_tenantId user = wa_tenantId client)
      && isTenantUsable (us_tenantId user) w
  | None => false
  end.

(** [authenticate]: the same checks, for the claims of the token. *)
Definition authenticate (query authorization cookie : option string) w : option WSAuthResult :=
  let token := extractBearerTokenFromWebSocketRequest query authorization cookie in
  if truthy token then
    match jwt_verify (w_now w) (default "" token) (accessSecret cfg) with
    | JwtValid payload =>
        let client := mkWsAuth (p_sub payload) (p_email payload) (p_tenantId payload) (p_role payload) in
        if bool_decide (p_type payload = "access") && isStillAuthorized client w
        then Some client else None
    | _ => None
    end
  else None.
End auth.

(** ** WebSocketGateway *)

(** A connection: who it belongs to, whether it answered the last ping, and its rooms. *)
Record WSClient := mkClient {
  ws_user : WSAuthResult;
  ws_isAlive : bool;
  ws_rooms : gset string;
}.
#[export] Instance WSClient_eta : Eta WSClient := λ c,
  mkClient (ws_user c) (ws_isAlive c) (ws_rooms c).

(** A check whose answer is awaited: for the tenant room of a new connection, for a room a
    connection asked for, of the account at a heartbeat, and of the rooms still to check. *)
Inductive Pending :=
| CheckTenantRoom (clientId : string) (user : WSAuthResult)
| CheckSubscribe (clientId : string) (user : WSAuthResult) (room : string)
| CheckAccount (clientId : string) (user : WSAuthResult)
| CheckRooms (clientId : string) (user : WSAuthResult) (rooms : list string).

(** The client objects, which the handlers of a connection keep for as long as they run; the
    connections that are listed ([this.clients]); the rooms; the checks under way. *)
Record Gateway := mkGateway {
  gw_objects : gmap string WSClient;
  gw_clients : gset string;
  gw_rooms : RoomManager;
  gw_pending : list Pending;
}.
#[export] Instance Gateway_eta : Eta Gateway := λ g,
  mkGateway (gw_objects g) (gw_clients g) (gw_rooms g) (gw_pending g).

Definition user_room (userId : string) : string := "user:" ++ userId.
Definition tenant_room (tenantId : string) : string := "tenant:" ++ tenantId.
Definition ticket_room (ticketId : string) : string := "ticket:" ++ ticketId.

Section gateway.
Context {Tbl : Type → Type} `{!Prisma Tbl} {Cr : Crypto} (cfg : JwtConfig).
Implicit Types (w : World Tbl) (g : Gateway).

(** The checkers [main.ts] configures. *)
Definition hasPermission (user : WSAuthResult) (permission : string) w : bool :=
  isPermission permission &&
  match (permission_has (mkSubject (wa_userId user) (wa_role user) (wa_tenantId user)) permission w).1 with
  | Ok b => b
  | Err _ => false
  end.

Definition canAccessTicket (user : WSAuthResult) (tenantId ticketId : string) w : bool :=
  is_ok (assertCanAccess (mkActor (wa_userId user) (wa_role user) (wa_email user) tenantId)
           ticketId w).1.

Definition canAccessTenantRoom (user : WSAuthResult) w : bool := hasPermission user "realtime:tenant" w.

Definition canAccessRoom (user : WSAuthResult) (room : string) w : bool :=
  if String.prefix "user:" room then bool_decide (room = user_room (wa_userId user))
  else if String.prefix "tenant:" room then
    truthy (wa_tenantId user) && bool_decide (room = tenant_room (default "" (wa_tenantId user)))
    && canAccessTenantRoom user w
  else if String.prefix "ticket:" room then
    let ticketId := String.substring 7 (String.length room - 7) room in
    if truthy (wa_tenantId user) && str_truthy ticketId
    then canAccessTicket user (default "" (wa_tenantId user)) ticketId w
    else false
  else false.

(** [client.rooms.add(room)] and [client.rooms.delete(room)] *)
Definition with_room (room : string) (c : WSClient) : WSClient :=
  mkClient (ws_user c) (ws_isAlive c) ({[room]} ∪ ws_rooms c).
Definition without_room (room : string) (c : WSClient) : WSClient :=
  mkClient (ws_user c) (ws_isAlive c) (ws_rooms c ∖ {[room]}).

(** [roomManager.joinRoom(clientId, room); client.rooms.add(room)] *)
Definition enter (clientId room : string) g : Gateway :=
  g <| gw_objects ::= alter (with_room room) clientId |>
    <| gw_rooms ::= joinRoom clientId room |>.

Definition leave (clientId room : string) g : Gateway :=
  g <| gw_objects ::= alter (without_room room) clientId |>
    <| gw_rooms ::= leaveRoom clientId room |>.

Definition await (p : Pending) g : Gateway := g <| gw_pending ::= cons p |>.

(** [handleConnection], up to the check of the tenant room. *)
Definition handleConnection (clientId : string) (user : WSAuthResult) g : Gateway :=
  let g := g <| gw_objects ::= insert clientId (mkClient user true ∅) |>
             <| gw_clients ::= union {[clientId]} |> in
  let g := enter clientId (user_room (wa_userId user)) g in
  if truthy (wa_tenantId user) then await (CheckTenantRoom clientId user) g else g.

(** The rest of it, once the check is answered. *)
Definition connection_checked (clientId : string) (user : WSAuthResult) w g : Gateway :=
  if canAccessTenantRoom user w
  then enter clientId (tenant_room (default "" (wa_tenantId user))) g else g.

(** [handleSubscribe], and the rest of it. *)
Definition handleSubscribe (clientId : string) (user : WSAuthResult) (room : string) g : Gateway :=
  if str_truthy room then await (CheckSubscribe clientId user room) g else g.
Definition subscribe_checked (clientId : string) (user : WSAuthResult) (room : string) w g : Gateway :=
  if canAccessRoom user room w
  then if bool_decide (clientId ∈ gw_clients g) then enter clientId room g else g
  else g.

Definition handleUnsubscribe (clientId room : string) g : Gateway :=
  if str_truthy room then leave clientId room g else g.

Definition handleDisconnect (clientId : string) g : Gateway :=
  if bool_decide (clientId ∈ gw_clients g)
  then g <| gw_rooms ::= removeClient clientId |> <| gw_clients ::= λ cs, cs ∖ {[clientId]} |>
  else g.

(** [heartbeat], for one listed connection: its account is checked in the background; one
    that did not answer the last ping is dropped. *)
Definition heartbeat (clientId : string) (c : WSClient) g : Gateway :=
  let g := await (CheckAccount clientId (ws_user c)) g in
  if ws_isAlive c
  then g <| gw_objects ::= insert clientId (c <| ws_isAlive := false |>) |>
  else handleDisconnect clientId g.

Definition pong (clientId : string) g : Gateway :=
  g <| gw_objects ::= alter (λ c, c <| ws_isAlive := true |>) clientId |>.

(** The account is checked; [revalidateRooms] then goes through the rooms of the object. *)
Definition account_checked (clientId : string) (user : WSAuthResult) w g : Gateway :=
  if isStillAuthorized user w then
    await (CheckRooms clientId user (elements (default ∅ (ws_rooms <$> gw_objects g !! clientId)))) g
  else handleDisconnect clientId g.

(** One round of the loop of [revalidateRooms]. *)
Definition room_checked (clientId : string) (user : WSAuthResult) (room : string) w g : Gateway :=
  if String.prefix "user:" room || canAccessRoom user room w then g else leave clientId room g.

(** [broadcastToRoom]: the connections an event reaches. *)
Definition recipients (room : string) g : gset string :=
  getClientsInRoom (gw_rooms g) room ∩ gw_clients g.

(** [sendToUser], [sendToTenant], [sendToTicket] *)
Definition room_of (target : PushTarget) : string :=
  match target with
  | ToUser i => user_room i
  | ToTenant i => tenant_room i
  | ToTicket i => ticket_room i
  end.

(** The answer to the check [p] arrives while the database is in the state [w]; for a list of
    rooms, the answer for the first of them. *)
Definition answered (p : Pending) w g : Gateway :=
  match p with
  | CheckTenantRoom clientId user => connection_checked clientId user w g
  | CheckSubscribe clientId user room => subscribe_checked clientId user room w g
  | CheckAccount clientId user => account_checked clientId user w g
  | CheckRooms clientId user (room :: rooms) =>
      await (CheckRooms clientId user rooms) (room_checked clientId user room w g)
  | CheckRooms clientId user [] => g
  end.

(** What can happen next.  A new connection has an identifier no object has; the messages of
    a connection may still arrive after it was taken off the list. *)
Inductive gw_step w : Gateway → Gateway → Prop :=
| gs_connect g clientId user query authorization cookie :
    gw_objects g !! clientId = None →
    authenticate cfg query authorization cookie w = Some user →
    gw_step w g (handleConnection clientId user g)
| gs_subscribe g clientId c room : gw_objects g !! clientId = Some c →
    gw_step w g (handleSubscribe clientId (ws_user c) room g)
| gs_unsubscribe g clientId room : gw_step w g (handleUnsubscribe clientId room g)
| gs_disconnect g clientId : gw_step w g (handleDisconnect clientId g)
| gs_heartbeat g clientId c : clientId ∈ gw_clients g → gw_objects g !! clientId = Some c →
    gw_step w g (heartbeat clientId c g)
| gs_pong g clientId : gw_step w g (pong clientId g)
| gs_answer g (p1 p2 : list Pending) p : gw_pending g = (p1 ++ p :: p2)%list →
    gw_step w g (answered p w (g <| gw_pending := (p1 ++ p2)%list |>)).

(** A server that started without connections; the list holds the states of the database at
    the steps, newest first. *)
Inductive gw_run : list (World Tbl) → Gateway → Prop :=
| gr_start : gw_run [] (mkGateway ∅ ∅ (mkRooms ∅ ∅) [])
| gr_step ws g w g' : gw_run ws g → gw_step w g g' → gw_run (w :: ws) g'.
End gateway.
