(* ===== verification/GatewayFacts.v ===== *)
(** * Who receives a realtime event

    The two maps of the room manager agree, and a connection is in a room only after its
    user was allowed into it; what an event sent to a user, an organization or a ticket
    reaches; and how lost access takes a connection out of its rooms. *)

From Stdlib Require Import Ascii String.
From S2P Require Import Prelude Store Js Errors Domain Ticket Customer Tenant User Permissions.
From S2P Require Import Schema World Outbox Logs Tokens Frames Repositories Accounts Roles.
From S2P Require Import TicketService Gate Gateway.

#[local] Open Scope string_scope.

(** ** Rooms *)

#[local] Notation members rooms room := (default ∅ ((rooms : gmap string (gset string)) !! room)).

Lemma drop_members c room rooms room' x :
  x ∈ members (drop_from_room c room rooms) room' ↔
  x ∈ members rooms room' ∧ (room' = room → x ≠ c).
Proof.
  unfold drop_from_room. destruct (rooms !! room) as [cs|] eqn:E.
  - case_bool_decide as Hb; destruct (decide (room' = room)) as [->|];
      rewrite ?lookup_delete_eq, ?lookup_delete_ne, ?lookup_insert_eq, ?lookup_insert_ne by done;
      rewrite ?E; cbn; set_solver.
  - destruct (decide (room' = room)) as [->|]; [rewrite E; cbn|]; set_solver.
Qed.

Lemma drop_inhabited c room rooms :
  (∀ r cs, rooms !! r = Some cs → cs ≠ ∅) →
  ∀ r cs, drop_from_room c room rooms !! r = Some cs → cs ≠ ∅.
Proof.
  intros H r cs. unfold drop_from_room. destruct (rooms !! room) as [cs'|]; [|apply H].
  case_bool_decide.
  - intros [_ E]%lookup_delete_Some. by eapply H.
  - intros [[_ <-]|[_ E]]%lookup_insert_Some; [done|by eapply H].
Qed.

Lemma remove_members c (S : gset string) rooms room x :
  x ∈ members (set_fold (drop_from_room c) rooms S) room ↔
  x ∈ members rooms room ∧ (room ∈ S → x ≠ c).
Proof.
  revert room. apply (set_fold_ind_L (λ rooms' S', ∀ room,
    x ∈ members rooms' room ↔ x ∈ members rooms room ∧ (room ∈ S' → x ≠ c))); [set_solver|].
  intros r S' rooms' _ IH room. rewrite drop_members, IH. set_solver.
Qed.

Lemma remove_inhabited c (S : gset string) rooms :
  (∀ r cs, rooms !! r = Some cs → cs ≠ ∅) →
  ∀ r cs, set_fold (drop_from_room c) rooms S !! r = Some cs → cs ≠ ∅.
Proof.
  intros H. apply (set_fold_ind_L (λ rooms' _, ∀ r cs, rooms' !! r = Some cs → cs ≠ ∅)); [done|].
  intros r S' rooms' _ IH. by apply drop_inhabited.
Qed.

(** The index by room and the index by connection say the same, and no empty room is kept. *)
Record rooms_agree (m : RoomManager) : Prop := {
  ra_inverse : ∀ room c, c ∈ getClientsInRoom m room ↔ room ∈ getClientRooms m c;
  ra_inhabited : ∀ room cs, rm_rooms m !! room = Some cs → cs ≠ ∅;
}.

Lemma members_insert rooms k v k' :
  members (<[k := v]> rooms) k' = if decide (k' = k) then v else members rooms k'.
Proof.
  destruct (decide (k' = k)) as [->|]; [by rewrite lookup_insert_eq|by rewrite lookup_insert_ne].
Qed.

Lemma join_agree c room m : rooms_agree m → rooms_agree (joinRoom c room m).
Proof.
  intros [Hi Hn]. split.
  - intros r x. unfold getClientsInRoom, getClientRooms, joinRoom in *; cbn.
    rewrite !members_insert. specialize (Hi r x).
    destruct (decide (r = room)) as [->|], (decide (x = c)) as [->|]; set_solver.
  - intros r cs. cbn. intros [[_ <-]|[_ E]]%lookup_insert_Some; [set_solver|by eapply Hn].
Qed.

Lemma leave_rooms c room m x :
  getClientRooms (leaveRoom c room m) x =
  if decide (x = c) then getClientRooms m x ∖ {[room]} else getClientRooms m x.
Proof.
  unfold getClientRooms, leaveRoom; cbn. destruct (rm_clientRooms m !! c) as [rs|] eqn:E.
  - rewrite members_insert. destruct (decide (x = c)) as [->|]; [by rewrite E|done].
  - destruct (decide (x = c)) as [->|]; [rewrite E; cbn; set_solver|done].
Qed.

Lemma leave_agree c room m : rooms_agree m → rooms_agree (leaveRoom c room m).
Proof.
  intros [Hi Hn]. split.
  - intros r x. rewrite leave_rooms. unfold getClientsInRoom at 1, leaveRoom; cbn.
    rewrite drop_members. specialize (Hi r x). unfold getClientsInRoom in Hi.
    destruct (decide (x = c)) as [->|]; set_solver.
  - by apply drop_inhabited.
Qed.

Lemma remove_rooms c m x :
  getClientRooms (removeClient c m) x = if decide (x = c) then ∅ else getClientRooms m x.
Proof.
  unfold getClientRooms, removeClient; cbn.
  destruct (decide (x = c)) as [->|]; [by rewrite lookup_delete_eq|by rewrite lookup_delete_ne].
Qed.

Lemma remove_agree c m : rooms_agree m → rooms_agree (removeClient c m).
Proof.
  intros [Hi Hn]. split.
  - intros r x. rewrite remove_rooms. unfold getClientsInRoom at 1, removeClient; cbn.
    rewrite remove_members. pose proof (Hi r x) as Hx. unfold getClientsInRoom in Hx.
    destruct (decide (x = c)) as [->|]; set_solver.
  - by apply remove_inhabited.
Qed.

(** ** The names of the rooms *)

Lemma substring_all s : String.substring 0 (String.length s) s = s.
Proof. induction s as [|a s IH]; [done|]. cbn. by rewrite IH. Qed.

Lemma prefix_empty s : String.prefix "" s = true.
Proof. by destruct s. Qed.

Lemma canAccess_user_room {Tbl} `{!Prisma Tbl} user i (w : World Tbl) :
  canAccessRoom user (user_room i) w = bool_decide (user_room i = user_room (wa_userId user)).
Proof. unfold canAccessRoom, user_room. cbn. by rewrite prefix_empty. Qed.

Lemma canAccess_tenant_room {Tbl} `{!Prisma Tbl} user i (w : World Tbl) :
  canAccessRoom user (tenant_room i) w =
  truthy (wa_tenantId user) && bool_decide (tenant_room i = tenant_room (default "" (wa_tenantId user)))
  && canAccessTenantRoom user w.
Proof. unfold canAccessRoom, tenant_room. cbn. by rewrite prefix_empty. Qed.

Lemma canAccess_ticket_room {Tbl} `{!Prisma Tbl} user i (w : World Tbl) :
  canAccessRoom user (ticket_room i) w =
  if truthy (wa_tenantId user) && str_truthy i
  then canAccessTicket user (default "" (wa_tenantId user)) i w else false.
Proof.
  unfold canAccessRoom, ticket_room. cbn. rewrite ?prefix_empty, Nat.sub_0_r.
  by rewrite substring_all.
Qed.

(** ** What holds of every reachable state *)

Section facts.
Context {Tbl : Type → Type} `{!Prisma Tbl} {Cr : Crypto} (cfg : JwtConfig).
Implicit Types (w : World Tbl) (ws : list (World Tbl)) (g : Gateway) (user : WSAuthResult).

(** The user was once let in, and was once allowed into the room. *)
Definition was_authenticated ws user : Prop :=
  ∃ w query authorization cookie, w ∈ ws ∧ authenticate cfg query authorization cookie w = Some user.
Definition was_allowed ws user (room : string) : Prop :=
  ∃ w, w ∈ ws ∧ canAccessRoom user room w = true.

Definition pending_client (p : Pending) : string :=
  match p with
  | CheckTenantRoom c _ | CheckSubscribe c _ _ | CheckAccount c _ | CheckRooms c _ _ => c
  end.
Definition pending_user (p : Pending) : WSAuthResult :=
  match p with
  | CheckTenantRoom _ u | CheckSubscribe _ u _ | CheckAccount _ u | CheckRooms _ u _ => u
  end.
(** A check concerns the user of its connection; the tenant room is only asked for by a user
    of an organization. *)
Definition pending_ok g (p : Pending) : Prop :=
  ws_user <$> gw_objects g !! pending_client p = Some (pending_user p) ∧
  match p with CheckTenantRoom _ u => truthy (wa_tenantId u) = true | _ => True end.

Record gw_inv ws g : Prop := {
  gi_agree : rooms_agree (gw_rooms g);
  gi_users : ∀ c cl, gw_objects g !! c = Some cl → was_authenticated ws (ws_user cl);
  gi_joined : ∀ c room, room ∈ getClientRooms (gw_rooms g) c →
    ∃ cl, gw_objects g !! c = Some cl ∧ was_allowed ws (ws_user cl) room;
  gi_pending : ∀ p, p ∈ gw_pending g → pending_ok g p;
  gi_listed : ∀ c, c ∈ gw_clients g →
    ∃ cl, gw_objects g !! c = Some cl ∧ ws_rooms cl = getClientRooms (gw_rooms g) c;
}.

Lemma inv_later w ws g : gw_inv ws g → gw_inv (w :: ws) g.
Proof.
  intros [Ha Hu Hj Hp Hl]. split; try done.
  - intros c cl E. destruct (Hu c cl E) as (w' & q & a & k & Hw & E'). exists w', q, a, k. set_solver.
  - intros c room E. destruct (Hj c room E) as (cl & E' & w' & Hw & Hr).
    exists cl. split; [done|]. exists w'. set_solver.
Qed.

Lemma inv_await ws g p : gw_inv ws g → pending_ok g p → gw_inv ws (await p g).
Proof.
  destruct g. intros [Ha Hu Hj Hp Hl] Hok. split; try done.
  cbn. intros p' [->|H]%elem_of_cons; [exact Hok|by apply Hp].
Qed.

Lemma inv_unwait ws g p1 p p2 : gw_inv ws g → gw_pending g = (p1 ++ p :: p2)%list →
  gw_inv ws (g <| gw_pending := (p1 ++ p2)%list |>) ∧
  pending_ok (g <| gw_pending := (p1 ++ p2)%list |>) p.
Proof.
  destruct g. cbn. intros [Ha Hu Hj Hp Hl] E. cbn in *. rewrite E in Hp. split; [|apply Hp; set_solver].
  split; try done. intros p' H. apply Hp. cbn in H. set_solver.
Qed.

(** Objects change, but neither who they belong to nor their rooms. *)
Lemma inv_objects ws g (f : gmap string WSClient → gmap string WSClient) :
  (∀ c, (λ cl, (ws_user cl, ws_rooms cl)) <$> f (gw_objects g) !! c
      = (λ cl, (ws_user cl, ws_rooms cl)) <$> gw_objects g !! c) →
  gw_inv ws g → gw_inv ws (g <| gw_objects ::= f |>).
Proof.
  destruct g as [objs cls rooms pend]. cbn. intros Hf [Ha Hu Hj Hp Hl]. cbn in *.
  assert (∀ c cl, f objs !! c = Some cl → ∃ cl', objs !! c = Some cl'
      ∧ ws_user cl' = ws_user cl ∧ ws_rooms cl' = ws_rooms cl) as Hb.
  { intros c cl E. specialize (Hf c). rewrite E in Hf. destruct (objs !! c); naive_solver. }
  assert (∀ c cl, objs !! c = Some cl → ∃ cl', f objs !! c = Some cl'
      ∧ ws_user cl' = ws_user cl ∧ ws_rooms cl' = ws_rooms cl) as Hff.
  { intros c cl E. specialize (Hf c). rewrite E in Hf. destruct (f objs !! c); naive_solver. }
  split; cbn; [done| | | |].
  - intros c cl E. destruct (Hb _ _ E) as (cl' & E' & <- & _). by eapply Hu.
  - intros c room E. destruct (Hj c room E) as (cl & E' & H).
    destruct (Hff _ _ E') as (cl' & E2 & Eu & _). exists cl'. by rewrite Eu.
  - intros p H. destruct (Hp p H) as [E1 E2]. split; [|done]. cbn.
    cbn in E1. apply fmap_Some in E1 as (cl & E1 & ->). destruct (Hff _ _ E1) as (cl' & E3 & Eu & _).
    rewrite E3. cbn. by rewrite Eu.
  - intros c Hc. destruct (Hl c Hc) as (cl & E & <-).
    destruct (Hff _ _ E) as (cl' & E3 & _ & Er). exists cl'. by rewrite Er.
Qed.

Lemma inv_enter ws g c cl room : gw_inv ws g → gw_objects g !! c = Some cl →
  was_allowed ws (ws_user cl) room → gw_inv ws (enter c room g).
Proof.
  destruct g as [objs cls rooms pend]. cbn. intros [Ha Hu Hj Hp Hl] E Hr. cbn in *.
  assert (∀ x, getClientRooms (joinRoom c room rooms) x =
    if decide (x = c) then {[room]} ∪ getClientRooms rooms c
    else getClientRooms rooms x) as Hrooms
    by (intros x; unfold getClientRooms, joinRoom; cbn; apply members_insert).
  assert (∀ x, ws_user <$> alter (with_room room) c objs !! x
    = ws_user <$> objs !! x) as Husers.
  { intros x. rewrite lookup_alter. case_decide as Hx; [subst|done]. by rewrite E. }
  split; cbn.
  - by apply join_agree.
  - intros x clx Ex. specialize (Husers x). rewrite Ex in Husers. symmetry in Husers.
    apply fmap_Some in Husers as (cl' & E' & ->). by eapply Hu.
  - intros x r. rewrite Hrooms. case_decide as Hx.
    + subst x. rewrite lookup_alter_eq, E. cbn. rewrite elem_of_union, elem_of_singleton. intros [->|Hin]; [by eauto|].
      destruct (Hj _ _ Hin) as (cl' & E' & Hw). simplify_eq. eauto.
    + rewrite lookup_alter_ne by done. apply Hj.
  - intros p H. destruct (Hp p H) as [E1 E2]. split; [|done]. cbn. by rewrite Husers.
  - intros x Hx. destruct (Hl x Hx) as (clx & Ex & Er). rewrite Hrooms, lookup_alter.
    destruct (decide (c = x)) as [<-|Hn].
    + rewrite E. cbn. simplify_eq. eexists. split; [done|]. cbn. rewrite decide_True by done. by rewrite Er.
    + rewrite Ex, decide_False by done. eauto.
Qed.

Lemma inv_leave ws g c room : gw_inv ws g → gw_inv ws (leave c room g).
Proof.
  destruct g as [objs cls rooms pend]. cbn. intros [Ha Hu Hj Hp Hl]. cbn in *.
  assert (∀ x, ws_user <$> alter (without_room room) c objs !! x
    = ws_user <$> objs !! x) as Husers.
  { intros x. rewrite lookup_alter. case_decide as Hx; [subst|done]. by destruct (objs !! x). }
  assert (∀ x cl, objs !! x = Some cl →
    ∃ cl', alter (without_room room) c objs !! x = Some cl'
      ∧ ws_user cl' = ws_user cl
      ∧ ws_rooms cl' = if decide (x = c) then ws_rooms cl ∖ {[room]} else ws_rooms cl) as Hobj.
  { intros x cl E. destruct (decide (x = c)) as [->|].
    - rewrite lookup_alter_eq, E. by eexists.
    - rewrite lookup_alter_ne by done. eauto. }
  split; cbn.
  - by apply leave_agree.
  - intros x clx Ex. specialize (Husers x). rewrite Ex in Husers. symmetry in Husers.
    apply fmap_Some in Husers as (cl' & E' & ->). by eapply Hu.
  - intros x r Hin.
    assert (r ∈ getClientRooms rooms x) as Hin'
      by (revert Hin; rewrite leave_rooms; case_decide; set_solver).
    destruct (Hj _ _ Hin') as (cl & E & Hw). destruct (Hobj _ _ E) as (cl' & -> & Eu & _).
    exists cl'. by rewrite Eu.
  - intros p H. destruct (Hp p H) as [E1 E2]. split; [|done]. cbn. by rewrite Husers.
  - intros x Hx. destruct (Hl x Hx) as (cl & E & Er). destruct (Hobj _ _ E) as (cl' & -> & _ & Er').
    eexists. split; [done|]. rewrite Er', leave_rooms, Er. done.
Qed.

Lemma inv_disconnect ws g c : gw_inv ws g → gw_inv ws (handleDisconnect c g).
Proof.
  destruct g as [objs cls rooms pend]. cbn. intros [Ha Hu Hj Hp Hl]. unfold handleDisconnect. cbn in *. case_bool_decide as Hc; [|by split].
  split; cbn; try done.
  - by apply remove_agree.
  - intros x r. rewrite remove_rooms. case_decide; [set_solver|apply Hj].
  - intros x Hx. destruct (Hl x) as (cl & E & Er); [set_solver|].
    exists cl. rewrite remove_rooms, decide_False by set_solver. done.
Qed.

Lemma inv_connect ws g c user w q a k : gw_inv (w :: ws) g → gw_objects g !! c = None →
  authenticate cfg q a k w = Some user → gw_inv (w :: ws) (handleConnection c user g).
Proof.
  destruct g as [objs cls rooms pend]. cbn. intros [Ha Hu Hj Hp Hl] E Hauth.
  unfold handleConnection. cbv zeta. cbn in *.
  set (g0 := mkGateway (insert c (mkClient user true ∅) objs) ({[c]} ∪ cls) rooms pend).
  assert (getClientRooms rooms c = ∅) as Hnone.
  { apply set_eq. intros r. split; [|set_solver]. intros (cl & E' & _)%Hj. naive_solver. }
  assert (gw_inv (w :: ws) g0) as H0.
  { split; cbn.
    - done.
    - intros x cl [[_ <-]|[_ Ex]]%lookup_insert_Some; [|by eapply Hu]. exists w, q, a, k. set_solver.
    - intros x r Hin. destruct (decide (x = c)) as [->|]; [set_solver|].
      rewrite lookup_insert_ne by done. by apply Hj.
    - intros p H. destruct (Hp p H) as [E1 E2]. split; [|done]. cbn. rewrite lookup_insert_ne; [done|].
      intros Hc. cbn in E1. by rewrite <-Hc, E in E1.
    - intros x Hx. destruct (decide (x = c)) as [->|].
      + rewrite lookup_insert_eq. eexists. split; [done|]. by rewrite Hnone.
      + rewrite lookup_insert_ne by done. apply Hl. set_solver. }
  assert (gw_objects g0 !! c = Some (mkClient user true ∅)) as E0 by (cbn; apply lookup_insert_eq).
  assert (gw_inv (w :: ws) (enter c (user_room (wa_userId user)) g0)) as H1.
  { eapply inv_enter; [done|done|]. exists w. split; [set_solver|].
    rewrite canAccess_user_room. by apply bool_decide_eq_true. }
  destruct (truthy (wa_tenantId user)) eqn:Ht; [|done].
  apply (inv_await _ (enter c (user_room (wa_userId user)) g0) (CheckTenantRoom c user)); [done|].
  split; [|done]. cbn. by rewrite lookup_alter_eq, lookup_insert_eq.
Qed.

Lemma inv_answered w ws g p : gw_inv (w :: ws) g → pending_ok g p →
  gw_inv (w :: ws) (answered p w g).
Proof.
  intros Hi [Ep Ht]. apply fmap_Some in Ep as (cl & E & Eu).
  destruct p as [c user|c user room|c user|c user rooms]; cbn in *; subst.
  - unfold connection_checked. destruct (canAccessTenantRoom _ w) eqn:Ea; [|done].
    eapply inv_enter; [done|done|]. exists w. split; [set_solver|].
    rewrite canAccess_tenant_room, Ht, Ea, bool_decide_true; done.
  - unfold subscribe_checked. destruct (canAccessRoom _ room w) eqn:Ea; [|done].
    case_bool_decide; [|done]. eapply inv_enter; [done|done|]. exists w. set_solver.
  - unfold account_checked. destruct (isStillAuthorized _ w).
    + apply inv_await; [done|]. split; [|done]. cbn. by rewrite E.
    + by apply inv_disconnect.
  - destruct rooms as [|room rooms]; [done|]. unfold room_checked.
    destruct (_ || _); [apply inv_await; [done|]; split; [cbn; by rewrite E|done]|].
    apply inv_await; [by apply inv_leave|]. split; [|done]. destruct g. cbn in *.
    by rewrite lookup_alter_eq, E.
Qed.

Lemma inv_step w ws g g' : gw_inv ws g → gw_step cfg w g g' → gw_inv (w :: ws) g'.
Proof.
  intros Hi%(inv_later w) Hs. destruct Hs as
    [g c user q a k E Ha|g c cl room E|g c room|g c|g c cl Hc E|g c|g p1 p2 p E].
  - by eapply inv_connect.
  - unfold handleSubscribe. destruct (str_truthy room); [|done].
    apply inv_await; [done|]. split; [cbn; by rewrite E|done].
  - unfold handleUnsubscribe. destruct (str_truthy room); [by apply inv_leave|done].
  - by apply inv_disconnect.
  - unfold heartbeat. cbv zeta.
    assert (gw_inv (w :: ws) (await (CheckAccount c (ws_user cl)) g)) as H1
      by (apply inv_await; [done|]; split; [cbn; by rewrite E|done]).
    destruct (ws_isAlive cl); [|by apply inv_disconnect]. apply inv_objects; [|done].
    intros x. destruct g. cbn in *. destruct (decide (x = c)) as [->|]; [|by rewrite lookup_insert_ne].
    rewrite lookup_insert_eq, E. by destruct cl.
  - apply inv_objects; [|done]. intros x. rewrite lookup_alter. case_decide as Hx; [|done].
    destruct Hx. by destruct (gw_objects g !! c) as [[]|].
  - destruct (inv_unwait _ _ _ _ _ Hi E) as [H1 H2]. by apply inv_answered.
Qed.

Lemma inv_run ws g : gw_run cfg ws g → gw_inv ws g.
Proof.
  induction 1 as [|ws g w g' _ IH Hs]; [|by eapply inv_step].
  split; cbn; try set_solver.
  split; [|by intros r cs; cbn; rewrite lookup_empty]. intros r c. unfold getClientsInRoom, getClientRooms; cbn.
  rewrite !lookup_empty. set_solver.
Qed.

(** ** Who receives an event *)

Lemma tenant_room_inj i j : tenant_room i = tenant_room j → i = j.
Proof. by intros [= ->]. Qed.
Lemma user_room_inj i j : user_room i = user_room j → i = j.
Proof. by intros [= ->]. Qed.

Lemma allowed_room ws user room : was_allowed ws user room →
  (∀ i, room = user_room i → wa_userId user = i) ∧
  (∀ i, room = tenant_room i → wa_tenantId user = Some i) ∧
  (∀ i, room = ticket_room i → ∃ w tenantId, w ∈ ws ∧ wa_tenantId user = Some tenantId ∧
     canAccessTicket user tenantId i w = true).
Proof.
  intros (w & Hw & H). split; [|split]; intros i ->.
  - rewrite canAccess_user_room in H. apply bool_decide_eq_true in H. symmetry. by apply user_room_inj.
  - rewrite canAccess_tenant_room in H. apply andb_true_iff in H as [[Ht H]%andb_true_iff _].
    apply bool_decide_eq_true, tenant_room_inj in H as ->. by destruct (wa_tenantId user).
  - rewrite canAccess_ticket_room in H. destruct (wa_tenantId user) as [t|]; [|done].
    destruct (_ && _); [|done]. exists w, t. done.
Qed.

(** C17: Whatever connections were opened and closed and however their access checks
    interleaved, an event sent to a user, an organization or a ticket reaches only listed
    connections of users who were authenticated: for a user, that very user; for an
    organization, its own accounts; for a ticket, accounts that the ticket visibility rules
    allowed within their own organization. *)
Theorem room_isolation ws g room c : gw_run cfg ws g → c ∈ recipients room g →
  ∃ cl, gw_objects g !! c = Some cl ∧ c ∈ gw_clients g ∧ room ∈ ws_rooms cl ∧
    was_authenticated ws (ws_user cl) ∧
    (∀ i, room = user_room i → wa_userId (ws_user cl) = i) ∧
    (∀ i, room = tenant_room i → wa_tenantId (ws_user cl) = Some i) ∧
    (∀ i, room = ticket_room i → ∃ w tenantId, w ∈ ws ∧ wa_tenantId (ws_user cl) = Some tenantId ∧
       canAccessTicket (ws_user cl) tenantId i w = true).
Proof.
  unfold recipients. intros [Ha Hu Hj Hp Hl]%inv_run [Hr Hc]%elem_of_intersection.
  apply (ra_inverse _ Ha) in Hr. destruct (Hl c Hc) as (cl & E & Er), (Hj c room Hr) as (cl' & E' & Hw).
  simplify_eq. exists cl. rewrite Er. split_and!; try done.
  - by eapply Hu.
  - by eapply allowed_room.
  - by eapply allowed_room.
  - by eapply allowed_room.
Qed.

(** When the recheck of an account fails, its connection is in no room any more; when
    the recheck of a room fails, the connection is out of that room; and no event reaches a
    connection after it was closed. *)
Theorem lost_access_cut ws g c cl w : gw_run cfg ws g → gw_objects g !! c = Some cl → c ∈ gw_clients g →
  (isStillAuthorized (ws_user cl) w = false →
     ∀ room, c ∉ getClientsInRoom (gw_rooms (account_checked c (ws_user cl) w g)) room) ∧
  (∀ room, canAccessRoom (ws_user cl) room w = false → String.prefix "user:" room = false →
     c ∉ getClientsInRoom (gw_rooms (room_checked c (ws_user cl) room w g)) room) ∧
  (∀ room, c ∉ recipients room (handleDisconnect c g)).
Proof.
  intros [Ha Hu Hj Hp Hl]%inv_run E Hc.
  assert (∀ room, c ∉ getClientsInRoom (gw_rooms (handleDisconnect c g)) room) as Hd.
  { intros room. unfold handleDisconnect. rewrite bool_decide_true by done.
    destruct g as [objs cls rooms pend]. cbn in *.
    rewrite (ra_inverse _ (remove_agree c _ Ha)), remove_rooms, decide_True by done. set_solver. }
  split; [|split].
  - intros Hs room. unfold account_checked. rewrite Hs. apply Hd.
  - intros room Hn Hu'. unfold room_checked. rewrite Hn, Hu'. cbn.
    destruct g as [objs cls rooms pend]. cbn in *.
    rewrite (ra_inverse _ (leave_agree c room _ Ha)), leave_rooms, decide_True by done. set_solver.
  - unfold recipients. intros room [H _]%elem_of_intersection. by apply (Hd room).
Qed.

(** *** Two gaps *)

(** The check of the tenant room is answered after the connection was closed: the room
    keeps the identifier of a connection that is gone, and nothing takes it out again, since
    only listed connections are closed. *)
Lemma late_check_leaks ws g c user w q a k : gw_run cfg ws g → gw_objects g !! c = None →
  authenticate cfg q a k w = Some user → truthy (wa_tenantId user) = true →
  canAccessTenantRoom user w = true →
  ∃ g', gw_run cfg (w :: w :: w :: ws) g' ∧ c ∉ gw_clients g' ∧
    c ∈ getClientsInRoom (gw_rooms g') (tenant_room (default "" (wa_tenantId user))) ∧
    handleDisconnect c g' = g'.
Proof.
  intros Hr Hn Ha Ht Hc.
  set (g1 := handleConnection c user g).
  assert (gw_run cfg (w :: ws) g1) as H1 by (by eapply gr_step, gs_connect).
  assert (gw_run cfg (w :: w :: ws) (handleDisconnect c g1)) as H2 by (eapply gr_step, gs_disconnect; done).
  assert (c ∈ gw_clients g1) as Hin.
  { subst g1. unfold handleConnection. rewrite Ht. destruct g; cbn. set_solver. }
  assert (gw_pending (handleDisconnect c g1) = ([] ++ CheckTenantRoom c user :: gw_pending g)%list) as Hp.
  { unfold handleDisconnect. rewrite bool_decide_true by done. subst g1. unfold handleConnection.
    rewrite Ht. by destruct g. }
  exists (answered (CheckTenantRoom c user) w
    ((handleDisconnect c g1) <| gw_pending := ([] ++ gw_pending g)%list |>)).
  split; [eapply gr_step; [exact H2|]; exact (gs_answer cfg w _ [] (gw_pending g) _ Hp)|].
  cbn. unfold connection_checked. rewrite Hc. unfold handleDisconnect. rewrite (bool_decide_true _ Hin).
  destruct g1 as [objs cls rooms pend]. cbn. split; [set_solver|]. split.
  - unfold getClientsInRoom, joinRoom; cbn. rewrite lookup_insert_eq. set_solver.
  - rewrite bool_decide_false by set_solver. done.
Qed.
End facts.

(** A room that a visibility rule opens to the customer of a ticket receives what is pushed
    there, notes included: whoever may read the ticket can be a recipient of its room. *)
Lemma ticket_room_open {Tbl} `{!Prisma Tbl} {Cr : Crypto} (cfg : JwtConfig) ws (w : World Tbl) g c cl tenantId i :
  gw_run cfg ws g → gw_objects g !! c = Some cl → c ∈ gw_clients g →
  wa_tenantId (ws_user cl) = Some tenantId → str_truthy tenantId = true → str_truthy i = true →
  canAccessTicket (ws_user cl) tenantId i w = true →
  ∃ g', gw_run cfg (w :: w :: ws) g' ∧ c ∈ recipients (room_of (ToTicket i)) g'.
Proof.
  intros Hr E Hc Ht Htt Hi Ha.
  assert (canAccessRoom (ws_user cl) (ticket_room i) w = true) as Hroom.
  { rewrite canAccess_ticket_room, Ht. cbn. by rewrite Htt, Hi. }
  set (p := CheckSubscribe c (ws_user cl) (ticket_room i)).
  assert (gw_run cfg (w :: ws) (await p g)) as H1 by exact (gr_step _ _ _ _ _ Hr (gs_subscribe _ _ _ _ _ (ticket_room i) E)).
  assert (gw_pending (await p g) = ([] ++ p :: gw_pending g)%list) as Hp by (by destruct g).
  eexists. split; [eapply gr_step; [exact H1|]; exact (gs_answer cfg w _ [] _ _ Hp)|].
  cbv [answered p]. unfold subscribe_checked. rewrite Hroom. destruct g as [objs cls rooms pend]. cbn in *.
  rewrite bool_decide_true by done. unfold recipients, room_of, getClientsInRoom; cbn.
  rewrite lookup_insert_eq. cbn. set_solver.
Qed.

(** ** Witnesses: a manager connects and is let into the room of the organization *)

Definition socket_user : WSAuthResult := mkWsAuth "u1" "a@acme.io" (Some "t1") "TENANT_MANAGER".
Definition socket_world : World (gmap string) := gate_world TENANT_MANAGER (Some "t1").
Definition socket_start : Gateway := mkGateway ∅ ∅ (mkRooms ∅ ∅) [].
Definition socket_open : Gateway := handleConnection "c1" socket_user socket_start.
Definition socket_joined : Gateway :=
  answered (CheckTenantRoom "c1" socket_user) socket_world (socket_open <| gw_pending := [] |>).

Lemma socket_joined_run : gw_run demo_cfg [socket_world; socket_world] socket_joined.
Proof.
  assert (gw_run demo_cfg [socket_world] socket_open) as H1.
  { eapply gr_step; [apply gr_start|].
    eapply (gs_connect _ _ _ _ _ None (gate_header TENANT_MANAGER (Some "t1")) None); [done|].
    vm_compute. reflexivity. }
  eapply gr_step; [exact H1|]. apply (gs_answer demo_cfg socket_world socket_open [] []). vm_compute. reflexivity.
Qed.

Lemma room_isolation_witness : "c1" ∈ recipients (tenant_room "t1") socket_joined ∧
  wa_tenantId socket_user = Some "t1".
Proof.
  assert ("c1" ∈ recipients (tenant_room "t1") socket_joined) as H.
  { eapply bool_decide_eq_true. vm_compute. reflexivity. }
  split; [exact H|].
  destruct (room_isolation demo_cfg _ _ _ _ socket_joined_run H) as (cl & E & _ & _ & _ & _ & Ht & _).
  assert (gw_objects socket_joined !! "c1" = Some (mkClient socket_user true {["tenant:t1"; "user:u1"]})) as E'
    by (vm_compute; reflexivity).
  rewrite E' in E. injection E as <-. by apply Ht.
Defined.

(** Later the organization is gone. *)
Definition socket_later : World (gmap string) :=
  world_of 2000 (empty_db <| d_users := {["u1" := gate_user TENANT_MANAGER (Some "t1")]} |>).

Lemma lost_access_cut_witness :
  "c1" ∈ getClientsInRoom (gw_rooms socket_joined) "tenant:t1" ∧
  "c1" ∉ getClientsInRoom (gw_rooms (account_checked "c1" socket_user socket_later socket_joined)) "tenant:t1".
Proof.
  split; [eapply bool_decide_eq_true; vm_compute; reflexivity|].
  assert (gw_objects socket_joined !! "c1" = Some (mkClient socket_user true {["tenant:t1"; "user:u1"]})) as E
    by (vm_compute; reflexivity).
  refine (proj1 (lost_access_cut demo_cfg _ _ _ _ socket_later socket_joined_run E _) _ _).
  - eapply bool_decide_eq_true. vm_compute. reflexivity.
  - vm_compute. reflexivity.
Defined.
