(* ===== verification/TicketFacts.v ===== *)
(** * Properties of the ticket use cases *)

From stdpp Require Import pretty.
From Stdlib Require Import Ascii String QArith.
From S2P Require Import Prelude Store Js Errors Dates Domain Ticket Customer Tenant User.
From S2P Require Import Permissions Schema World Outbox Logs Frames Repositories TicketService.

#[local] Open Scope string_scope.
#[local] Open Scope Z_scope.
#[local] Set Default Proof Using "Type*".

(** ** Who sees which ticket *)

Section access.
Context {Tbl : Type → Type} `{!Prisma Tbl}.
Implicit Types (w : World Tbl) (actor : TicketActor).

(** The row-level policy, as its documentation states it: managers see every ticket of
    their organization, agents the tickets assigned to them, customers the tickets of the
    customer record their account is linked to. *)
Definition may_see w actor (r : TicketRow) : Prop :=
  ta_role actor = "TENANT_MANAGER"
  ∨ ta_role actor = "AGENT" ∧ ti_assignedAgentId r = Some (ta_id actor)
  ∨ ta_role actor = "CUSTOMER" ∧
    ∃ l, rows_of d_customerLinks w !! ta_id actor = Some l ∧
         cl_tenantId l = ta_tenantId actor ∧ cl_customerId l = ti_customerId r.

(** The customer record of an actor. *)
Definition own_customer w actor : option string :=
  if bool_decide (ta_role actor = "CUSTOMER") then
    match rows_of d_customerLinks w !! ta_id actor with
    | Some l => if bool_decide (cl_tenantId l = ta_tenantId actor)
                then Some (cl_customerId l) else None
    | None => None
    end
  else None.

Lemma resolveViewer_run actor w :
  resolveViewer actor w =
  (Ok (mkViewer (ta_id actor) (ta_role actor) (own_customer w actor)), w).
Proof.
  unfold resolveViewer, own_customer. case_bool_decide; cbn [negb]; [|done].
  unfold mbind, M_bind.
  rewrite (find_first_key d_customerLinks (ta_id actor)
             (λ r, bool_decide (cl_tenantId r = ta_tenantId actor))).
  by repeat case_match.
Qed.

Lemma canView_spec w actor r :
  canView (mkViewer (ta_id actor) (ta_role actor) (own_customer w actor))
    (ti_assignedAgentId r) (ti_customerId r) = true ↔ may_see w actor r.
Proof.
  unfold canView, may_see, own_customer. cbn [tv_role tv_id tv_customerId].
  destruct (bool_decide_reflect (ta_role actor = "TENANT_MANAGER")); [naive_solver|].
  destruct (bool_decide_reflect (ta_role actor = "AGENT")) as [->|].
  { rewrite bool_decide_eq_true. naive_solver. }
  destruct (bool_decide_reflect (ta_role actor = "CUSTOMER")) as [->|]; [|naive_solver].
  destruct (rows_of d_customerLinks w !! ta_id actor) as [l|]; [|naive_solver].
  destruct (bool_decide_reflect (cl_tenantId l = ta_tenantId actor)).
  - rewrite bool_decide_eq_true. naive_solver.
  - naive_solver.
Qed.

(** C33: The guard of every ticket route decides exactly by the row-level policy.  It never
    changes the state; it returns the ticket when it belongs to the actor's organization
    and the policy shows it to them, answers 404 when the organization has no such ticket,
    and 403 when it has one that the actor may not see. *)
Theorem assertCanAccess_spec actor i w :
  match assertCanAccess actor i w with
  | (Ok t, w') => w' = w ∧ ∃ r, rows_of d_tickets w !! i = Some r ∧
                    ti_tenantId r = ta_tenantId actor ∧ may_see w actor r ∧
                    t = ticket_toDomain i r
  | (Err e, w') => w' = w ∧
      (e = NotFoundError "Ticket" (Some i) ∧
         (∀ r, rows_of d_tickets w !! i = Some r → ti_tenantId r ≠ ta_tenantId actor)
       ∨ e = ForbiddenError "You do not have access to this ticket" ∧
         ∃ r, rows_of d_tickets w !! i = Some r ∧ ti_tenantId r = ta_tenantId actor ∧
              ¬ may_see w actor r)
  end.
Proof.
  unfold assertCanAccess, mbind at 1, M_bind at 1. rewrite ticket_findById_run.
  destruct (rows_of d_tickets w !! i) as [r|] eqn:Hr; [|naive_solver].
  case_bool_decide as Ht; [|naive_solver].
  unfold mbind, M_bind. rewrite resolveViewer_run. pose proof (canView_spec w actor r) as Hv.
  change (t_assignedAgentId (ticket_toDomain i r)) with (ti_assignedAgentId r).
  change (t_customerId (ticket_toDomain i r)) with (ti_customerId r).
  destruct (canView _ _ _); cbn [negb]; (split; [done|]).
  - exists r. naive_solver.
  - right. split; [done|]. exists r. split_and!; [done|done|]. by intros ?%Hv.
Qed.

(** The filters of a request that its actor's scope leaves in force: a scope replaces the
    agent an agent asked for, and the customer a customer asked for. *)
Definition in_force (actor : TicketActor) (f : TicketFilters) : TicketFilters :=
  mkTicketFilters (tf_tenantId f) (tf_status f) (tf_priority f) (tf_category f)
    (if bool_decide (ta_role actor = "AGENT") then None else tf_assignedAgentId f)
    (if bool_decide (ta_role actor = "CUSTOMER") then None else tf_customerId f)
    (tf_isEscalated f) (tf_slaBreached f) (tf_dateFrom f) (tf_dateTo f) (tf_search f) (tf_tags f).

(** C10: Listing and opening agree.  The filters of a listing select exactly the tickets
    of the organization the actor may open, among those the request's own filters select;
    only the agent an agent filters by, and the customer a customer filters by, are ignored.
    An actor for whom the scope is empty may open none.  Identifiers are not empty. *)
Theorem listing_agrees_with_access actor (w w' : World Tbl) scope f i r :
  ta_id actor ≠ "" →
  (∀ j l, rows_of d_customerLinks w !! j = Some l → cl_customerId l ≠ "") →
  listScope actor w = (Ok scope, w') →
  tf_tenantId f = ta_tenantId actor →
  w' = w ∧
  (sc_none scope = true → ¬ may_see w actor r) ∧
  (sc_none scope = false →
     ticket_where (scope_filters scope f) i r = true ↔
     ticket_where (in_force actor f) i r = true ∧ may_see w actor r).
Proof.
  intros Hid Hlink Hs Hft. unfold listScope, may_see in *.
  assert (∀ s, str_truthy s = negb (bool_decide (s = ""))) as Htruthy.
  { intros []; [done|]. by rewrite bool_decide_eq_false_2. }
  unfold ticket_where, scope_filters, in_force.
  destruct (bool_decide_reflect (ta_role actor = "TENANT_MANAGER")) as [Hm|Hm].
  { w_inv. cbn. rewrite Hm. cbn. split_and!; naive_solver. }
  destruct (bool_decide_reflect (ta_role actor = "AGENT")) as [Hag|Hag].
  { w_inv. cbn. rewrite Hag. cbn. rewrite Htruthy, (bool_decide_eq_false_2 (ta_id actor = "")) by done.
    cbn [negb].
    split_and!; [naive_solver|naive_solver|]. intros _. rewrite !andb_true_iff, !bool_decide_eq_true.
    intuition congruence. }
  destruct (bool_decide_reflect (ta_role actor = "CUSTOMER")) as [Hcu|Hcu].
  2: { w_inv. cbn. split_and!; [done|naive_solver|done]. }
  unfold mbind, M_bind in Hs. rewrite resolveViewer_run in Hs. w_inv.
  split; [done|]. unfold own_customer. rewrite bool_decide_eq_true_2 by done.
  cbn [tv_customerId]. destruct (rows_of d_customerLinks _ !! ta_id actor) as [l|] eqn:Hl.
  2: { cbn. split; [naive_solver|done]. }
  pose proof (Hlink _ _ Hl) as Hne.
  destruct (bool_decide_reflect (cl_tenantId l = ta_tenantId actor)) as [Htl|Htl]; cbn.
  2: { split; [naive_solver|done]. }
  rewrite Htruthy, (bool_decide_eq_false_2 (cl_customerId l = "")) by done. cbn.
  rewrite Htruthy, (bool_decide_eq_false_2 (cl_customerId l = "")) by done. cbn [negb].
  split; [done|]. intros _. rewrite !andb_true_iff, !bool_decide_eq_true.
  assert ((∃ l0, Some l = Some l0 ∧ cl_tenantId l0 = ta_tenantId actor ∧
                 cl_customerId l0 = ti_customerId r) ↔ ti_customerId r = cl_customerId l) as ->
    by naive_solver.
  intuition congruence.
Qed.

(** [GET /tickets] without the [isEscalated] parameter never returns an escalated
    ticket: the validated query carries [false], not [undefined], and filters on it. *)
Theorem default_listing_hides_escalated actor f sortBy asc page limit (w w' : World Tbl) pg t :
  controller_findAll actor f None sortBy asc page limit w = (Ok pg, w') →
  t ∈ pg_data pg → t_isEscalated t = false ∧ t_tenantId t = ta_tenantId actor.
Proof.
  unfold controller_findAll, listTickets, ticket_findAll. intros H Ht. w_inv; [set_solver|].
  match goal with E : or_infrastructure _ _ _ = _ |- _ => apply or_infrastructure_ok in E end.
  w_inv. match goal with E : find_page _ _ _ _ _ _ _ = _ |- _ => rewrite find_page_run in E end.
  w_inv. cbn [pg_data] in Ht. apply list_elem_of_fmap in Ht as ([i r] & -> & Hin).
  apply list_elem_of_lookup in Hin as [k Hin]. rewrite lookup_drop in Hin.
  apply list_elem_of_lookup_2, findMany_elem in Hin.
  destruct Hin as [_ Hw]. unfold ticket_where, scope_filters in Hw. cbn in Hw.
  bool_to_prop. split; [|done].
  match goal with H : Bool.eqb _ _ = true |- _ => by apply Bool.eqb_prop in H end.
Qed.
End access.

(** ** All commands *)

Inductive TicketCommand :=
| CmdCreate (dto : CreateTicketDto)
| CmdUpdate (dto : UpdateTicketDto)
| CmdAssign (dto : AssignTicketDto)
| CmdChangeStatus (dto : ChangeStatusDto)
| CmdEscalate (dto : EscalateTicketDto)
| CmdAddComment (dto : AddCommentDto)
| CmdEditComment (dto : EditCommentDto)
| CmdDeleteComment (dto : DeleteCommentDto).

Section commands.
Context {Tbl : Type → Type} `{!Prisma Tbl}.
Implicit Types (w : World Tbl) (cmd : TicketCommand).

Definition run_command cmd : W Tbl unit :=
  match cmd with
  | CmdCreate dto => _ ← createTicket dto; mret ()
  | CmdUpdate dto => _ ← updateTicket dto; mret ()
  | CmdAssign dto => _ ← assignTicket dto; mret ()
  | CmdChangeStatus dto => _ ← service_changeStatus dto; mret ()
  | CmdEscalate dto => _ ← escalateTicket dto; mret ()
  | CmdAddComment dto => _ ← addComment dto; mret ()
  | CmdEditComment dto => _ ← editComment dto; mret ()
  | CmdDeleteComment dto => deleteComment dto
  end.

Lemma atomic_bind_ret {A B} (m : W Tbl A) (b : B) : Atomic m → Atomic (_ ← m; mret b).
Proof.
  intros Hm w e w' Hf H. apply M_bind_err in H as [H|(a & w1 & E & H)]; [|done].
  destruct (Hm w e w' Hf H) as [|(Hq & He & a & w2 & E & Hd)]; [by left|right].
  split; [done|]. split; [done|]. exists b, w2. split; [|done]. unfold mbind, M_bind. by rewrite E.
Qed.

(** The commands that queue a job for the AI worker. *)
Definition queues_job (cmd : TicketCommand) : bool :=
  match cmd with CmdCreate _ | CmdChangeStatus _ | CmdAddComment _ => true | _ => false end.

Lemma commands_atomic cmd : Atomic (run_command cmd).
Proof.
  destruct cmd; cbn [run_command]; try apply atomic_bind_ret;
    [unfold createTicket|unfold updateTicket|unfold assignTicket|unfold service_changeStatus
    |unfold escalateTicket|unfold addComment|unfold editComment|unfold deleteComment];
    unfold inTransaction; atomic_tac.
Qed.

Lemma commands_blind cmd : queues_job cmd = false → Blind (run_command cmd).
Proof. destruct cmd; try done; intros _; cbn [run_command]; blind_tac. Qed.

(** C1: Every command of [TicketService] is all or nothing.  Outside a transaction, a command
    that throws leaves the database exactly as it was: no ticket change, number, log entry or
    event of it survives.  There is one exception: the three commands that queue a job for
    the AI worker do so after the commit, and when the queue refuses the job, the command
    throws although the database is the one that the command leaves when it succeeds. *)
Theorem ticket_commands_atomic cmd w w' e :
  w_inTransaction w = false → run_command cmd w = (Err e, w') →
  w_db w' = w_db w ∨
  queues_job cmd = true ∧ w_queues w = false ∧ e = queue_down ∧
  ∃ w2, run_command cmd (set_queues true w) = (Ok tt, w2) ∧ w_db w' = w_db w2.
Proof.
  intros Hf H. destruct (queues_job cmd) eqn:Hj.
  - destruct (commands_atomic cmd w e w' Hf H) as [|(Hq & He & [] & w2 & E & Hd)]; [by left|].
    right. eauto 10.
  - left. eapply atomic_blind; [apply commands_atomic|by apply commands_blind|done|done].
Qed.
End commands.
