(* ===== verification/TicketCommits.v ===== *)
(** * What a successful ticket command commits

    The change, its activity and audit records and the events it raised are stored
    together: one row of the ticket, one record of each log, and one pending outbox row per
    event.  Identifiers are fresh ([FreshIds]), so [skipDuplicates] skips nothing. *)

From stdpp Require Import pretty.
From Stdlib Require Import Ascii String QArith.
From S2P Require Import Prelude Store Js Errors Dates Domain Ticket Customer Tenant User.
From S2P Require Import Permissions Schema World Outbox Logs Frames Publish Repositories.
From S2P Require Import TicketService TicketFacts.

#[local] Open Scope string_scope.
#[local] Open Scope Z_scope.
#[local] Set Default Proof Using "Type*".

#[local] Notation outbox w := (rows_of d_outbox w).
#[local] Notation tickets w := (rows_of d_tickets w).

Section commits.
Context {Tbl : Type → Type} `{!Prisma Tbl}.
Implicit Types (w : World Tbl) (t : TicketEntity).

(** The database after the update of [t] with its records [a] and [b] was committed. *)
Record Committed w w' t (a : ActivityLogEntry) (b : AuditLogEntry) t' : Prop := {
  cm_row : ∃ r, tickets w !! t_id t = Some r ∧
    tickets w' = <[t_id t := ticket_update_data (Tbl:=Tbl) (w_now w) t r]> (tickets w) ∧
    t' = ticket_toDomain (t_id t) (ticket_update_data (Tbl:=Tbl) (w_now w) t r);
  cm_events : ∀ e, e ∈ t_events t → stored w' (w_now w) e;
  cm_outbox : ∀ i r, outbox w !! i = Some r → outbox w' !! i = Some r;
  cm_size : size (outbox w') = (size (outbox w) + length (t_events t))%nat;
  cm_activity : ∃ i, rows_of d_activities w !! i = None ∧
    rows_of d_activities w' = <[i := activity_row (w_now w) a]> (rows_of d_activities w);
  cm_audit : ∃ i, rows_of d_audits w !! i = None ∧
    rows_of d_audits w' = <[i := audit_row (w_now w) b]> (rows_of d_audits w);
}.

Lemma publish_stores t w u w' :
  FreshIds w → NoDup (ev_id <$> t_events t) → Forall (fresh_event w) (t_events t) →
  publishTicketEvents t w = (Ok u, w') →
  (∀ e, e ∈ t_events t → stored w' (w_now w) e) ∧
  (∀ i r, outbox w !! i = Some r → outbox w' !! i = Some r) ∧
  size (outbox w') = (size (outbox w) + length (t_events t))%nat.
Proof.
  intros Hf Hn He H. unfold publishTicketEvents, pullDomainEvents in H. cbn [fst] in H.
  change (b_domainEvents (t_base t)) with (t_events t) in H.
  destruct (enqueueMany_stores (t_events t) w Hf Hn He) as (w1 & E & _ & _ & Hs & Hr & Hz).
  rewrite E in H. inv_ok. split_and!; [done| |done]. intros i r Hi. apply Hr. by left.
Qed.

Lemma draw_rt_ok n w rt w' :
  draw_rt n w = (Ok rt, w') →
  rt = mkRt (w_now w) (λ k, w_uuid w (w_draws w + k)%nat) ∧ w' = w <| w_draws ::= Nat.add n |>.
Proof. unfold draw_rt. intros H. by inv_ok. Qed.

(** The runs of a command's transaction, in order. *)
Lemma commit_runs t a b w w1 w2 w3 w' t' u1 u2 u3 :
  w_inTransaction w = true → FreshIds w → NoDup (ev_id <$> t_events t) →
  Forall (fresh_event w) (t_events t) →
  ticket_update t w = (Ok t', w1) → activity_create a w1 = (Ok u1, w2) →
  audit_create b w2 = (Ok u2, w3) → publishTicketEvents t w3 = (Ok u3, w') →
  Committed w w' t a b t'.
Proof.
  intros Hin Hf Hnd Hev E1 E2 E3 E4.
  apply ticket_update_ok in E1 as (r & Hr & Hrows & Ht' & tb1 & Hw1).
  apply activity_create_ok in E2 as (i2 & tb2 & Ha & Hna & Hw2).
  apply audit_create_ok in E3 as (i3 & tb3 & Hb & Hnb & Hw3);
    [|rewrite Hw2, Hw1; by upd_simpl].
  assert (outbox w3 = outbox w) as Ho
    by (unfold rows_of; rewrite Hw3, Hw2, Hw1; by upd_simpl).
  assert (w_uuid w3 = w_uuid w) as Hu by (rewrite Hw3, Hw2, Hw1; by upd_simpl).
  assert (w_now w3 = w_now w) as Hnow by (rewrite Hw3, Hw2, Hw1; by upd_simpl).
  assert ((w_draws w ≤ w_draws w3)%nat) as Hd
    by (rewrite Hw3, Hw2, Hw1; upd_simpl; lia).
  pose proof (keeps_run (λ w, tickets w) _ _ _ _ E4) as Kt.
  pose proof (keeps_run (λ w, rows_of d_activities w) _ _ _ _ E4) as Ka.
  pose proof (keeps_run (λ w, rows_of d_audits w) _ _ _ _ E4) as Kb.
  assert (tickets w' = tickets w1) as Et.
  { rewrite Kt; [unfold rows_of; rewrite Hw3, Hw2; by upd_simpl|].
    apply enqueueMany_other; intros; unfold rows_of; by upd_simpl. }
  assert (rows_of d_activities w' = rows_of d_activities w2) as Ea.
  { rewrite Ka; [unfold rows_of; rewrite Hw3; by upd_simpl|].
    apply enqueueMany_other; intros; unfold rows_of; by upd_simpl. }
  assert (rows_of d_audits w' = rows_of d_audits w3) as Eb.
  { rewrite Kb; [done|]. apply enqueueMany_other; intros; unfold rows_of; by upd_simpl. }
  apply publish_stores in E4 as (Hs & Hold & Hsz); [|by eapply fresh_ids_frame|done|].
  2: { eapply Forall_impl; [exact Hev|]. intros e He. by eapply fresh_event_frame. }
  rewrite Ho, Hnow in *.
  assert (w_now w1 = w_now w ∧ w_now w2 = w_now w) as [Hn1 Hn2]
    by (rewrite Hw2, Hw1; split; by upd_simpl).
  assert (rows_of d_activities w1 = rows_of d_activities w) as Ea1
    by (unfold rows_of; rewrite Hw1; by upd_simpl).
  assert (rows_of d_audits w2 = rows_of d_audits w) as Eb2
    by (unfold rows_of; rewrite Hw2, Hw1; by upd_simpl).
  rewrite Ea1 in *. rewrite Eb2 in *. rewrite Hn1 in Ha. rewrite Hn2 in Hb.
  split; [|done|done|done| |].
  - exists r. by rewrite Et.
  - exists i2. by rewrite Ea.
  - exists i3. by rewrite Eb.
Qed.

Lemma committed_frame w w0 w1 w' t a b t' :
  w_db w0 = w_db w → w_now w0 = w_now w → w_db w' = w_db w1 →
  Committed w0 w1 t a b t' → Committed w w' t a b t'.
Proof.
  intros H0 Hn H1 []. unfold stored, rows_of in *. rewrite H0, Hn, <-H1 in *. by split.
Qed.

Lemma getTicketOrThrow_found i tenantId w t w' :
  getTicketOrThrow i tenantId w = (Ok t, w') →
  w' = w ∧ ∃ r, tickets w !! i = Some r ∧ ti_tenantId r = tenantId ∧ t = ticket_toDomain i r.
Proof.
  unfold getTicketOrThrow. intros H. inv_ok. rewrite ticket_findById_run in *. inv_ok.
  destruct (tickets _ !! i) as [r|] eqn:Hr; [|done]. case_bool_decide; [|done].
  unfold mret, M_ret in H. inv_ok. eauto 10.
Qed.

(** The transaction of a command started in [w], which then invalidated the caches. *)
Lemma transaction_committed {A} (work : W Tbl A) w x w' :
  w_inTransaction w = false → transaction work w = (Ok x, w') →
  ∃ w1, work (w <| w_inTransaction := true |>) = (Ok x, w1) ∧ w_db w' = w_db w1 ∧
    w_effects w' = w_effects w1 ∧ w_now w' = w_now w1.
Proof.
  intros Hf H. apply transaction_ok in H as (w1 & E & ->); [|done].
  exists w1. split; [done|]. by upd_simpl.
Qed.

Lemma invalidate_run tenantId w :
  ∃ w', invalidateDashboardCache tenantId w = (Ok (), w') ∧ w_db w' = w_db w ∧
    w_queues w' = w_queues w ∧
    w_effects w' = (w_effects w ++ [CacheDelete ("dashboard:" ++ tenantId ++ ":*")
                                   ; CacheDelete ("analytics:" ++ tenantId ++ ":*")])%list.
Proof.
  eexists. split; [done|]. destruct w; cbn. by rewrite <-app_assoc.
Qed.
End commits.

(** ** Status changes *)

Section change_status.
Context {Tbl : Type → Type} `{!Prisma Tbl}.
Implicit Types (w : World Tbl) (t : TicketEntity).

(** The bodies of the events a status change raises. *)
Definition status_events (i : string) (r : TicketRow) (s : TicketStatus) (by_ : string)
  : list EventBody :=
  TicketStatusChangedEvent i (ti_tenantId r) (status_string (ti_status r)) (status_string s) by_
  :: (if isResolved s
      then [TicketResolvedEvent i (ti_tenantId r) (ti_customerId r) (ti_assignedAgentId r) by_]
      else []).

Lemma changeStatus_text rt s u t t' :
  changeStatus rt s u t = Ok t' →
  t_title t' = t_title t ∧ t_description t' = t_description t.
Proof.
  unfold changeStatus. destruct (canTransitionTo (t_status t) s); [|done].
  intros H. injection H as H. subst t'.
  destruct t as [b ? ? ? ? ? ? ? st ? ? ? ? ? ? ? res clo ? ? ? ?], b; simpl.
  destruct s, res, clo; simpl; repeat split.
Qed.

Lemma change_or_resolve rt s u i r t :
  (if isResolved s then resolve rt u (ticket_toDomain i r)
   else changeStatus rt s u (ticket_toDomain i r)) = Ok t →
  canTransitionTo (ti_status r) s = true ∧ t_id t = i ∧ t_status t = s ∧
  ev_body <$> t_events t = status_events i r s u ∧
  ev_id <$> t_events t = take (length (status_events i r s u)) [uuid rt 0; uuid rt 1] ∧
  t_resolvedAt t = (if status_isActive s then None
                    else if isResolved s then Some (default (now rt) (ti_resolvedAt r))
                    else ti_resolvedAt r) ∧
  t_title t = ti_title r ∧ t_description t = ti_description r.
Proof.
  intros H. unfold status_events.
  assert (∃ t0, changeStatus rt s u (ticket_toDomain i r) = Ok t0 ∧
    t = (if isResolved s
         then t_raise rt 1 (TicketResolvedEvent (t_id t0) (t_tenantId t0) (t_customerId t0)
                              (t_assignedAgentId t0) u) t0 else t0)) as (t0 & E & ->).
  { destruct (isResolved s) eqn:Hs; [|eauto]. unfold resolve in H. inv_ok.
    unfold isResolved in Hs. bool_to_prop. subst s. eauto. }
  assert (t_title t0 = ti_title r ∧ t_description t0 = ti_description r) as [Ht Hd].
  { apply changeStatus_text in E as [-> ->]. by destruct r. }
  apply changeStatus_ok in E as (Hc & Es & Er & _ & Ev & _ & _ & _ & Ei & Etn & Eag & _ & Ecu).
  split; [done|]. destruct r; cbn in *.
  destruct (isResolved s); destruct t0 as [[i0 ? ? ev0] ? ? ? ? ? ? ? ? ? ? ? ? ? ? ? ? ? ? ? ? ?];
    cbn in *; subst; by split_and!.
Qed.

Lemma events_fresh w w' t (n : nat) :
  FreshIds w → outbox w' = outbox w → w_uuid w' = w_uuid w →
  w_draws w' = (n + w_draws w)%nat → (length (t_events t) ≤ n)%nat →
  (∀ k e, t_events t !! k = Some e → ev_id e = w_uuid w (w_draws w + k)%nat) →
  NoDup (ev_id <$> t_events t) ∧ Forall (fresh_event w') (t_events t) ∧ FreshIds w'.
Proof.
  intros Hf Ho Hu Hd Hlen Hid. split_and!.
  - apply NoDup_alt. intros j k x Hj Hk. rewrite !list_lookup_fmap in Hj, Hk.
    destruct (t_events t !! j) as [e1|] eqn:E1; [|done].
    destruct (t_events t !! k) as [e2|] eqn:E2; [|done]. simpl in Hj, Hk.
    apply Hid in E1, E2. assert (w_draws w + j = w_draws w + k)%nat; [|lia].
    apply (fi_inj _ Hf). congruence.
  - apply Forall_lookup. intros k e He. pose proof (Hid _ _ He) as Hk.
    apply lookup_lt_Some in He. eapply fresh_event_drawn; [done|done|done|exact Hk|lia].
  - eapply fresh_ids_frame; [done|done| |done]. lia.
Qed.

Lemma ids_lookup (evs : list DomainEvent) (uid : nat → string) n :
  ev_id <$> evs = take n [uid 0%nat; uid 1%nat] →
  (length evs ≤ 2)%nat ∧ ∀ k e, evs !! k = Some e → ev_id e = uid k.
Proof.
  intros Hids. split.
  - apply (f_equal length) in Hids. rewrite length_fmap, length_take in Hids. simpl in Hids. lia.
  - intros k e He. assert (take n [uid 0%nat; uid 1%nat] !! k = Some (ev_id e)) as Hk
      by (by rewrite <-Hids, list_lookup_fmap, He).
    apply lookup_take_Some in Hk as [Hk _]. destruct k as [|[|k]]; by simplify_eq/=.
Qed.

Definition status_activity (dto : ChangeStatusDto) (old : string) : ActivityLogEntry :=
  mkActivity (cs_tenantId dto) (Some (cs_ticketId dto)) None
    (Some (cs_changedById dto)) (Some (cs_changedByRole dto)) "TICKET_STATUS_CHANGED"
    ("Status changed from " ++ old ++ " to " ++ cs_newStatus dto)
    (Some [("status", jstr old)]) (Some [("status", jstr (cs_newStatus dto))]).

Definition status_audit (dto : ChangeStatusDto) (old : string) : AuditLogEntry :=
  mkAudit (Some (cs_tenantId dto)) (Some (cs_changedById dto))
    (Some (cs_changedByRole dto)) "UPDATE" "tickets" (Some (cs_ticketId dto))
    (Some [("status", jstr old)]) (Some [("status", jstr (cs_newStatus dto))])
    None None [].

Lemma changeStatus_run dto w t' w' :
  w_inTransaction w = false → FreshIds w →
  service_changeStatus dto w = (Ok t', w') →
  ∃ r s t, tickets w !! cs_ticketId dto = Some r ∧ ti_tenantId r = cs_tenantId dto ∧
    status_string s = cs_newStatus dto ∧ canTransitionTo (ti_status r) s = true ∧
    t_id t = cs_ticketId dto ∧ t_status t = s ∧ t_status t' = s ∧
    t_resolvedAt t = (if status_isActive s then None
                      else if isResolved s then Some (default (w_now w) (ti_resolvedAt r))
                      else ti_resolvedAt r) ∧
    ev_body <$> t_events t = status_events (cs_ticketId dto) r s (cs_changedById dto) ∧
    Committed w w' t (status_activity dto (status_string (ti_status r)))
      (status_audit dto (status_string (ti_status r))) t' ∧
    w_effects w' = (w_effects w
      ++ [CacheDelete ("dashboard:" ++ cs_tenantId dto ++ ":*");
          CacheDelete ("analytics:" ++ cs_tenantId dto ++ ":*")]
      ++ (if isResolved s
          then [AiJob "summarize" (cs_tenantId dto) (Some (cs_ticketId dto)) None
                  (ti_title r ++ two_newlines ++ ti_description r) [] 5] else []))%list.
Proof.
  intros Hflag Hf. unfold service_changeStatus, inTransaction. intros H.
  apply M_bind_ok in H as (t0 & w0 & E0 & H).
  apply getTicketOrThrow_found in E0 as (-> & r & Hr & Htn & ->). cbv zeta in H.
  apply M_bind_ok in H as (s & ws & Es & H). unfold lift in Es. inv_ok.
  destruct (draw_rt_ok _ _ _ _ H0) as [-> ->]. unfold lift in H1. inv_ok.
  match goal with E : _ = Ok ?t |- _ => rename t into t1;
    apply change_or_resolve in E as (Hc & Hi & Hst & Hbody & Hids & Hres & Hti & Hde) end.
  apply transaction_committed in H2 as (w1 & E & Hdb & Heff & _); [|by upd_simpl].
  inv_ok. unfold mret, M_ret in E. inv_ok.
  apply (ids_lookup _ (λ k, w_uuid ws (w_draws ws + k)%nat)) in Hids as [Hlen Hids].
  destruct (events_fresh ws (ws <| w_draws ::= Nat.add 2 |> <| w_inTransaction := true |>) t1 2)
    as (Hnd & Hfresh & Hf'); [done|unfold rows_of; by upd_simpl|by upd_simpl|by upd_simpl|done|done|].
  assert (w_effects w1 = w_effects ws) as Hkeep.
  { assert (w_effects (ws <| w_draws ::= Nat.add 2 |> <| w_inTransaction := true |>)
            = w_effects ws) by (by upd_simpl). keep_all (@w_effects Tbl). congruence. }
  assert (Committed (ws <| w_draws ::= Nat.add 2 |> <| w_inTransaction := true |>) w1 t1
            (status_activity dto (status_string (ti_status r)))
            (status_audit dto (status_string (ti_status r))) a1) as Hcm.
  { eapply commit_runs; [|exact Hf'|exact Hnd|exact Hfresh|exact E0|exact E1|exact E2|exact E3].
    by upd_simpl. }
  destruct (invalidate_run (cs_tenantId dto) s2) as (w2 & Ei & Edb & Eq & Eeff).
  rewrite Ei in H3. inv_ok. unfold mret, M_ret in H. inv_ok.
  exists r, (t_status t1), t1. split_and!; try done.
  - unfold status_create in Es0. inv_ok. by apply of_string_spec in Es0.
  - apply cm_row in Hcm as (r' & _ & _ & ->). destruct r'. by destruct t1.
  - clear Hres. eapply committed_frame; [| | |exact Hcm]; [by upd_simpl|by upd_simpl|].
    rewrite <-Hdb, <-Edb. destruct (isResolved _); w_inv; [|done].
    pose proof (keeps_run w_db _ _ _ _ H4) as ->; [done|by keeps_tac].
  - clear Hres. destruct (isResolved _); w_inv.
    + unfold ai_add, add_jobs, gets, modify, mbind, M_bind in H4. case_match; [|done].
      inv_ok. upd_simpl. rewrite Eeff, Heff, Hkeep, Hti, Hde. by rewrite <-app_assoc.
    + by rewrite Eeff, Heff, Hkeep, app_nil_r.
Qed.

(** C4: A status change that returns was an allowed transition of a ticket of the tenant,
    and committed together: the ticket's row with the new status, one activity and one
    audit record with the old and the new status, and one pending outbox row for every
    event, the resolution event included when the new status is RESOLVED.  Afterwards the
    dashboard caches are dropped, and a resolution queues the summary. *)
Theorem changeStatus_commits dto w t' w' :
  w_inTransaction w = false → FreshIds w →
  service_changeStatus dto w = (Ok t', w') →
  ∃ r s t, tickets w !! cs_ticketId dto = Some r ∧ ti_tenantId r = cs_tenantId dto ∧
    status_string s = cs_newStatus dto ∧ canTransitionTo (ti_status r) s = true ∧
    t_id t = cs_ticketId dto ∧ t_status t = s ∧ t_status t' = s ∧
    ev_body <$> t_events t = status_events (cs_ticketId dto) r s (cs_changedById dto) ∧
    Committed w w' t (status_activity dto (status_string (ti_status r)))
      (status_audit dto (status_string (ti_status r))) t' ∧
    w_effects w' = (w_effects w
      ++ [CacheDelete ("dashboard:" ++ cs_tenantId dto ++ ":*");
          CacheDelete ("analytics:" ++ cs_tenantId dto ++ ":*")]
      ++ (if isResolved s
          then [AiJob "summarize" (cs_tenantId dto) (Some (cs_ticketId dto)) None
                  (ti_title r ++ two_newlines ++ ti_description r) [] 5] else []))%list.
Proof.
  intros Hflag Hf H. destruct (changeStatus_run dto w t' w' Hflag Hf H)
    as (r & s & t & ? & ? & ? & ? & ? & ? & ? & _ & ?). by exists r, s, t.
Qed.

(** A reopened ticket keeps its resolution date.  When a resolved ticket is reopened,
    the entity clears [resolvedAt], but the update leaves the undefined field out: the
    stored row is active and still carries the old date, and so does the ticket returned. *)
Theorem reopened_keeps_resolvedAt dto w t' w' r d :
  w_inTransaction w = false → FreshIds w →
  service_changeStatus dto w = (Ok t', w') →
  tickets w !! cs_ticketId dto = Some r → ti_resolvedAt r = Some d →
  ticket_isActive t' = true →
  t_resolvedAt t' = Some d ∧
  ∃ r', tickets w' !! cs_ticketId dto = Some r' ∧ status_isActive (ti_status r') = true ∧
        ti_resolvedAt r' = Some d.
Proof.
  intros Hflag Hf H Hr Hd Hact. destruct (changeStatus_run dto w t' w' Hflag Hf H)
    as (r0 & s & t & Hr0 & _ & _ & _ & Hi & Hs & Hs' & Hres & _ & Hcm & _).
  rewrite Hr in Hr0. injection Hr0 as <-. apply cm_row in Hcm as (r1 & Hr1 & Hrows & Ht').
  rewrite Hi in *. rewrite Hr in Hr1. injection Hr1 as <-.
  unfold ticket_isActive in Hact. rewrite Hs' in Hact. rewrite Hact in Hres.
  assert (assign_column (Tbl:=Tbl) (Some <$> t_resolvedAt t) (ti_resolvedAt r) = Some d) as Ha
    by (rewrite Hres, Hd; apply assign_undefined).
  rewrite Hrows, lookup_insert_eq. destruct r; cbn in *. subst t'. cbn. split; [done|].
  eexists; split; [done|]. cbn. by rewrite Hs.
Qed.
End change_status.

(** ** Creation *)

Section create.
Context {Tbl : Type → Type} `{!Prisma Tbl}.
Implicit Types (w : World Tbl) (t : TicketEntity).

#[local] Notation sequences w := (rows_of d_sequences w).

(** The ticket [createTicket] builds. *)
Definition new_ticket (dto : CreateTicketDto) (rt : Rt) (i : string) (number : Z)
    (priority : TicketPriority) (dueAt : Z) : TicketEntity :=
  ticket_create rt i
    (mkTicketProps (ct_tenantId dto) number (ct_customerId dto)
       (ct_assignedAgentId dto) (ct_createdById dto) (ct_title dto) (ct_description dto)
       OPEN priority (default "GENERAL" (ct_category dto)) (default [] (ct_tags dto))
       (default "web" (ct_source dto)) false None None None None None (Some dueAt) false
       [] None None).

Definition created_today (tenantId : string) w : Z :=
  Z.of_nat (size (matching
    (λ _ r, bool_decide (ti_tenantId r = tenantId)
            && (startOfUtcDay (w_now w) <=? ti_createdAt r)) (tickets w))).

Lemma create_in_transaction_run dto customer tenant w saved n w' :
  w_inTransaction w = true → FreshIds w →
  create_in_transaction dto customer tenant w = (Ok (saved, n), w') →
  n = default 0 (sequences w !! ct_tenantId dto) + 1 ∧
  canCreateTicket tenant (created_today (ct_tenantId dto) w) = true ∧
  w_effects w' = w_effects w ∧ w_queues w' = w_queues w ∧
  ∃ i rt priority dueAt, let t := new_ticket dto rt i n priority dueAt in
    priority_create (default "MEDIUM" (ct_priority dto)) = Ok priority ∧
    Some dueAt = (match ct_dueAt dto with
                  | Some d => Some d
                  | None => computeDueAt (priority_string priority) (w_now w)
                              (Some (n_settings tenant))
                  end) ∧
    tickets w !! i = None ∧ tickets w' = <[i := ticket_row (w_now w) t]> (tickets w) ∧
    saved = ticket_toDomain i (ticket_row (w_now w) t) ∧
    sequences w' = <[ct_tenantId dto := n]> (sequences w) ∧
    (∃ e, stored w' (w_now w) e ∧
       ev_body e = TicketCreatedEvent i (ct_tenantId dto) (ct_customerId dto)
                     (ct_createdById dto) (priority_string priority)
                     (default "GENERAL" (ct_category dto))) ∧
    size (outbox w') = S (size (outbox w)).
Proof.
  intros Hin Hf H. unfold create_in_transaction in H.
  apply M_bind_ok in H as (n0 & w1 & E1 & H). apply or_infrastructure_ok in E1.
  apply M_bind_ok in H as (now & w2 & E2 & H).
  apply M_bind_ok in H as (cnt & w3 & E3 & H).
  destruct (negb (canCreateTicket tenant cnt)) eqn:Hc; [done|].
  apply M_bind_ok in H as (priority & w4 & E4 & H).
  apply M_bind_ok in H as (i & w5 & E5 & H). apply M_bind_ok in H as (dueAt & w6 & E6 & H).
  apply M_bind_ok in H as (rt & w7 & E7 & H). cbv zeta in H.
  apply M_bind_ok in H as (sv & w8 & E8 & H). apply M_bind_ok in H as (cu & w9 & E9 & H).
  apply M_bind_ok in H as (u1 & w10 & E10 & H). apply M_bind_ok in H as (u2 & w11 & E11 & H).
  apply M_bind_ok in H as (u3 & w12 & E12 & H). unfold mret, M_ret in H.
  assert (w12 = w' ∧ sv = saved ∧ n0 = n) as (-> & -> & ->) by (by inv_ok). clear H.
  keep_all (λ w, (w_effects w, w_queues w, w_now w, w_uuid w, w_inTransaction w)).
  keep_all (λ w, rows_of d_outbox w). keep_all (λ w, rows_of d_tickets w).
  keep_all (λ w, rows_of d_sequences w). keep_all (λ w, w_draws w).
  repeat match goal with H : (_, _, _, _, _) = (_, _, _, _, _) |- _ => injection H as ? ? ? ? ? end.
  destruct (getNextTicketNumber_run (ct_tenantId dto) w) as (w1' & E1' & Hseq & _).
  rewrite E1' in E1. injection E1 as Hn ->.
  unfold countCreatedSince in E3. rewrite count_run in E3. injection E3 as Hcnt _.
  unfold get_now, gets in E2. injection E2 as Hnow _. unfold lift in E4. injection E4 as Hpr _.
  apply draw_ok in E5 as [_ Hw5]. apply draw_rt_ok in E7 as [Hrt Hw7].
  apply ticket_save_ok in E8 as (Hnone & Hrows & Hsaved & _).
  apply activity_create_ok in E10 as (_ & ? & _ & _ & Hw10).
  apply audit_create_ok in E11 as (_ & ? & _ & _ & Hw11); [|congruence].
  assert (w_draws w5 = S (w_draws w4) ∧ w_draws w7 = S (w_draws w6) ∧
          w_draws w10 = S (w_draws w9) ∧ w_draws w11 = S (w_draws w10)) as (? & ? & ? & ?)
    by (split_and!; [rewrite Hw5|rewrite Hw7|rewrite Hw10|rewrite Hw11]; by upd_simpl).
  fold (new_ticket dto rt i n priority dueAt) in *.
  set (t := new_ticket dto rt i n priority dueAt) in *.
  assert (t_id t = i) as Hid by done. rewrite Hid in *.
  set (e := new_event rt 0 (TicketCreatedEvent i (ct_tenantId dto) (ct_customerId dto)
              (ct_createdById dto) (priority_string priority)
              (default "GENERAL" (ct_category dto)))).
  assert (t_events t = [e]) as Hev by done.
  assert (FreshIds w11) as Hf11.
  { eapply fresh_ids_frame; [| | |exact Hf]; [congruence|congruence|lia]. }
  assert (fresh_event w11 e) as He.
  { eapply (fresh_event_drawn w w11 e (w_draws w6)); [done|congruence|congruence| |lia].
    unfold e. rewrite Hrt. cbn. rewrite Nat.add_0_r. congruence. }
  apply publish_stores in E12 as (Hst & _ & Hsz);
    [|done|rewrite Hev; apply NoDup_singleton|rewrite Hev; by constructor].
  assert (w_now w7 = w_now w) as Hn7 by congruence.
  assert (w_now w11 = w_now w) as Hn11 by congruence.
  rewrite Hn7 in *. rewrite Hn11 in *.
  split; [done|]. split; [|split; [congruence|split; [congruence|]]].
  { apply negb_false_iff in Hc. rewrite <-Hc, <-Hcnt, <-Hnow. unfold created_today.
    replace (w_now w1) with (w_now w) by congruence.
    by replace (rows_of d_tickets w2) with (rows_of d_tickets w) by congruence. }
  exists i, rt, priority, dueAt. cbv zeta. fold t. split_and!.
  - done.
  - unfold mret, M_ret, throw in E6. rewrite <-Hnow in E6.
    replace (w_now w1) with (w_now w) in E6 by congruence.
    revert E6. clear. destruct (ct_dueAt dto); [intros E6; by inv_ok|].
    destruct (computeDueAt _ _ _); intros E6; by inv_ok.
  - congruence.
  - congruence.
  - done.
  - congruence.
  - exists e. split; [|done]. apply Hst. rewrite Hev. set_solver.
  - rewrite Hsz, Hev. simpl. rewrite Nat.add_1_r. do 2 f_equal. congruence.
Qed.

Lemma findAssignableAgent_found a tenantId w u w' :
  findAssignableAgentOrThrow a tenantId w = (Ok u, w') →
  w' = w ∧ rows_of d_users w !! a = Some u ∧ us_tenantId u = Some tenantId ∧
  (us_role u = AGENT ∨ us_role u = TENANT_MANAGER) ∧ us_status u = UActive.
Proof.
  unfold findAssignableAgentOrThrow. intros H. apply M_bind_ok in H as (o & w1 & E & H).
  destruct o as [[i v]|]; [|done]. apply find_first_some in E as (-> & Hi & Hp).
  unfold mret, M_ret in H. inv_ok. bool_to_prop. subst. split_and!; try done.
  match goal with H : _ || _ = true |- _ => apply orb_true_iff in H as [H|H] end;
    bool_to_prop; auto.
Qed.

Lemma customer_findById_found i tenantId w k w' :
  customer_findById i tenantId w = (Ok (Some k), w') →
  w' = w ∧ ∃ r, rows_of d_customers w !! i = Some r ∧ cu_tenantId r = tenantId ∧
    k_status k = cu_status r.
Proof.
  unfold customer_findById. rewrite or_infrastructure_ok. intros H.
  apply M_bind_ok in H as (o & w1 & E & H). destruct o as [[j r]|]; [|by inv_ok].
  apply find_first_some in E as (-> & Hi & Hp). apply M_bind_ok in H as (k' & w2 & E & H).
  unfold lift in E. unfold mret, M_ret in H. inv_ok. bool_to_prop. subst.
  split; [done|]. exists r. split_and!; try done.
  match goal with E : customer_toDomain _ _ = _ |- _ =>
    unfold customer_toDomain in E; apply result_bind_ok in E as (em & _ & E) end.
  by inv_ok.
Qed.

Lemma blind_bind_run {A B} (m : W Tbl A) (k : A → W Tbl B) a w w1 b :
  Blind m → m w = (Ok a, w1) → (m ≫= k) (set_queues b w) = k a (set_queues b w1).
Proof. intros Hm E. unfold mbind, M_bind. by rewrite (blind_run _ _ _ _ b Hm E). Qed.

(** The jobs are queued after the commit: where they are refused, the ticket is there. *)
Lemma createTicket_refused dto w saved w' :
  createTicket dto w = (Ok saved, w') →
  ∃ w2, createTicket dto (set_queues false w) = (Err queue_down, w2) ∧
    w_db w2 = w_db w' ∧ w_effects w2 = w_effects w.
Proof.
  unfold createTicket, inTransaction. intros H.
  apply M_bind_ok in H as (o & w1 & E1 & H). destruct o as [k|]; [|done].
  destruct (isBlocked k) eqn:Hb; [done|].
  apply M_bind_ok in H as (o & w2 & E2 & H). destruct o as [nr|]; [|done].
  apply M_bind_ok in H as (now & w3 & E3 & H). apply M_bind_ok in H as (tenant & w4 & E4 & H).
  apply M_bind_ok in H as (u & w5 & E5 & H). apply M_bind_ok in H as ([sv n] & w6 & E6 & H).
  apply M_bind_ok in H as (u1 & w7 & E7 & H). apply M_bind_ok in H as (u2 & w8 & E8 & H).
  unfold mret, M_ret in H. injection H as -> ->.
  exists (set_queues false w6). rewrite db_set_queues. split_and!.
  - erewrite blind_bind_run; [|by blind_tac|exact E1]. cbv beta iota. rewrite Hb.
    erewrite blind_bind_run; [|by blind_tac|exact E2]. cbv beta iota.
    erewrite blind_bind_run; [|by blind_tac|exact E3]. cbv beta.
    erewrite blind_bind_run; [|by blind_tac|exact E4]. cbv beta.
    erewrite blind_bind_run; [|by blind_tac|exact E5]. cbv beta.
    erewrite blind_bind_run; [|by blind_tac|exact E6]. cbv beta iota.
    unfold addTicketAnalysis, add_jobs, gets, mbind, M_bind. by rewrite queues_set_queues.
  - keep_all (λ w : World Tbl, w_db w). cbv beta in *. congruence.
  - keep_all (λ w : World Tbl, w_effects w). cbv beta in *.
    transitivity (w_effects w6); [by destruct w6|congruence].
Qed.

(** C3: What [createTicket] promises when it returns.  The customer belongs to the tenant
    and is not blocked, the tenant may create one more ticket today, and an assigned agent
    is active staff of the tenant.  One new OPEN ticket is stored, numbered one above the
    tenant's sequence, which advances with it; the creation event is stored with it.  The
    three analysis jobs are queued and the caches dropped after that commit only: where the
    queue refuses the jobs, the same call throws, having committed the same database and
    queued nothing. *)
Theorem createTicket_commits dto w saved w' :
  w_inTransaction w = false → FreshIds w → createTicket dto w = (Ok saved, w') →
  let n := default 0 (sequences w !! ct_tenantId dto) + 1 in
  (∃ r, rows_of d_customers w !! ct_customerId dto = Some r ∧
     cu_tenantId r = ct_tenantId dto ∧ cu_status r ≠ CBlocked) ∧
  (∃ r rt tenant, rows_of d_tenants w !! ct_tenantId dto = Some r ∧
     mapPrismaTenantToEntity rt (ct_tenantId dto) r = Ok tenant ∧
     canCreateTicket tenant (created_today (ct_tenantId dto) w) = true) ∧
  (∀ a, ct_assignedAgentId dto = Some a → str_truthy a = true →
     ∃ u, rows_of d_users w !! a = Some u ∧ us_tenantId u = Some (ct_tenantId dto) ∧
          (us_role u = AGENT ∨ us_role u = TENANT_MANAGER) ∧ us_status u = UActive) ∧
  tickets w !! t_id saved = None ∧
  (∃ row, tickets w' = <[t_id saved := row]> (tickets w) ∧
     saved = ticket_toDomain (t_id saved) row ∧ ti_status row = OPEN ∧
     ti_tenantId row = ct_tenantId dto ∧ ti_customerId row = ct_customerId dto ∧
     ti_ticketNumber row = n) ∧
  sequences w' = <[ct_tenantId dto := n]> (sequences w) ∧
  (∃ e p c, stored w' (w_now w) e ∧
     ev_body e = TicketCreatedEvent (t_id saved) (ct_tenantId dto) (ct_customerId dto)
                   (ct_createdById dto) p c) ∧
  size (outbox w') = S (size (outbox w)) ∧
  w_effects w' = (w_effects w
    ++ map (λ job, AiJob job (ct_tenantId dto) (Some (t_id saved)) None
                     (ct_title dto ++ two_newlines ++ ct_description dto) []
                     (if bool_decide (job = "urgency") then 1 else 5))
         ["categorize"; "sentiment"; "urgency"]
    ++ [CacheDelete ("dashboard:" ++ ct_tenantId dto ++ ":*");
        CacheDelete ("analytics:" ++ ct_tenantId dto ++ ":*")])%list ∧
  (∃ w2, createTicket dto (set_queues false w) = (Err queue_down, w2) ∧
     w_db w2 = w_db w' ∧ w_effects w2 = w_effects w).
Proof.
  intros Hflag Hf H. pose proof (createTicket_refused dto w saved w' H) as Hrefused.
  unfold createTicket, inTransaction in H.
  apply M_bind_ok in H as (o & w1 & E1 & H). destruct o as [k|]; [|done].
  apply customer_findById_found in E1 as (-> & kr & Hkr & Hkt & Hks).
  destruct (isBlocked k) eqn:Hb; [done|].
  apply M_bind_ok in H as (o & w2 & E2 & H). unfold find_unique, gets in E2.
  rewrite findUnique_rows in E2. injection E2 as Hnr <-. destruct o as [nr|]; [|done].
  apply M_bind_ok in H as (now & w3 & E3 & H). unfold get_now, gets in E3.
  injection E3 as <- <-. apply M_bind_ok in H as (tenant & w4 & E4 & H).
  unfold lift in E4. injection E4 as Htenant <-.
  apply M_bind_ok in H as (u & w5 & E5 & H).
  assert (w5 = w ∧ ∀ a, ct_assignedAgentId dto = Some a → str_truthy a = true →
     ∃ u, rows_of d_users w !! a = Some u ∧ us_tenantId u = Some (ct_tenantId dto) ∧
          (us_role u = AGENT ∨ us_role u = TENANT_MANAGER) ∧ us_status u = UActive)
    as [-> Hagent].
  { unfold mret, M_ret in E5. destruct (ct_assignedAgentId dto) as [a|];
      [|inv_ok; split; [done|naive_solver]].
    destruct (str_truthy a) eqn:Ha; [|inv_ok; split; [done|intros ? [= <-]; congruence]].
    apply M_bind_ok in E5 as (v & w6 & E5 & Hret).
    apply findAssignableAgent_found in E5 as (-> & Hv). unfold mret, M_ret in Hret.
    inv_ok. split; [done|]. intros a' [= <-] _. by exists v. }
  apply M_bind_ok in H as ([sv n] & w6 & E6 & H).
  apply transaction_committed in E6 as (w7 & E6 & Hdb & Heff & _); [|done].
  destruct (create_in_transaction_run dto k tenant (w <| w_inTransaction := true |>) sv n w7)
    as (Hn & Hcan & He7 & Hq7 & i & rt & p & due & Hp & Hdue & Hnone & Hrows & Hsv & Hseq & Hst & Hsz);
    [by upd_simpl| |done|].
  { eapply fresh_ids_frame; [| | |exact Hf]; [unfold rows_of; by upd_simpl|by upd_simpl|].
    upd_simpl. lia. }
  unfold created_today in Hcan. unfold rows_of in *. upd_simpl in Hcan. upd_simpl in Hn.
  upd_simpl in He7. upd_simpl in Hnone. upd_simpl in Hrows. upd_simpl in Hsv.
  upd_simpl in Hseq. upd_simpl in Hst. upd_simpl in Hsz. upd_simpl in Hdue.
  apply M_bind_ok in H as (u1 & w8 & E8 & H).
  unfold addTicketAnalysis, add_jobs, gets, modify in E8. unfold mbind at 1, M_bind at 1 in E8.
  destruct (w_queues w6); [|done]. apply (f_equal snd) in E8. cbn [snd] in E8. subst w8.
  apply M_bind_ok in H as (u2 & w9 & E9 & H). unfold mret, M_ret in H. injection H as -> ->.
  destruct (invalidate_run (ct_tenantId dto) (w6 <| w_effects ::= λ l, (l ++
      map (λ job, AiJob job (ct_tenantId dto) (Some (t_id saved)) None
                    (ct_title dto ++ two_newlines ++ ct_description dto) []
                    (if bool_decide (job = "urgency") then 1 else 5))
         ["categorize"; "sentiment"; "urgency"])%list |>)) as (w10 & E10 & Edb & _ & Ee).
  cbv beta in E9. rewrite E10 in E9. injection E9 as _ ->. upd_simpl in Edb. upd_simpl in Ee.
  rewrite Edb, Hdb in Hrefused. rewrite Edb, Hdb, Hsz, Hseq, Hrows.
  assert (t_id saved = i) as Hid by (by rewrite Hsv). rewrite Hid in *.
  split_and!; try done.
  - exists kr. split_and!; try done. unfold isBlocked in Hb. bool_to_prop. congruence.
  - by eexists nr, _, tenant.
  - eexists. split_and!; try done.
  - by rewrite Hn.
  - destruct Hst as (e & [j Hj] & Hbody). exists e. do 2 eexists. split; [|exact Hbody].
    exists j. unfold rows_of in *. by rewrite Edb, Hdb.
  - rewrite Ee, Heff, He7. cbn. by rewrite <-app_assoc.
Qed.
End create.
