(* ===== verification/TicketInvariants.v ===== *)
(** * What the ticket tables always satisfy

    Rule induction over the commands of [TicketService]: ticket numbers identify the
    tickets of a tenant, no ticket has a number its tenant's sequence has not reached, and
    the timestamps of a stored ticket are there when its status or escalation flag needs
    them. *)

From stdpp Require Import pretty.
From Stdlib Require Import Ascii String QArith.
From S2P Require Import Prelude Store Js Errors Dates Domain Ticket Customer Tenant User.
From S2P Require Import Permissions Schema World Outbox Logs Frames Repositories TicketService.
From S2P Require Import TicketFacts.

#[local] Open Scope string_scope.
#[local] Open Scope Z_scope.
#[local] Set Default Proof Using "Type*".

(** The timestamps the status and the flag of a ticket need. *)
Record StampsOk (status : TicketStatus) (resolvedAt closedAt : option Z)
    (isEscalated : bool) (escalatedAt : option Z) : Prop := {
  so_resolved : status = RESOLVED → is_Some resolvedAt;
  so_closed : status = CLOSED → is_Some closedAt;
  so_escalated : isEscalated = true → is_Some escalatedAt;
}.

Definition EntityOk (t : TicketEntity) : Prop :=
  StampsOk (t_status t) (t_resolvedAt t) (t_closedAt t) (t_isEscalated t) (t_escalatedAt t).
Definition RowOk (r : TicketRow) : Prop :=
  StampsOk (ti_status r) (ti_resolvedAt r) (ti_closedAt r) (ti_isEscalated r)
    (ti_escalatedAt r).

Section entity.
Implicit Types (t : TicketEntity).

Lemma entity_ok_same t t' : same_lifecycle t t' → EntityOk t → EntityOk t'.
Proof. intros (E1 & E2 & E3 & E4 & E5 & _). unfold EntityOk. by rewrite E1, E2, E3, E4, E5. Qed.

Lemma changeStatus_entity_ok rt s u t t' :
  EntityOk t → changeStatus rt s u t = Ok t' → EntityOk t'.
Proof.
  intros [Hr Hc He] (_ & Es & Er & Ec & _ & Ee & Ea & _)%changeStatus_ok.
  unfold EntityOk. rewrite Es, Er, Ec, Ee, Ea. split; [by intros ->|by intros ->|done].
Qed.

Lemma ticket_apply_entity_ok op t t' :
  EntityOk t → ticket_apply op t = Ok t' → EntityOk t'.
Proof.
  intros Hok. destruct op as [rt s u|rt a u|rt r u|rt u| |p|d|c|tag]; simpl; intros H.
  - by eapply changeStatus_entity_ok.
  - inv_ok. eapply entity_ok_same; [apply assign_same|done].
  - unfold escalate in H. destruct (t_isEscalated t); [done|]. inv_ok.
    destruct Hok as [Hr Hc _]. destruct t; simpl in *. by split; cbn.
  - unfold resolve in H. inv_ok.
    eapply entity_ok_same; [apply t_raise_same|by eapply changeStatus_entity_ok].
  - inv_ok. eapply entity_ok_same; [|done]. destruct t; repeat split.
  - inv_ok. eapply entity_ok_same; [|done]. destruct t; repeat split.
  - apply updateDetails_frame in H. eapply entity_ok_same; [|done].
    unfold same_lifecycle. tauto.
  - unfold updateCategory in H. inv_ok.
    eapply entity_ok_same; [|done]. destruct t; repeat split.
  - inv_ok. eapply entity_ok_same; [|done]. unfold addTag. case_match; destruct t; repeat split.
Qed.

Lemma ticket_apply_update_ok dto t t' :
  EntityOk t → ticket_apply_update dto t = Ok t' → EntityOk t'.
Proof.
  unfold ticket_apply_update. intros Hok H.
  apply result_bind_ok in H as (t1 & H1 & H). apply result_bind_ok in H as (t2 & H2 & H).
  eapply (ticket_apply_entity_ok (OpUpdateDetails _)); [|exact H].
  assert (EntityOk t1) as Hok1.
  { destruct (changed_string (ut_priority dto) _) as [p|].
    - apply result_bind_ok in H1 as (q & _ & H1).
      by apply (ticket_apply_entity_ok (OpUpdatePriority q) t).
    - by injection H1 as <-. }
  destruct (changed_string (ut_category dto) _) as [c|].
  - by apply (ticket_apply_entity_ok (OpUpdateCategory c) t1).
  - by injection H2 as <-.
Qed.

(** Writing an entity over a row: a cleared field keeps the column, so the stamps stay. *)
Lemma ticket_update_data_ok {Tbl} `{!Prisma Tbl} now t r :
  EntityOk t → RowOk (ticket_update_data (Tbl:=Tbl) now t r).
Proof.
  intros [Hr Hc He]. unfold RowOk, ticket_update_data.
  assert (∀ (o c : option Z), is_Some o → is_Some (assign_column (Tbl:=Tbl) (Some <$> o) c)) as Ha.
  { intros o c [x ->]. simpl. rewrite assign_value. eauto. }
  destruct r; simpl. split; cbn; eauto.
Qed.
End entity.

(** ** The invariant and the calls that touch the tables *)

Section invariant.
Context {Tbl : Type → Type} `{!Prisma Tbl}.
Implicit Types (db : Db Tbl) (w : World Tbl).

#[local] Notation tickets db := (rows (d_tickets db)).
#[local] Notation sequences db := (rows (d_sequences db)).

Record TicketsOk db : Prop := {
  tk_number : ∀ i j r s, tickets db !! i = Some r → tickets db !! j = Some s →
    ti_tenantId r = ti_tenantId s → ti_ticketNumber r = ti_ticketNumber s → i = j;
  tk_sequence : ∀ i r, tickets db !! i = Some r →
    1 <= ti_ticketNumber r <= default 0 (sequences db !! ti_tenantId r);
  tk_counts : ∀ t n, sequences db !! t = Some n → 0 <= n;
  tk_rows : ∀ i r, tickets db !! i = Some r → RowOk r;
}.

#[local] Notation I := (λ w, TicketsOk (w_db w)).

(** What the invariant reads. *)
#[local] Notation ticket_tables :=
  (λ w : World Tbl, (rows (d_tickets (w_db w)), rows (d_sequences (w_db w)))).

Lemma tickets_ok_frame w w' : ticket_tables w' = ticket_tables w → I w → I w'.
Proof.
  intros [= Ht Hs] [].
  split; rewrite ?Ht, ?Hs; assumption.
Qed.

Lemma holds_frame {A} (m : W Tbl A) : Keeps ticket_tables m → holds I m (λ _, True).
Proof. apply holds_keeps. apply tickets_ok_frame. Qed.

Lemma findById_ok i tenantId :
  holds I (ticket_findById i tenantId) (λ o, ∀ t, o = Some t → EntityOk t).
Proof.
  intros w Hw. rewrite ticket_findById_run. split; [done|]. intros o [= <-] t Ht.
  destruct (rows_of d_tickets w !! i) as [r|] eqn:Hr; [|done]. case_bool_decide; [|done].
  simplify_eq. apply (tk_rows _ Hw) in Hr. by destruct r.
Qed.

Lemma getTicketOrThrow_ok i tenantId : holds I (getTicketOrThrow i tenantId) EntityOk.
Proof.
  eapply holds_bind; [apply findById_ok|]. intros [t|] Ht; [|apply holds_throw].
  apply holds_ret. by apply Ht.
Qed.

Lemma update_ok t : EntityOk t → holds I (ticket_update t) (λ _, True).
Proof.
  intros Hok w Hw. split; [|done].
  destruct (ticket_update t w) as [[t'|e] w'] eqn:E; cbn [snd].
  - apply ticket_update_ok in E as (r & Hr & Hrows & _ & tbl & Hw').
    assert (rows (d_sequences (w_db w')) = rows (d_sequences (w_db w))) as Hseq
      by (rewrite Hw'; by upd_simpl).
    clear Hw'. unfold rows_of in *. destruct Hw as [Hn Hs Hc Hk]. split; rewrite ?Hseq.
    + intros i j x y Hi Hj. rewrite Hrows in Hi, Hj.
      assert (∀ k z, <[t_id t := ticket_update_data (w_now w) t r]>
                       (rows (d_tickets (w_db w))) !! k = Some z →
                ∃ z0, rows (d_tickets (w_db w)) !! k = Some z0 ∧
                      ti_tenantId z = ti_tenantId z0 ∧
                      ti_ticketNumber z = ti_ticketNumber z0) as Hold.
      { intros k z [[<- <-]|[_ Hz]]%lookup_insert_Some; [|eauto].
        exists r. split; [done|]. by destruct r. }
      apply Hold in Hi as (x0 & Hi & -> & ->), Hj as (y0 & Hj & -> & ->). by eapply Hn.
    + intros i x. rewrite Hrows. intros [[<- <-]|[_ Hx]]%lookup_insert_Some; [|by apply Hs in Hx].
      apply Hs in Hr. by destruct r.
    + done.
    + intros i x. rewrite Hrows. intros [[<- <-]|[_ Hx]]%lookup_insert_Some; [|by eapply Hk].
      by apply ticket_update_data_ok.
  - by rewrite (ticket_update_clean t w e w' E).
Qed.

(** Between reserving the number [n] and saving the ticket. *)
Definition Reserved (tenantId : string) (n : Z) w : Prop :=
  I w ∧ 1 <= n ∧ sequences (w_db w) !! tenantId = Some n ∧
  ∀ i r, tickets (w_db w) !! i = Some r → ti_tenantId r = tenantId → ti_ticketNumber r < n.

Lemma reserved_frame tenantId n w w' :
  ticket_tables w' = ticket_tables w → Reserved tenantId n w → Reserved tenantId n w'.
Proof.
  intros Hf (Hi & H1 & Hs & Ht). split; [by eapply (tickets_ok_frame w)|].
  injection Hf as E1 E2.
  by rewrite E1, E2.
Qed.

Lemma reserve_triple tenantId :
  triple I (or_infrastructure "Failed to get next ticket number" (getNextTicketNumber tenantId))
    (λ n, Reserved tenantId n) I.
Proof.
  intros w [Hn Hs Hc Hk]. unfold or_infrastructure, try_catch.
  destruct (getNextTicketNumber_run tenantId w) as (w' & E & Hq & tbl & Hw'). rewrite E.
  assert (tickets (w_db w') = tickets (w_db w)) as Ht by (rewrite Hw'; by upd_simpl).
  clear Hw'. unfold rows_of in *.
  set (n := default 0 (sequences (w_db w) !! tenantId) + 1) in *.
  assert (∀ t, default 0 (sequences (w_db w) !! t) <= default 0 (sequences (w_db w') !! t))
    as Hle.
  { intros t. rewrite Hq. destruct (decide (t = tenantId)) as [->|];
      [rewrite lookup_insert_eq; unfold n; simpl; lia|by rewrite lookup_insert_ne]. }
  split_and!.
  - split; rewrite ?Ht; [done| | |done].
    + intros i r Hi. specialize (Hle (ti_tenantId r)). apply Hs in Hi. lia.
    + intros t m. rewrite Hq. intros [[<- <-]|[_ Hm]]%lookup_insert_Some; [|by eapply Hc].
      unfold n. destruct (sequences (w_db w) !! tenantId) eqn:E'; simpl; [|lia].
      apply Hc in E'. lia.
  - unfold n. destruct (sequences (w_db w) !! tenantId) eqn:E'; simpl; [|lia].
    apply Hc in E'. lia.
  - by rewrite Hq, lookup_insert_eq.
  - rewrite Ht. intros i r Hi <-. apply Hs in Hi. unfold n. lia.
Qed.

Lemma save_triple tenantId n t :
  t_tenantId t = tenantId → t_ticketNumber t = n → EntityOk t →
  triple (Reserved tenantId n) (ticket_save t) (λ _, I) I.
Proof.
  intros Htn Hnum Hok w ([Hn Hs Hc Hk] & H1 & Hseq & Hlt).
  destruct (ticket_save t w) as [[t'|e] w'] eqn:E.
  2: { rewrite (ticket_save_clean t w e w' E). by split. }
  apply ticket_save_ok in E as (Hnew & Hrows & _ & tbl & Hw').
  assert (sequences (w_db w') = sequences (w_db w)) as Hq by (rewrite Hw'; by upd_simpl).
  clear Hw'. unfold rows_of in *. split; rewrite ?Hq, ?Hrows.
  - intros i j x y [[<- <-]|[Hi Hx]]%lookup_insert_Some [[<- <-]|[Hj Hy]]%lookup_insert_Some
      Ht Hm; [done| | |by eapply Hn].
    + cbn in Ht, Hm. apply Hlt in Hy; [lia|]. by rewrite <-Ht.
    + cbn in Ht, Hm. apply Hlt in Hx; [lia|]. by rewrite Ht.
  - intros i x [[<- <-]|[_ Hx]]%lookup_insert_Some; [|by apply Hs in Hx].
    cbn. rewrite Htn, Hseq. simpl. lia.
  - done.
  - intros i x [[<- <-]|[_ Hx]]%lookup_insert_Some; [|by eapply Hk]. done.
Qed.

Ltac frame_step :=
  eapply holds_bind; [apply holds_frame; by keeps_tac|intros ? _].

Lemma create_in_transaction_ok dto customer tenant :
  holds I (create_in_transaction dto customer tenant) (λ _, True).
Proof.
  apply triple_holds. unfold create_in_transaction.
  eapply triple_bind; [apply reserve_triple|]. intros n.
  assert (∀ {A B} (m : W Tbl A) (k : A → W Tbl B) Q, Keeps ticket_tables m →
    (∀ a, triple (Reserved (ct_tenantId dto) n) (k a) Q I) →
    triple (Reserved (ct_tenantId dto) n) (m ≫= k) Q I) as Hstep.
  { intros A B m k Q Hm Hk. eapply triple_bind; [|exact Hk].
    apply (triple_keep ticket_tables); [apply reserved_frame|by intros w []|done]. }
  do 2 (apply Hstep; [by keeps_tac|intros ?]).
  case_match; [apply triple_throw; by intros w []|].
  do 4 (apply Hstep; [by keeps_tac|intros ?]). cbv zeta.
  eapply triple_bind; [by apply save_triple|]. intros saved.
  eapply triple_weaken; [apply (holds_triple I _ (λ _, True))|intros ? ? [? _]; done].
  repeat frame_step. by apply holds_ret.
Qed.

(** A lifted entity operation keeps [EntityOk]. *)
Lemma lift_entity (r : result error TicketEntity) :
  (∀ t, r = Ok t → EntityOk t) → holds I (lift r) EntityOk.
Proof. apply holds_lift. Qed.

Ltac command_tac :=
  cbv zeta;
  repeat (match goal with
  | |- holds _ (mret _) _ => apply holds_ret; exact Logic.I
  | |- holds _ (throw _) _ => apply holds_throw
  | |- holds _ (transaction _) _ => apply (holds_transaction TicketsOk)
  | |- holds _ (create_in_transaction _ _ _) _ => apply create_in_transaction_ok
  | |- holds _ (transaction _ ≫= _) _ =>
      apply (holds_bind _ _ _ (λ _, True)); [apply (holds_transaction TicketsOk)|intros ? _]
  | |- holds _ (getTicketOrThrow _ _ ≫= _) _ =>
      eapply holds_bind; [apply getTicketOrThrow_ok|intros ? ?]
  | H : EntityOk ?t |- holds _ (ticket_update ?t ≫= _) _ =>
      eapply holds_bind; [apply update_ok; exact H|intros ? _]
  | |- holds _ (_ ≫= _) _ =>
      apply (holds_bind _ _ _ (λ _, True)); [apply holds_frame; by keeps_tac|intros ? _]
  | |- holds _ (match _ with _ => _ end) _ => case_match
  | |- holds _ (if _ then _ else _) _ => case_match
  | |- holds _ _ _ => apply holds_frame; by keeps_tac
  end; cbv zeta beta).

Lemma createTicket_ok dto : holds I (createTicket dto) (λ _, True).
Proof. unfold createTicket, inTransaction. command_tac. Qed.

Lemma updateTicket_ok dto : holds I (updateTicket dto) (λ _, True).
Proof.
  unfold updateTicket, inTransaction. eapply holds_bind; [apply getTicketOrThrow_ok|].
  intros t Ht. case_match; [apply holds_throw|]. cbv zeta.
  eapply holds_bind; [apply lift_entity; intros t'; by apply ticket_apply_update_ok|].
  intros t' Ht'. command_tac.
Qed.

Lemma assignTicket_ok dto : holds I (assignTicket dto) (λ _, True).
Proof.
  unfold assignTicket, inTransaction. eapply holds_bind; [apply getTicketOrThrow_ok|].
  intros t Ht. frame_step. case_match; [apply holds_throw|]. frame_step. cbv zeta.
  match goal with |- context [assign ?rt ?a ?u t] =>
    assert (EntityOk (assign rt a u t)) by (by apply (ticket_apply_entity_ok (OpAssign rt a u) t)) end.
  command_tac.
Qed.

Lemma changeStatus_ok' dto : holds I (service_changeStatus dto) (λ _, True).
Proof.
  unfold service_changeStatus, inTransaction. eapply holds_bind; [apply getTicketOrThrow_ok|].
  intros t Ht. cbv zeta. frame_step. frame_step. eapply holds_bind.
  { apply lift_entity. intros t'. case_match.
    - by apply (ticket_apply_entity_ok (OpResolve _ _)).
    - by apply (ticket_apply_entity_ok (OpChangeStatus _ _ _)). }
  intros t' Ht'. command_tac.
Qed.

Lemma escalateTicket_ok dto : holds I (escalateTicket dto) (λ _, True).
Proof.
  unfold escalateTicket, inTransaction. eapply holds_bind; [apply getTicketOrThrow_ok|].
  intros t Ht. case_match; [apply holds_throw|]. frame_step. eapply holds_bind.
  { apply lift_entity. intros t'. by apply (ticket_apply_entity_ok (OpEscalate _ _ _)). }
  intros t' Ht'. command_tac.
Qed.

Lemma addComment_ok dto : holds I (addComment dto) (λ _, True).
Proof.
  unfold addComment, inTransaction. eapply holds_bind; [apply getTicketOrThrow_ok|].
  intros t Ht. frame_step. case_match; [|apply holds_throw]. case_match; [apply holds_throw|].
  frame_step. frame_step. cbv zeta.
  apply (holds_bind _ _ _ (λ _, True)); [apply (holds_transaction TicketsOk)|intros ? _; command_tac].
  frame_step. eapply (holds_bind _ _ _ EntityOk).
  { case_match; [|by apply holds_ret]. frame_step. eapply holds_bind.
    { apply lift_entity. intros t'. by apply (ticket_apply_entity_ok (OpChangeStatus _ _ _)). }
    intros t' Ht'. eapply holds_bind; [by apply update_ok|]. intros. by apply holds_ret. }
  intros t' Ht'. command_tac.
Qed.

Lemma editComment_ok dto : holds I (editComment dto) (λ _, True).
Proof. unfold editComment, inTransaction. command_tac. Qed.

Lemma deleteComment_ok dto : holds I (deleteComment dto) (λ _, True).
Proof. unfold deleteComment, inTransaction. command_tac. Qed.

(** C2: The ticket tables stay consistent under every command of [TicketService], whether
    it succeeds or throws: within a tenant a ticket number identifies one ticket, every
    number is positive and was handed out by the tenant's sequence, and a stored ticket
    that is resolved, closed or escalated carries the timestamp that says when. *)
Theorem ticket_tables_invariant cmd w :
  TicketsOk (w_db w) → TicketsOk (w_db (run_command cmd w).2).
Proof.
  intros Hw. cut (holds I (run_command cmd) (λ _, True)); [intros H; by apply H|].
  destruct cmd; cbn [run_command];
    try (eapply holds_bind; [|intros; by apply holds_ret]);
    auto using createTicket_ok, updateTicket_ok, assignTicket_ok, changeStatus_ok',
      escalateTicket_ok, addComment_ok, editComment_ok, deleteComment_ok.
Qed.
End invariant.
