(* ===== verification/TicketWitnesses.v ===== *)
(** * The ticket theorems on a concrete organization

    A small help desk in which the hypotheses of the ticket theorems hold: a tenant with an
    agent, a customer and the customer's user account, and one resolved ticket. *)

From stdpp Require Import pretty.
From Stdlib Require Import Ascii String QArith.
From S2P Require Import Prelude Store Js Errors Dates Domain Ticket Customer Tenant User.
From S2P Require Import Permissions Schema World Outbox Logs Frames Publish Repositories.
From S2P Require Import TicketService TicketFacts TicketCommits TicketInvariants.

#[local] Open Scope string_scope.
#[local] Open Scope Z_scope.

Definition desk_tenant : TenantRecord :=
  mkTenantRecord "Acme" "acme" "ACTIVE" "pro" None None 5 100 10 (JObj []) None None 0 0.

Definition desk_user (role : UserRole) : UserRow :=
  mkUserRow (Some "t1") "a@acme.io" None "Ann" "Lee" role UActive None None "UTC" "en" None
    None None 0 None (JObj []) 0 0.

Definition desk_customer : CustomerRow :=
  mkCustomerRow "t1" None "Cy Doe" "cy@x.io" None None None CActive None None [] None None 0 0.

Definition desk_ticket : TicketRow :=
  mkTicketRow "t1" 1 "c1" (Some "agent") "agent" "Printer" "It smokes" RESOLVED MEDIUM
    "GENERAL" [] "web" false None None (Some 500) None (Some 100) (Some 9000) false [] None 10 500.

Definition desk : World (gmap string) :=
  world_of 1000 (empty_db
    <| d_tenants := {["t1" := desk_tenant]} |>
    <| d_users := {["agent" := desk_user AGENT; "cust" := desk_user CUSTOMER]} |>
    <| d_customers := {["c1" := desk_customer]} |>
    <| d_customerLinks := {["cust" := mkCustomerLinkRow "c1" "t1"]} |>
    <| d_sequences := {["t1" := 1]} |>
    <| d_tickets := {["k1" := desk_ticket]} |>).

Lemma desk_fresh : FreshIds desk.
Proof.
  split.
  - intros j k H. cbn in H. apply (inj (String.append "id")) in H.
    by apply pretty_nat_inj in H.
  - intros k i r _ H. unfold rows_of in H. cbn in H. by rewrite lookup_empty in H.
Qed.

Lemma desk_tables : TicketsOk (w_db desk).
Proof.
  split; cbn.
  - intros i j r s [<- <-]%lookup_singleton_Some [<- <-]%lookup_singleton_Some. done.
  - intros i r [<- <-]%lookup_singleton_Some. split; vm_compute; discriminate.
  - intros t n [<- <-]%lookup_singleton_Some. lia.
  - intros i r [<- <-]%lookup_singleton_Some. split; cbn; try done.
Qed.

(** Evaluate a run and name its result. *)
Ltac run_desk := do 2 eexists; vm_compute; reflexivity.

Definition reopen : ChangeStatusDto := mkChangeStatusDto "t1" "k1" "OPEN" "agent" "AGENT".

Lemma changeStatus_commits_witness :
  ∃ t' w', service_changeStatus reopen desk = (Ok t', w') ∧ t_status t' = OPEN.
Proof.
  assert (∃ t' w', service_changeStatus reopen desk = (Ok t', w')) as (t' & w' & E)
    by run_desk.
  destruct (changeStatus_commits reopen desk t' w' eq_refl desk_fresh E)
    as (r & s & t & _ & _ & Hs & _ & _ & _ & Hst & _).
  exists t', w'. split; [exact E|]. rewrite Hst. destruct s; vm_compute in Hs; congruence.
Defined.

Lemma reopened_keeps_resolvedAt_witness :
  ∃ t' w', service_changeStatus reopen desk = (Ok t', w') ∧ t_resolvedAt t' = Some 500.
Proof.
  assert (∃ t' w', service_changeStatus reopen desk = (Ok t', w') ∧ ticket_isActive t' = true)
    as (t' & w' & E & Ha).
  { do 2 eexists. split; vm_compute; reflexivity. }
  exists t', w'. split; [exact E|].
  exact (proj1 (reopened_keeps_resolvedAt reopen desk t' w' desk_ticket 500
                  eq_refl desk_fresh E eq_refl eq_refl Ha)).
Defined.

Definition new_dto : CreateTicketDto :=
  mkCreateTicketDto "t1" "c1" "agent" "AGENT" "Login fails" "I cannot log in" None None None
    None None (Some "agent").

Lemma createTicket_commits_witness :
  ∃ saved w', createTicket new_dto desk = (Ok saved, w') ∧ t_ticketNumber saved = 2.
Proof.
  assert (∃ saved w', createTicket new_dto desk = (Ok saved, w')) as (saved & w' & E)
    by run_desk.
  destruct (createTicket_commits new_dto desk saved w' eq_refl desk_fresh E)
    as (_ & _ & _ & _ & (row & _ & Hs & _ & _ & _ & Hn) & _).
  exists saved, w'. split; [exact E|]. rewrite Hs. cbn. rewrite Hn. vm_compute. reflexivity.
Defined.

(** A customer of another tenant: the command throws. *)
Definition foreign_dto : CreateTicketDto :=
  mkCreateTicketDto "t2" "c1" "agent" "AGENT" "Login fails" "I cannot log in" None None None
    None None None.

Lemma ticket_commands_atomic_witness :
  ∃ e w', run_command (CmdCreate foreign_dto) desk = (Err e, w') ∧ w_db w' = w_db desk.
Proof.
  assert (∃ e w', run_command (CmdCreate foreign_dto) desk = (Err e, w')) as (e & w' & E)
    by run_desk.
  exists e, w'. split; [exact E|].
  destruct (ticket_commands_atomic (CmdCreate foreign_dto) desk w' e eq_refl E) as [Hd|(_ & Hq & _)];
    [exact Hd|discriminate Hq].
Defined.

(** The exception happens: with the queue down the ticket is numbered and stored, and the
    command throws. *)
Lemma refused_job_keeps_ticket :
  match run_command (CmdCreate new_dto) (set_queues false desk) with
  | (Err _, w') => size (rows_of d_tickets w') = S (size (rows_of d_tickets desk))
  | _ => False
  end.
Proof. vm_compute. reflexivity. Qed.

Lemma ticket_tables_invariant_witness :
  TicketsOk (w_db (run_command (CmdCreate new_dto) desk).2).
Proof. apply (ticket_tables_invariant (CmdCreate new_dto) desk). apply desk_tables. Defined.

Definition cust_actor : TicketActor := mkActor "cust" "CUSTOMER" "a@acme.io" "t1".

Lemma listing_agrees_with_access_witness :
  ticket_where (scope_filters (mkScope None (Some "c1") false) (no_filters "t1")) "k1"
    desk_ticket = true ↔
  ticket_where (no_filters "t1") "k1" desk_ticket = true ∧ may_see desk cust_actor desk_ticket.
Proof.
  apply (listing_agrees_with_access cust_actor desk desk (mkScope None (Some "c1") false)
           (no_filters "t1") "k1" desk_ticket); try reflexivity; [done|].
  intros j l H. unfold rows_of in H. cbn in H. apply lookup_singleton_Some in H as [_ <-]. done.
Defined.

Definition escalated_desk : World (gmap string) :=
  desk <| w_db ::= λ d, d <| d_tickets ::= insert "k2"
    (desk_ticket <| ti_isEscalated := true |> <| ti_status := OPEN |>) |> |>.
Definition manager : TicketActor := mkActor "boss" "TENANT_MANAGER" "b@acme.io" "t1".

(** The escalated ticket of the desk is not listed. *)
Lemma default_listing_hides_escalated_witness :
  ∃ pg w', controller_findAll manager (no_filters "t1") None None false 1 20 escalated_desk
           = (Ok pg, w') ∧ pg_total pg = 1 ∧
  ∀ t, t ∈ pg_data pg → t_isEscalated t = false.
Proof.
  assert (∃ pg w', controller_findAll manager (no_filters "t1") None None false 1 20
                     escalated_desk = (Ok pg, w') ∧ pg_total pg = 1) as (pg & w' & E & Hn).
  { do 2 eexists. split; vm_compute; reflexivity. }
  exists pg, w'. split_and!; [exact E|exact Hn|]. intros t Ht.
  exact (proj1 (default_listing_hides_escalated manager (no_filters "t1") None false 1 20
                  escalated_desk w' pg t E Ht)).
Defined.

(** ** Repositories *)

Definition desk_entity : TicketEntity :=
  ticket_toDomain "k9" (desk_ticket <| ti_status := OPEN |> <| ti_resolvedAt := None |>).

Lemma ticket_save_roundtrip_witness :
  ∃ t' w', ticket_save desk_entity desk = (Ok t', w') ∧
           ticket_findById "k9" "t1" w' = (Ok (Some t'), w').
Proof.
  assert (∃ t' w', ticket_save desk_entity desk = (Ok t', w')) as (t' & w' & E) by run_desk.
  exists t', w'. split; [exact E|].
  exact (proj1 (ticket_save_roundtrip desk_entity desk w' t' "t1" E)).
Defined.

Lemma ticket_update_spec_witness :
  ∃ t' w', ticket_update (ticket_toDomain "k1" (desk_ticket <| ti_title := "Printer 2" |>)) desk
           = (Ok t', w') ∧ t_title t' = "Printer 2".
Proof.
  assert (∃ t' w', ticket_update (ticket_toDomain "k1" (desk_ticket <| ti_title := "Printer 2" |>))
                     desk = (Ok t', w')) as (t' & w' & E) by run_desk.
  destruct (ticket_update_spec _ desk w' t' E) as (r & _ & _ & _ & _ & _ & Ht & _).
  exists t', w'. split; [exact E|exact Ht].
Defined.

Lemma pages_partition_witness :
  concat (map (λ k, page_data d_tickets (ticket_where (no_filters "t1"))
                      (ticket_order (Some "ticketNumber") true) ticket_toDomain 1 desk
                      (Z.of_nat k)) (seq 1 1)) =
  [ticket_toDomain "k1" desk_ticket].
Proof.
  exact (proj2 (pages_partition d_tickets (ticket_where (no_filters "t1"))
    (ticket_order (Some "ticketNumber") true) ticket_toDomain 1 desk eq_refl
    (λ i r j r' Hi _ Hj _ _, eq_trans (eq_sym (proj1 (proj1 (lookup_singleton_Some _ _ _ _) Hi)))
                               (proj1 (proj1 (lookup_singleton_Some _ _ _ _) Hj))))).
Defined.
