(* ===== verification/Json.v ===== *)
(** * JSON text

    [JSON.stringify] of the values of [Js.Json]: escapes, separators, and numbers.  An
    integer is printed in decimal; how a fraction is printed (the shortest decimal that reads
    back) is a parameter. *)

From stdpp Require Import pretty.
From Stdlib Require Import Ascii String QArith.
From S2P Require Import Prelude Js.

#[local] Open Scope string_scope.
#[local] Open Scope Z_scope.

Definition dquote : ascii := of_code 34.
Definition quoted (s : string) : string := String dquote (s ++ String dquote "").

Definition hex_char (n : Z) : ascii := of_code (if n <? 10 then 48 + n else 87 + n).

Definition json_escape (c : ascii) : string :=
  if code c =? 34 then String (of_code 92) (String c "")
  else if code c =? 92 then String (of_code 92) (String c "")
  else if code c =? 8 then String (of_code 92) "b"
  else if code c =? 12 then String (of_code 92) "f"
  else if code c =? 10 then String (of_code 92) "n"
  else if code c =? 13 then String (of_code 92) "r"
  else if code c =? 9 then String (of_code 92) "t"
  else if code c <? 32
  then String (of_code 92)
         ("u00" ++ String (hex_char (code c / 16)) (String (hex_char (code c mod 16)) ""))
  else String c "".

Definition json_string (s : string) : string := quoted (str_flat_map json_escape s).

Section stringify.
Context (fraction : Q → string).

Definition json_number (q : Q) : string :=
  if Z.pos (Qden q) =? 1 then pretty (Qnum q) else fraction q.

Fixpoint stringify (j : Json) : string :=
  match j with
  | JNull => "null"
  | JBool b => if b then "true" else "false"
  | JNum q => json_number q
  | JStr s => json_string s
  | JArr l => "[" ++ join "," (map stringify l) ++ "]"
  | JObj fields =>
      "{" ++ join "," (map (λ '(k, v), json_string k ++ ":" ++ stringify v) fields) ++ "}"
  end.
End stringify.

(** A string literal ends at its own quotation mark: every quotation mark of the text is
    behind a backslash, so nothing a value contains can close the literal. *)
Fixpoint literal_end (escaped : bool) (s : string) : option string :=
  match s with
  | EmptyString => None
  | String c s =>
      if escaped then literal_end false s
      else if code c =? 92 then literal_end true s
      else if code c =? 34 then Some s
      else literal_end false s
  end.

Lemma literal_end_escape c rest :
  literal_end false (json_escape c ++ rest) = literal_end false rest.
Proof. destruct c as [[] [] [] [] [] [] [] []]; reflexivity. Qed.

Lemma json_string_closed s rest :
  literal_end false (str_flat_map json_escape s ++ String dquote rest) = Some rest.
Proof.
  induction s as [|c s IH]; [reflexivity|]. cbn [str_flat_map].
  by rewrite <-str_app_assoc, literal_end_escape.
Qed.

Example stringify_ex : stringify (λ _, "") (JObj [("a", JStr "x"); ("b", JArr [jnum (-5); JNull])])
  = "{" ++ quoted "a" ++ ":" ++ quoted "x" ++ "," ++ quoted "b" ++ ":[-5,null]}".
Proof. vm_compute. reflexivity. Qed.

(** ** Fields of an object *)

Lemma get_field_keys {A} k (l : list (string * A)) v : get_field k l = Some v → k ∈ l.*1.
Proof.
  induction l as [|[k' v'] l IH]; simpl; [done|]. destruct (get_field k l); [set_solver|].
  case_bool_decide; [|done]. set_solver.
Qed.

Lemma set_field_keys {A} k (v : A) l x : x ∈ (set_field k v l).*1 ↔ x = k ∨ x ∈ l.*1.
Proof.
  induction l as [|[k' v'] l IH]; simpl; [set_solver|]. case_bool_decide; simpl; set_solver.
Qed.

Lemma set_field_NoDup {A} k (v : A) l : NoDup l.*1 → NoDup (set_field k v l).*1.
Proof.
  induction l as [|[k' v'] l IH]; simpl; [intros _; apply NoDup_singleton|].
  intros [Hk Hl]%NoDup_cons. case_bool_decide as Hb; simpl; apply NoDup_cons; [by subst|].
  split; [|by apply IH]. rewrite set_field_keys. set_solver.
Qed.

Lemma get_set_field {A} k (v : A) l : NoDup l.*1 → get_field k (set_field k v l) = Some v.
Proof.
  induction l as [|[k' v'] l IH]; simpl; [by rewrite bool_decide_eq_true_2|].
  intros [Hk Hl]%NoDup_cons. case_bool_decide as Hb; simpl.
  - destruct (get_field k l) as [w|] eqn:E; [|by rewrite bool_decide_eq_true_2].
    apply get_field_keys in E. by subst.
  - by rewrite IH.
Qed.

Lemma get_set_other {A} k k' (v : A) l : k ≠ k' → get_field k' (set_field k v l) = get_field k' l.
Proof.
  intros Hne. induction l as [|[a b] l IH]; simpl; [by rewrite bool_decide_eq_false_2|].
  case_bool_decide as Hb; simpl; [|by rewrite IH]. subst.
  destruct (get_field k' l); [done|]. by rewrite bool_decide_eq_false_2.
Qed.

