(* ===== verification/Customers.v ===== *)
(** * Customers

    [CustomerService] ([src/application/customer/services]): profiles, the agent in charge,
    blocking, deletion and the risk score, and the listing of [CustomerController].  Writes
    and their log records run in one transaction, except for the risk score. *)

From stdpp Require Import pretty.
From Stdlib Require Import Ascii String QArith.
From S2P Require Import Prelude Store Js Errors Domain Ticket Customer Tenant User.
From S2P Require Import Json Schema World Outbox Logs Frames Repositories Accounts TicketService Members.

#[local] Open Scope string_scope.
#[local] Open Scope Z_scope.

Record CreateCustomerDto := mkCreateCustomer {
  cc_tenantId : string;
  cc_createdById : string;
  cc_createdByRole : string;
  cc_fullName : string;
  cc_email : string;
  cc_phone : option string;
  cc_company : option string;
  cc_notes : option string;
  cc_assignedAgentId : option string;
  cc_externalId : option string;
}.

Record UpdateCustomerDto := mkUpdateCustomer {
  uc_tenantId : string;
  uc_customerId : string;
  uc_updatedById : string;
  uc_updatedByRole : string;
  uc_profile : CustomerProfile;
  uc_assignedAgentId : option string;
  uc_status : option string;
}.

Section customers.
Context {Tbl : Type → Type} `{!Prisma Tbl}.

Definition assertAssignableAgent (agentId tenantId : string) : W Tbl unit :=
  agent ← user_findById agentId (Some (Some tenantId));
  match agent with
  | Some agent =>
      if bool_decide (u_role agent = AGENT) || bool_decide (u_role agent = TENANT_MANAGER)
      then mret ()
      else throw (ValidationError "Assigned agent must be a staff member of this organization" [])
  | None => throw (ValidationError "Assigned agent must be a staff member of this organization" [])
  end.

(** [if (dto.assignedAgentId) await this.assertAssignableAgent(…)] *)
Definition assert_agent (agentId : option string) (tenantId : string) : W Tbl unit :=
  match agentId with
  | Some a => if str_truthy a then assertAssignableAgent a tenantId else mret ()
  | None => mret ()
  end.

Definition getCustomerOrThrow (i tenantId : string) : W Tbl CustomerEntity :=
  customer ← customer_findById i tenantId;
  match customer with
  | Some customer => mret customer
  | None => throw (NotFoundError "Customer" (Some i))
  end.

Definition createCustomer (dto : CreateCustomerDto) : W Tbl CustomerEntity :=
  exists_ ← existsByEmail (cc_email dto) (cc_tenantId dto);
  if exists_ : bool
  then throw (ConflictError "A customer with this email already exists in your organization")
  else
    _ ← assert_agent (cc_assignedAgentId dto) (cc_tenantId dto);
    customerId ← draw;
    email ← lift (email_create (cc_email dto));
    rt ← draw_rt 1;
    let customer := customer_create rt customerId
      (mkCustomerProps (cc_tenantId dto) (cc_assignedAgentId dto) (cc_fullName dto) email
         (cc_phone dto) (cc_company dto) (cc_notes dto) CActive 0 None [] (cc_externalId dto)
         None None None) in
    inTransaction (
      saved ← customer_save customer;
      _ ← activity_create (mkActivity (cc_tenantId dto) None (Some (k_id saved))
            (Some (cc_createdById dto)) (Some (cc_createdByRole dto)) "CUSTOMER_CREATED"
            ("Customer " ++ cc_fullName dto ++ " created") None
            (Some [("customerId", jstr (k_id saved)); ("email", jstr (cc_email dto))]));
      _ ← audit_create (mkAudit (Some (cc_tenantId dto)) (Some (cc_createdById dto))
            (Some (cc_createdByRole dto)) "CREATE" "customers" (Some (k_id saved)) None
            (Some [("fullName", jstr (cc_fullName dto)); ("email", jstr (cc_email dto))])
            None None []);
      _ ← publish_events (k_base customer);
      mret saved).

(** A value that is not the empty string. *)
Definition given (v : option string) : option string := if truthy v then v else None.

(** [if (value !== undefined && value !== old)] *)
Definition changed_entry (key : string) (new_ old : option string)
  : list (string * (option Json * Json)) :=
  match new_ with
  | Some v => if bool_decide (Some v = old) then [] else [(key, (JStr <$> old, JStr v))]
  | None => []
  end.

(** The fields an update changes, with the entries of [oldValues] (left out of the JSON when
    [undefined]) and [newValues]. *)
Definition customer_changes (dto : UpdateCustomerDto) (customer : CustomerEntity)
  : list (string * (option Json * Json)) :=
  let p := uc_profile dto in
  (changed_entry "fullName" (Customer.pf_fullName p) (Some (k_fullName customer))
   ++ changed_entry "phone" (Customer.pf_phone p) (k_phone customer)
   ++ changed_entry "company" (Customer.pf_company p) (k_company customer)
   ++ changed_entry "notes" (Customer.pf_notes p) (k_notes customer)
   ++ changed_entry "assignedAgentId" (given (uc_assignedAgentId dto)) (k_assignedAgentId customer)
   ++ changed_entry "status" (given (uc_status dto))
        (Some (customer_status_string (k_status customer))))%list.

(** [if (dto.assignedAgentId && dto.assignedAgentId !== customer.assignedAgentId)] *)
Definition new_agent (dto : UpdateCustomerDto) (customer : CustomerEntity) : option string :=
  match uc_assignedAgentId dto with
  | Some a => if str_truthy a && negb (bool_decide (Some a = k_assignedAgentId customer))
              then Some a else None
  | None => None
  end.

(** [if (dto.status && dto.status !== customer.status)]; another status changes nothing. *)
Definition apply_status (dto : UpdateCustomerDto) (customer : CustomerEntity) : CustomerEntity :=
  match uc_status dto with
  | Some s =>
      if str_truthy s && negb (bool_decide (s = customer_status_string (k_status customer))) then
        if bool_decide (s = "BLOCKED") then block customer
        else if bool_decide (s = "ACTIVE") then customer_activate customer
        else if bool_decide (s = "INACTIVE") then customer_deactivate customer
        else customer
      else customer
  | None => customer
  end.

(** The entity the update writes. *)
Definition apply_update (dto : UpdateCustomerDto) (customer : CustomerEntity) : CustomerEntity :=
  let updated := customer_updateProfile (uc_profile dto) customer in
  let updated := match new_agent dto customer with
                 | Some a => assignAgent a updated
                 | None => updated
                 end in
  apply_status dto updated.

Definition updateCustomer (dto : UpdateCustomerDto) : W Tbl CustomerEntity :=
  customer ← getCustomerOrThrow (uc_customerId dto) (uc_tenantId dto);
  let changes := customer_changes dto customer in
  _ ← assert_agent (new_agent dto customer) (uc_tenantId dto);
  inTransaction (
    updated ← customer_update (apply_update dto customer);
    match changes with
    | [] => mret updated
    | _ =>
        let oldValues := omap (λ '(k, (o, _)), pair k <$> o) changes in
        let newValues := map (λ '(k, (_, n)), (k, n)) changes in
        _ ← activity_create (mkActivity (uc_tenantId dto) None (Some (uc_customerId dto))
              (Some (uc_updatedById dto)) (Some (uc_updatedByRole dto)) "CUSTOMER_UPDATED"
              "Customer profile updated" (Some oldValues) (Some newValues));
        _ ← audit_create (mkAudit (Some (uc_tenantId dto)) (Some (uc_updatedById dto))
              (Some (uc_updatedByRole dto)) "UPDATE" "customers" (Some (uc_customerId dto))
              (Some oldValues) (Some newValues) None None []);
        mret updated
    end).

Definition deleteCustomer (customerId tenantId deletedById deletedByRole : string) : W Tbl unit :=
  _ ← getCustomerOrThrow customerId tenantId;
  used ← hasTickets customerId tenantId;
  if used : bool
  then throw (ConflictError "This customer has tickets and cannot be deleted. Block or deactivate the customer instead.")
  else
    inTransaction (
      _ ← customer_delete customerId tenantId;
      audit_create (mkAudit (Some tenantId) (Some deletedById) (Some deletedByRole) "DELETE"
        "customers" (Some customerId) None None None None [])).

Definition getCustomer (customerId tenantId : string) : W Tbl CustomerEntity :=
  getCustomerOrThrow customerId tenantId.

Definition listCustomers (collate : string → Z) (f : CustomerFilters) (sortBy : option string)
    (asc : bool) (page limit : Z) : W Tbl (PaginatedResult CustomerEntity) :=
  customer_findAll collate f sortBy asc page limit.

Definition getCustomerTimeline (customerId tenantId : string) (page limit : Z)
  : W Tbl (PaginatedResult ActivityRow) :=
  _ ← getCustomerOrThrow customerId tenantId;
  findByCustomer customerId tenantId page limit.

(** A score is an integer, so no fraction is printed. *)
Definition risk_content (customer : CustomerEntity) : string :=
  stringify (λ _, "") (JObj (
    ("email", jstr (k_email customer)) :: opt_field "company" (k_company customer)
    ++ [("riskScore", jnum (k_riskScore customer));
        ("status", jstr (customer_status_string (k_status customer)))])%list).

Definition triggerRiskScoreUpdate (customerId tenantId : string) : W Tbl unit :=
  customer ← getCustomerOrThrow customerId tenantId;
  ai_add "risk-score" tenantId None (Some customerId) (risk_content customer) [].

(** [shown] is the score in the template string of the description. *)
Definition service_updateRiskScore (shown : jsnum → string) (customerId tenantId : string)
    (score : jsnum) (label : string) : W Tbl CustomerEntity :=
  customer ← getCustomerOrThrow customerId tenantId;
  rt ← draw_rt 1;
  customer ← lift (updateRiskScore rt score label customer);
  updated ← customer_update customer;
  _ ← activity_create (mkActivity tenantId None (Some customerId) None None
        "CUSTOMER_RISK_UPDATED" ("Risk score updated to " ++ shown score ++ " (" ++ label ++ ")")
        None (Some [("score", match score with Fin q => JNum q | _ => JNull end);
                    ("label", jstr label)]));
  _ ← publish_events (k_base customer);
  mret updated.

(** [CustomerController.findAll]: agents list their own customers only. *)
Definition customer_controller_findAll (collate : string → Z) (userId role tenantId : string)
    (status assignedAgentId riskLabel search : option string) (sortBy : option string)
    (asc : bool) (page limit : Z) : W Tbl (PaginatedResult CustomerEntity) :=
  let effectiveAgentId := if bool_decide (role = "AGENT") then Some userId else assignedAgentId in
  listCustomers collate
    (mkCustomerFilters tenantId status effectiveAgentId search riskLabel None None) sortBy asc
    page limit.
End customers.
