(* ===== verification/CustomerFacts.v ===== *)
(** * What the customer use cases achieve

    An update writes the fields asked for and one record of what changed in each log; a
    customer that tickets refer to is never deleted; a deactivated agent can still be put in
    charge of a customer. *)

From Stdlib Require Import Ascii String.
From S2P Require Import Prelude Store Js Errors Domain Ticket Customer Tenant User.
From S2P Require Import Schema World Outbox Logs Frames Publish Repositories Accounts.
From S2P Require Import TicketService Members MembersFacts Customers.

#[local] Open Scope string_scope.
#[local] Open Scope Z_scope.
#[local] Set Default Proof Using "Type*".

#[local] Notation customers w := (rows_of d_customers w).
#[local] Notation users w := (rows_of d_users w).

Section facts.
Context {Tbl : Type → Type} `{!Prisma Tbl}.
Implicit Types (w : World Tbl).

Lemma getCustomerOrThrow_found i tenantId w k w' :
  getCustomerOrThrow i tenantId w = (Ok k, w') →
  w' = w ∧ ∃ r, customers w !! i = Some r ∧ cu_tenantId r = tenantId ∧ customer_toDomain i r = Ok k.
Proof.
  unfold getCustomerOrThrow, customer_findById. intros H. inv_ok.
  apply or_infrastructure_ok in H0. apply M_bind_ok in H0 as (o & w1 & E & H0).
  destruct o as [[j r]|]; [|unfold mret, M_ret in H0; by inv_ok].
  apply find_first_some in E as (-> & Hi & Hp). bool_to_prop. subst.
  apply M_bind_ok in H0 as (k' & w2 & E & H0). unfold lift, mret, M_ret, throw in *.
  destruct a as [a|]; [|done]. inv_ok. eauto 10.
Qed.

Lemma customer_toDomain_fields i r k :
  customer_toDomain i r = Ok k → k_id k = i ∧ k_tenantId k = cu_tenantId r ∧
  k_assignedAgentId k = cu_assignedAgentId r ∧ k_fullName k = cu_fullName r ∧
  k_phone k = cu_phone r ∧ k_company k = cu_company r ∧ k_notes k = cu_notes r ∧
  k_status k = cu_status r ∧ k_riskScore k = default 0 (cu_riskScore r) ∧
  k_riskLabel k = cu_riskLabel r ∧ k_metadata k = cu_metadata r ∧ k_lastActivityAt k = cu_lastActivityAt r.
Proof. unfold customer_toDomain. intros H. by inv_ok. Qed.

Lemma customer_update_ok k w k' w' :
  customer_update k w = (Ok k', w') →
  ∃ r, customers w !! k_id k = Some r ∧
    customers w' = <[k_id k := customer_update_data (Tbl:=Tbl) (w_now w) k r]> (customers w) ∧
    customer_toDomain (k_id k) (customer_update_data (Tbl:=Tbl) (w_now w) k r) = Ok k' ∧
    ∃ tbl, w' = w <| w_db ::= λ d, d <| d_customers := tbl |> |>.
Proof.
  unfold customer_update. rewrite or_infrastructure_ok. intros H. inv_ok.
  unfold get_now, gets in *. inv_ok.
  match goal with E : update_one _ _ _ _ = _ |- _ =>
    pose proof (update_one_ok d_customers _ _ _ _ _ E) as (r & Hr & -> & Hw & Ht) end.
  unfold lift in *. inv_ok. eauto 10.
Qed.

(** Whoever is put in charge is staff of the organization, active or not. *)
Definition staff_of w (tenantId a : string) : Prop :=
  ∃ u, users w !! a = Some u ∧ us_tenantId u = Some tenantId ∧
    (us_role u = AGENT ∨ us_role u = TENANT_MANAGER).

Lemma user_findById_found i tenantId w u w' :
  user_findById i (Some (Some tenantId)) w = (Ok (Some u), w') →
  w' = w ∧ ∃ r, users w !! i = Some r ∧ us_tenantId r = Some tenantId ∧ u_role u = us_role r.
Proof.
  unfold user_findById. intros H. apply M_bind_ok in H as (o & w1 & E & H).
  destruct o as [[j r]|]; [|unfold map_found, mret, M_ret in H; by inv_ok].
  apply find_first_some in E as (-> & Hi & Hp). cbn in Hp. bool_to_prop. subst.
  unfold map_found in H. apply M_bind_ok in H as (u' & w2 & E & H).
  unfold lift, mret, M_ret in *. inv_ok. split; [done|].
  match goal with E : user_toDomain _ _ = Ok _ |- _ => apply user_toDomain_fields in E as (_ & Hu & _) end.
  eauto.
Qed.

Lemma assertAssignableAgent_ok a tenantId w w' :
  assertAssignableAgent a tenantId w = (Ok tt, w') → w' = w ∧ staff_of w tenantId a.
Proof.
  unfold assertAssignableAgent. intros H. apply M_bind_ok in H as (o & w1 & E & H).
  destruct o as [u|]; [|done].
  apply user_findById_found in E as (-> & r & Hr & Ht & Hu).
  destruct (_ || _) eqn:Eb; [|done]. unfold mret, M_ret in H. inv_ok. split; [done|].
  exists r. split_and!; [done|done|]. apply orb_true_iff in Eb as [Eb|Eb]; bool_to_prop; rewrite <-Hu; auto.
Qed.

Lemma assert_agent_ok o tenantId w w' :
  assert_agent o tenantId w = (Ok tt, w') →
  w' = w ∧ ∀ a, o = Some a → a ≠ "" → staff_of w tenantId a.
Proof.
  unfold assert_agent, mret, M_ret. destruct o as [a|]; [|intros H; inv_ok; done].
  destruct (str_truthy a) eqn:Ht; intros H.
  - apply assertAssignableAgent_ok in H as [-> Hs]. split; [done|]. by intros ? [= <-] _.
  - inv_ok. split; [done|]. intros ? [= <-] Hn. by destruct a.
Qed.

(** ** Updates *)

Lemma assign_some {A} (o c : option A) : assign_column (Tbl:=Tbl) (Some <$> o) c = o ∪ c.
Proof.
  destruct o as [v|]; simpl; [by rewrite assign_value; destruct c
                             |by rewrite assign_undefined; destruct c].
Qed.

(** *** What an update asks for, read off the request and the stored row *)

(** The empty string asks for nothing. *)
Definition nonempty (o : option string) : option string :=
  match o with Some (String c s) => Some (String c s) | _ => None end.

Definition status_of_name (name : string) : option CustomerStatus :=
  if decide (name = "ACTIVE") then Some CActive
  else if decide (name = "INACTIVE") then Some CInactive
  else if decide (name = "BLOCKED") then Some CBlocked else None.

(** The row with everything asked for; names are trimmed, and a missing risk score becomes 0. *)
Definition asked_row (now : Z) (dto : UpdateCustomerDto) (r : CustomerRow) : CustomerRow :=
  let p := uc_profile dto in
  r <| cu_fullName := from_option trim (cu_fullName r) (Customer.pf_fullName p) |>
    <| cu_phone := Customer.pf_phone p ∪ cu_phone r |>
    <| cu_company := Customer.pf_company p ∪ cu_company r |>
    <| cu_notes := Customer.pf_notes p ∪ cu_notes r |>
    <| cu_assignedAgentId := nonempty (uc_assignedAgentId dto) ∪ cu_assignedAgentId r |>
    <| cu_status := default (cu_status r) (uc_status dto ≫= status_of_name) |>
    <| cu_riskScore := Some (default 0 (cu_riskScore r)) |>
    <| cu_updatedAt := now |>.

(** The values asked for that are not the stored ones: column, stored value, new value. *)
Definition asked_change (column : string) (new_ old : option string) : list (string * option string * string) :=
  match new_ with
  | Some v => if decide (old = Some v) then [] else [(column, old, v)]
  | None => []
  end.

Definition asked_changes (dto : UpdateCustomerDto) (r : CustomerRow) : list (string * option string * string) :=
  let p := uc_profile dto in
  (asked_change "fullName" (Customer.pf_fullName p) (Some (cu_fullName r))
   ++ asked_change "phone" (Customer.pf_phone p) (cu_phone r)
   ++ asked_change "company" (Customer.pf_company p) (cu_company r)
   ++ asked_change "notes" (Customer.pf_notes p) (cu_notes r)
   ++ asked_change "assignedAgentId" (nonempty (uc_assignedAgentId dto)) (cu_assignedAgentId r)
   ++ asked_change "status" (nonempty (uc_status dto)) (Some (customer_status_string (cu_status r))))%list.

Lemma given_nonempty o : given o = nonempty o.
Proof. by destruct o as [[|c s]|]. Qed.

Lemma changed_entry_spec key new_ old :
  changed_entry key new_ old =
  map (λ '(column, o, v), (column, (JStr <$> o, JStr v))) (asked_change key new_ old).
Proof.
  unfold changed_entry, asked_change. destruct new_ as [v|]; [|done].
  case_bool_decide; case_decide; by try congruence.
Qed.

Lemma changes_asked dto i r k :
  customer_toDomain i r = Ok k →
  customer_changes dto k = map (λ '(column, o, v), (column, (JStr <$> o, JStr v))) (asked_changes dto r).
Proof.
  intros (_ & _ & Ea & Ef & Ep & Ec & En & Es & _)%customer_toDomain_fields.
  unfold customer_changes, asked_changes. rewrite !given_nonempty, !changed_entry_spec, Ea, Ef, Ep, Ec, En, Es.
  by rewrite !map_app.
Qed.

Lemma new_agent_key dto k a : new_agent dto k = Some a ↔
  nonempty (uc_assignedAgentId dto) = Some a ∧ Some a ≠ k_assignedAgentId k.
Proof.
  unfold new_agent. destruct (uc_assignedAgentId dto) as [[|c b]|]; cbn; [naive_solver| |naive_solver].
  case_bool_decide; naive_solver.
Qed.

Lemma status_asked dto k :
  k_status (apply_status dto k) = default (k_status k) (uc_status dto ≫= status_of_name).
Proof.
  unfold apply_status. destruct (uc_status dto) as [s|]; [|done]. cbn [mbind option_bind].
  unfold status_of_name. destruct (str_truthy s) eqn:Et; cbn [andb].
  2:{ destruct s; [|done]. by repeat case_decide. }
  destruct (bool_decide_reflect (s = customer_status_string (k_status k))) as [->|Hne]; cbn [negb].
  - by destruct (k_status k); repeat case_decide.
  - repeat case_decide; repeat case_bool_decide; by subst; destruct k.
Qed.

(** A change of status changes nothing else. *)
Lemma apply_status_fields dto k :
  let k' := apply_status dto k in
  k_id k' = k_id k ∧ k_tenantId k' = k_tenantId k ∧ k_fullName k' = k_fullName k ∧
  k_phone k' = k_phone k ∧ k_company k' = k_company k ∧ k_notes k' = k_notes k ∧
  k_assignedAgentId k' = k_assignedAgentId k ∧
  k_riskScore k' = k_riskScore k ∧ k_riskLabel k' = k_riskLabel k ∧
  k_lastActivityAt k' = k_lastActivityAt k ∧ k_metadata k' = k_metadata k.
Proof.
  cbv zeta. unfold apply_status. destruct (uc_status dto) as [v|]; [|done].
  destruct (_ && _); [|done]. repeat case_bool_decide; by destruct k as [[]].
Qed.

(** The entity after the update, field by field. *)
Lemma apply_update_fields dto k :
  let k' := apply_update dto k in let p := uc_profile dto in
  k_id k' = k_id k ∧ k_tenantId k' = k_tenantId k ∧
  k_fullName k' = from_option trim (k_fullName k) (Customer.pf_fullName p) ∧
  k_phone k' = Customer.pf_phone p ∪ k_phone k ∧ k_company k' = Customer.pf_company p ∪ k_company k ∧
  k_notes k' = Customer.pf_notes p ∪ k_notes k ∧
  k_assignedAgentId k' = new_agent dto k ∪ k_assignedAgentId k ∧
  k_status k' = default (k_status k) (uc_status dto ≫= status_of_name) ∧
  k_riskScore k' = k_riskScore k ∧ k_riskLabel k' = k_riskLabel k ∧
  k_lastActivityAt k' = k_lastActivityAt k ∧ k_metadata k' = k_metadata k.
Proof.
  cbv zeta. unfold apply_update. cbv zeta.
  set (k2 := match new_agent dto k with Some a => _ | None => _ end).
  rewrite status_asked. destruct (apply_status_fields dto k2) as (-> & -> & -> & -> & -> & -> & -> & -> & -> & -> & ->).
  subst k2. unfold assignAgent, customer_updateProfile. destruct (uc_profile dto) as [f ph co no].
  destruct (new_agent dto k); split_and!;
    destruct k as [b0 t0 a0 f0 e0 p0 c0 n0 s0 r0 l0 m0 x0 y0]; destruct b0; cbn;
    done || by destruct f, ph, co, no, p0, c0, n0, a0.
Qed.

Lemma agent_asked dto k : new_agent dto k ∪ k_assignedAgentId k = nonempty (uc_assignedAgentId dto) ∪ k_assignedAgentId k.
Proof.
  unfold new_agent. destruct (uc_assignedAgentId dto) as [[|c b]|]; [done| |done]. cbn [str_truthy andb nonempty].
  case_bool_decide as H; [|done]. by rewrite <-H.
Qed.

(** The row the update writes has what was asked for. *)
Lemma update_asked dto i r k now :
  customer_toDomain i r = Ok k →
  customer_update_data (Tbl:=Tbl) now (apply_update dto k) r = asked_row now dto r.
Proof.
  intros (_ & _ & Ea & Ef & Ep & Ec & En & Es & Er & El & Em & Ela)%customer_toDomain_fields.
  destruct (apply_update_fields dto k)
    as (_ & _ & Af & Ap & Ac & An & Aa & As & Ar & Al & Ala & Am). cbv zeta in *.
  rewrite agent_asked in Aa.
  assert (∀ (A : Type) (o c : option A), o ∪ c ∪ c = o ∪ c) as Hu by (intros A [] []; done).
  assert (∀ (A : Type) (c : option A), c ∪ c = c) as Hi by (intros A []; done).
  unfold customer_update_data, asked_row. destruct r; cbn in *.
  by rewrite !assign_some, Af, Ap, Ac, An, Aa, As, Ar, Al, Ala, Am, Ea, Ef, Ep, Ec, En, Es, Er, El, Em, Ela, !Hu, !Hi.
Qed.

(** What the records of a change hold. *)
Lemma recorded_news (changes : list (string * option string * string)) :
  map (λ '(k, (_, n)), (k, n)) (map (λ '(column, o, v), (column, (JStr <$> o, JStr v))) changes) =
  map (λ '(column, _, v), (column, JStr v)) changes.
Proof. rewrite map_map. apply map_ext. by intros [[column o] v]. Qed.

Lemma recorded_olds (changes : list (string * option string * string)) :
  omap (λ '(k, (o, _)), pair k <$> o) (map (λ '(column, o, v), (column, (JStr <$> o, JStr v))) changes) =
  omap (λ '(column, o, _), (λ v, (column, JStr v)) <$> o) changes.
Proof. induction changes as [|[[column o] v] l IH]; [done|]. cbn. destruct o; cbn; by rewrite <-IH. Qed.

(** What the two logs gained: nothing, or one record each, about this customer and by this
    actor, with the stored and the new value of every change. *)
Definition logged_once (dto : UpdateCustomerDto) (changes : list (string * option string * string)) w w' : Prop :=
  match changes with
  | [] => rows_of d_activities w' = rows_of d_activities w ∧ rows_of d_audits w' = rows_of d_audits w
  | _ => ∃ i j a b,
      rows_of d_activities w' = <[i := a]> (rows_of d_activities w) ∧ rows_of d_activities w !! i = None ∧
      rows_of d_audits w' = <[j := b]> (rows_of d_audits w) ∧ rows_of d_audits w !! j = None ∧
      ac_customerId a = Some (uc_customerId dto) ∧ ac_actorId a = Some (uc_updatedById dto) ∧
      au_resourceId b = Some (uc_customerId dto) ∧ au_actorId b = Some (uc_updatedById dto) ∧
      let olds := omap (λ '(column, o, _), (λ v, (column, JStr v)) <$> o) changes in
      let news := map (λ '(column, _, v), (column, JStr v)) changes in
      ac_oldValue a = Some olds ∧ ac_newValue a = Some news ∧
      au_oldValue b = Some olds ∧ au_newValue b = Some news
  end.

(** C29: An update of a customer that returns: it was a customer of the organization; its row
    has every value asked for (a name is stored trimmed, and a missing risk score becomes 0)
    and is otherwise what it was; each log gained one record, with the stored and the new
    value of everything asked for that was not stored already, or none when there was no such
    thing; no other customer changed; and a new agent in charge is staff of the organization. *)
Theorem customer_update_commits dto w k' w' :
  w_inTransaction w = false → updateCustomer dto w = (Ok k', w') →
  ∃ r, customers w !! uc_customerId dto = Some r ∧ cu_tenantId r = uc_tenantId dto ∧
    customers w' = <[uc_customerId dto := asked_row (w_now w) dto r]> (customers w) ∧
    logged_once dto (asked_changes dto r) w w' ∧
    (∀ a, nonempty (uc_assignedAgentId dto) = Some a → cu_assignedAgentId r ≠ Some a →
       staff_of w (uc_tenantId dto) a).
Proof.
  intros Hin H. unfold updateCustomer in H. apply M_bind_ok in H as (k & w1 & E & H).
  apply getCustomerOrThrow_found in E as (-> & r & Hr & Ht & Hk).
  apply M_bind_ok in H as ([] & w1 & E & H). apply assert_agent_ok in E as [-> Hstaff].
  apply transaction_inv in H as (w0 & w1 & H & Hdb & Hnow & Hin0 & Hdb' & _); [|done].
  apply M_bind_ok in H as (u & w2 & E & H).
  apply customer_update_ok in E as (r0 & Hr0 & Hrows & _ & tbl & ->).
  pose proof (customer_toDomain_fields _ _ _ Hk) as (Hid & _ & Hag & _).
  destruct (apply_update_fields dto k) as (Hid' & _). cbv zeta in *.
  rewrite Hid', Hid in *. unfold rows_of in *. rewrite Hdb in Hr0, Hrows. simplify_eq.
  rewrite (update_asked dto _ _ _ _ Hk), Hnow in Hrows.
  exists r. split; [done|]. split; [done|].
  rewrite (changes_asked dto _ _ _ Hk) in H.
  assert (Hlog : logged_once dto (asked_changes dto r) w w' ∧
    rows (d_customers (w_db w')) = rows (d_customers (w_db
      (w0 <| w_db ::= λ d, d <| d_customers := tbl |> |>)))).
  { destruct (asked_changes dto r) as [|[[column o] v] chs] eqn:Ech; cbn [map] in H.
    - unfold mret, M_ret in H. inv_ok. unfold logged_once, rows_of.
      rewrite Hdb'. upd_simpl. by rewrite Hdb.
    - apply M_bind_ok in H as (u1 & w3 & E1 & H). apply M_bind_ok in H as (u2 & w4 & E2 & H).
      unfold mret, M_ret in H. inv_ok.
      apply activity_create_ok in E1 as (i & t1 & Ha1 & Hi & ->).
      apply audit_create_ok in E2 as (j & t2 & Hb1 & Hj & ->); [|by upd_simpl].
      unfold rows_of in *. upd_simpl in Ha1. upd_simpl in Hi. upd_simpl in Hb1. upd_simpl in Hj.
      rewrite Hdb in *. split; [|rewrite Hdb'; by upd_simpl].
      unfold logged_once, rows_of. rewrite Hdb'. upd_simpl.
      eexists i, j, _, _. split_and!; try done;
        first [exact (f_equal Some (recorded_news ((column, o, v) :: chs)))|exact (f_equal Some (recorded_olds ((column, o, v) :: chs)))]. }
  destruct Hlog as [Hlog Hcu]. split_and!; [by rewrite Hcu|exact Hlog|].
  intros a Ha Hne. apply Hstaff.
  - apply new_agent_key. rewrite Hag. split; [done|]. congruence.
  - intros ->. by destruct (uc_assignedAgentId dto) as [[]|].
Qed.

(** ** Deletion *)

Lemma delete_writes {R} (table : Db Tbl → Tbl R) {U : Update table} {G : GetUpdate table} p w n w' :
  delete_many table p w = (Ok n, w') →
  ∃ t, w' = w <| w_db ::= λ d, d <| table := t |> |> ∧
    rows t = filter (λ kr, p kr.1 kr.2 = false) (rows_of table w).
Proof.
  unfold delete_many. pose proof (deleteMany_rows p (table (w_db w))) as Hr.
  destruct (deleteMany _ _) as [k t]. intros H. inv_ok. exists t. split; [done|].
  apply map_eq. intros i. cbn [snd] in Hr. rewrite Hr. unfold rows_of. rewrite map_lookup_filter.
  destruct (rows (table (w_db w)) !! i) as [r|]; [|done]. cbn. by destruct (p i r).
Qed.

Lemma update_writes {R} (table : Db Tbl → Tbl R) {U : Update table} {G : GetUpdate table} q d w n w' :
  update_many table (λ _ r, q r) d w = (Ok n, w') →
  ∃ t, w' = w <| w_db ::= λ db, db <| table := t |> |> ∧
    rows t = (λ r, if q r then d r else r) <$> rows_of table w.
Proof.
  intros H. pose proof (update_many_rows table (λ _ r, q r) d w) as Hr.
  destruct (update_many_run table (λ _ r, q r) d w) as (n' & w1 & E & _ & ->). rewrite E in H, Hr.
  injection H as <- <-. eexists. split; [done|]. apply map_eq. intros i. rewrite lookup_fmap, <-Hr.
  cbn [snd]. unfold rows_of. by upd_simpl.
Qed.

(** The database without the customer [i]: its links go, and what else named it forgets it. *)
Definition without_customer (i : string) (db db' : Db Tbl) : Prop :=
  ∃ c l a ai n v,
    db' = db <| d_customers := c |> <| d_customerLinks := l |> <| d_activities := a |>
             <| d_aiResults := ai |> <| d_notifications := n |> <| d_invitations := v |> ∧
    rows c = delete i (rows (d_customers db)) ∧
    rows l = filter (λ kl, cl_customerId kl.2 ≠ i) (rows (d_customerLinks db)) ∧
    rows a = (λ x, if bool_decide (ac_customerId x = Some i) then x <| ac_customerId := None |> else x)
               <$> rows (d_activities db) ∧
    rows ai = (λ x, if bool_decide (ar_customerId x = Some i) then x <| ar_customerId := None |> else x)
                <$> rows (d_aiResults db) ∧
    rows n = (λ x, if bool_decide (nt_customerId x = Some i) then x <| nt_customerId := None |> else x)
               <$> rows (d_notifications db) ∧
    rows v = (λ x, if bool_decide (iv_customerId x = Some i) then x <| iv_customerId := None |> else x)
               <$> rows (d_invitations db).

Lemma customer_delete_ok i tenantId w w' :
  customer_delete i tenantId w = (Ok tt, w') →
  (∃ r, customers w !! i = Some r ∧ cu_tenantId r = tenantId) →
  (∀ j r, rows_of d_tickets w !! j = Some r → ti_customerId r ≠ i) ∧
  without_customer i (w_db w) (w_db w') ∧ w_inTransaction w' = w_inTransaction w.
Proof.
  unfold customer_delete. rewrite or_infrastructure_ok. intros H (r & Hr & Ht).
  apply M_bind_ok in H as (o & w1 & E & H).
  destruct o as [kr|].
  2:{ apply find_first_none in E as [_ Hno]. specialize (Hno _ _ Hr). cbn in Hno.
      by rewrite !bool_decide_eq_true_2 in Hno. }
  pose proof E as ->%find_first_state.
  apply M_bind_ok in H as (used & w2 & Eu & H). pose proof Eu as ->%find_first_state.
  destruct used as [kr'|]; [by rewrite bool_decide_eq_true_2 in H by eauto|].
  rewrite bool_decide_eq_false_2 in H by (by intros []).
  apply find_first_none in Eu as [_ Hno].
  split. { intros j t Hj. specialize (Hno _ _ Hj). by bool_to_prop. }
  apply M_bind_ok in H as (n1 & w1 & En1 & H). apply delete_writes in En1 as (c & -> & Hc); [|apply _].
  apply M_bind_ok in H as (n2 & w2 & En2 & H). apply delete_writes in En2 as (l & -> & Hl); [|apply _].
  apply M_bind_ok in H as (n3 & w3 & En3 & H). apply update_writes in En3 as (a & -> & Ha); [|apply _].
  apply M_bind_ok in H as (n4 & w4 & En4 & H). apply update_writes in En4 as (ai & -> & Hai); [|apply _].
  apply M_bind_ok in H as (n5 & w5 & En5 & H). apply update_writes in En5 as (n & -> & Hn); [|apply _].
  apply M_bind_ok in H as (n6 & w6 & En6 & H). apply update_writes in En6 as (v & Hw6 & Hv); [|apply _].
  apply (f_equal snd) in H. change (w6 = w') in H. subst w' w6. unfold rows_of in *.
  upd_simpl in Hl. upd_simpl in Ha. upd_simpl in Hai. upd_simpl in Hn. upd_simpl in Hv.
  split; [|by upd_simpl]. exists c, l, a, ai, n, v. rewrite Ha, Hai, Hn, Hv. split_and!; [by upd_simpl| | |done..].
  - rewrite Hc. apply map_eq. intros j. rewrite map_lookup_filter.
    destruct (decide (j = i)) as [->|Hne].
    + rewrite lookup_delete_eq, Hr. cbn. by rewrite !bool_decide_eq_true_2.
    + rewrite lookup_delete_ne by done. destruct (rows _ !! j) as [r'|]; [|done]. cbn.
      by rewrite (bool_decide_eq_false_2 (j = i)).
  - rewrite Hl. apply map_filter_ext. intros j x _. cbn. by rewrite bool_decide_eq_false.
Qed.

(** C38: A customer that is deleted was one of the organization's and had no ticket.  Of the
    database only this changes: the customer is gone, with the links of accounts to it; the
    activities, AI results, notifications and invitations that named it stay, without the
    name; and one audit record says who deleted it. *)
Theorem customer_deletion_safe i tenantId actorId actorRole w w' :
  w_inTransaction w = false → deleteCustomer i tenantId actorId actorRole w = (Ok tt, w') →
  (∃ r, customers w !! i = Some r ∧ cu_tenantId r = tenantId) ∧
  (∀ j r, rows_of d_tickets w !! j = Some r → ti_customerId r ≠ i) ∧
  ∃ db audits, without_customer i (w_db w) db ∧ w_db w' = db <| d_audits := audits |> ∧
    ∃ j entry, rows_of d_audits w !! j = None ∧ rows audits = <[j := entry]> (rows_of d_audits w) ∧
      au_action entry = "DELETE" ∧ au_resource entry = "customers" ∧ au_resourceId entry = Some i ∧
      au_tenantId entry = Some tenantId ∧ au_actorId entry = Some actorId.
Proof.
  intros Hin H. unfold deleteCustomer in H. apply M_bind_ok in H as (k & w1 & E & H).
  apply getCustomerOrThrow_found in E as (-> & r & Hr & Ht & _).
  split; [by eauto|]. apply M_bind_ok in H as (u & w1 & E & H).
  assert (w1 = w) as -> by (eapply reads_only; [exact E|keeps_tac]).
  destruct u; [done|].
  apply transaction_inv in H as (w0 & w1 & H & Hdb & _ & Hin0 & Hdb' & _); [|done].
  apply M_bind_ok in H as ([] & w2 & E2 & H).
  apply customer_delete_ok in E2 as (H1 & H2 & Hin2); [|unfold rows_of in *; rewrite Hdb; eauto].
  apply audit_create_ok in H as (j & t & Hrows & Hj & ->); [|by rewrite Hin2].
  assert (rows_of d_audits w2 = rows_of d_audits w) as Ha.
  { unfold rows_of. destruct H2 as (c & l & a & ai & n & v & -> & _). rewrite <-Hdb. by upd_simpl. }
  unfold rows_of in *. rewrite Hdb in *. split; [exact H1|]. exists (w_db w2), t. split; [exact H2|].
  split; [rewrite Hdb'; by destruct w2|]. upd_simpl in Hrows.
  exists j. eexists. rewrite <-Ha. split; [exact Hj|]. split; [exact Hrows|done].
Qed.
End facts.

(** ** A concrete organization *)

Definition agent_user (status : UserStatus) : UserRow :=
  mkUserRow (Some "t1") "ann@acme.io" None "Ann" "Lee" AGENT status None None "UTC" "en" (Some 0)
    None None 0 None (JObj []) 0 0.

Definition shop (status : UserStatus) : World (gmap string) :=
  world_of 1000 (empty_db
    <| d_users := {["u1" := agent_user status]} |>
    <| d_tenants := {["t1" := mkTenantRecord "Acme" "acme" "ACTIVE" "pro" None None 5 100 10
                                (JObj []) None None 0 0]} |>
    <| d_customers := {["c1" := mkCustomerRow "t1" None "Cy" "cy@mail.io" None None None CActive
                                  (Some 0) None [] None None 0 0]} |>).

Definition put_in_charge : UpdateCustomerDto :=
  mkUpdateCustomer "t1" "c1" "u1" "AGENT" (mkCustomerProfile (Some "Cyd") None None None)
    (Some "u1") None.

Lemma customer_update_commits_witness :
  ∃ k w', updateCustomer put_in_charge (shop UActive) = (Ok k, w') ∧
    ∃ r, rows_of d_customers w' !! "c1" = Some r ∧ cu_fullName r = "Cyd" ∧ cu_assignedAgentId r = Some "u1".
Proof.
  assert (∃ k w', updateCustomer put_in_charge (shop UActive) = (Ok k, w')) as (k & w' & E)
    by (eexists _, _; vm_compute; reflexivity).
  exists k, w'. split; [exact E|].
  destruct (customer_update_commits put_in_charge (shop UActive) k w' eq_refl E)
    as (r & Hr & Ht & Hw & _).
  rewrite Hw. eexists. split; [apply lookup_insert_eq|]. 
  destruct r as [t [a|] fn e p c n s rs rl m x la ca ua]; (split; vm_compute; reflexivity).
Defined.

Lemma customer_deletion_safe_witness :
  ∃ w', deleteCustomer "c1" "t1" "u1" "TENANT_MANAGER" (shop UActive) = (Ok tt, w') ∧
    rows_of d_customers w' !! "c1" = None.
Proof.
  assert (∃ w', deleteCustomer "c1" "t1" "u1" "TENANT_MANAGER" (shop UActive) = (Ok tt, w')) as (w' & E)
    by (eexists; vm_compute; reflexivity).
  exists w'. split; [exact E|].
  destruct (customer_deletion_safe _ _ _ _ (shop UActive) w' eq_refl E)
    as (_ & _ & db & audits & (c & l & a & ai & n & v & -> & Hc & _) & Hw & _).
  unfold rows_of. rewrite Hw. upd_simpl. rewrite Hc. apply lookup_delete_eq.
Defined.

(** The service says the agent in charge must be active staff; the status is not looked at. *)
Lemma inactive_agent_in_charge :
  is_ok (updateCustomer put_in_charge (shop UInactive)).1 = true.
Proof. vm_compute. reflexivity. Qed.
