(* ===== verification/Channels.v ===== *)
(** * Messaging channels of a tenant

    [ChannelIntegrationService] ([src/application/tenant/services]): the WhatsApp number and
    the mail identity of an organization, the signing secret of a channel, its connection
    test, and the switch that lets it carry traffic.  The encryption of secrets and the
    deployment's shared providers are parameters. *)

From Stdlib Require Import Ascii String QArith.
From S2P Require Import Prelude Store Js Errors Domain Schema World Outbox Logs Frames Webhooks.

#[local] Open Scope string_scope.
#[local] Open Scope Z_scope.
#[local] Set Default Proof Using "Type*".

Inductive ChannelProvider := Whatsapp | Email.
#[export] Instance ChannelProvider_eq_dec : EqDecision ChannelProvider.
Proof. solve_decision. Defined.

Definition provider_string (p : ChannelProvider) : string :=
  match p with Whatsapp => "whatsapp" | Email => "email" end.

(** [ChannelConfig]: the fields of the two interfaces; what a provider does not have is
    [undefined]. *)
Record ChannelConfig := mkChannelConfig {
  cf_phoneNumber : option string;
  cf_displayName : option string;
  cf_fromName : option string;
  cf_replyTo : option string;
}.

Record ChannelTestResult := mkTestResult {
  tr_status : string;
  tr_checkedAt : string;
  tr_message : string;
}.

Record ChannelView := mkChannelView {
  cv_provider : string;
  cv_isEnabled : bool;
  cv_config : list (string * Json);
  cv_hasSigningSecret : bool;
  cv_secretRotatedAt : Json;
  cv_lastTest : Json;
  cv_sharedProviderConfigured : bool;
  cv_updatedAt : Z;
}.

(** How the mail server answers [verify()]: it settles, rejects, or does neither in time. *)
Inductive VerifyOutcome := Settles (reachable : bool) | Rejects (message : string) | Hangs.

(** The shared providers of the deployment ([SharedProviderStatus], [IEmailProvider]). *)
Record SharedProviders := mkShared {
  whatsappConfigured : bool;
  smtpHost : option string;
  sharedFrom : option string;
  verify : VerifyOutcome;
}.

(** [createSharedProviderStatus(…).emailConfigured]; a configuration that cannot be read is
    one without a host. *)
Definition emailConfigured (s : SharedProviders) : bool :=
  truthy (smtpHost s) && truthy (sharedFrom s).

Definition withTimeout (promise : VerifyOutcome) : result error bool :=
  match promise with
  | Settles b => Ok b
  | Rejects m => Err (PlainError m)
  | Hangs => Err (PlainError "Connection test timed out")
  end.

Definition readMetadata (r : IntegrationRow) : list (string * Json) :=
  match ig_metadata r with JObj fields => fields | _ => [] end.

(** [metadata.configVersion ?? 0] *)
Definition configVersion (metadata : list (string * Json)) : Q :=
  match get_field "configVersion" metadata with Some (JNum q) => q | _ => 0%Q end.

(** [metadata.testedConfigVersion], when it is there *)
Definition testedConfigVersion (metadata : list (string * Json)) : option Q :=
  match get_field "testedConfigVersion" metadata with Some (JNum q) => Some q | _ => None end.

(** [metadata.lastTest?.status] *)
Definition lastTestStatus (metadata : list (string * Json)) : option string :=
  match get_field "lastTest" metadata with Some (JObj fields) => text "status" fields | _ => None end.

(** The test that [setEnabled] makes. *)
Definition current_tested (metadata : list (string * Json)) : bool :=
  bool_decide (lastTestStatus metadata = Some "SUCCEEDED") &&
  match testedConfigVersion metadata with
  | Some v => Qeq_bool v (configVersion metadata)
  | None => false
  end.

Definition test_json (r : ChannelTestResult) : Json :=
  JObj [("status", jstr (tr_status r)); ("checkedAt", jstr (tr_checkedAt r));
        ("message", jstr (tr_message r))].

(** [/^\+\d{8,15}$/] *)
Definition e164 (s : string) : bool :=
  match s with
  | String c digits =>
      Ascii.eqb c "+" && (8 <=? str_length digits) && (str_length digits <=? 15)
      && str_forall is_digit digits
  | EmptyString => false
  end.

Definition normalizeConfig (provider : ChannelProvider) (config : ChannelConfig)
  : result error (list (string * Json)) :=
  match provider with
  | Whatsapp =>
      let phoneNumber := normalizePhone (default "" (cf_phoneNumber config)) in
      if e164 phoneNumber
      then Ok (("phoneNumber", jstr phoneNumber) :: opt_field "displayName" (cf_displayName config))
      else Err (validation_error "WhatsApp number must be in E.164 format")
  | Email =>
      Ok (opt_field "fromName" (cf_fromName config)
          ++ opt_field "replyTo" (toLowerCase <$> cf_replyTo config))%list
  end.

Definition config_fields (r : IntegrationRow) : list (string * Json) :=
  match ig_config r with JObj fields => fields | _ => [] end.

(** The number that [assertPhoneAvailable] compares, of a row of any organization. *)
Definition phone_of (r : IntegrationRow) : option string :=
  normalizePhone <$> text "phoneNumber" (config_fields r).

Section channels.
Context {Tbl : Type → Type} `{!Prisma Tbl}.
(** [EncryptionService.encrypt], as the text that is stored, and the deployment. *)
Context (encrypt : string → string) (shared : SharedProviders).

Definition is_channel (tenantId : string) (provider : ChannelProvider) (r : IntegrationRow) : bool :=
  bool_decide (ig_tenantId r = tenantId) && bool_decide (ig_provider r = provider_string provider).

Definition find_channel (tenantId : string) (provider : ChannelProvider)
  : W Tbl (option (string * IntegrationRow)) :=
  find_first d_integrations (λ _ r, is_channel tenantId provider r).

Definition find (tenantId : string) (provider : ChannelProvider) : W Tbl (string * IntegrationRow) :=
  integration ← find_channel tenantId provider;
  match integration with
  | Some integration => mret integration
  | None => throw (NotFoundError "Integration" (Some (provider_string provider)))
  end.

Definition assertPhoneAvailable (tenantId phoneNumber : string) : W Tbl unit :=
  others ← find_many d_integrations
    (λ _ r, bool_decide (ig_provider r = "whatsapp") && negb (bool_decide (ig_tenantId r = tenantId)))
    (λ _, 0) None;
  let target := normalizePhone phoneNumber in
  if existsb (λ kr, bool_decide (phone_of kr.2 = Some target)) others
  then throw (ConflictError "This WhatsApp number is used by another organization")
  else mret ().

Definition channel_view (r : IntegrationRow) : ChannelView :=
  let metadata := readMetadata r in
  mkChannelView (ig_provider r) (ig_isEnabled r) (config_fields r) (truthy (ig_webhookSecret r))
    (default JNull (get_field "secretRotatedAt" metadata))
    (default JNull (get_field "lastTest" metadata))
    (if bool_decide (ig_provider r = "whatsapp") then whatsappConfigured shared
     else emailConfigured shared)
    (ig_updatedAt r).

Definition channel_audit (actorId tenantId action resourceId : string) (detail : list (string * Json))
  : W Tbl unit :=
  audit_create (mkAudit (Some tenantId) (Some actorId) None action "integrations" (Some resourceId)
    None (Some detail) None None []).

(** [findMany]; both providers sort by name. *)
Definition list_channels (tenantId : string) : W Tbl (list ChannelView) :=
  integrations ← find_many d_integrations
    (λ _ r, bool_decide (ig_tenantId r = tenantId) && includes ["whatsapp"; "email"] (ig_provider r))
    (λ kr, if bool_decide (ig_provider kr.2 = "email") then 0 else 1) None;
  mret (map (λ kr, channel_view kr.2) integrations).

Definition get (tenantId : string) (provider : ChannelProvider) : W Tbl ChannelView :=
  '(_, r) ← find tenantId provider; mret (channel_view r).

(** [upsert] on the unique pair (organization, provider). *)
Definition upsert_channel (tenantId : string) (provider : ChannelProvider) (config metadata : Json)
  : W Tbl (string * IntegrationRow) :=
  i ← draw;
  now ← get_now;
  existing ← find_channel tenantId provider;
  match existing with
  | Some (j, _) =>
      r ← update_one d_integrations j (λ r, r <| ig_isEnabled := false |> <| ig_config := config |>
        <| ig_metadata := metadata |> <| ig_updatedAt := now |>);
      mret (j, r)
  | None =>
      let r := mkIntegrationRow tenantId (provider_string provider) false config None None None
                 metadata now now in
      _ ← create_row d_integrations (λ _ r, is_channel tenantId provider r)
            (λ db, refers (d_tenants db) (Some tenantId)) i r;
      mret (i, r)
  end.

Definition configure (actorId tenantId : string) (provider : ChannelProvider) (config : ChannelConfig)
  : W Tbl ChannelView :=
  normalized ← lift (normalizeConfig provider config);
  _ ← match provider with
      | Whatsapp => assertPhoneAvailable tenantId (default "" (text "phoneNumber" normalized))
      | Email => mret ()
      end;
  existing ← find_channel tenantId provider;
  let metadata := match existing with Some (_, r) => readMetadata r | None => [] end in
  let nextMetadata := set_field "configVersion" (JNum (configVersion metadata + 1)) metadata in
  '(i, integration) ← upsert_channel tenantId provider (JObj normalized) (JObj nextMetadata);
  _ ← channel_audit actorId tenantId (if existing then "UPDATE" else "CREATE") i
        [("provider", jstr (provider_string provider)); ("config", JObj normalized)];
  mret (channel_view integration).

Definition rotateSecret (actorId tenantId : string) (provider : ChannelProvider)
  : W Tbl (string * string) :=
  '(i, integration) ← find tenantId provider;
  secret ← draw;
  now ← get_now;
  let rotatedAt := toISOString now in
  _ ← update_one d_integrations i (λ r, r <| ig_webhookSecret := Some (encrypt secret) |>
        <| ig_metadata := JObj (set_field "secretRotatedAt" (jstr rotatedAt) (readMetadata integration)) |>
        <| ig_updatedAt := now |>);
  _ ← channel_audit actorId tenantId "UPDATE" i
        [("provider", jstr (provider_string provider)); ("secretRotated", JBool true)];
  mret (secret, rotatedAt).

Definition runTest (integration : IntegrationRow) : W Tbl string :=
  if bool_decide (ig_provider integration = "whatsapp") then
    if negb (whatsappConfigured shared)
    then throw (PlainError "Shared WhatsApp provider credentials are not configured")
    else
      let phoneNumber := default "" (text "phoneNumber" (config_fields integration)) in
      if negb (e164 phoneNumber) then throw (PlainError "WhatsApp number must be in E.164 format")
      else
        _ ← assertPhoneAvailable (ig_tenantId integration) phoneNumber;
        mret "Shared WhatsApp provider is configured and the number is routable"
  else
    if negb (emailConfigured shared) then throw (PlainError "Shared email provider is not configured")
    else
      reachable ← lift (withTimeout (verify shared));
      if reachable : bool then mret "Email provider accepted the connection"
      else throw (PlainError "Email provider rejected the connection").

(** [test] up to the answer of the provider, which takes up to five seconds. *)
Definition test_check (tenantId : string) (provider : ChannelProvider)
  : W Tbl (string * IntegrationRow * ChannelTestResult) :=
  '(i, integration) ← find tenantId provider;
  result ← try_catch
    (message ← runTest integration;
     now ← get_now; mret (mkTestResult "SUCCEEDED" (toISOString now) message))
    (λ error, now ← get_now; mret (mkTestResult "FAILED" (toISOString now) (Errors.message error)));
  mret (i, integration, result).

(** The rest of [test]: the result is written into the metadata read before the check. *)
Definition tested_metadata (metadata : list (string * Json)) (result : ChannelTestResult)
  : list (string * Json) :=
  let metadata' := set_field "lastTest" (test_json result) metadata in
  if bool_decide (tr_status result = "SUCCEEDED")
  then set_field "testedConfigVersion" (JNum (configVersion metadata)) metadata'
  else metadata'.

Definition test_write (actorId tenantId : string) (provider : ChannelProvider)
    (checked : string * IntegrationRow * ChannelTestResult) : W Tbl ChannelTestResult :=
  let '(i, integration, result) := checked in
  now ← get_now;
  _ ← update_one d_integrations i (λ r, r <| ig_lastSyncAt := Some now |>
        <| ig_metadata := JObj (tested_metadata (readMetadata integration) result) |>
        <| ig_updatedAt := now |>);
  _ ← channel_audit actorId tenantId "UPDATE" i
        [("provider", jstr (provider_string provider)); ("connectionTest", jstr (tr_status result))];
  mret result.

Definition test (actorId tenantId : string) (provider : ChannelProvider) : W Tbl ChannelTestResult :=
  checked ← test_check tenantId provider;
  test_write actorId tenantId provider checked.

Definition setEnabled (actorId tenantId : string) (provider : ChannelProvider) (enabled : bool)
  : W Tbl ChannelView :=
  '(i, integration) ← find tenantId provider;
  _ ← (if enabled then
         if negb (current_tested (readMetadata integration))
         then throw (ConflictError "Run a successful connection test of the current configuration first")
         else
           match provider with
           | Whatsapp =>
               match text "phoneNumber" (config_fields integration) with
               | Some phoneNumber => assertPhoneAvailable tenantId phoneNumber
               | None => throw (PlainError "TypeError")
               end
           | Email => mret ()
           end
       else mret ());
  now ← get_now;
  updated ← update_one d_integrations i
              (λ r, r <| ig_isEnabled := enabled |> <| ig_updatedAt := now |>);
  _ ← channel_audit actorId tenantId "UPDATE" i
        [("provider", jstr (provider_string provider)); ("isEnabled", JBool enabled)];
  mret (channel_view updated).

(** [delete]: P2025 when the row is gone. *)
Definition remove (actorId tenantId : string) (provider : ChannelProvider) : W Tbl unit :=
  '(i, _) ← find tenantId provider;
  n ← delete_many d_integrations (λ j _, bool_decide (j = i));
  _ ← (if n =? 0 then throw (PrismaError "P2025" "Record to delete does not exist.") else mret ());
  channel_audit actorId tenantId "DELETE" i [("provider", jstr (provider_string provider))].

(** A quote, a backslash, a line break or an angle bracket. *)
Definition unsafe_in_name (c : ascii) : bool :=
  (code c =? 34) || (code c =? 92) || (code c =? 13) || (code c =? 10)
  || Ascii.eqb c "<" || Ascii.eqb c ">".

Definition sender_name (fromName : string) : string :=
  trim (str_flat_map (λ c, if unsafe_in_name c then "" else String c "") fromName).

Definition resolveEmailIdentity (tenantId : string)
  : W Tbl (option (option string * option string)) :=
  integration ← find_channel tenantId Email;
  match integration with
  | Some (_, r) =>
      if ig_isEnabled r then
        match text "fromName" (config_fields r) with
        | Some fromName =>
            let name := sender_name fromName in
            let quote := String (of_code 34) "" in
            mret (Some (if str_truthy name
                        then Some (quote ++ name ++ quote ++ " <" ++ default "undefined" (sharedFrom shared) ++ ">")
                        else None, text "replyTo" (config_fields r)))
        | None => throw (PlainError "TypeError")
        end
      else mret None
  | None => mret None
  end.

(** [listAll]; [order] stands for the database's order of tenant and provider. *)
Definition listAll (order : string * IntegrationRow → Z) (tenantId provider : option string)
  : W Tbl (list (string * string * ChannelView)) :=
  let same (o : option string) (s : string) := negb (truthy o) || bool_decide (o = Some s) in
  integrations ← find_many d_integrations
    (λ _ r, same tenantId (ig_tenantId r) && same provider (ig_provider r)) order (Some 500%nat);
  mret (map (λ '(i, r), (i, ig_tenantId r, channel_view r)) integrations).
End channels.
