(* ===== verification/ChannelFacts.v ===== *)
(** * What carries traffic

    The life of the channel table under the operations of [ChannelIntegrationService], in
    any order: an enabled channel passed a connection test of the configuration it has, and a
    WhatsApp number belongs to one organization, so that inbound messages have one owner.  A
    configuration that is written while a test waits for its answer escapes the first. *)

From Stdlib Require Import Ascii String QArith Lqa.
From S2P Require Import Prelude Store Js Errors Domain Schema World Outbox Logs Frames Webhooks.
From S2P Require Import Tenant User Json Channels.

#[local] Open Scope string_scope.
#[local] Open Scope Z_scope.
#[local] Set Default Proof Using "Type*".

#[local] Notation channels w := (rows_of d_integrations w).

(** A step before the rest: it fails and so does the whole, or it returns. *)
Lemma bind_cases {S E A B} (m : M S E A) (k : A → M S E B) s res s' :
  (m ≫= k) s = (res, s') →
  (∃ e, m s = (Err e, s') ∧ res = Err e) ∨ ∃ a s1, m s = (Ok a, s1) ∧ k a s1 = (res, s').
Proof. unfold mbind, M_bind. destruct (m s) as [[a|e] s1]; naive_solver. Qed.

Section facts.
Context {Tbl : Type → Type} `{!Prisma Tbl}.
Implicit Types (w : World Tbl) (r : IntegrationRow) (m : gmap string IntegrationRow).

(** ** The invariant *)

(** What [metadata] says is no more than what was [tested] (a row and its configuration). *)
Record row_ok (tested : list (string * Json)) (i : string) r : Prop := {
  ro_keys : NoDup (readMetadata r).*1;
  ro_version : ∀ v, testedConfigVersion (readMetadata r) = Some v →
    (v <= configVersion (readMetadata r))%Q;
  ro_tested : ∀ v, testedConfigVersion (readMetadata r) = Some v →
    (v == configVersion (readMetadata r))%Q → (i, ig_config r) ∈ tested;
  ro_enabled : ig_isEnabled r = true → ∃ v,
    testedConfigVersion (readMetadata r) = Some v ∧ (v == configVersion (readMetadata r))%Q;
}.

Definition number_of r : option string :=
  if bool_decide (ig_provider r = "whatsapp") then phone_of r else None.

(** A number has one organization, and an organization one channel per provider. *)
Definition owners_ok m : Prop :=
  (∀ i j r r' n, m !! i = Some r → m !! j = Some r' → number_of r = Some n →
     number_of r' = Some n → ig_tenantId r = ig_tenantId r') ∧
  (∀ i j r r', m !! i = Some r → m !! j = Some r' → ig_tenantId r = ig_tenantId r' →
     ig_provider r = ig_provider r' → i = j).

Definition channels_ok (tested : list (string * Json)) m : Prop :=
  (∀ i r, m !! i = Some r → row_ok tested i r) ∧ owners_ok m.

(** A change of one row, or a new one. *)
Lemma channels_ok_insert tested tested' m i r :
  channels_ok tested m → (∀ x, x ∈ tested → x ∈ tested') → row_ok tested' i r →
  (∀ j r', m !! j = Some r' → ig_tenantId r' = ig_tenantId r → ig_provider r' = ig_provider r → j = i) →
  (∀ n j r', number_of r = Some n → m !! j = Some r' → number_of r' = Some n →
     ig_tenantId r' = ig_tenantId r) →
  channels_ok tested' (<[i := r]> m).
Proof.
  intros [Hrow [Hnum Huniq]] Hsub Hr Hkey Hown. split; [|split].
  - intros j r' [[<- <-]|[Hne Hj]]%lookup_insert_Some; [done|].
    destruct (Hrow _ _ Hj) as [A1 A2 A3 A4]. split; eauto.
  - intros j k x y n [[<- <-]|[? Hj]]%lookup_insert_Some [[<- <-]|[? Hk]]%lookup_insert_Some Hx Hy;
      eauto using eq_sym.
  - intros j k x y [[<- <-]|[? Hj]]%lookup_insert_Some [[<- <-]|[? Hk]]%lookup_insert_Some Ht Hp;
      eauto using eq_sym.
Qed.

(** A change that keeps who the row belongs to, and its number. *)
Lemma channels_ok_update tested tested' m i r r' :
  channels_ok tested m → m !! i = Some r → (∀ x, x ∈ tested → x ∈ tested') → row_ok tested' i r' →
  ig_tenantId r' = ig_tenantId r → ig_provider r' = ig_provider r → ig_config r' = ig_config r →
  channels_ok tested' (<[i := r']> m).
Proof.
  intros Hok Hi Hsub Hr Ht Hp Hc. pose proof Hok as [Hrow [Hnum Huniq]].
  apply (channels_ok_insert tested); [done..| |].
  - intros j x Hj Htj Hpj. eapply Huniq; eauto; congruence.
  - intros n j x Hn Hj Hx. rewrite Ht. eapply Hnum; [exact Hj|exact Hi|exact Hx|].
    revert Hn. unfold number_of, phone_of, config_fields. by rewrite Hp, Hc.
Qed.

Lemma channels_ok_delete tested m m' :
  channels_ok tested m → (∀ i r, m' !! i = Some r → m !! i = Some r) → channels_ok tested m'.
Proof. intros [Hrow [Hnum Huniq]] Hsub. split; [|split]; eauto. Qed.

(** ** The operations *)

Lemma find_channel_cases t p w res w' :
  find_channel t p w = (res, w') →
  w' = w ∧ match res with
           | Ok (Some (i, r)) => channels w !! i = Some r ∧ ig_tenantId r = t ∧ ig_provider r = provider_string p
           | Ok None => ∀ i r, channels w !! i = Some r → is_channel t p r = false
           | Err _ => False
           end.
Proof.
  unfold find_channel. intros H. destruct res as [[[i r]|]|e].
  - apply find_first_some in H as (-> & Hi & Hp). unfold is_channel in Hp. by bool_to_prop.
  - by apply find_first_none in H.
  - unfold find_first, find_many, gets, mbind, M_bind, mret, M_ret in H. done.
Qed.

Lemma find_cases t p w res w' :
  find t p w = (res, w') →
  w' = w ∧ ∀ i r, res = Ok (i, r) →
    channels w !! i = Some r ∧ ig_tenantId r = t ∧ ig_provider r = provider_string p.
Proof.
  unfold find. intros [(e & E & ->)|(o & w1 & E & H)]%bind_cases;
    apply find_channel_cases in E as [-> E]; [done|].
  destruct o as [[i r]|]; unfold mret, M_ret, throw in H; inv_ok; naive_solver.
Qed.

Lemma assertPhoneAvailable_cases t n w res w' :
  assertPhoneAvailable t n w = (res, w') →
  w' = w ∧ (res = Ok tt → ∀ j r, channels w !! j = Some r → ig_tenantId r ≠ t →
              number_of r ≠ Some (normalizePhone n)).
Proof.
  unfold assertPhoneAvailable, find_many, gets, mbind, M_bind, throw, mret, M_ret.
  destruct (existsb _ _) eqn:E; intros H; inv_ok; [done|]. split; [done|]. intros _ j r Hj Ht Hn.
  unfold number_of in Hn. case_bool_decide as Hp; [|done].
  apply not_true_iff_false in E. apply E. apply existsb_exists. exists (j, r).
  split; [|by apply bool_decide_eq_true].
  apply list_elem_of_In, findMany_all. split; [exact Hj|]. cbn.
  rewrite (bool_decide_eq_true_2 _ Hp), (bool_decide_eq_false_2 _ Ht). done.
Qed.

Lemma update_one_cases {R} (table : Db Tbl → Tbl R) {U : Update table} {G : GetUpdate table}
    i d w res w' :
  update_one table i d w = (res, w') →
  w' = w ∨ ∃ r : R, rows_of table w !! i = Some r ∧ res = Ok (d r) ∧ rows_of table w' = <[i := d r]> (rows_of table w).
Proof.
  intros H. destruct res as [r'|e].
  - right. apply update_one_ok in H as (r & Hr & -> & Hw & _); [|done]. by exists r.
  - left. by eapply clean_update_one.
Qed.

(** One row is written, and what follows leaves the channels alone. *)
Lemma write_then_log {A} i d (k : IntegrationRow → W Tbl A) w res w' (P : gmap string IntegrationRow → Prop) :
  (update_one d_integrations i d ≫= k) w = (res, w') →
  (∀ r, Keeps (λ w, d_integrations (w_db w)) (k r)) →
  P (channels w) → (∀ r, channels w !! i = Some r → P (<[i := d r]> (channels w))) → P (channels w').
Proof.
  intros H Hk H0 H1. apply bind_cases in H as [(e & E & ->)|(r & w1 & E & H)].
  - by destruct (update_one_cases _ _ _ _ _ _ E) as [->|(r & _ & [=] & _)].
  - apply (keeps_run _ _ _ _ _ H) in Hk as Hc.
    assert (channels w' = channels w1) as -> by (unfold rows_of; by rewrite Hc).
    destruct (update_one_cases _ _ _ _ _ _ E) as [->|(r0 & Hr & _ & ->)]; [done|by apply H1].
Qed.

Lemma version_lt_next (v q : Q) : (v <= q)%Q → ¬ (v == q + 1)%Q.
Proof. intros H1 H2. lra. Qed.

(** The metadata that [configure] writes: what was tested is no longer what is configured. *)
Lemma next_version_ok tested i r r' :
  row_ok tested i r → ig_isEnabled r' = false →
  readMetadata r' = set_field "configVersion" (JNum (configVersion (readMetadata r) + 1)) (readMetadata r) →
  row_ok tested i r'.
Proof.
  intros [A1 A2 A3 A4] He Hm.
  assert (configVersion (readMetadata r') = (configVersion (readMetadata r) + 1)%Q) as Hv.
  { rewrite Hm. unfold configVersion at 1. by rewrite get_set_field. }
  assert (testedConfigVersion (readMetadata r') = testedConfigVersion (readMetadata r)) as Ht.
  { rewrite Hm. unfold testedConfigVersion. by rewrite get_set_other. }
  split; rewrite ?Hv, ?Ht.
  - rewrite Hm. by apply set_field_NoDup.
  - intros v Hvt. specialize (A2 _ Hvt). lra.
  - intros v Hvt Heq. by apply A2, version_lt_next in Hvt.
  - congruence.
Qed.

(** Nobody else has the number that is written. *)
Lemma number_free cfg' t p w w1 :
  match p with
  | Whatsapp => assertPhoneAvailable (Tbl:=Tbl) t (default "" (text "phoneNumber" cfg'))
  | Email => mret ()
  end w = (Ok tt, w1) →
  w1 = w ∧ (∀ r j r' n, ig_config r = JObj cfg' → ig_provider r = provider_string p →
     channels w !! j = Some r' → number_of r = Some n → number_of r' = Some n → ig_tenantId r' = t).
Proof.
  destruct p; intros H.
  - apply assertPhoneAvailable_cases in H as [-> H]. split; [done|].
    intros r j r' n Hc Hp Hj Hn Hn'. destruct (decide (ig_tenantId r' = t)) as [|Hne]; [done|].
    destruct (H eq_refl _ _ Hj Hne). rewrite Hn', <-Hn. unfold number_of, phone_of, config_fields.
    rewrite Hc, Hp in *. cbn. unfold number_of, phone_of, config_fields in Hn. rewrite Hc, Hp in Hn. cbn in Hn.
    by destruct (text "phoneNumber" cfg').
  - unfold mret, M_ret in H. inv_ok. split; [done|]. intros r j r' n _ Hp _ Hn.
    unfold number_of in Hn. by rewrite Hp in Hn.
Qed.

(** A disabled channel of [t] was written, over the one it had or as a new row. *)
Definition upserted t p (c md : Json) m m' : Prop :=
  ∃ i r, m' = <[i := r]> m ∧
    ig_tenantId r = t ∧ ig_provider r = provider_string p ∧ ig_isEnabled r = false ∧
    ig_config r = c ∧ ig_metadata r = md ∧
    match m !! i with
    | Some r0 => is_channel t p r0 = true
    | None => ∀ j r0, m !! j = Some r0 → is_channel t p r0 = false
    end.

Lemma upsert_channel_cases t p c md w res w' :
  upsert_channel t p c md w = (res, w') →
  channels w' = channels w ∨ upserted t p c md (channels w) (channels w').
Proof.
  unfold upsert_channel. intros [(e & E & ->)|(i & w0 & E & H)]%bind_cases; [done|].
  assert (channels w0 = channels w) as Hw by (apply (keeps_run (rows_of d_integrations) _ _ _ _ E); keeps_tac).
  clear E. apply bind_cases in H as [(e & E & ->)|(now & w1 & E & H)]; unfold get_now, gets in E; [done|].
  injection E as E <-.
  apply bind_cases in H as [(e & E1 & ->)|(o & w1 & E1 & H)]; apply find_channel_cases in E1 as [-> E1]; [done|].
  rewrite Hw in E1. destruct o as [[j r0]|].
  - destruct E1 as (Hj & Ht & Hp).
    refine (write_then_log j _ _ _ _ _ (λ m, m = channels w ∨ upserted t p c md (channels w) m) H _ _ _);
      [intros r; keeps_tac|by left|].
    rewrite Hw, Hj. intros r [= <-]. right. eexists j, _. split; [reflexivity|]. rewrite Hj.
    destruct r0 as [t0 p0 e0 c0 u0 s0 l0 m0 x0 y0]. cbn in *. split_and!; try done. unfold is_channel. cbn.
    by rewrite !bool_decide_eq_true_2.
  - apply bind_cases in H as [(e & E2 & ->)|([] & w1 & E2 & H)].
    { apply create_row_err in E2 as ->. by left. }
    unfold mret, M_ret in H. inv_ok. apply (create_row_ok d_integrations) in E2 as (Hi & _ & Hr & _).
    rewrite Hw in *. right. eexists i, _. split; [exact Hr|]. rewrite Hi. by split_and!.
Qed.

Lemma configure_ok shared a t p cfg w tested :
  channels_ok tested (channels w) → channels_ok tested (channels (configure shared a t p cfg w).2).
Proof.
  intros Hok. destruct (configure _ _ _ _ _ _) as [res w'] eqn:H. cbn [snd].
  unfold configure in H. apply bind_cases in H as [(e & E & ->)|(cfg' & w1 & E & H)];
    unfold lift in E; injection E as E <-; [done|].
  apply bind_cases in H as [(e & E2 & ->)|([] & w1 & E2 & H)].
  { destruct p; [by apply assertPhoneAvailable_cases in E2 as [-> _]|unfold mret, M_ret in E2; by inv_ok]. }
  apply number_free in E2 as [-> Hfree].
  apply bind_cases in H as [(e & E3 & ->)|(o & w1 & E3 & H)]; [by apply find_channel_cases in E3 as [-> _]|].
  pose proof E3 as [-> Ho]%find_channel_cases.
  set (md := match o with Some (_, r) => readMetadata r | None => [] end) in *.
  set (next := set_field "configVersion" (JNum (configVersion md + 1)) md) in *.
  assert (∃ res1 w1, upsert_channel t p (JObj cfg') (JObj next) w = (res1, w1) ∧ channels w' = channels w1)
    as (res1 & w1 & Eu & ->).
  { apply bind_cases in H as [(e & Eu & ->)|([i r] & w1 & Eu & H)]; [by eauto|].
    eexists _, w1. split; [exact Eu|].
    apply (keeps_run (rows_of d_integrations) _ _ _ _ H). keeps_tac. }
  apply upsert_channel_cases in Eu as [->|(i & r & -> & Ht & Hp & He & Hc & Hm & Hi)]; [done|].
  pose proof Hok as [Hrow [_ Huniq]].
  apply (channels_ok_insert tested); [done..| | |].
  - destruct (channels w !! i) as [r0|] eqn:Hr0.
    + assert (o = Some (i, r0)) as ->.
      { destruct o as [[j r1]|]; [|by rewrite (Ho _ _ Hr0) in Hi]. destruct Ho as (Hj & Htj & Hpj).
        unfold is_channel in Hi. bool_to_prop.
        assert (j = i) as -> by (eapply Huniq; eauto; congruence). by simplify_eq. }
      eapply next_version_ok; [by apply Hrow|done|]. unfold readMetadata at 1. by rewrite Hm.
    + assert (o = None) as ->.
      { destruct o as [[j r1]|]; [|done]. destruct Ho as (Hj & Htj & Hpj).
        specialize (Hi _ _ Hj). unfold is_channel in Hi. by rewrite !bool_decide_eq_true_2 in Hi. }
      split; unfold readMetadata; rewrite Hm; cbn; try done; [|congruence]. apply NoDup_singleton.
  - intros j r' Hj Htj Hpj. destruct (channels w !! i) as [r0|] eqn:Hr0.
    + unfold is_channel in Hi. bool_to_prop. eapply Huniq; eauto; congruence.
    + specialize (Hi _ _ Hj). unfold is_channel in Hi. by rewrite !bool_decide_eq_true_2 in Hi by congruence.
  - intros n j r' Hn Hj Hn'. rewrite Ht. by eapply Hfree.
Qed.
(** Other entries of the metadata may be written. *)
Lemma metadata_ok tested i r r' key v :
  row_ok tested i r → key ≠ "configVersion" → key ≠ "testedConfigVersion" →
  readMetadata r' = set_field key v (readMetadata r) → ig_config r' = ig_config r →
  ig_isEnabled r' = ig_isEnabled r → row_ok tested i r'.
Proof.
  intros [A1 A2 A3 A4] H1 H2 Hm Hc He.
  assert (configVersion (readMetadata r') = configVersion (readMetadata r) ∧
    testedConfigVersion (readMetadata r') = testedConfigVersion (readMetadata r)) as (Hv & Ht).
  { rewrite Hm. unfold configVersion, testedConfigVersion. by rewrite !get_set_other. }
  split; rewrite ?Hv, ?Ht, ?Hc, ?He; [|done..].
  rewrite Hm. by apply set_field_NoDup.
Qed.

Lemma rotateSecret_ok (encrypt : string → string) a t p w tested :
  channels_ok tested (channels w) → channels_ok tested (channels (rotateSecret encrypt a t p w).2).
Proof.
  intros Hok. destruct (rotateSecret _ _ _ _ _) as [res w'] eqn:H. cbn [snd]. unfold rotateSecret in H.
  apply bind_cases in H as [(e & E & ->)|([i r] & w1 & E & H)]; apply find_cases in E as [-> E]; [done|].
  destruct (E _ _ eq_refl) as (Hi & Ht & Hp). clear E.
  apply bind_cases in H as [(e & E & ->)|(secret & w1 & E & H)]; [done|].
  assert (channels w1 = channels w) as Hw by (apply (keeps_run (rows_of d_integrations) _ _ _ _ E); keeps_tac).
  rewrite <-Hw in *. clear E Hw.
  apply bind_cases in H as [(e & E & ->)|(now & w2 & E & H)]; unfold get_now, gets in E; [done|].
  injection E as _ <-. cbv zeta in H.
  refine (write_then_log i _ _ _ _ _ (channels_ok tested) H _ Hok _); [intros x; keeps_tac|].
  rewrite Hi. intros x [= <-]. eapply channels_ok_update; [done..| | | |]; [|by destruct r..].
  eapply (metadata_ok _ _ r _ "secretRotatedAt"); [by apply Hok| | | | |]; by destruct r.
Qed.

Lemma setEnabled_ok shared a t p enabled w tested :
  channels_ok tested (channels w) → channels_ok tested (channels (setEnabled shared a t p enabled w).2).
Proof.
  intros Hok. destruct (setEnabled _ _ _ _ _ _) as [res w'] eqn:H. cbn [snd]. unfold setEnabled in H.
  apply bind_cases in H as [(e & E & ->)|([i r] & w1 & E & H)]; apply find_cases in E as [-> E]; [done|].
  destruct (E _ _ eq_refl) as (Hi & Ht & Hp). clear E.
  apply bind_cases in H as [(e & E & ->)|([] & w1 & E & H)].
  { assert (w' = w) as ->; [|done]. apply (reads_only _ _ _ _ E). keeps_tac. }
  assert (w1 = w) as -> by (apply (reads_only _ _ _ _ E); keeps_tac).
  assert (enabled = true → ∃ v, testedConfigVersion (readMetadata r) = Some v ∧
    (v == configVersion (readMetadata r))%Q) as Hct.
  { intros ->. destruct (current_tested _) eqn:Hct; [|done]. unfold current_tested in Hct. bool_to_prop.
    destruct (testedConfigVersion _) as [v|]; [|done]. exists v. split; [done|]. by apply Qeq_bool_iff. }
  clear E. apply bind_cases in H as [(e & E & ->)|(now & w2 & E & H)]; unfold get_now, gets in E; [done|].
  injection E as _ <-.
  refine (write_then_log i _ _ _ _ _ (channels_ok tested) H _ Hok _); [intros x; keeps_tac|].
  rewrite Hi. intros x [= <-]. eapply channels_ok_update; [done..| | | |]; [|by destruct r..].
  destruct Hok as [Hrow _]. destruct (Hrow _ _ Hi) as [A1 A2 A3 A4]. destruct r; by split.
Qed.

Lemma remove_ok a t p w tested :
  channels_ok tested (channels w) → channels_ok tested (channels (remove a t p w).2).
Proof.
  intros Hok. destruct (remove _ _ _ _) as [res w'] eqn:H. cbn [snd]. unfold remove in H.
  apply bind_cases in H as [(e & E & ->)|([i r] & w1 & E & H)]; apply find_cases in E as [-> E]; [done|].
  apply bind_cases in H as [(e & E2 & ->)|(n & w1 & E2 & H)].
  { unfold delete_many in E2. by destruct (deleteMany _ _). }
  assert (channels w' = channels w1) as -> by (apply (keeps_run (rows_of d_integrations) _ _ _ _ H); keeps_tac).
  eapply channels_ok_delete; [done|]. intros j x. rewrite (delete_many_ok d_integrations _ _ _ _ E2).
  destruct (channels w !! j); simpl; [|done]. by case_bool_decide.
Qed.

(** ** The connection test *)

(** The row and configuration that a test finds good. *)
Definition passed shared t p w : list (string * Json) :=
  match find t p w with
  | (Ok (i, r), _) => if is_ok (runTest shared r w).1 then [(i, ig_config r)] else []
  | _ => []
  end.

Lemma runTest_keeps shared r : Keeps (λ w : World Tbl, w) (runTest shared r).
Proof. keeps_tac. Qed.

Lemma test_check_cases shared t p w res w' :
  test_check shared t p w = (res, w') →
  w' = w ∧ ∀ i r result, res = Ok (i, r, result) →
    channels w !! i = Some r ∧ ig_tenantId r = t ∧ ig_provider r = provider_string p ∧
    (tr_status result = "SUCCEEDED" → passed shared t p w = [(i, ig_config r)]).
Proof.
  unfold test_check. intros H.
  apply bind_cases in H as [(e & E & ->)|([i r] & w1 & E & H)]; pose proof E as [-> F]%find_cases; [done|].
  destruct (F _ _ eq_refl) as (Hi & Ht & Hp). clear F.
  unfold try_catch, mbind, M_bind, mret, M_ret, get_now, gets in H.
  destruct (runTest shared r w) as [[m|e] w2] eqn:Er;
    pose proof (reads_only _ _ _ _ Er (runTest_keeps _ _)) as ->; cbn in H; inv_ok;
    (split; [done|]); intros i' r' result [= <- <- <-]; split_and!; try done.
  intros _. unfold passed. by rewrite E, Er.
Qed.

Lemma tested_metadata_ok tested i r r' result :
  row_ok tested i r → readMetadata r' = tested_metadata (readMetadata r) result →
  ig_config r' = ig_config r → ig_isEnabled r' = ig_isEnabled r →
  row_ok ((if bool_decide (tr_status result = "SUCCEEDED") then [(i, ig_config r)] else []) ++ tested)%list i r'.
Proof.
  intros Hr Hm Hc He. unfold tested_metadata in Hm.
  set (l := set_field "lastTest" (test_json result) (readMetadata r)) in *.
  assert (row_ok tested i (r <| ig_metadata := JObj l |>)) as [A1 A2 A3 A4]
    by (eapply (metadata_ok _ _ r _ "lastTest"); [done..| | |]; by destruct r).
  assert (readMetadata (r <| ig_metadata := JObj l |>) = l ∧
    ig_config (r <| ig_metadata := JObj l |>) = ig_config r ∧
    ig_isEnabled (r <| ig_metadata := JObj l |>) = ig_isEnabled r) as (E1 & E2 & E3) by by destruct r.
  rewrite E1, ?E2, ?E3 in *. case_bool_decide as Hs.
  - assert (configVersion (readMetadata r') = configVersion (readMetadata r)) as Hv.
    { rewrite Hm. unfold l, configVersion. by rewrite !get_set_other. }
    assert (testedConfigVersion (readMetadata r') = Some (configVersion (readMetadata r))) as Ht.
    { rewrite Hm. unfold testedConfigVersion at 1. by rewrite get_set_field. }
    split; rewrite ?Hv, ?Ht, ?Hc, ?He.
    + rewrite Hm. by apply set_field_NoDup.
    + intros v [= <-]. lra.
    + intros v _ _. by left.
    + intros _. eexists. split; [done|]. lra.
  - rewrite <-Hm in *. split; rewrite ?Hc, ?He; done.
Qed.

Lemma channels_ok_grow tested tested' m :
  channels_ok tested m → (∀ x, x ∈ tested → x ∈ tested') → channels_ok tested' m.
Proof. intros [Hrow Hown] Hsub. split; [|done]. intros i r Hi. destruct (Hrow _ _ Hi). split; eauto. Qed.

Lemma test_ok shared a t p w tested :
  channels_ok tested (channels w) →
  channels_ok (passed shared t p w ++ tested)%list (channels (test shared a t p w).2).
Proof.
  intros Hok. destruct (test _ _ _ _ _) as [res w'] eqn:H. cbn [snd]. unfold test in H.
  assert (channels_ok (passed shared t p w ++ tested)%list (channels w)) as Hok'
    by (eapply channels_ok_grow; [done|]; intros x Hx; apply elem_of_app; by right).
  apply bind_cases in H as [(e & E & ->)|([[i r] result] & w1 & E & H)]; apply test_check_cases in E as [-> E]; [done|].
  destruct (E _ _ _ eq_refl) as (Hi & Ht & Hp & Hpass). clear E. unfold test_write in H.
  apply bind_cases in H as [(e & E & ->)|(now & w2 & E & H)]; unfold get_now, gets in E; [done|].
  injection E as _ <-.
  refine (write_then_log i _ _ _ _ _ (channels_ok _) H _ Hok' _); [intros x; keeps_tac|].
  rewrite Hi. intros x [= <-].
  eapply (channels_ok_update tested); [done|done|..]; [| |by destruct r..].
  - intros x Hx. apply elem_of_app. by right.
  - assert (row_ok ((if bool_decide (tr_status result = "SUCCEEDED") then [(i, ig_config r)] else []) ++ tested)%list i
      (r <| ig_lastSyncAt := Some now |> <| ig_metadata := JObj (tested_metadata (readMetadata r) result) |>
         <| ig_updatedAt := now |>)) as [A1 A2 A3 A4].
    { destruct Hok as [Hrow _]. apply tested_metadata_ok; [by apply Hrow|by destruct r..]. }
    split; [done..| |done]. intros v Hv Hq. specialize (A3 v Hv Hq).
    apply elem_of_app in A3 as [A3|A3]; apply elem_of_app; [left|by right].
    case_bool_decide as Hs; [by rewrite Hpass|set_solver].
Qed.

(** ** Any sequence of operations *)

(** The world, and the tests that were passed so far. *)
Inductive ch_step (encrypt : string → string) : World Tbl * list (string * Json) → World Tbl * list (string * Json) → Prop :=
| ch_configure shared a t p cfg w T : ch_step encrypt (w, T) ((configure shared a t p cfg w).2, T)
| ch_rotate a t p w T : ch_step encrypt (w, T) ((rotateSecret encrypt a t p w).2, T)
| ch_test shared a t p w T : ch_step encrypt (w, T) ((test shared a t p w).2, (passed shared t p w ++ T)%list)
| ch_enable shared a t p b w T : ch_step encrypt (w, T) ((setEnabled shared a t p b w).2, T)
| ch_remove a t p w T : ch_step encrypt (w, T) ((remove a t p w).2, T)
| ch_other w w' T : channels w' = channels w → ch_step encrypt (w, T) (w', T).

Lemma reachable_ok encrypt w T w' T' :
  rtc (ch_step encrypt) (w, T) (w', T') → channels_ok T (channels w) → channels_ok T' (channels w').
Proof.
  intros H. remember (w, T) as s eqn:Es. remember (w', T') as s' eqn:Es'. revert w T w' T' Es Es'.
  induction H as [s|s1 s2 s3 Hs _ IH]; intros w T w' T' -> E2; [by injection E2 as <- <-|].
  destruct s2 as [w2 T2]. intros Hok. eapply IH; [done..|]. clear IH E2.
  inversion Hs; subst;
    eauto using configure_ok, rotateSecret_ok, test_ok, setEnabled_ok, remove_ok. congruence.
Qed.

Lemma has_number_iff target r :
  has_number target r = true ↔ phone_of r = Some target.
Proof.
  unfold has_number, phone_of, config_fields, text. destruct (ig_config r) as [| | | | |fields]; try done.
  destruct (get_field _ fields) as [[]|]; simpl; rewrite ?bool_decide_eq_true; naive_solver.
Qed.

Lemma at_most_one {A} (l : list A) : NoDup l → (∀ x y, x ∈ l → y ∈ l → x = y) → l = [] ∨ ∃ x, l = [x].
Proof.
  destruct l as [|x [|y l]]; [by left|right; by exists x|]. intros Hnd H. exfalso.
  apply NoDup_cons in Hnd as [Hx _]. apply Hx. rewrite (H x y); set_solver.
Qed.

(** C6: After any operations, run one after another, on a deployment that had no channels, a
    channel that carries traffic passed a connection test of exactly the configuration it has. *)
Theorem enabled_channel_tested encrypt w w' T i r :
  channels w = ∅ → rtc (ch_step encrypt) (w, []) (w', T) →
  channels w' !! i = Some r → ig_isEnabled r = true → (i, ig_config r) ∈ T.
Proof.
  intros He Hs Hi Hen. apply reachable_ok in Hs as [Hrow _]; [|rewrite He; by split; [|split]].
  destruct (Hrow _ _ Hi) as [_ _ A3 A4]. destruct (A4 Hen) as (v & Hv & Hq). eauto.
Qed.

(** C26: An inbound message finds the organization whose enabled channel has its number, which
    is the only one. *)
Theorem business_number_one_owner encrypt w w' T n t :
  channels w = ∅ → rtc (ch_step encrypt) (w, []) (w', T) →
  resolveTenantId n w' = (Ok (Some t), w') ↔
  ∃ i r, channels w' !! i = Some r ∧ ig_tenantId r = t ∧ ig_isEnabled r = true ∧
    number_of r = Some (normalizePhone n).
Proof.
  intros He Hs. apply reachable_ok in Hs as [_ [Hnum Huniq]]; [|rewrite He; by split; [|split]].
  unfold resolveTenantId, find_many, gets, mbind, M_bind, mret, M_ret.
  set (l := filter _ _).
  assert (∀ i r, (i, r) ∈ l ↔ channels w' !! i = Some r ∧ ig_isEnabled r = true ∧
            number_of r = Some (normalizePhone n)) as Hl.
  { intros i r. unfold l. rewrite list_elem_of_filter, findMany_all. unfold number_of, rows_of. cbn.
    rewrite has_number_iff. case_bool_decide; naive_solver. }
  assert (NoDup l) as Hnd by (apply NoDup_filter, (NoDup_fmap_1 fst), findMany_NoDup).
  destruct (at_most_one l Hnd) as [E|([i r] & E)].
  - intros [i r] [j x] (Hi & _ & Hin)%Hl (Hj & _ & Hjn)%Hl.
    assert (i = j) as ->; [|naive_solver].
    eapply Huniq; eauto. unfold number_of in Hin, Hjn. repeat case_bool_decide; congruence.
  - rewrite E. split; [done|]. intros (i & r & Hi & _ & Hen & Hn). exfalso.
    eapply not_elem_of_nil. rewrite <-E. by apply Hl.
  - rewrite E. split.
    + intros [= <-]. assert ((i, r) ∈ l) as (Hi & Hen & Hn)%Hl by (rewrite E; by left). by exists i, r.
    + intros (j & x & Hj & <- & Hen & Hn). assert ((j, x) ∈ l) as Hin by by apply Hl.
      rewrite E in Hin. by apply list_elem_of_singleton in Hin as [= -> ->].
Qed.
End facts.

(** ** A concrete deployment *)

Definition deployment : SharedProviders := mkShared true (Some "smtp.mail.io") (Some "help@omni.io") (Settles true).

Definition one_tenant : World (gmap string) :=
  world_of 1000 (empty_db
    <| d_users := {["u1" := mkUserRow (Some "t1") "ann@acme.io" None "Ann" "Lee" TENANT_MANAGER UActive None None
                              "UTC" "en" (Some 0) None None 0 None (JObj []) 0 0]} |>
    <| d_tenants := {["t1" := mkTenantRecord "Acme" "acme" "ACTIVE" "pro" None None 5 100 10
                                (JObj []) None None 0 0]} |>).

Definition number (n : string) : ChannelConfig := mkChannelConfig (Some n) None None None.

Definition run {A} (m : W (gmap string) A) (w : World (gmap string)) : World (gmap string) := (m w).2.

(** A number is configured, tested and enabled. *)
Definition w1 := run (configure deployment "u1" "t1" Whatsapp (number "+1 (202) 555-0100")) one_tenant.
Definition w2 := run (test deployment "u1" "t1" Whatsapp) w1.
Definition w3 := run (setEnabled deployment "u1" "t1" Whatsapp true) w2.
Definition t2 := passed deployment "t1" Whatsapp w1.

Lemma w3_reachable : rtc (ch_step (λ s, s)) (one_tenant, []) (w3, t2).
Proof.
  eapply rtc_l; [apply ch_configure|]. eapply rtc_l; [apply ch_test|]. eapply rtc_l; [apply ch_enable|].
  unfold w3, w2, w1, t2, run. rewrite app_nil_r. apply rtc_refl.
Qed.

Lemma enabled_channel_tested_witness :
  ∃ i r, rows_of d_integrations w3 !! i = Some r ∧ ig_isEnabled r = true ∧ (i, ig_config r) ∈ t2.
Proof.
  assert (∃ r, rows_of d_integrations w3 !! "id0" = Some r ∧ ig_isEnabled r = true) as (r & Hr & He)
    by (eexists; split; vm_compute; reflexivity).
  exists "id0", r. split; [exact Hr|]. split; [exact He|].
  refine (enabled_channel_tested (λ s, s) one_tenant w3 t2 "id0" r _ w3_reachable Hr He).
  vm_compute. reflexivity.
Defined.

Lemma business_number_one_owner_witness :
  ∃ i r, rows_of d_integrations w3 !! i = Some r ∧ ig_tenantId r = "t1" ∧ ig_isEnabled r = true ∧
    number_of r = Some "+12025550100".
Proof.
  refine (proj1 (business_number_one_owner (λ s, s) one_tenant w3 t2 "+12025550100" "t1" _ w3_reachable) _);
    vm_compute; reflexivity.
Defined.

(** The test writes back the metadata it read before it waited for the provider, with the
    version of then: a configuration written meanwhile, never tested, can be enabled. *)
Lemma untested_config_enabled :
  let during := run (configure deployment "u1" "t1" Whatsapp (number "+442071838750")) w1 in
  match test_check deployment "t1" Whatsapp w1 with
  | (Ok checked, _) =>
      match setEnabled deployment "u1" "t1" Whatsapp true (run (test_write "u1" "t1" Whatsapp checked) during) with
      | (Ok v, _) => cv_isEnabled v = true ∧ cv_config v = [("phoneNumber", jstr "+442071838750")]
      | _ => False
      end
  | _ => False
  end.
Proof. vm_compute. split; reflexivity. Qed.

(** ** The sender of mails *)

(** A configured name can end neither the quotation nor the header line. *)
Theorem sender_name_safe s : str_forall (λ c, negb (unsafe_in_name c)) (sender_name s) = true.
Proof.
  apply trim_forall. apply str_flat_map_forall. intros c. destruct (unsafe_in_name c) eqn:E; [done|]. simpl. by rewrite E.
Qed.
