(* ===== verification/Storage.v ===== *)
(** * Storage of files

    [src/infrastructure/storage]: the interface of the storage providers, with what its
    users rely on ([StorageLaws]), and the two providers that keep the files themselves: in
    memory, and on the local disk with signed download links.  The HMAC of the links and the
    place of the storage root are parameters. *)

From stdpp Require Import pretty.
From Stdlib Require Import Ascii String.
From S2P Require Import Prelude Store Js Errors Domain Schema World Outbox Logs Frames Tokens.

#[local] Open Scope string_scope.
#[local] Open Scope Z_scope.
#[local] Set Default Proof Using "Type*".

Record UploadOptions := mkUploadOptions {
  uo_filename : string;
  uo_mimeType : string;
  uo_sizeBytes : Z;
  uo_tenantId : string;
  uo_folder : option string;
}.

Record UploadResult := mkUploadResult {
  ur_storagePath : string;
  ur_provider : string;
}.

(** [IStorageProvider] *)
Record StorageProvider (Tbl : Type → Type) := mkStorage {
  upload : string → UploadOptions → W Tbl UploadResult;
  getSignedUrl : string → option Z → W Tbl string;
  storage_delete : string → W Tbl unit;
  exists_file : string → W Tbl bool;
}.
Arguments upload {Tbl}. Arguments getSignedUrl {Tbl}.
Arguments storage_delete {Tbl}. Arguments exists_file {Tbl}.

(** [/\.([a-z0-9]{1,10})$/i]: the text after the last dot, lower-cased. *)
Definition extension_re (s : string) : bool :=
  (1 <=? str_length s) && (str_length s <=? 10) && str_forall is_alnum s.

Definition safeExtension (filename : string) : string :=
  match rev (split_on "." filename) with
  | ext :: _ :: _ => if extension_re ext then "." ++ toLowerCase ext else ""
  | _ => ""
  end.

(** [`${options.tenantId}/${folder}/${fileName}`] *)
Definition buildStoragePath (rt : Rt) (options : UploadOptions) : string :=
  let fileName := pretty (now rt) ++ "-" ++ uuid rt 0%nat ++ safeExtension (uo_filename options) in
  uo_tenantId options ++ "/" ++ default "attachments" (uo_folder options) ++ "/" ++ fileName.

Section providers.
Context {Tbl : Type → Type} `{!Prisma Tbl}.

Definition put_file (key : string) (f : StoredFile) : W Tbl unit :=
  modify (λ w, w <| w_files ::= <[key := f]> |>).
Definition has_file (key : string) : W Tbl bool :=
  gets (λ w, bool_decide (is_Some (w_files w !! key))).
Definition drop_file (key : string) : W Tbl unit := modify (λ w, w <| w_files ::= delete key |>).

(** ** MemoryStorageProvider *)

Definition memory_upload (content : string) (options : UploadOptions) : W Tbl UploadResult :=
  rt ← draw_rt 1;
  let storagePath := buildStoragePath rt options in
  _ ← put_file storagePath (mkStoredFile content (uo_mimeType options) (uo_tenantId options));
  mret (mkUploadResult storagePath "memory").

Definition memory_getSignedUrl (storagePath : string) (expiresIn : option Z) : W Tbl string :=
  now ← get_now;
  mret ("memory://" ++ storagePath ++ "?expires=" ++ pretty (now / 1000 + default 3600 expiresIn)).

Definition MemoryStorageProvider : StorageProvider Tbl :=
  mkStorage Tbl memory_upload memory_getSignedUrl drop_file has_file.

(** ** LocalStorageProvider *)

Section local.
Context (base : list string) (baseUrl secret : string) (hmac : string → string → string).

Definition path_string (segments : list string) : string := "/" ++ join "/" segments.

(** [path.resolve(basePath, storagePath)] *)
Definition step_into (segments : list string) (s : string) : list string :=
  if bool_decide (s = "") || bool_decide (s = ".") then segments
  else if bool_decide (s = "..") then take (length segments - 1) segments
  else (segments ++ [s])%list.

Definition resolve_path (storagePath : string) : list string :=
  foldl step_into (if String.prefix "/" storagePath then [] else base) (split_on "/" storagePath).

(** The file must lie below the storage root. *)
Definition resolveFullPath (storagePath : string) : result error string :=
  let fullPath := path_string (resolve_path storagePath) in
  if String.prefix (path_string base ++ "/") fullPath then Ok fullPath
  else Err (InfrastructureError "Invalid storage path").

(** Only the bytes reach the disk. *)
Definition local_upload (content : string) (options : UploadOptions) : W Tbl UploadResult :=
  try_catch
    (rt ← draw_rt 1;
     let storagePath := buildStoragePath rt options in
     fullPath ← lift (resolveFullPath storagePath);
     _ ← put_file fullPath (mkStoredFile content "" "");
     mret (mkUploadResult storagePath "local"))
    (λ _, throw (InfrastructureError "Local storage upload failed")).

Definition local_sign (storagePath expires : string) : string :=
  hmac secret (storagePath ++ ":" ++ expires).

Definition local_getSignedUrl (storagePath : string) (expiresIn : option Z) : W Tbl string :=
  now ← get_now;
  let expires := pretty (now + default 3600 expiresIn * 1000) in
  let token := local_sign storagePath expires in
  let encodedPath := join "/" (map encodeURIComponent (split_on "/" storagePath)) in
  mret (baseUrl ++ "/" ++ encodedPath ++ "?token=" ++ token ++ "&expires=" ++ expires).

Definition verifySignedUrl (storagePath expires token : string) : W Tbl bool :=
  now ← get_now;
  if negb (str_truthy expires && str_forall is_digit expires)
     || ((take_digits 0 expires).1 <? now) then mret false
  else mret (bool_decide (local_sign storagePath expires = token)).

(** [unlink] fails when there is no file. *)
Definition local_delete (storagePath : string) : W Tbl unit :=
  try_catch
    (fullPath ← lift (resolveFullPath storagePath);
     there ← has_file fullPath;
     if there : bool then drop_file fullPath else throw (PlainError "ENOENT"))
    (λ _, throw (InfrastructureError "Local storage delete failed")).

Definition local_exists (storagePath : string) : W Tbl bool :=
  try_catch (fullPath ← lift (resolveFullPath storagePath); has_file fullPath) (λ _, mret false).

Definition LocalStorageProvider : StorageProvider Tbl :=
  mkStorage Tbl local_upload local_getSignedUrl local_delete local_exists.
End local.

(** ** What the users of a provider rely on *)

(** [locate] tells where the file of a storage path is.  Storage changes nothing but files
    (and the identifiers still to be drawn). *)
Class StorageLaws (s : StorageProvider Tbl) := {
  locate : string → option string;
  upload_frame {X} (f : World Tbl → X) c o :
    (∀ w h, f (w <| w_draws ::= h |>) = f w) → (∀ w h, f (w <| w_files ::= h |>) = f w) →
    Keeps f (upload s c o);
  delete_frame {X} (f : World Tbl → X) p :
    (∀ w h, f (w <| w_files ::= h |>) = f w) → Keeps f (storage_delete s p);
  url_frame p ttl : Keeps (λ w, w) (getSignedUrl s p ttl);
  upload_stored c o w u w' : upload s c o w = (Ok u, w') →
    ∃ key f, locate (ur_storagePath u) = Some key ∧ sf_content f = c ∧
      w_files w' = <[key := f]> (w_files w);
  delete_gone p w w' : storage_delete s p w = (Ok tt, w') →
    ∃ key, locate p = Some key ∧ w_files w' = delete key (w_files w);
}.
End providers.

Section laws.
Context {Tbl : Type → Type} `{!Prisma Tbl}.

Lemma put_file_frame {X} (f : World Tbl → X) key x :
  (∀ w h, f (w <| w_files ::= h |>) = f w) → Keeps f (put_file key x).
Proof. intros H. apply keeps_modify. intros w. apply H. Qed.
Lemma drop_file_frame {X} (f : World Tbl → X) key :
  (∀ w h, f (w <| w_files ::= h |>) = f w) → Keeps f (drop_file key).
Proof. intros H. apply keeps_modify. intros w. apply H. Qed.

#[export] Instance memory_laws : StorageLaws (Tbl:=Tbl) MemoryStorageProvider.
Proof.
  refine {| locate := Some |}.
  - intros X f c o H1 H2. apply keeps_bind; [by apply keeps_draw_rt|]. intros rt.
    apply keeps_bind; [by apply put_file_frame|]. intros []. apply keeps_ret.
  - intros X f p H. by apply drop_file_frame.
  - intros p ttl w. done.
  - intros c o w u w' H. cbn in H. injection H as <- <-. eexists _, _. split_and!; [done| |by destruct w]. done.
  - intros p w w' H. cbn in H. injection H as <-. exists p. split; [done|]. by destruct w.
Defined.

Definition full_path (base : list string) (p : string) : option string :=
  match resolveFullPath base p with Ok full => Some full | Err _ => None end.

#[export] Instance local_laws base baseUrl secret hmac :
  StorageLaws (Tbl:=Tbl) (LocalStorageProvider base baseUrl secret hmac).
Proof.
  refine {| locate := full_path base |}.
  - intros X f c o H1 H2. apply keeps_try; [|intros e; apply keeps_throw].
    apply keeps_bind; [by apply keeps_draw_rt|]. intros rt. cbv zeta.
    apply keeps_bind; [apply keeps_lift|]. intros full.
    apply keeps_bind; [by apply put_file_frame|]. intros []. apply keeps_ret.
  - intros X f p H. apply keeps_try; [|intros e; apply keeps_throw].
    apply keeps_bind; [apply keeps_lift|]. intros full.
    apply keeps_bind; [apply keeps_gets|]. intros []; [by apply drop_file_frame|apply keeps_throw].
  - intros p ttl w. done.
  - intros c o w u w' H. cbn in H. unfold local_upload, try_catch, mbind, M_bind, lift, draw_rt in H.
    unfold full_path. set (path := buildStoragePath _ o) in H.
    destruct (resolveFullPath base path) as [full|e] eqn:E; [|done].
    cbn in H. injection H as <- <-. cbn. rewrite E. eexists _, _. split_and!; [done| |by destruct w]. done.
  - intros p w w' H. cbn in H. unfold local_delete, try_catch, mbind, M_bind, lift, has_file, gets in H.
    unfold full_path. destruct (resolveFullPath base p) as [full|e] eqn:E; [|done].
    destruct (bool_decide _); [|done]. cbn in H. injection H as <-. exists full. split; [done|]. by destruct w.
Defined.

End laws.

(** ** Paths *)

Lemma prefix_split p s : String.prefix p s = true → ∃ rest, s = p ++ rest.
Proof.
  revert s. induction p as [|c p IH]; intros s; [by exists s|].
  destruct s as [|d s]; cbn; [done|]. destruct (ascii_dec c d) as [->|]; [|done].
  intros (rest & ->)%IH. by exists rest.
Qed.

(** A path segment that names an entry of its directory. *)
Definition plain (s : string) : bool :=
  negb (bool_decide (s = "") || bool_decide (s = ".") || bool_decide (s = "..")).

Lemma step_into_plain segments s :
  Forall (λ x, plain x = true) segments → Forall (λ x, plain x = true) (step_into segments s).
Proof.
  intros H. unfold step_into. destruct (bool_decide (s = "") || bool_decide (s = ".")) eqn:E1; [done|].
  destruct (bool_decide (s = "..")) eqn:E2; [by apply Forall_take|].
  apply Forall_app. split; [done|]. apply Forall_singleton. unfold plain. by rewrite E1, E2.
Qed.

(** Whatever the storage path, the file the local provider touches lies below its root, on a
    path without [..]. *)
Lemma resolveFullPath_inside base p full :
  Forall (λ x, plain x = true) base → resolveFullPath base p = Ok full →
  (∃ rest, full = path_string base ++ "/" ++ rest) ∧
  ∃ segments, full = path_string segments ∧ Forall (λ x, plain x = true) segments.
Proof.
  intros Hb. unfold resolveFullPath. destruct (String.prefix _ _) eqn:E; [|done]. intros [= <-]. split.
  - apply prefix_split in E as (rest & E). exists rest. by rewrite E, <-str_app_assoc.
  - eexists. split; [done|]. unfold resolve_path.
    assert (Forall (λ x, plain x = true) (if String.prefix "/" p then [] else base)) as H0
      by (destruct (String.prefix "/" p); [constructor|done]).
    clear E. revert H0. generalize (if String.prefix "/" p then [] else base) as segs.
    induction (split_on "/" p) as [|x l IH]; intros segs H0; [done|]. cbn. by apply IH, step_into_plain.
Qed.

(** ** Download links *)

Lemma last_colon a a' e e' :
  str_forall is_digit e = true → str_forall is_digit e' = true →
  a ++ ":" ++ e = a' ++ ":" ++ e' → a = a' ∧ e = e'.
Proof.
  intros He He'. revert a'. induction a as [|c a IH]; intros [|c' a']; cbn.
  - by intros [= ->].
  - intros [= <- ->]. rewrite str_forall_app in He. cbn in He. by rewrite andb_false_r in He.
  - intros [= -> <-]. rewrite str_forall_app in He'. cbn in He'. by rewrite andb_false_r in He'.
  - intros [= -> [-> ->]%IH]. done.
Qed.

Section links.
Context {Tbl : Type → Type} `{!Prisma Tbl} (secret : string) (hmac : string → string → string).
Implicit Types (w : World Tbl).

(** The token of a link opens the file it was issued for, with the expiry it was issued
    with, and not after that; the HMAC has no collisions. *)
Theorem signed_link_specific w w' path expires path' expires' :
  (∀ m m', hmac secret m = hmac secret m' → m = m') → str_forall is_digit expires = true →
  verifySignedUrl secret hmac path' expires' (local_sign secret hmac path expires) w = (Ok true, w') →
  path' = path ∧ expires' = expires ∧ w_now w <= (take_digits 0 expires).1.
Proof.
  intros Hinj He. unfold verifySignedUrl, get_now, gets, mbind, M_bind, mret, M_ret.
  destruct (_ || _) eqn:Eb; intros H; [by inv_ok|]. inv_ok. bool_to_prop.
  unfold local_sign in *.
  match goal with H : hmac _ _ = hmac _ _ |- _ => apply Hinj, last_colon in H as [-> ->]; done end.
Qed.
End links.

Lemma signed_link_specific_witness :
  (take_digits 0 "5000").1 = 5000 ∧
  "t1/a.png" = "t1/a.png" ∧ "5000" = "5000" ∧ w_now (world_of 1000 empty_db) <= (take_digits 0 "5000").1.
Proof.
  split; [vm_compute; reflexivity|].
  refine (signed_link_specific "k" (λ k m, k ++ m) (world_of 1000 empty_db) (world_of 1000 empty_db)
            "t1/a.png" "5000" "t1/a.png" "5000" _ eq_refl _).
  - intros m m' H. cbn in H. congruence.
  - vm_compute. reflexivity.
Defined.
