(* ===== verification/Reports.v ===== *)
(** * Reports

    [ReportService] ([src/application/report/services]): a report is requested, claimed by a
    worker, read from the database in pages, written as CSV or JSON into storage, offered for
    download for a day, and expired.  The storage provider is one of [Storage]; the
    permissions are those of [Roles].  [collate] is the database's order of identifiers. *)

From stdpp Require Import pretty.
From Stdlib Require Import Ascii String QArith.
From S2P Require Import Prelude Store Js Errors Dates Domain Ticket Customer Tenant User.
From S2P Require Import Json Schema World Outbox Logs Frames Tokens Roles Storage.

#[local] Open Scope string_scope.
#[local] Open Scope Z_scope.
#[local] Set Default Proof Using "Type*".

Record ReportFilters := mkReportFilters {
  rf_status : option string;
  rf_dateFrom : option string;
  rf_dateTo : option string;
}.

Definition filters_json (f : ReportFilters) : list (string * string) :=
  let field k (o : option string) := match o with Some v => [(k, v)] | None => [] end in
  (field "status" (rf_status f) ++ field "dateFrom" (rf_dateFrom f) ++ field "dateTo" (rf_dateTo f))%list.

Definition REPORT_LIFETIME_MS : Z := 24 * 60 * 60 * 1000.
Definition RECORD_RETENTION_MS : Z := 30 * 24 * 60 * 60 * 1000.
Definition STALE_RUN_MS : Z := 15 * 60 * 1000.
Definition DOWNLOAD_URL_TTL_SECONDS : Z := 600.
Definition BATCH_SIZE : nat := 1000.
Definition MAX_REPORT_ROWS : Z := 200000.

Definition SUBJECT_PERMISSIONS (subject : string) : list string :=
  if bool_decide (subject = "tickets") then ["reports:create"]
  else ["reports:create"; "customers:read"].

(** [new Date(text)] of [YYYY-MM-DDTHH:MM:SS(.sss…)Z], the format the route accepts. *)
Definition digits_at (s : string) (i n : nat) : Z := (take_digits 0 (String.substring i n s)).1.
Definition parse_datetime (s : string) : Z :=
  let fraction := if bool_decide (String.get 19 s = Some "."%char)
                  then let ds := String.substring 20 3 s in
                       let '(v, rest) := take_digits 0 ds in
                       v * 10 ^ (3 - str_length ds + str_length rest)
                  else 0 in
  Date_UTC (digits_at s 0 4) (digits_at s 5 2 - 1) (digits_at s 8 2)
  + digits_at s 11 2 * 3600000 + digits_at s 14 2 * 60000 + digits_at s 17 2 * 1000 + fraction.

(** ** Records *)

Inductive Cell := CNull | CText (s : string) | CBool (b : bool) | CNum (n : Z) | CDate (t : Z).

Definition Fields : Type := list (string * Cell).

Definition opt_text (o : option string) : Cell := from_option CText CNull o.

(** The [select] of the two queries. *)
Definition ticket_record (i : string) (r : TicketRow) : Fields :=
  [("id", CText i); ("ticketNumber", CNum (ti_ticketNumber r)); ("title", CText (ti_title r));
   ("status", CText (enum_string (ti_status r))); ("priority", CText (enum_string (ti_priority r)));
   ("category", CText (ti_category r)); ("isEscalated", CBool (ti_isEscalated r));
   ("createdAt", CDate (ti_createdAt r)); ("resolvedAt", from_option CDate CNull (ti_resolvedAt r));
   ("customerId", CText (ti_customerId r)); ("assignedAgentId", opt_text (ti_assignedAgentId r))].

Definition customer_record (i : string) (r : CustomerRow) : Fields :=
  [("id", CText i); ("fullName", CText (cu_fullName r)); ("email", CText (cu_email r));
   ("company", opt_text (cu_company r)); ("status", CText (customer_status_string (cu_status r)));
   ("riskLabel", opt_text (cu_riskLabel r)); ("createdAt", CDate (cu_createdAt r))].

(** [value instanceof Date ? value.toISOString() : String(value ?? '')] *)
Definition cell_text (c : Cell) : string :=
  match c with
  | CNull => ""
  | CText s => s
  | CBool b => if b then "true" else "false"
  | CNum n => pretty n
  | CDate t => toISOString t
  end.

Definition cell_json (c : Cell) : Json :=
  match c with
  | CNull => JNull
  | CText s => JStr s
  | CBool b => JBool b
  | CNum n => jnum n
  | CDate t => JStr (toISOString t)
  end.

Definition record_json (r : Fields) : Json := JObj (map (λ '(k, c), (k, cell_json c)) r).

(** ** [countBy] *)

(** The members that every object literal has, as text: the counts of [countBy] start from
    them, and an assignment to [__proto__] of text is ignored. *)
Definition native (name : string) : string := "function " ++ name ++ "() { [native code] }".
Definition inherited (key : string) : option string :=
  if bool_decide (key = "constructor") then Some (native "Object")
  else if includes ["__defineGetter__"; "__defineSetter__"; "hasOwnProperty"; "__lookupGetter__";
                    "__lookupSetter__"; "isPrototypeOf"; "propertyIsEnumerable"; "toString";
                    "valueOf"; "toLocaleString"] key then Some (native key)
  else if bool_decide (key = "__proto__") then Some "[object Object]" else None.

(** [result[key] = (result[key] ?? 0) + 1] *)
Definition count_one (result : list (string * Json)) (key : string) : list (string * Json) :=
  let next := match get_field key result with
              | Some (JNum q) => JNum (q + 1)
              | Some (JStr s) => JStr (s ++ "1")
              | _ => match inherited key with Some s => JStr (s ++ "1") | None => jnum 1 end
              end in
  if bool_decide (key = "__proto__") then result else set_field key next result.

(** [String(record[field] ?? 'NONE')] *)
Definition count_key (field : string) (r : Fields) : string :=
  match get_field field r with Some CNull | None => "NONE" | Some c => cell_text c end.

Definition countBy (records : list Fields) (field : string) : list (string * Json) :=
  foldl count_one [] (map (count_key field) records).

(** ** [toCsv] *)

(** [/^[=+\-@\t\r]/] *)
Definition formula_char (c : ascii) : bool :=
  Ascii.eqb c "=" || Ascii.eqb c "+" || Ascii.eqb c "-" || Ascii.eqb c "@" || (code c =? 9) || (code c =? 13).

Definition neutralized (text : string) : string :=
  match text with
  | String c _ => if formula_char c then String "'" text else text
  | EmptyString => text
  end.

(** A double quote is doubled. *)
Definition double_quotes (s : string) : string :=
  str_flat_map (λ c, if Ascii.eqb c dquote then String c (String c "") else String c "") s.

Definition csv_quote (c : Cell) : string := quoted (double_quotes (neutralized (cell_text c))).

Definition crlf : string := String (of_code 13) (String (of_code 10) "").

Definition cell_of (key : string) (row : Fields) : Cell := default CNull (get_field key row).

(** [Object.keys(records[0]).filter((field) => field !== 'id')] *)
Definition csv_fields (row : Fields) : list string := filter (λ k, k ≠ "id") row.*1.

Definition toCsv (records : list Fields) : string :=
  match records with
  | [] => ""
  | first :: _ =>
      let fields := csv_fields first in
      join crlf (join "," fields
                 :: map (λ row, join "," (map (λ key, csv_quote (cell_of key row)) fields)) records)
  end.

(** ** The service *)

Section service.
Context {Tbl : Type → Type} `{!Prisma Tbl}.
Context (storage : StorageProvider Tbl) (collate : string → Z).

Definition reports_audit (tenantId actorId : string) (actorRole : option string) (id : string)
    (metadata : list (string * Json)) : W Tbl unit :=
  audit_create (mkAudit (Some tenantId) (Some actorId) actorRole "EXPORT" "reports" (Some id)
    None None None None metadata).

Definition assertAllowed (subject : PermissionSubject) (reportSubject : string) : W Tbl unit :=
  for_each (permission_assert subject) (SUBJECT_PERMISSIONS reportSubject).

Definition create_report (tenantId requesterId requesterRole subject kind format : string)
    (filters : ReportFilters) : W Tbl (string * ReportRow) :=
  _ ← assertAllowed (mkSubject requesterId requesterRole (Some tenantId)) subject;
  i ← draw;
  now ← get_now;
  let job := mkReportRow tenantId requesterId kind subject format (filters_json filters) "PENDING"
               None None None None None now now in
  _ ← create_row d_reports (λ _ _, false)
        (λ db, refers (d_tenants db) (Some tenantId) && refers (d_users db) (Some requesterId)) i job;
  mret (i, job).

Definition list_reports (tenantId requesterId : string) (status : option string)
  : W Tbl (list (string * ReportRow)) :=
  find_many d_reports
    (λ _ r, bool_decide (rj_tenantId r = tenantId) && bool_decide (rj_requestedById r = requesterId)
            && (negb (truthy status) || bool_decide (Some (rj_status r) = status)))
    (λ kr, - rj_createdAt kr.2) (Some 100%nat).

Definition get_report (i tenantId requesterId : string) : W Tbl (string * ReportRow) :=
  job ← find_first d_reports
    (λ j r, bool_decide (j = i) && (bool_decide (rj_tenantId r = tenantId)
            && bool_decide (rj_requestedById r = requesterId)));
  match job with
  | Some job => mret job
  | None => throw (NotFoundError "Report" (Some i))
  end.

Definition cancel_report (i tenantId requesterId : string) : W Tbl unit :=
  now ← get_now;
  claimed ← update_many d_reports
    (λ j r, bool_decide (j = i) && bool_decide (rj_tenantId r = tenantId)
            && bool_decide (rj_requestedById r = requesterId)
            && includes ["PENDING"; "RUNNING"] (rj_status r))
    (λ r, r <| rj_status := "CANCELLED" |> <| rj_updatedAt := now |>);
  if claimed =? 1 then mret ()
  else
    _ ← get_report i tenantId requesterId;
    throw (ConflictError "Only pending or running reports can be cancelled").

Definition getDownloadUrl (i tenantId requesterId requesterRole : string) : W Tbl (string * Z) :=
  '(_, job) ← get_report i tenantId requesterId;
  now ← get_now;
  match bool_decide (rj_status job = "COMPLETED"), rj_storagePath job, rj_expiresAt job with
  | true, Some path, Some expiresAt =>
      if negb (str_truthy path) || (expiresAt <=? now)
      then throw (ConflictError "Report is not available for download")
      else
        _ ← assertAllowed (mkSubject requesterId requesterRole (Some tenantId)) (rj_subject job);
        url ← getSignedUrl storage path (Some DOWNLOAD_URL_TTL_SECONDS);
        _ ← reports_audit tenantId requesterId (Some requesterRole) i
              [("event", jstr "DOWNLOAD_URL_ISSUED"); ("subject", jstr (rj_subject job))];
        mret (url, DOWNLOAD_URL_TTL_SECONDS)
  | _, _, _ => throw (ConflictError "Report is not available for download")
  end.

(** *** Reading *)

(** [createdAt: { gte, lte }] *)
Definition in_period (filters : list (string * string)) (createdAt : Z) : bool :=
  let bound key (within : Z → bool) :=
    match get_field key filters with
    | Some s => if str_truthy s then within (parse_datetime s) else true
    | None => true
    end in
  bound "dateFrom" (λ t, t <=? createdAt) && bound "dateTo" (λ t, createdAt <=? t).

Definition has_status (filters : list (string * string)) (status : string) : bool :=
  match get_field "status" filters with
  | Some s => negb (str_truthy s) || bool_decide (s = status)
  | None => true
  end.

(** Agents only see tickets assigned to them. *)
Definition ticket_clause (job : ReportRow) (requesterRole : string) (_ : string) (r : TicketRow) : bool :=
  bool_decide (ti_tenantId r = rj_tenantId job)
  && (negb (bool_decide (requesterRole = "AGENT"))
      || bool_decide (ti_assignedAgentId r = Some (rj_requestedById job)))
  && has_status (rj_filters job) (enum_string (ti_status r))
  && in_period (rj_filters job) (ti_createdAt r).

Definition customer_clause (job : ReportRow) (_ : string) (r : CustomerRow) : bool :=
  bool_decide (cu_tenantId r = rj_tenantId job)
  && has_status (rj_filters job) (customer_status_string (cu_status r))
  && in_period (rj_filters job) (cu_createdAt r).

(** [findMany({ where, orderBy: { id: 'asc' }, take, cursor, skip: 1 })]: the matching rows
    from the position of the cursor on, without the first of them. *)
Definition cursor_page {R} (table : Db Tbl → Tbl R) (where_ : string → R → bool)
    (cursor : option string) (n : nat) : W Tbl (list (string * R)) :=
  match cursor with
  | None => find_many table where_ (λ kr, collate kr.1) (Some n)
  | Some c =>
      at_ ← find_unique table c;
      match at_ with
      | None => mret []
      | Some _ =>
          page ← find_many table (λ i r, where_ i r && (collate c <=? collate i))
                   (λ kr, collate kr.1) (Some (S n));
          mret (drop 1 page)
      end
  end.

Definition read_page (job : ReportRow) (requesterRole : string) (cursor : option string)
  : W Tbl (list (string * Fields)) :=
  if bool_decide (rj_subject job = "tickets") then
    page ← cursor_page d_tickets (ticket_clause job requesterRole) cursor BATCH_SIZE;
    mret (map (λ '(i, r), (i, ticket_record i r)) page)
  else
    page ← cursor_page d_customers (customer_clause job) cursor BATCH_SIZE;
    mret (map (λ '(i, r), (i, customer_record i r)) page).

(** [assertStillRunning]: [false] is the [ReportCancelledError] it throws. *)
Definition still_running (i : string) (startedAt : Z) : W Tbl bool :=
  current ← find_unique d_reports i;
  mret (match current with
        | Some r => bool_decide (rj_status r = "RUNNING") && bool_decide (rj_startedAt r = Some startedAt)
        | None => false
        end).

(** The loop of [process] over [readBatches]: [None] when the report was cancelled.  Every
    full page adds [BATCH_SIZE] rows, so that the limit on rows bounds the pages. *)
Definition PAGES : nat := 202.

Fixpoint collect (fuel : nat) (i : string) (job : ReportRow) (startedAt : Z) (requesterRole : string)
    (cursor : option string) (records : list Fields) : W Tbl (option (list Fields)) :=
  match fuel with
  | O => throw (PlainError "out of fuel")
  | S fuel =>
      page ← read_page job requesterRole cursor;
      match last page with
      | None => mret (Some records)
      | Some (lastId, _) =>
          let records := (records ++ map snd page)%list in
          if MAX_REPORT_ROWS <? Z.of_nat (length records)
          then throw (ConflictError ("Report exceeds " ++ pretty MAX_REPORT_ROWS ++ " rows; narrow the filters"))
          else
            running ← still_running i startedAt;
            if negb running then mret None
            else if (length page <? BATCH_SIZE)%nat then mret (Some records)
            else collect fuel i job startedAt requesterRole (Some lastId) records
      end
  end.

(** *** Writing *)

Definition summary_json (job : ReportRow) (records : list Fields) : Json :=
  JObj ([("subject", jstr (rj_subject job));
         ("filters", JObj (map (λ '(k, v), (k, jstr v)) (rj_filters job)));
         ("total", jnum (Z.of_nat (length records)));
         ("byStatus", JObj (countBy records "status"))]
        ++ if bool_decide (rj_subject job = "tickets")
           then [("byPriority", JObj (countBy records "priority"));
                 ("byCategory", JObj (countBy records "category"))]
           else [("byRisk", JObj (countBy records "riskLabel"))])%list.

Definition is_json (job : ReportRow) : bool :=
  bool_decide (rj_kind job = "summary") || bool_decide (rj_format job = "json").

(** Counts and columns are integers, so no fraction is printed. *)
Definition content (job : ReportRow) (records : list Fields) : string :=
  if bool_decide (rj_kind job = "summary") then stringify (λ _, "") (summary_json job records)
  else if is_json job then stringify (λ _, "") (JArr (map record_json records))
  else toCsv records.

(** [Buffer.from(text, 'utf8').length] *)
Fixpoint utf8_length (s : string) : Z :=
  match s with
  | EmptyString => 0
  | String c s => (if code c <? 128 then 1 else 2) + utf8_length s
  end.

Definition upload_options (i : string) (job : ReportRow) (size : Z) : UploadOptions :=
  mkUploadOptions ("report-" ++ i ++ "." ++ (if is_json job then "json" else "csv"))
    (if is_json job then "application/json" else "text/csv") size (rj_tenantId job) (Some "reports").

(** The update that only the worker holding the claim of [startedAt] can make. *)
Definition claim_held (i : string) (startedAt : Z) (j : string) (r : ReportRow) : bool :=
  bool_decide (j = i) && (bool_decide (rj_status r = "RUNNING") && bool_decide (rj_startedAt r = Some startedAt)).

(** [false] when the report was cancelled or claimed by another worker meanwhile. *)
Definition process (i : string) (job : ReportRow) (startedAt : Z) : W Tbl bool :=
  requester ← find_first d_users
    (λ j u, bool_decide (j = rj_requestedById job) && (bool_decide (us_tenantId u = Some (rj_tenantId job))
            && bool_decide (us_status u = UActive)));
  match requester with
  | None => throw (ForbiddenError "Requester is no longer authorized")
  | Some (userId, u) =>
      let role := role_string (us_role u) in
      _ ← assertAllowed (mkSubject userId role (us_tenantId u)) (rj_subject job);
      collected ← collect PAGES i job startedAt role None [];
      match collected with
      | None => mret false
      | Some records =>
          let text := content job records in
          uploaded ← upload storage text (upload_options i job (utf8_length text));
          now ← get_now;
          completed ← update_many d_reports (claim_held i startedAt)
            (λ r, r <| rj_status := "COMPLETED" |> <| rj_storagePath := Some (ur_storagePath uploaded) |>
                    <| rj_rowCount := Some (Z.of_nat (length records)) |> <| rj_error := None |>
                    <| rj_expiresAt := Some (now + REPORT_LIFETIME_MS) |> <| rj_updatedAt := now |>);
          if negb (completed =? 1) then
            _ ← storage_delete storage (ur_storagePath uploaded);
            mret false
          else
            _ ← reports_audit (rj_tenantId job) (rj_requestedById job) None i
                  [("subject", jstr (rj_subject job)); ("kind", jstr (rj_kind job));
                   ("format", jstr (rj_format job)); ("rowCount", jnum (Z.of_nat (length records)))];
            mret true
      end
  end.

(** *** The worker *)

Definition expire_one (job : string * ReportRow) : W Tbl unit :=
  let '(i, r) := job in
  _ ← match rj_storagePath r with
      | Some path => if str_truthy path then storage_delete storage path else mret ()
      | None => mret ()
      end;
  now ← get_now;
  _ ← update_many d_reports (λ j r, bool_decide (j = i) && bool_decide (rj_status r = "COMPLETED"))
        (λ r, r <| rj_status := "EXPIRED" |> <| rj_storagePath := None |> <| rj_updatedAt := now |>);
  mret ().

Definition expireFiles : W Tbl unit :=
  now ← get_now;
  expired ← find_many d_reports
    (λ _ r, bool_decide (rj_status r = "COMPLETED")
            && match rj_expiresAt r with Some t => t <=? now | None => false end)
    (λ _, 0) (Some 50%nat);
  for_each expire_one expired.

Definition purgeRecords : W Tbl unit :=
  now ← get_now;
  _ ← delete_many d_reports
    (λ _ r, includes ["EXPIRED"; "FAILED"; "CANCELLED"] (rj_status r)
            && (rj_updatedAt r <? now - RECORD_RETENTION_MS));
  mret ().

Definition report_claimable (staleBefore : Z) (r : ReportRow) : bool :=
  bool_decide (rj_status r = "PENDING")
  || (bool_decide (rj_status r = "RUNNING")
      && match rj_startedAt r with Some t => t <? staleBefore | None => false end).

Definition fail_report (i : string) (startedAt : Z) (e : error) : W Tbl unit :=
  now ← get_now;
  _ ← update_many d_reports (claim_held i startedAt)
        (λ r, r <| rj_status := "FAILED" |>
                <| rj_error := Some match e with
                                    | ConflictError m | ForbiddenError m => m
                                    | _ => "Report generation failed"
                                    end |> <| rj_updatedAt := now |>);
  mret ().

Definition run_report (staleBefore : Z) (job : string * ReportRow) : W Tbl unit :=
  let '(i, r) := job in
  startedAt ← get_now;
  claimed ← update_many d_reports (λ j r, bool_decide (j = i) && report_claimable staleBefore r)
    (λ r, r <| rj_status := "RUNNING" |> <| rj_startedAt := Some startedAt |> <| rj_updatedAt := startedAt |>);
  if negb (claimed =? 1) then mret ()
  else try_catch (_ ← process i r startedAt; mret ()) (λ e, fail_report i startedAt e).

Definition processPending : W Tbl unit :=
  _ ← expireFiles;
  _ ← purgeRecords;
  now ← get_now;
  let staleBefore := now - STALE_RUN_MS in
  pending ← find_many d_reports (λ _ r, report_claimable staleBefore r) (λ kr, rj_createdAt kr.2) (Some 5%nat);
  for_each (run_report staleBefore) pending.
End service.
