(* ===== verification/ReportFacts.v ===== *)
(** * What a report holds and how it lives

    The CSV of a report reads back as its cells, none of which a spreadsheet would run; the
    pages add up to the full listing, within a bounded number of pages; a report that
    completed holds every row its requester may see, and only those; the worker and its users
    only move a report along its life cycle.  A file that is missing from the local disk
    stops all reports. *)

From stdpp Require Import pretty.
From Stdlib Require Import Ascii String QArith.
From S2P Require Import Prelude Store Js Errors Dates Domain Ticket Customer Tenant User.
From S2P Require Import Json Schema World Outbox Logs Frames Tokens Permissions Roles RoleFacts Storage Reports.

#[local] Open Scope string_scope.
#[local] Open Scope Z_scope.
#[local] Set Default Proof Using "Type*".

#[local] Notation reports w := (rows_of d_reports w).

(** ** CSV *)

(** A reader of RFC 4180 text: rows of fields, quoted or bare. *)
Inductive csv_mode := Start | Bare | Quoted | AfterQuote.

Definition is_cr (c : ascii) : bool := code c =? 13.
Definition is_lf (c : ascii) : bool := code c =? 10.

(** [field] and [row] are what was read of the current field and row. *)
Fixpoint csv_read (m : csv_mode) (field : string) (row : list string) (s : string)
  : option (list (list string)) :=
  match s with
  | EmptyString => match m with Quoted => None | _ => Some [(row ++ [field])%list] end
  | String c s =>
      match m with
      | Quoted => if Ascii.eqb c dquote then csv_read AfterQuote field row s
                  else csv_read Quoted (field ++ String c "") row s
      | _ =>
          if Ascii.eqb c dquote then
            match m with
            | Start => csv_read Quoted "" row s
            | AfterQuote => csv_read Quoted (field ++ String c "") row s
            | _ => None
            end
          else if Ascii.eqb c "," then csv_read Start "" (row ++ [field])%list s
          else if is_cr c then
            match s with
            | String d s => if is_lf d then cons (row ++ [field])%list <$> csv_read Start "" [] s else None
            | EmptyString => None
            end
          else match m with
               | AfterQuote => None
               | _ => csv_read Bare (field ++ String c "") row s
               end
      end
  end.

Definition csv_parse (s : string) : option (list (list string)) := csv_read Start "" [] s.

Lemma dquote_eqb : Ascii.eqb dquote dquote = true.
Proof. reflexivity. Qed.

Lemma csv_read_quoted_body t field row rest :
  csv_read Quoted field row (double_quotes t ++ String dquote rest) = csv_read AfterQuote (field ++ t) row rest.
Proof.
  revert field. induction t as [|c t IH]; intros field.
  - cbn [double_quotes str_flat_map append]. rewrite str_app_nil_r. reflexivity.
  - unfold double_quotes in *. cbn [str_flat_map]. rewrite <-str_app_assoc.
    assert (field ++ String c t = (field ++ String c "") ++ t) as -> by by rewrite <-str_app_assoc.
    destruct (Ascii.eqb c dquote) eqn:E.
    + apply Ascii.eqb_eq in E as ->. cbn [append csv_read]. rewrite dquote_eqb. apply IH.
    + cbn [append csv_read]. rewrite E. apply IH.
Qed.

Lemma csv_read_quoted t row rest :
  csv_read Start "" row (quoted (double_quotes t) ++ rest) = csv_read AfterQuote t row rest.
Proof.
  unfold quoted. cbn [append csv_read]. rewrite dquote_eqb.
  rewrite <-str_app_assoc. cbn [append]. apply csv_read_quoted_body.
Qed.

(** The characters that end or open a field. *)
Definition csv_plain (s : string) : bool :=
  str_forall (λ c, negb (Ascii.eqb c dquote || Ascii.eqb c "," || is_cr c)) s.

Lemma csv_read_bare t field row rest m :
  m = Start ∨ m = Bare → csv_plain t = true →
  ∃ m', (m' = Start ∨ m' = Bare) ∧ csv_read m field row (t ++ rest) = csv_read m' (field ++ t) row rest.
Proof.
  revert field m. induction t as [|c t IH]; intros field m Hm Ht.
  - exists m. by rewrite str_app_nil_r.
  - unfold csv_plain in Ht. cbn [str_forall] in Ht. apply andb_true_iff in Ht as [Hc Ht].
    apply negb_true_iff in Hc. apply orb_false_iff in Hc as [Hc H3]. apply orb_false_iff in Hc as [H1 H2].
    destruct (IH (field ++ String c "") Bare) as (m' & Hm' & E); [by right|done|].
    exists m'. split; [done|].
    assert (field ++ String c t = (field ++ String c "") ++ t) as -> by by rewrite <-str_app_assoc.
    rewrite <-E. cbn [append csv_read]. rewrite H1, H2, H3. by destruct Hm as [-> | ->].
Qed.

(** How a field is written, and read back up to what follows it. *)
Definition csv_field (written value : string) : Prop :=
  ∀ row rest, ∃ m, (m = Start ∨ m = Bare ∨ m = AfterQuote) ∧
    csv_read Start "" row (written ++ rest) = csv_read m value row rest.

Lemma csv_field_quoted t : csv_field (quoted (double_quotes t)) t.
Proof. intros row rest. exists AfterQuote. split; [by right; right|]. apply csv_read_quoted. Qed.

Lemma csv_field_bare t : csv_plain t = true → csv_field t t.
Proof.
  intros Ht row rest. destruct (csv_read_bare t "" row rest Start) as (m & Hm & E); [by left|done|].
  exists m. split; [naive_solver|]. exact E.
Qed.

Lemma csv_read_sep m field row rest :
  m = Start ∨ m = Bare ∨ m = AfterQuote →
  csv_read m field row (String "," rest) = csv_read Start "" (row ++ [field])%list rest.
Proof. by intros [->|[->| ->]]. Qed.

Lemma csv_read_end m field row :
  m = Start ∨ m = Bare ∨ m = AfterQuote → csv_read m field row "" = Some [(row ++ [field])%list].
Proof. by intros [->|[->| ->]]. Qed.

Lemma csv_read_crlf m field row rest :
  m = Start ∨ m = Bare ∨ m = AfterQuote →
  csv_read m field row (crlf ++ rest) = cons (row ++ [field])%list <$> csv_read Start "" [] rest.
Proof. by intros [->|[->| ->]]. Qed.

(** A row of fields, before the end of the text or of the line. *)
Lemma csv_read_row written values row :
  Forall2 csv_field written values → written ≠ [] →
  csv_read Start "" row (join "," written) = Some [(row ++ values)%list] ∧
  ∀ rest, csv_read Start "" row (join "," written ++ crlf ++ rest)
          = cons (row ++ values)%list <$> csv_read Start "" [] rest.
Proof.
  intros H Hne. revert row. induction H as [|x v xs vs Hx Hxs IH]; intros row; [done|].
  destruct xs as [|y xs].
  - apply Forall2_nil_inv_l in Hxs as ->. unfold join in *. cbn [String.concat] in *. split.
    + destruct (Hx row "") as (m & Hm & E). rewrite str_app_nil_r in E. rewrite E. by apply csv_read_end.
    + intros rest. destruct (Hx row (crlf ++ rest)) as (m & Hm & E). rewrite E. by apply csv_read_crlf.
  - destruct (IH ltac:(done) (row ++ [v])%list) as [IH1 IH2].
    assert (join "," (x :: y :: xs) = x ++ String "," (join "," (y :: xs))) as -> by done.
    assert (row ++ v :: vs = (row ++ [v]) ++ vs)%list as -> by by rewrite <-(assoc_L (++)%list).
    split.
    + destruct (Hx row (String "," (join "," (y :: xs)))) as (m & Hm & E). rewrite E, csv_read_sep by done. apply IH1.
    + intros rest. rewrite <-str_app_assoc. cbn [append].
      destruct (Hx row (String "," (join "," (y :: xs) ++ crlf ++ rest))) as (m & Hm & E).
      rewrite E, csv_read_sep by done. apply IH2.
Qed.

Lemma csv_read_rows lines values :
  Forall2 (Forall2 csv_field) lines values → Forall (λ l, l ≠ []) lines → lines ≠ [] →
  csv_parse (join crlf (map (join ",") lines)) = Some values.
Proof.
  unfold csv_parse. intros H Hne. induction H as [|x v xs vs Hx Hxs IH]; [done|]. intros _.
  apply Forall_cons in Hne as [Hx0 Hne].
  destruct (csv_read_row x v [] Hx Hx0) as [H1 H2]. destruct xs as [|y xs].
  - apply Forall2_nil_inv_l in Hxs as ->. apply H1.
  - assert (join crlf (map (join ",") (x :: y :: xs))
            = join "," x ++ crlf ++ join crlf (map (join ",") (y :: xs))) as -> by done.
    rewrite H2. by rewrite IH.
Qed.

(** The CSV text with its cells as the code writes them. *)
Lemma csv_read_back first rest :
  Forall (λ k, csv_plain k = true) (csv_fields first) → csv_fields first ≠ [] →
  csv_parse (toCsv (first :: rest)) =
  Some (csv_fields first ::
        map (λ row, map (λ key, neutralized (cell_text (cell_of key row))) (csv_fields first)) (first :: rest)).
Proof.
  intros Hf Hne. unfold toCsv. set (fields := csv_fields first) in *.
  assert (map (λ row, join "," (map (λ key, csv_quote (cell_of key row)) fields)) (first :: rest) =
          map (join ",") (map (λ row, map (λ key, csv_quote (cell_of key row)) fields) (first :: rest))) as ->
    by by rewrite map_map.
  rewrite <-map_cons. apply csv_read_rows; [|constructor; [done|]|done].
  - constructor.
    + clear -Hf. induction Hf; constructor; [by apply csv_field_bare|done].
    + generalize (first :: rest). intros l. clear. induction l as [|row l IH]; constructor; [|done].
      clear IH. generalize fields as ks. induction ks as [|k ks IH]; cbn; constructor; [apply csv_field_quoted|done].
  - apply Forall_forall. intros l Hl. apply list_elem_of_fmap in Hl as (row & -> & _).
    clear -Hne. by destruct fields.
Qed.

(** [shown] is [text], but with an apostrophe in front when a spreadsheet would run it: when it
    starts with an equals, plus, minus or at sign, a tab or a carriage return. *)
Definition shown_as (text shown : string) : Prop :=
  let risky := ∃ c rest, text = String c rest ∧ (c ∈ list_ascii_of_string "=+-@" ∨ code c = 9 ∨ code c = 13) in
  risky ∧ shown = ("'" ++ text)%string ∨ ¬ risky ∧ shown = text.

Lemma formula_char_iff c :
  formula_char c = true ↔ c ∈ list_ascii_of_string "=+-@" ∨ code c = 9 ∨ code c = 13.
Proof.
  unfold formula_char. cbn [list_ascii_of_string]. rewrite !orb_true_iff, !Ascii.eqb_eq, !Z.eqb_eq. set_solver.
Qed.

Lemma neutralized_shown text : shown_as text (neutralized text).
Proof.
  unfold shown_as. destruct text as [|c text]; cbn [neutralized].
  { right. split; [|done]. by intros (c & rest & E & _). }
  destruct (formula_char c) eqn:E.
  - left. split; [|done]. exists c, text. split; [done|]. by apply formula_char_iff.
  - right. split; [|done]. intros (c' & rest & [= <- <-] & H). apply formula_char_iff in H. congruence.
Qed.

(** C40: A CSV report, whose column names need no quoting, reads back as its column names and the
    text of its cells, in order, whatever quotes, commas and line breaks the cells contain;
    only a text that a spreadsheet would run reads back with an apostrophe in front. *)
Theorem csv_roundtrip first rest :
  Forall (λ k, csv_plain k = true) (csv_fields first) → csv_fields first ≠ [] →
  ∃ lines, csv_parse (toCsv (first :: rest)) = Some (csv_fields first :: lines) ∧
    Forall2 (λ row line, Forall2 (λ key shown, shown_as (cell_text (cell_of key row)) shown)
                           (csv_fields first) line) (first :: rest) lines.
Proof.
  intros Hf Hne. eexists. split; [by apply csv_read_back|].
  apply Forall2_fmap_r, Forall_Forall2_diag, Forall_true. intros row.
  apply Forall2_fmap_r, Forall_Forall2_diag, Forall_true. intros key. apply neutralized_shown.
Qed.

(** No cell starts with a character that makes a spreadsheet run it. *)
Lemma neutralized_safe t :
  match neutralized t with String c _ => formula_char c = false | EmptyString => True end.
Proof. destruct t as [|c t]; [done|]. cbn. destruct (formula_char c) eqn:E; [reflexivity|]. by rewrite E. Qed.

Lemma csv_roundtrip_witness :
  let r := [("id", CText "1"); ("title", CText ("=SUM(" ++ String dquote ("a" ++ crlf ++ ",b)")));
            ("note", CNull)] in
  ∃ lines, csv_parse (toCsv [r]) = Some (["title"; "note"] :: lines) ∧
    lines = [["'=SUM(" ++ String dquote ("a" ++ crlf ++ ",b)"); ""]].
Proof.
  intros r. destruct (csv_roundtrip r []) as (lines & E & _);
    [repeat constructor|intros H; vm_compute in H; discriminate H|].
  exists lines. split; [exact E|]. vm_compute in E. by injection E as <-.
Defined.

(** ** Pages *)

Section pages.
Context {Tbl : Type → Type} `{!Prisma Tbl} (collate : string → Z).
Context (Hcollate : ∀ i j, collate i = collate j → i = j).
Implicit Types (w : World Tbl).

Definition by_id {R} (kr : string * R) : Z := collate kr.1.

(** The listing without pages. *)
Definition full_listing {R} (table : Db Tbl → Tbl R) (p : string → R → bool) w : list (string * R) :=
  findMany p by_id None (table (w_db w)).

Lemma listing_sorted {R} (table : Db Tbl → Tbl R) p w :
  StronglySorted (λ a b, by_id a <= by_id b) (full_listing table p w).
Proof.
  unfold full_listing. destruct (findMany_rows p by_id None (table (w_db w))) as (l & _ & Hs & ->).
  apply Sorted_StronglySorted; [|done]. intros a b c; lia.
Qed.

(** A listing that starts at a row of another is the rest of it. *)
Lemma listing_from {R} (table : Db Tbl → Tbl R) p w pre c r rest :
  full_listing table p w = (pre ++ (c, r) :: rest)%list →
  findMany (λ i r, p i r && (collate c <=? collate i)) by_id None (table (w_db w)) = (c, r) :: rest.
Proof.
  intros Hl. pose proof (listing_sorted table p w) as Hs. rewrite Hl in Hs.
  pose proof (findMany_NoDup p by_id None (table (w_db w))) as Hnd.
  fold (full_listing table p w) in Hnd. rewrite Hl in Hnd.
  assert (StronglySorted (λ a b, by_id a <= by_id b) ((c, r) :: rest)) as Hs2.
  { clear -Hs. induction pre as [|x pre IH]; [done|]. by inversion Hs; auto. }
  apply (StronglySorted_unique_strong (λ a b, by_id a <= by_id b)).
  - intros [i x] [j y] Hx Hy Hle Hge. apply findMany_all in Hx as [Hx _].
    assert (i = j) as -> by (apply Hcollate; unfold by_id in *; cbn in *; lia).
    assert ((j, y) ∈ full_listing table p w) as Hy2 by (rewrite Hl; apply elem_of_app; by right).
    apply findMany_all in Hy2 as [Hy2 _]. by simplify_eq.
  - pose proof (findMany_rows (λ i r, p i r && (collate c <=? collate i)) by_id None (table (w_db w)))
      as (l & _ & Hs' & ->). apply Sorted_StronglySorted; [|done]. intros a b d; lia.
  - done.
  - apply NoDup_Permutation.
    + apply (NoDup_fmap_1 fst), findMany_NoDup.
    + apply (NoDup_fmap_1 fst). rewrite fmap_app in Hnd. by apply NoDup_app in Hnd as (_ & _ & Hnd).
    + intros [i x]. rewrite findMany_all, andb_true_iff, Z.leb_le. split.
      * intros (Hi & Hp & Hc). assert ((i, x) ∈ full_listing table p w) as Hin by by apply findMany_all.
        rewrite Hl in Hin. apply elem_of_app in Hin as [Hin|Hin]; [|done]. exfalso.
        assert (by_id (i, x) <= by_id (c, r)) as Hle
          by (eapply (StronglySorted_app_1_elem_of (λ a b, by_id a <= by_id b)); [exact Hs|exact Hin|by left]).
        assert (i = c) as -> by (apply Hcollate; unfold by_id in *; cbn in *; lia).
        rewrite fmap_app in Hnd. apply NoDup_app in Hnd as (_ & Hd & _).
        apply (Hd c); [by apply (list_elem_of_fmap_2 fst _ (c, x))|by left].
      * intros Hin. assert ((i, x) ∈ full_listing table p w) as Hin' by (rewrite Hl; apply elem_of_app; by right).
        apply findMany_all in Hin' as [Hi Hp]. split; [done|]. split; [done|].
        apply elem_of_cons in Hin as [[= -> ->]|Hin]; [lia|].
        inversion Hs2 as [|? ? _ Hall]; subst. rewrite Forall_forall in Hall. apply (Hall _ Hin).
Qed.

Lemma page_of_listing {R} (table : Db Tbl → Tbl R) p n w :
  findMany p by_id (Some n) (table (w_db w)) = take n (findMany p by_id None (table (w_db w))).
Proof. apply findMany_take. intros i r j r' _ _ _ _ H. by apply Hcollate. Qed.

(** The page after the rows [pre]. *)
Lemma cursor_page_ok {R} (table : Db Tbl → Tbl R) p n pre rest w :
  full_listing table p w = (pre ++ rest)%list →
  cursor_page collate table p (fst <$> last pre) n w = (Ok (take n rest), w).
Proof.
  intros Hl. destruct (last pre) as [[c r]|] eqn:El; cbn.
  - apply last_Some in El as (pre' & ->).
    assert (full_listing table p w = pre' ++ (c, r) :: rest)%list as Hl' by by rewrite Hl, <-(assoc_L (++)%list).
    unfold find_unique, find_many, gets, mbind, M_bind, mret, M_ret. rewrite findUnique_rows.
    assert ((c, r) ∈ full_listing table p w) as Hin by (rewrite Hl'; set_solver).
    apply findMany_all in Hin as [Hc _]. unfold rows_of in Hc. rewrite Hc.
    change (λ kr : string * R, collate kr.1) with (by_id (R:=R)).
    rewrite page_of_listing. rewrite (listing_from table p w pre' c r rest Hl'). done.
  - apply last_None in El as ->. unfold find_many, gets. do 2 f_equal. cbn in Hl.
    change (λ kr : string * R, collate kr.1) with (by_id (R:=R)). rewrite page_of_listing.
    by rewrite <-Hl.
Qed.

(** What a report lists, with the identifier of every row. *)
Definition report_rows (job : ReportRow) (role : string) w : list (string * Fields) :=
  if bool_decide (rj_subject job = "tickets")
  then map (λ '(i, r), (i, ticket_record i r)) (full_listing d_tickets (ticket_clause job role) w)
  else map (λ '(i, r), (i, customer_record i r)) (full_listing d_customers (customer_clause job) w).

Lemma mapped_page {R} (table : Db Tbl → Tbl R) p (f : string * R → string * Fields) n pre rest w :
  (∀ x, (f x).1 = x.1) → map f (full_listing table p w) = (pre ++ rest)%list →
  (page ← cursor_page collate table p (fst <$> last pre) n; mret (map f page)) w = (Ok (take n rest), w).
Proof.
  intros Hf Hl. apply fmap_app_inv in Hl as (pre' & rest' & -> & -> & Hl).
  assert (fst <$> last (f <$> pre') = fst <$> last pre') as ->.
  { rewrite fmap_last. destruct (last pre'); cbn; [|done]. by rewrite Hf. }
  unfold mbind, M_bind. rewrite (cursor_page_ok table p n pre' rest' w Hl). unfold mret, M_ret.
  do 2 f_equal. change (map f) with (fmap (M:=list) f). by rewrite fmap_take.
Qed.

Lemma read_page_ok job role pre rest w :
  report_rows job role w = (pre ++ rest)%list →
  read_page collate job role (fst <$> last pre) w = (Ok (take BATCH_SIZE rest), w).
Proof.
  unfold report_rows, read_page. case_bool_decide; intros Hl;
    by apply mapped_page; [intros []|].
Qed.

Lemma last_take_app {A} n (pre rest : list A) :
  take n rest ≠ [] → last (pre ++ take n rest) = last (take n rest).
Proof.
  intros Hne. rewrite last_app. destruct (last (take n rest)) eqn:E; [done|]. by apply last_None in E.
Qed.

Definition too_many : error :=
  ConflictError ("Report exceeds " ++ pretty MAX_REPORT_ROWS ++ " rows; narrow the filters").

(** What reading a report gives, while nobody cancels it. *)
Lemma collect_from i job startedAt role w rest pre fuel :
  claim_held i startedAt i <$> (reports w !! i) = Some true →
  report_rows job role w = (pre ++ rest)%list →
  Z.of_nat (length pre) <= MAX_REPORT_ROWS →
  MAX_REPORT_ROWS + 2 * Z.of_nat BATCH_SIZE <= Z.of_nat (length pre) + Z.of_nat BATCH_SIZE * Z.of_nat fuel →
  collect collate fuel i job startedAt role (fst <$> last pre) (map snd pre) w =
  (if MAX_REPORT_ROWS <? Z.of_nat (length (pre ++ rest)%list) then Err too_many
   else Ok (Some (map snd (pre ++ rest)%list)), w).
Proof.
  assert (0 < BATCH_SIZE)%nat as Hb by (unfold BATCH_SIZE; lia).
  intros Hrun. revert pre rest. induction fuel as [|fuel IH]; intros pre rest Hl Hmax Hfuel; [lia|].
  cbn [collect]. unfold mbind at 1, M_bind. rewrite (read_page_ok job role pre rest w Hl).
  destruct (last (take BATCH_SIZE rest)) as [[lastId x]|] eqn:El.
  2:{ apply last_None in El. destruct rest as [|y rest]; [|done]. rewrite app_nil_r.
      unfold mret, M_ret. destruct (Z.ltb_spec MAX_REPORT_ROWS (Z.of_nat (length pre))); [lia|done]. }
  set (pre' := (pre ++ take BATCH_SIZE rest)%list).
  assert (map snd pre ++ map snd (take BATCH_SIZE rest) = map snd pre')%list as -> by (unfold pre'; by rewrite map_app).
  assert (pre ++ rest = pre' ++ drop BATCH_SIZE rest)%list as Hsplit
    by (unfold pre'; by rewrite <-(assoc_L (++)%list), take_drop).
  rewrite length_map. destruct (Z.ltb_spec MAX_REPORT_ROWS (Z.of_nat (length pre'))) as [Hbig|Hsmall].
  { rewrite Hsplit, length_app. destruct (Z.ltb_spec MAX_REPORT_ROWS (Z.of_nat (length pre' + length (drop BATCH_SIZE rest)))); [done|lia]. }
  assert (still_running i startedAt w = (Ok true, w)) as Er.
  { unfold still_running, find_unique, gets, mbind, M_bind, mret, M_ret. rewrite findUnique_rows.
    unfold rows_of in Hrun. destruct (rows _ !! i) as [r|]; [|done]. cbn in Hrun. injection Hrun as Hrun.
    unfold claim_held in Hrun. rewrite bool_decide_eq_true_2 in Hrun by done. cbn in Hrun. by rewrite Hrun. }
  unfold mbind, M_bind. rewrite Er. cbn [negb].
  destruct (Nat.ltb_spec (length (take BATCH_SIZE rest)) BATCH_SIZE) as [Hshort|Hfull].
  - assert (drop BATCH_SIZE rest = []) as Hd by (apply drop_ge; rewrite length_take in Hshort; lia).
    rewrite Hsplit, Hd, app_nil_r. unfold mret, M_ret.
    destruct (Z.ltb_spec MAX_REPORT_ROWS (Z.of_nat (length pre'))); [lia|done].
  - assert (Some lastId = fst <$> last pre') as ->
      by (unfold pre'; rewrite last_take_app, El; [done|]; intros E; by rewrite E in El).
    rewrite Hsplit. apply IH; [by rewrite <-Hsplit|done|].
    unfold pre'. rewrite length_app. lia.
Qed.

(** However many rows there are, the pages add up to the full listing, or the report is
    refused for its size; the pages never run out. *)
Theorem collect_complete i job startedAt role w :
  claim_held i startedAt i <$> (reports w !! i) = Some true →
  collect collate PAGES i job startedAt role None [] w =
  (if MAX_REPORT_ROWS <? Z.of_nat (length (report_rows job role w)) then Err too_many
   else Ok (Some (map snd (report_rows job role w))), w).
Proof.
  intros Hrun. apply (collect_from i job startedAt role w (report_rows job role w) [] PAGES);
    [done|done|done|vm_compute; congruence].
Qed.
End pages.

Section permissions.
Context {Tbl : Type → Type} `{!Prisma Tbl}.
Implicit Types (w : World Tbl).

Lemma permission_assert_ok subject p w w' :
  permission_assert subject p w = (Ok tt, w') → w' = w ∧ p ∈ effective w subject.
Proof.
  unfold permission_assert, permission_has, mbind, M_bind, mret, M_ret, throw.
  rewrite effective_run. case_bool_decide; [by intros [= <-]|done].
Qed.

Lemma assertAllowed_ok subject s w w' :
  assertAllowed subject s w = (Ok tt, w') →
  w' = w ∧ Forall (λ p, p ∈ effective w subject) (SUBJECT_PERMISSIONS s).
Proof.
  unfold assertAllowed. generalize (SUBJECT_PERMISSIONS s) as l. intros l. revert w'.
  induction l as [|p l IH]; intros w' H; cbn [for_each] in H; [unfold mret, M_ret in H; by inv_ok|].
  apply M_bind_ok in H as ([] & w1 & E & H). apply permission_assert_ok in E as [-> E].
  apply IH in H as [-> H]. split; [done|]. by constructor.
Qed.

Lemma assertAllowed_keeps subject s : Keeps (λ w : World Tbl, w) (assertAllowed subject s).
Proof.
  apply keeps_for_each. intros p w. unfold permission_assert, permission_has, mbind, M_bind, mret, M_ret, throw.
  rewrite effective_run. by case_bool_decide.
Qed.
Lemma get_now_same w a w1 : get_now w = (Ok a, w1) → a = w_now w1 ∧ w1 = w.
Proof. unfold get_now, gets. by intros [= <- <-]. Qed.
End permissions.

(** ** A completed report *)

Section process.
Context {Tbl : Type → Type} `{!Prisma Tbl} (storage : StorageProvider Tbl) `{!StorageLaws storage}.
Context (collate : string → Z) (Hcollate : ∀ i j, collate i = collate j → i = j).
Implicit Types (w : World Tbl).

(** What the requester asked for. *)
Definition asked_status (job : ReportRow) (status : string) : Prop :=
  ∀ s, get_field "status" (rj_filters job) = Some s → s ≠ "" → status = s.
Definition asked_period (job : ReportRow) (createdAt : Z) : Prop :=
  (∀ s, get_field "dateFrom" (rj_filters job) = Some s → s ≠ "" → parse_datetime s <= createdAt) ∧
  (∀ s, get_field "dateTo" (rj_filters job) = Some s → s ≠ "" → createdAt <= parse_datetime s).

(** The rows a report is about: those of the requester's organization, for an agent only the
    tickets assigned to them, that have the status and the date asked for. *)
Definition in_report (job : ReportRow) (role : string) w (x : string * Fields) : Prop :=
  if bool_decide (rj_subject job = "tickets")
  then ∃ r, rows_of d_tickets w !! x.1 = Some r ∧ x.2 = ticket_record x.1 r ∧
         ti_tenantId r = rj_tenantId job ∧
         (role = "AGENT" → ti_assignedAgentId r = Some (rj_requestedById job)) ∧
         asked_status job (enum_string (ti_status r)) ∧ asked_period job (ti_createdAt r)
  else ∃ r, rows_of d_customers w !! x.1 = Some r ∧ x.2 = customer_record x.1 r ∧
         cu_tenantId r = rj_tenantId job ∧
         asked_status job (customer_status_string (cu_status r)) ∧ asked_period job (cu_createdAt r).

Lemma has_status_iff job status : has_status (rj_filters job) status = true ↔ asked_status job status.
Proof.
  unfold has_status, asked_status. destruct (get_field _ _) as [s|]; [|naive_solver].
  rewrite orb_true_iff, bool_decide_eq_true. destruct s as [|c s]; cbn; naive_solver.
Qed.

Lemma bound_iff (o : option string) (within : Z → bool) (P : Z → Prop) :
  (∀ t, within t = true ↔ P t) →
  match o with Some s => if str_truthy s then within (parse_datetime s) else true | None => true end = true ↔
  ∀ s, o = Some s → s ≠ "" → P (parse_datetime s).
Proof. intros H. destruct o as [[|c s]|]; cbn [str_truthy]; [|rewrite H|]; naive_solver. Qed.

Lemma in_period_iff job t : in_period (rj_filters job) t = true ↔ asked_period job t.
Proof.
  unfold in_period, asked_period. rewrite andb_true_iff.
  rewrite (bound_iff _ (λ u, u <=? t) (λ u, u <= t)), (bound_iff _ (λ u, t <=? u) (λ u, t <= u)); [done|..];
    intros u; apply Z.leb_le.
Qed.

Lemma report_rows_iff job role w x : x ∈ report_rows collate job role w ↔ in_report job role w x.
Proof.
  unfold report_rows, in_report, full_listing. destruct x as [i fields]. cbn [fst snd].
  case_bool_decide; rewrite list_elem_of_fmap; split.
  - intros ([j r] & [= -> ->] & [Hj Hc]%findMany_all). unfold ticket_clause in Hc.
    rewrite !andb_true_iff, has_status_iff, in_period_iff, orb_true_iff, negb_true_iff, !bool_decide_eq_true,
      bool_decide_eq_false in Hc. exists r. naive_solver.
  - intros (r & Hi & -> & Ht & Ha & Hs & Hp). exists (i, r). split; [done|]. apply findMany_all. split; [done|].
    unfold ticket_clause. rewrite !andb_true_iff, has_status_iff, in_period_iff, orb_true_iff, negb_true_iff,
      !bool_decide_eq_true, bool_decide_eq_false. destruct (decide (role = "AGENT")); naive_solver.
  - intros ([j r] & [= -> ->] & [Hj Hc]%findMany_all). unfold customer_clause in Hc.
    rewrite !andb_true_iff, has_status_iff, in_period_iff, !bool_decide_eq_true in Hc. exists r. naive_solver.
  - intros (r & Hi & -> & Ht & Hs & Hp). exists (i, r). split; [done|]. apply findMany_all. split; [done|].
    unfold customer_clause. rewrite !andb_true_iff, has_status_iff, in_period_iff, !bool_decide_eq_true. naive_solver.
Qed.

Lemma report_rows_ids job role w : NoDup (report_rows collate job role w).*1.
Proof.
  unfold report_rows. case_bool_decide; rewrite <-list_fmap_compose;
    (erewrite list_fmap_ext; [apply findMany_NoDup|by intros ? [] _]).
Qed.

(** C5: A report that completes was asked for by an active member of the organization, who
    still holds the permissions for its subject; the file it points to holds exactly the rows
    of the organization with the status and date asked for, each once; for an agent, only
    the tickets assigned to them. *)
Theorem report_complete i job startedAt w w' :
  process storage collate i job startedAt w = (Ok true, w') →
  claim_held i startedAt i <$> (reports w !! i) = Some true →
  ∃ u r' path key f listed,
    rows_of d_users w !! rj_requestedById job = Some u ∧ us_tenantId u = Some (rj_tenantId job) ∧
    us_status u = UActive ∧
    Forall (λ p, p ∈ effective w (mkSubject (rj_requestedById job) (role_string (us_role u))
                   (us_tenantId u))) (SUBJECT_PERMISSIONS (rj_subject job)) ∧
    (∀ x, x ∈ listed ↔ in_report job (role_string (us_role u)) w x) ∧ NoDup listed.*1 ∧
    Z.of_nat (length listed) <= MAX_REPORT_ROWS ∧
    reports w' !! i = Some r' ∧ rj_status r' = "COMPLETED" ∧ rj_storagePath r' = Some path ∧
    rj_rowCount r' = Some (Z.of_nat (length listed)) ∧ rj_expiresAt r' = Some (w_now w + REPORT_LIFETIME_MS) ∧
    locate path = Some key ∧ w_files w' !! key = Some f ∧ sf_content f = content job (map snd listed).
Proof using All.
  intros H Hrun. unfold process in H. apply M_bind_ok in H as (o & w1 & E & H).
  destruct o as [[userId u]|]; [|done].
  apply find_first_some in E as (-> & Hu & Hp). bool_to_prop. subst userId.
  apply M_bind_ok in H as ([] & w1 & E & H). apply assertAllowed_ok in E as [-> Hperm].
  apply M_bind_ok in H as (o & w1 & E & H). rewrite collect_complete in E by done.
  set (listed := report_rows collate job (role_string (us_role u)) w) in *.
  destruct (Z.ltb_spec MAX_REPORT_ROWS (Z.of_nat (length listed))) as [|Hmax]; [done|].
  injection E as <- <-.
  apply M_bind_ok in H as (up & w1 & E & H).
  pose proof (keeps_run (λ w, w_db w) _ _ _ _ E ltac:(apply upload_frame; intros; by upd_simpl)) as Hdb.
  pose proof (keeps_run w_now _ _ _ _ E ltac:(apply upload_frame; intros; by upd_simpl)) as Hnow.
  cbv beta in Hdb. apply upload_stored in E as (key & f & Hkey & Hf & Hfiles).
  apply M_bind_ok in H as (now & w2 & E & H). unfold get_now, gets in E. injection E as <- <-.
  apply M_bind_ok in H as (n & w2 & E & H).
  destruct (negb (n =? 1)) eqn:En.
  { apply M_bind_ok in H as ([] & w3 & _ & H). unfold mret, M_ret in H. by inv_ok. }
  apply negb_false_iff, Z.eqb_eq in En as ->.
  pose proof (keeps_run w_files _ _ _ _ E ltac:(apply keeps_update_many; intros; by upd_simpl)) as Hfiles2.
  apply (update_many_one d_reports i) in E as (r & Hr & _ & Hrows);
    [|intros j r Hj; unfold claim_held in Hj; by bool_to_prop].
  apply M_bind_ok in H as ([] & w3 & E & H). unfold mret, M_ret in H. inv_ok.
  pose proof (keeps_run (rows_of d_reports) _ _ _ _ E ltac:(keeps_tac)) as Hrep.
  pose proof (keeps_run w_files _ _ _ _ E ltac:(keeps_tac)) as Hfiles3.
  eexists u, _, (ur_storagePath up), key, f, listed.
  split_and!; try done; try apply report_rows_iff; try apply report_rows_ids; rewrite ?Hrep, ?Hrows, ?Hfiles3, ?Hfiles2, ?Hfiles; try apply lookup_insert_eq;
    try (destruct r; cbn; by rewrite ?length_map, ?Hnow).
Qed.
End process.

(** ** The life cycle *)

(** What may happen to a report at time [now]. *)
Inductive moved (now : Z) (r : ReportRow) : ReportRow → Prop :=
| mv_claim : report_claimable (now - STALE_RUN_MS) r = true →
    moved now r (r <| rj_status := "RUNNING" |> <| rj_startedAt := Some now |> <| rj_updatedAt := now |>)
| mv_complete path n : rj_status r = "RUNNING" →
    moved now r (r <| rj_status := "COMPLETED" |> <| rj_storagePath := Some path |>
                   <| rj_rowCount := Some n |> <| rj_error := None |>
                   <| rj_expiresAt := Some (now + REPORT_LIFETIME_MS) |> <| rj_updatedAt := now |>)
| mv_fail e : rj_status r = "RUNNING" →
    moved now r (r <| rj_status := "FAILED" |> <| rj_error := Some e |> <| rj_updatedAt := now |>)
| mv_cancel : includes ["PENDING"; "RUNNING"] (rj_status r) = true →
    moved now r (r <| rj_status := "CANCELLED" |> <| rj_updatedAt := now |>)
| mv_expire : rj_status r = "COMPLETED" →
    moved now r (r <| rj_status := "EXPIRED" |> <| rj_storagePath := None |> <| rj_updatedAt := now |>).

Definition final (r : ReportRow) : bool := includes ["EXPIRED"; "FAILED"; "CANCELLED"] (rj_status r).

(** One report moves, or old records of finished reports are removed. *)
Inductive report_step (now : Z) (m : gmap string ReportRow) : gmap string ReportRow → Prop :=
| rs_move i r r' : m !! i = Some r → moved now r r' → report_step now m (<[i := r']> m)
| rs_purge m' : (∀ i r, m' !! i = Some r → m !! i = Some r) →
    (∀ i r, m !! i = Some r → m' !! i = None → final r = true ∧ rj_updatedAt r < now - RECORD_RETENTION_MS) →
    report_step now m m'.

(** In the abstract: a report that failed, was cancelled or expired stays as it is. *)
Lemma final_not_moved now r r' : moved now r r' → final r = false.
Proof.
  unfold final. intros H. destruct H as [H|? ? H|? H|H|H]; try (rewrite H; reflexivity).
  - unfold report_claimable in H. apply orb_true_iff in H as [H|H]; [|apply andb_true_iff in H as [H _]];
      apply bool_decide_eq_true in H; rewrite H; reflexivity.
  - apply includes_true in H. apply elem_of_cons in H as [->|H]; [reflexivity|].
    apply list_elem_of_singleton in H as ->. reflexivity.
Qed.

Lemma final_stays now m m' i r :
  rtc (report_step now) m m' → m !! i = Some r → final r = true → m' !! i = Some r ∨ m' !! i = None.
Proof.
  intros H. induction H as [m|m1 m2 m3 Hs Hrest IH]; intros Hi Hf; [by left|].
  destruct Hs as [j x x' Hj Hm|m2 Hsub Hold].
  - apply IH; [|done]. rewrite lookup_insert_ne; [done|]. intros ->. simplify_eq.
    apply final_not_moved in Hm. congruence.
  - destruct (m2 !! i) as [r2|] eqn:E; [apply Hsub in E as E'; simplify_eq; by apply IH|].
    right. clear IH Hi Hold Hsub. induction Hrest as [|m2 m3 m4 Hs _ IH]; [done|]. apply IH.
    destruct Hs as [j x x' Hj Hm|m3 Hsub _]; [rewrite lookup_insert_ne; congruence|].
    destruct (m3 !! i) eqn:E3; [apply Hsub in E3; congruence|done].
Qed.

Section lifecycle.
Context {Tbl : Type → Type} `{!Prisma Tbl} (storage : StorageProvider Tbl) `{!StorageLaws storage}.
Context (collate : string → Z).
Implicit Types (w : World Tbl).

Definition sim_at {A} w (m : W Tbl A) : Prop :=
  w_now (m w).2 = w_now w ∧ rtc (report_step (w_now w)) (reports w) (reports (m w).2).

Lemma sim_keeps {A} w (m : W Tbl A) : Keeps w_now m → Keeps (rows_of d_reports) m → sim_at w m.
Proof. intros H1 H2. split; [apply H1|]. rewrite H2. apply rtc_refl. Qed.

Lemma sim_bind {A B} w (m : W Tbl A) (k : A → W Tbl B) :
  sim_at w m → (∀ a w1, m w = (Ok a, w1) → sim_at w1 (k a)) → sim_at w (m ≫= k).
Proof.
  intros [Hn Hm] Hk. unfold sim_at, mbind, M_bind. destruct (m w) as [[a|e] w1] eqn:E; cbn in *; [|done].
  destruct (Hk a w1 eq_refl) as [Hn' Hm']. split; [congruence|]. rewrite Hn in Hm'. by etrans.
Qed.

Lemma sim_try {A} w (m : W Tbl A) (h : error → W Tbl A) :
  sim_at w m → (∀ e w1, m w = (Err e, w1) → sim_at w1 (h e)) → sim_at w (try_catch m h).
Proof.
  intros [Hn Hm] Hh. unfold sim_at, try_catch. destruct (m w) as [[a|e] w1] eqn:E; cbn in *; [done|].
  destruct (Hh e w1 eq_refl) as [Hn' Hm']. split; [congruence|]. rewrite Hn in Hm'. by etrans.
Qed.

Lemma sim_for_each {A} (body : A → W Tbl unit) xs w : (∀ x w, sim_at w (body x)) → sim_at w (for_each body xs).
Proof.
  intros H. revert w. induction xs as [|x xs IH]; intros w; [by apply sim_keeps; apply keeps_ret|].
  apply sim_bind; auto.
Qed.

(** An update of one report that the life cycle allows. *)
Lemma sim_update i p d w :
  (∀ j r, p j r = true → j = i) → (∀ r, p i r = true → moved (w_now w) r (d r)) →
  sim_at w (update_many d_reports p d).
Proof.
  intros Hkey Hd. split; [apply keeps_update_many; frame_side|].
  pose proof (update_many_rows d_reports p d w) as Hr. set (m' := rows_of _ _) in *.
  destruct (reports w !! i) as [r|] eqn:Hi; [destruct (p i r) eqn:Hp|].
  - assert (m' = <[i := d r]> (reports w)) as ->; [|by eapply rtc_once, rs_move, Hd].
    apply map_eq. intros j. rewrite Hr. destruct (decide (j = i)) as [->|Hne].
    + rewrite Hi, lookup_insert_eq. cbn. by rewrite Hp.
    + rewrite lookup_insert_ne by done. destruct (reports w !! j) as [x|]; [|done]. cbn.
      destruct (p j x) eqn:Hj; [by apply Hkey in Hj|done].
  - assert (m' = reports w) as ->; [|apply rtc_refl]. apply map_eq. intros j. rewrite Hr.
    destruct (reports w !! j) as [x|] eqn:Hx; [|done]. cbn. destruct (p j x) eqn:Hj; [|done].
    apply Hkey in Hj as Hj'. subst. congruence.
  - assert (m' = reports w) as ->; [|apply rtc_refl]. apply map_eq. intros j. rewrite Hr.
    destruct (reports w !! j) as [x|] eqn:Hx; [|done]. cbn. destruct (p j x) eqn:Hj; [|done].
    apply Hkey in Hj as Hj'. subst. congruence.
Qed.

Lemma sim_ret {A} w (a : A) : sim_at w (mret a).
Proof. apply sim_keeps; apply keeps_ret. Qed.

Lemma sim_read {A} w (m : W Tbl A) : Keeps (λ w, w) m → sim_at w m.
Proof. intros H. apply sim_keeps; intros w1; by rewrite (H w1). Qed.

Lemma sim_storage_delete w p : sim_at w (storage_delete storage p).
Proof. apply sim_keeps; apply delete_frame; intros; [by upd_simpl|unfold rows_of; by upd_simpl]. Qed.

Lemma sim_storage_upload w c o : sim_at w (upload storage c o).
Proof. apply sim_keeps; apply upload_frame; intros; try (unfold rows_of; by upd_simpl); by upd_simpl. Qed.

Lemma collect_keeps fuel i job startedAt role cursor records :
  Keeps (λ w : World Tbl, w) (collect collate fuel i job startedAt role cursor records).
Proof.
  revert cursor records. induction fuel as [|fuel IH]; intros cursor records; [apply keeps_throw|].
  cbn [collect]. apply keeps_bind; [keeps_tac|]. intros page. destruct (last page) as [[x f]|]; [|apply keeps_ret].
  cbv zeta. destruct (_ <? _); [apply keeps_throw|].
  apply keeps_bind; [keeps_tac|]. intros b. destruct (negb b); [apply keeps_ret|].
  destruct (_ <? _)%nat; [apply keeps_ret|apply IH].
Qed.

Lemma claim_held_key i s j r : claim_held i s j r = true → j = i.
Proof. unfold claim_held. intros H. by bool_to_prop. Qed.

Lemma claim_held_running i s j r : claim_held i s j r = true → rj_status r = "RUNNING".
Proof. unfold claim_held. intros H. by bool_to_prop. Qed.

Lemma process_sim i job startedAt w : sim_at w (process storage collate i job startedAt).
Proof.
  unfold process. apply sim_bind; [apply sim_read; keeps_tac|]. intros [[userId u]|] w1 _;
    [|apply sim_keeps; apply keeps_throw].
  apply sim_bind; [apply sim_read, assertAllowed_keeps|]. intros [] w2 _.
  apply sim_bind; [apply sim_read, collect_keeps|]. intros [records|] w3 _; [|apply sim_ret]. cbv zeta.
  apply sim_bind; [apply sim_storage_upload|]. intros up w4 _.
  apply sim_bind; [apply sim_read; keeps_tac|]. intros now w5 [-> _]%get_now_same.
  apply sim_bind.
  { apply (sim_update i); [apply claim_held_key|]. intros r Hr. apply mv_complete. by eapply claim_held_running. }
  intros n w6 _. destruct (negb (n =? 1)).
  - apply sim_bind; [apply sim_storage_delete|]. intros [] w7 _. apply sim_ret.
  - apply sim_bind; [apply sim_keeps; keeps_tac|]. intros [] w7 _. apply sim_ret.
Qed.

Lemma run_report_sim staleBefore job w :
  staleBefore = w_now w - STALE_RUN_MS → sim_at w (run_report storage collate staleBefore job).
Proof.
  intros ->. destruct job as [i r]. cbn [run_report].
  apply sim_bind; [apply sim_read; keeps_tac|]. intros s w1 [-> ->]%get_now_same.
  apply sim_bind.
  { apply (sim_update i); intros; bool_to_prop; [done|]. by apply mv_claim. }
  intros n w2 _. destruct (negb (n =? 1)); [apply sim_ret|].
  apply sim_try.
  - apply sim_bind; [apply process_sim|]. intros b w3 _. apply sim_ret.
  - intros e w3 _. unfold fail_report.
    apply sim_bind; [apply sim_read; keeps_tac|]. intros now w4 [-> _]%get_now_same.
    apply sim_bind; [|intros; apply sim_ret].
    apply (sim_update i); [apply claim_held_key|]. intros x Hx. apply mv_fail. by eapply claim_held_running.
Qed.

Lemma expire_one_sim job w : sim_at w (expire_one storage job).
Proof.
  destruct job as [i r]. cbn [expire_one].
  apply sim_bind; [destruct (rj_storagePath r) as [p|]; [destruct (str_truthy p)|];
                   first [apply sim_storage_delete|apply sim_ret]|]. intros [] w1 _.
  apply sim_bind; [apply sim_read; keeps_tac|]. intros now w2 [-> _]%get_now_same.
  apply sim_bind; [|intros; apply sim_ret].
  apply (sim_update i); intros; bool_to_prop; [done|]. by apply mv_expire.
Qed.

Lemma purge_sim w : sim_at w purgeRecords.
Proof.
  unfold purgeRecords. apply sim_bind; [apply sim_read; keeps_tac|]. intros now w1 [-> _]%get_now_same.
  apply sim_bind; [|intros; apply sim_ret]. split; [apply keeps_delete_many; frame_side|].
  apply rtc_once, rs_purge; destruct (delete_many _ _ _) as [[n|e] w2] eqn:E; cbn [snd];
    [| unfold delete_many in E; by destruct (deleteMany _ _)
     | |unfold delete_many in E; by destruct (deleteMany _ _)];
    pose proof (delete_many_ok d_reports _ _ _ _ E) as Hd; intros i r Hi.
  - rewrite Hd in Hi. destruct (reports w1 !! i) as [x|]; [|done]. cbn in Hi. by destruct (_ && _).
  - intros Hno. rewrite Hd, Hi in Hno. cbn in Hno. destruct (_ && _) eqn:Eb; [|done].
    apply andb_true_iff in Eb as [H1 H2%Z.ltb_lt]. done.
Qed.

Lemma for_each_sim_now {A} (body : A → W Tbl unit) now xs w :
  w_now w = now → (∀ x w, w_now w = now → sim_at w (body x)) → sim_at w (for_each body xs).
Proof.
  intros Hn H. revert w Hn. induction xs as [|x xs IH]; intros w Hn; [apply sim_ret|].
  apply sim_bind; [by apply H|]. intros a w1 E. apply IH. destruct (H x w Hn) as [H1 _]. rewrite E in H1. cbn in H1. congruence.
Qed.

(** C8: Whatever the reports are, and whether it throws or not, a run of the worker moves them
    along the life cycle only: a claim takes a pending report or one whose worker is
    overdue, only a running report completes or fails, only a completed one expires, and a
    record is removed when it is final and old. *)
Theorem worker_follows_lifecycle w :
  rtc (report_step (w_now w)) (reports w) (reports (processPending storage collate w).2).
Proof.
  assert (sim_at w (processPending storage collate)) as [_ H]; [|exact H].
  unfold processPending, expireFiles. apply sim_bind.
  { apply sim_bind; [apply sim_read; keeps_tac|]. intros now w1 _.
    apply sim_bind; [apply sim_read; keeps_tac|]. intros l w2 _. apply sim_for_each, expire_one_sim. }
  intros [] w1 _. apply sim_bind; [apply purge_sim|]. intros [] w2 _.
  apply sim_bind; [apply sim_read; keeps_tac|]. intros now w3 [-> _]%get_now_same. cbv zeta.
  apply sim_bind; [apply sim_read; keeps_tac|]. intros l w4 E.
  assert (w4 = w3) as -> by (apply (reads_only _ _ _ _ E); keeps_tac).
  apply (for_each_sim_now _ (w_now w3)); [done|]. intros job w5 Hn. apply run_report_sim. by rewrite Hn.
Qed.

(** A cancellation, too. *)
Lemma cancel_follows_lifecycle i tenantId requesterId w :
  rtc (report_step (w_now w)) (reports w) (reports (cancel_report i tenantId requesterId w).2).
Proof.
  assert (sim_at w (cancel_report i tenantId requesterId)) as [_ H]; [|exact H]. unfold cancel_report.
  apply sim_bind; [apply sim_read; keeps_tac|]. intros now w1 [-> _]%get_now_same.
  apply sim_bind.
  { apply (sim_update i); intros; bool_to_prop; [done|]. by apply mv_cancel. }
  intros n w2 _. destruct (n =? 1); [apply sim_ret|]. apply sim_read. keeps_tac.
Qed.
End lifecycle.

(** ** Downloads *)

Section downloads.
Context {Tbl : Type → Type} `{!Prisma Tbl} (storage : StorageProvider Tbl).
Implicit Types (w : World Tbl).

(** A link is issued only to who asked for the report, in the same organization, while the
    report is there and the permissions for its subject are still held. *)
Theorem download_authorized i tenantId requesterId role w x w' :
  getDownloadUrl storage i tenantId requesterId role w = (Ok x, w') →
  ∃ r path t, reports w !! i = Some r ∧ rj_tenantId r = tenantId ∧ rj_requestedById r = requesterId ∧
    rj_status r = "COMPLETED" ∧ rj_storagePath r = Some path ∧ rj_expiresAt r = Some t ∧ w_now w < t ∧
    Forall (λ p, p ∈ effective w (mkSubject requesterId role (Some tenantId))) (SUBJECT_PERMISSIONS (rj_subject r)).
Proof.
  unfold getDownloadUrl, get_report. intros H. apply M_bind_ok in H as ([j r] & w1 & E & H).
  apply M_bind_ok in E as (o & w2 & E & E'). destruct o as [[j' r']|]; [|done].
  apply find_first_some in E as (-> & Hr & Hp). unfold mret, M_ret in E'. injection E' as -> -> <-.
  bool_to_prop. subst j.
  apply M_bind_ok in H as (now & w2 & E & H). apply get_now_same in E as [-> ->].
  destruct (bool_decide _) eqn:Es; [|done]. destruct (rj_storagePath r) as [path|] eqn:Ep; [|done].
  destruct (rj_expiresAt r) as [t|] eqn:Et; [|done]. destruct (_ || _) eqn:Eb; [done|]. bool_to_prop.
  apply M_bind_ok in H as ([] & w3 & E & _). apply assertAllowed_ok in E as [_ E]. eauto 15.
Qed.
End downloads.

(** ** Concrete runs *)

Definition by_encoding (s : string) : Z := Z.pos (encode s).

Lemma by_encoding_inj i j : by_encoding i = by_encoding j → i = j.
Proof. unfold by_encoding. intros [= H]. by apply (inj encode) in H. Qed.

Definition report (status : string) (startedAt : option Z) (path : option string) (expires : option Z) : ReportRow :=
  mkReportRow "t1" "u1" "export" "tickets" "csv" [] status startedAt path None None expires 0 0.

Definition ticket (title : string) (agent : option string) : TicketRow :=
  mkTicketRow "t1" 1 "c1" agent "u1" title "d" OPEN MEDIUM "billing" [] "WEB" false None None None None None
    None false [] None 0 0.

Definition office (files : gmap string StoredFile) (l : list (string * ReportRow)) : World (gmap string) :=
  (world_of 1000000 (empty_db
    <| d_users := {["u1" := mkUserRow (Some "t1") "ann@acme.io" None "Ann" "Lee" TENANT_MANAGER UActive None None
                              "UTC" "en" (Some 0) None None 0 None (JObj []) 0 0]} |>
    <| d_tenants := {["t1" := mkTenantRecord "Acme" "acme" "ACTIVE" "pro" None None 5 100 10
                                (JObj []) None None 0 0]} |>
    <| d_tickets := {["k1" := ticket "=cmd" None; "k2" := ticket "Hello" (Some "u2")]} |>
    <| d_reports := list_to_map l |>)) <| w_files := files |>.

Lemma report_complete_witness :
  ∃ w' r', process MemoryStorageProvider by_encoding "r1" (report "PENDING" None None None) 1000000
    (office ∅ [("r1", report "RUNNING" (Some 1000000) None None)]) = (Ok true, w') ∧
    rows_of d_reports w' !! "r1" = Some r' ∧ rj_status r' = "COMPLETED".
Proof.
  assert (∃ w', process MemoryStorageProvider by_encoding "r1" (report "PENDING" None None None) 1000000
    (office ∅ [("r1", report "RUNNING" (Some 1000000) None None)]) = (Ok true, w')) as (w' & E)
    by (eexists; vm_compute; reflexivity).
  destruct (report_complete MemoryStorageProvider by_encoding by_encoding_inj "r1" _ _ _ w' E eq_refl)
    as (u & r' & path & key & f & listed & _ & _ & _ & _ & _ & _ & _ & Hr & Hs & _).
  exists w', r'. split; [exact E|]. split; [exact Hr|exact Hs].
Defined.

Lemma collect_complete_witness :
  ∃ rows, collect by_encoding PAGES "r1" (report "RUNNING" (Some 5) None None) 5 "AGENT" None []
    (office ∅ [("r1", report "RUNNING" (Some 5) None None)]) =
    (Ok (Some rows), office ∅ [("r1", report "RUNNING" (Some 5) None None)]).
Proof.
  assert (claim_held "r1" 5 "r1" <$> (rows_of d_reports (office ∅ [("r1", report "RUNNING" (Some 5) None None)]) !! "r1")
          = Some true) as Hrun by (vm_compute; reflexivity).
  eexists. refine (eq_trans (collect_complete by_encoding by_encoding_inj "r1" _ 5 "AGENT" _ Hrun) _).
  vm_compute. reflexivity.
Defined.

Lemma worker_follows_lifecycle_witness :
  let w := office ∅ [("r1", report "PENDING" None None None)] in
  let w' := (processPending MemoryStorageProvider by_encoding w).2 in
  rj_status <$> (rows_of d_reports w' !! "r1") = Some "COMPLETED" ∧
  rtc (report_step (w_now w)) (rows_of d_reports w) (rows_of d_reports w').
Proof.
  split; [vm_compute; reflexivity|].
  apply (worker_follows_lifecycle MemoryStorageProvider by_encoding).
Defined.

Lemma download_authorized_witness :
  ∃ x w', getDownloadUrl MemoryStorageProvider "r1" "t1" "u1" "TENANT_MANAGER"
    (office ∅ [("r1", report "COMPLETED" None (Some "p") (Some 2000000))]) = (Ok x, w') ∧
    ∃ r, rows_of d_reports (office ∅ [("r1", report "COMPLETED" None (Some "p") (Some 2000000))]) !! "r1" = Some r ∧
      rj_tenantId r = "t1".
Proof.
  assert (∃ x w', getDownloadUrl MemoryStorageProvider "r1" "t1" "u1" "TENANT_MANAGER"
    (office ∅ [("r1", report "COMPLETED" None (Some "p") (Some 2000000))]) = (Ok x, w')) as (x & w' & E)
    by (eexists _, _; vm_compute; reflexivity).
  exists x, w'. split; [exact E|].
  destruct (download_authorized MemoryStorageProvider "r1" "t1" "u1" "TENANT_MANAGER" _ x w' E)
    as (r & path & t & Hr & Ht & _). exists r. split; [exact Hr|exact Ht].
Defined.

(** The file of an expired report was removed and the record not updated (the database was
    away): the local provider fails to remove it again, which ends every run of the worker
    before it looks at the pending reports. *)
Lemma missing_file_stops_reports :
  let w := office ∅ [("r1", report "COMPLETED" None (Some "t1/reports/r1.csv") (Some 5));
                     ("r2", report "PENDING" None None None)] in
  let '(res, w') := processPending (LocalStorageProvider ["srv"] "" "" (λ k m, m)) by_encoding w in
  res = Err (InfrastructureError "Local storage delete failed") ∧
  rows_of d_reports w' = rows_of d_reports w.
Proof. vm_compute. split; reflexivity. Qed.

(** A category with the name of a member of every object is not counted. *)
Lemma inherited_category_not_counted :
  countBy [[("category", CText "constructor")]; [("category", CText "billing")]] "category" =
  [("constructor", JStr "function Object() { [native code] }1"); ("billing", jnum 1)].
Proof. reflexivity. Qed.
