(* ===== verification/Attachments.v ===== *)
(** * Attachments

    The validators and [AttachmentService] ([src/application/attachment]) and
    [AttachmentController]: a file is decoded, checked against its declared type, stored and
    recorded; it is read through short-lived links by who may read its ticket.  The allowed
    types, the size limit and the antivirus scanner are configuration. *)

From Stdlib Require Import Ascii String.
From S2P Require Import Prelude Store Js Errors Domain Ticket Customer Tenant User.
From S2P Require Import Json Schema World Outbox Logs Frames Repositories TicketService Storage.

#[local] Open Scope string_scope.
#[local] Open Scope Z_scope.
#[local] Set Default Proof Using "Type*".

(** ** [Buffer.from(text, 'base64')] *)

(** The value of a digit of either base64 alphabet. *)
Definition base64_value (c : ascii) : option Z :=
  if is_upper c then Some (code c - 65)
  else if is_lower c then Some (code c - 71)
  else if is_digit c then Some (code c + 4)
  else if Ascii.eqb c "+" || Ascii.eqb c "-" then Some 62
  else if Ascii.eqb c "/" || Ascii.eqb c "_" then Some 63
  else None.

(** Characters outside the alphabet are skipped, [=] ends the text; [bits] are the [n] bits
    read and not yet written. *)
Fixpoint base64_bytes (n bits : Z) (s : string) : string :=
  match s with
  | EmptyString => ""
  | String c s =>
      if Ascii.eqb c "=" then ""
      else match base64_value c with
           | None => base64_bytes n bits s
           | Some v =>
               let n := n + 6 in
               let bits := bits * 64 + v in
               if 8 <=? n
               then String (of_code (Z.shiftr bits (n - 8)))
                      (base64_bytes (n - 8) (Z.land bits (Z.shiftl 1 (n - 8) - 1)) s)
               else base64_bytes n bits s
           end
  end.

Definition decode_base64 (s : string) : string := base64_bytes 0 0 s.

(** [buffer.toString('hex')] *)
Definition hex (s : string) : string :=
  str_flat_map (λ c, String (hex_char (code c / 16)) (String (hex_char (code c mod 16)) "")) s.

(** [buffer.toString('ascii')] clears the high bits. *)
Definition ascii_text (s : string) : string := str_map (λ c, of_code (code c mod 128)) s.

(** ** FileContentValidator *)

Definition SIGNATURES : list (string * list string) :=
  [("image/png", ["89504e470d0a1a0a"]);
   ("image/jpeg", ["ffd8ff"]);
   ("image/gif", ["474946383761"; "474946383961"]);
   ("application/pdf", ["25504446"]);
   ("application/msword", ["d0cf11e0a1b11ae1"]);
   ("application/vnd.ms-excel", ["d0cf11e0a1b11ae1"]);
   ("application/vnd.openxmlformats-officedocument.wordprocessingml.document", ["504b0304"]);
   ("application/vnd.openxmlformats-officedocument.spreadsheetml.sheet", ["504b0304"])].

Definition EXECUTABLE_SIGNATURES : list string := ["4d5a"; "7f454c46"; "cafebabe"; "feedface"; "cffaedfe"].
Definition TEXT_TYPES : list string := ["text/plain"; "text/csv"].
Definition TEXT_SNIFF_BYTES : Z := 4096.

Definition starts_with_any (signatures : list string) (header : string) : bool :=
  existsb (λ signature, String.prefix signature header) signatures.

Definition MISMATCH : string := "File content does not match its declared type".

(** A name that every object has ([SIGNATURES[type]], with a lower-case [type]) is found and
    has no [some]: a [TypeError]. *)
Definition content_validate (buffer mimeType : string) : result error (option string) :=
  let header := hex (slice0 16 buffer) in
  let type := toLowerCase mimeType in
  if starts_with_any EXECUTABLE_SIGNATURES header then Ok (Some "Executable files are not allowed")
  else if includes TEXT_TYPES type then
    Ok (if str_exists (λ c, code c =? 0) (slice0 TEXT_SNIFF_BYTES buffer) then Some MISMATCH else None)
  else if bool_decide (type = "image/webp") then
    Ok (if bool_decide (ascii_text (String.substring 0 4 buffer) = "RIFF")
           && bool_decide (ascii_text (String.substring 8 4 buffer) = "WEBP") then None else Some MISMATCH)
  else match get_field type SIGNATURES with
       | Some signatures => Ok (if starts_with_any signatures header then None else Some MISMATCH)
       | None =>
           if includes ["constructor"; "__proto__"] type
           then Err (PlainError "signatures.some is not a function")
           else Ok (Some "Unsupported file type")
       end.

(** ** The policy *)

Inductive AntivirusVerdict := AvClean | AvInfected | AvNotScanned.
#[export] Instance AntivirusVerdict_eq_dec : EqDecision AntivirusVerdict.
Proof. solve_decision. Defined.

Record AttachmentPolicyInput := mkPolicyInput {
  pi_filename : string;
  pi_mimeType : string;
  pi_sizeBytes : Z;
  pi_content : string;
}.

Record AttachmentPolicyResult := mkPolicyResult {
  pr_reasons : list string;
  pr_antivirus : AntivirusVerdict;
}.
Definition pr_allowed (r : AttachmentPolicyResult) : bool :=
  match pr_reasons r with [] => true | _ => false end.

(** [getStorageConfig()], [requireAntivirusScan], and the scanner, when there is one: whether
    a file of that content and name is clean. *)
Record AttachmentConfig := mkAttachmentConfig {
  allowedMimeTypes : list string;
  maxFileSizeBytes : Z;
  requireAntivirusScan : bool;
  scanner : option (string → string → result error bool);
}.

Section policy.
Context (config : AttachmentConfig).

Definition mime_allowed (mimeType : string) : bool :=
  includes (map toLowerCase (allowedMimeTypes config)) (toLowerCase mimeType).

Definition size_allowed (sizeBytes : Z) : bool :=
  (0 <? sizeBytes) && (sizeBytes <=? maxFileSizeBytes config).

Definition scan (content filename : string) : result error AntivirusVerdict :=
  match scanner config with
  | None => Ok AvNotScanned
  | Some scanner => clean ← scanner content filename; Ok (if clean : bool then AvClean else AvInfected)
  end.

Definition policy_validate (input : AttachmentPolicyInput) : result error AttachmentPolicyResult :=
  contentProblem ← content_validate (pi_content input) (pi_mimeType input);
  let reasons :=
    ((if mime_allowed (pi_mimeType input) then [] else ["Unsupported MIME type"])
     ++ (if size_allowed (pi_sizeBytes input) then [] else ["File exceeds the allowed size"])
     ++ match contentProblem with
        | Some problem => if str_truthy problem then [problem] else []
        | None => []
        end)%list in
  antivirus ← match reasons with
              | [] => scan (pi_content input) (pi_filename input)
              | _ => Ok AvNotScanned
              end;
  let reasons :=
    (reasons ++
     match antivirus with
     | AvInfected => ["Antivirus scan failed"]
     | AvNotScanned => if requireAntivirusScan config
                       then ["Antivirus scanning is required but not available"] else []
     | AvClean => []
     end)%list in
  Ok (mkPolicyResult reasons antivirus).
End policy.

(** ** AttachmentService *)

Record UploadAttachmentData := mkUploadData {
  ud_tenantId : string;
  ud_uploaderId : string;
  ud_filename : string;
  ud_mimeType : string;
  ud_base64Content : string;
  ud_ticketId : option string;
  ud_commentId : option string;
}.

Definition ATTACHMENT_URL_TTL_SECONDS : Z := 15 * 60.

Section service.
Context {Tbl : Type → Type} `{!Prisma Tbl}.
Context (config : AttachmentConfig) (storage : StorageProvider Tbl).

(** The ticket must be one of the organization. *)
Definition checked_ticket (tenantId : string) (ticketId : option string) : W Tbl (option string) :=
  match ticketId with
  | Some t =>
      if str_truthy t then
        ticket ← find_first d_tickets (λ j r, bool_decide (j = t) && bool_decide (ti_tenantId r = tenantId));
        match ticket with
        | Some _ => mret ticketId
        | None => throw (NotFoundError "Ticket" ticketId)
        end
      else mret ticketId
  | None => mret None
  end.

Definition resolveTicketId (data : UploadAttachmentData) : W Tbl (option string) :=
  ticketId ← match ud_commentId data with
    | Some c =>
        if str_truthy c then
          comment ← find_first d_comments
            (λ j r, bool_decide (j = c) && bool_decide (co_tenantId r = ud_tenantId data));
          match comment with
          | Some (_, r) =>
              if truthy (ud_ticketId data) && negb (bool_decide (Some (co_ticketId r) = ud_ticketId data))
              then throw (NotFoundError "Comment" (Some c))
              else mret (Some (co_ticketId r))
          | None => throw (NotFoundError "Comment" (Some c))
          end
        else mret (ud_ticketId data)
    | None => mret (ud_ticketId data)
    end;
  checked_ticket (ud_tenantId data) ticketId.

Definition attachment_folder (ticketId : option string) : string :=
  match ticketId with
  | Some t => if str_truthy t then "tickets/" ++ t else "general"
  | None => "general"
  end.

Definition uploadAttachment (data : UploadAttachmentData) : W Tbl (string * AttachmentRow) :=
  ticketId ← resolveTicketId data;
  let buffer := decode_base64 (ud_base64Content data) in
  policyResult ← lift (policy_validate config
    (mkPolicyInput (ud_filename data) (ud_mimeType data) (str_length buffer) buffer));
  if negb (pr_allowed policyResult)
  then throw (ValidationError "File rejected by security policy" [("reasons", pr_reasons policyResult)])
  else
    uploaded ← upload storage buffer
      (mkUploadOptions (ud_filename data) (ud_mimeType data) (str_length buffer) (ud_tenantId data)
         (Some (attachment_folder ticketId)));
    let status := if bool_decide (pr_antivirus policyResult = AvClean) then "CLEAN" else "PENDING" in
    i ← draw;
    now ← get_now;
    let row := mkAttachmentRow (ud_tenantId data) ticketId (ud_commentId data) (ud_uploaderId data)
                 (ud_filename data) (ud_filename data) (ud_mimeType data) (str_length buffer)
                 (if bool_decide (ur_provider uploaded = "s3") then "S3" else "LOCAL")
                 (ur_storagePath uploaded) status now in
    _ ← create_row d_attachments (λ _ _, false)
          (λ db, refers (d_tickets db) ticketId && refers (d_comments db) (ud_commentId data)) i row;
    mret (i, row).

Definition getAttachment (i tenantId : string) : W Tbl (string * AttachmentRow) :=
  attachment ← find_first d_attachments
    (λ j r, bool_decide (j = i) && bool_decide (Schema.at_tenantId r = tenantId));
  match attachment with
  | Some attachment => mret attachment
  | None => throw (NotFoundError "Attachment" None)
  end.

Definition attachment_url (i tenantId : string) : W Tbl string :=
  '(_, attachment) ← getAttachment i tenantId;
  if bool_decide (at_status attachment = "INFECTED") || bool_decide (at_status attachment = "REJECTED")
  then throw (ForbiddenError "This file failed security checks and cannot be downloaded")
  else if negb (bool_decide (at_status attachment = "CLEAN")) && requireAntivirusScan config
  then throw (ForbiddenError "This file has not been scanned yet")
  else getSignedUrl storage (at_storagePath attachment) (Some ATTACHMENT_URL_TTL_SECONDS).

(** A file that cannot be removed is left behind. *)
Definition deleteAttachment (i tenantId userId userRole : string) : W Tbl unit :=
  '(_, attachment) ← getAttachment i tenantId;
  if negb (bool_decide (at_uploadedById attachment = userId))
     && negb (includes ["PLATFORM_ADMIN"; "TENANT_MANAGER"] userRole)
  then throw (ForbiddenError "Unauthorized to delete attachment")
  else
    _ ← try_catch (storage_delete storage (at_storagePath attachment)) (λ _, mret ());
    n ← delete_many d_attachments (λ j _, bool_decide (j = i));
    if n =? 0 then throw (PrismaError "P2025" "Record to delete does not exist.") else mret ().

(** ** AttachmentController *)

Record UploadAttachmentDto := mkUploadDto {
  ua_filename : string;
  ua_mimeType : string;
  ua_base64Content : string;
  ua_ticketId : option string;
  ua_commentId : option string;
}.

(** [if (id) await this.ticketAccess.assertCanAccess(actor, id)] *)
Definition access_if (actor : TicketActor) (ticketId : option string) : W Tbl unit :=
  match ticketId with
  | Some t => if str_truthy t then _ ← assertCanAccess actor t; mret () else mret ()
  | None => mret ()
  end.

Definition controller_upload (actor : TicketActor) (data : UploadAttachmentDto)
  : W Tbl (string * AttachmentRow) :=
  _ ← access_if actor (ua_ticketId data);
  '(i, attachment) ← uploadAttachment
    (mkUploadData (ta_tenantId actor) (ta_id actor) (ua_filename data) (ua_mimeType data)
       (ua_base64Content data) (ua_ticketId data) (ua_commentId data));
  _ ← (if negb (truthy (ua_ticketId data)) then access_if actor (Schema.at_ticketId attachment) else mret ());
  mret (i, attachment).

Definition assertCanReadAttachment (actor : TicketActor) (i : string) : W Tbl unit :=
  '(_, attachment) ← getAttachment i (ta_tenantId actor);
  if truthy (Schema.at_ticketId attachment) then access_if actor (Schema.at_ticketId attachment)
  else if negb (bool_decide (at_uploadedById attachment = ta_id actor))
          && negb (bool_decide (ta_role actor = "TENANT_MANAGER"))
  then throw (ForbiddenError "You do not have access to this attachment")
  else mret ().

Definition controller_getDownloadUrl (actor : TicketActor) (i : string) : W Tbl string :=
  _ ← assertCanReadAttachment actor i;
  attachment_url i (ta_tenantId actor).

Definition controller_delete (actor : TicketActor) (i : string) : W Tbl unit :=
  _ ← assertCanReadAttachment actor i;
  deleteAttachment i (ta_tenantId actor) (ta_id actor) (ta_role actor).

(** [downloadSignedFile], for the local provider; a missing file ends the stream with 404. *)
Definition downloadSignedFile (base : list string) (secret : string) (hmac : string → string → string)
    (storagePath : string) (token expires : option string) : W Tbl string :=
  let missing := throw (NotFoundError "File" None) in
  match token, expires with
  | Some token, Some expires =>
      if str_truthy storagePath then
        valid ← verifySignedUrl secret hmac storagePath expires token;
        if valid : bool then
          fullPath ← lift (resolveFullPath base storagePath);
          file ← gets (λ w, w_files w !! fullPath);
          match file with
          | Some f => mret (sf_content f)
          | None => missing
          end
        else missing
      else missing
  | _, _ => missing
  end.
End service.
