(* ===== verification/AttachmentFacts.v ===== *)
(** * Which files get in, and who gets them out

    A stored file passed every check of the policy and belongs to the organization of the
    ticket it is linked to; a link or a deletion needs the rights on that ticket.  A file
    that is linked through a comment is stored before the rights on its ticket are looked
    at; a declared type that is the name of an object member crashes the check. *)

From Stdlib Require Import Ascii String.
From S2P Require Import Prelude Store Js Errors Domain Ticket Customer Tenant User.
From S2P Require Import Json Permissions Schema World Outbox Logs Frames Repositories TicketService TicketFacts.
From S2P Require Import Storage Attachments.

#[local] Open Scope string_scope.
#[local] Open Scope Z_scope.
#[local] Set Default Proof Using "Type*".

#[local] Notation attachments w := (rows_of d_attachments w).

(** ** The policy *)

(** The content of a file is what its declared type says, and nothing that can be run. *)
Definition genuine (buffer mimeType : string) : Prop :=
  let header := hex (slice0 16 buffer) in
  let type := toLowerCase mimeType in
  starts_with_any EXECUTABLE_SIGNATURES header = false ∧
  ((type ∈ TEXT_TYPES ∧ str_forall (λ c, negb (code c =? 0)) (slice0 TEXT_SNIFF_BYTES buffer) = true) ∨
   (type = "image/webp" ∧ ascii_text (String.substring 0 4 buffer) = "RIFF" ∧
      ascii_text (String.substring 8 4 buffer) = "WEBP") ∨
   ∃ signatures, get_field type SIGNATURES = Some signatures ∧ starts_with_any signatures header = true).

Lemma content_validate_ok buffer mimeType :
  content_validate buffer mimeType = Ok None → genuine buffer mimeType.
Proof.
  unfold content_validate, genuine. cbv zeta. destruct (starts_with_any EXECUTABLE_SIGNATURES _); [done|].
  destruct (includes TEXT_TYPES _) eqn:Et.
  { rewrite str_exists_forall. destruct (negb _) eqn:E; [done|]. intros _. split; [done|]. left.
    split; [by apply includes_true|]. by apply negb_false_iff in E. }
  destruct (bool_decide (toLowerCase mimeType = "image/webp")) eqn:Ew.
  { destruct (_ && _) eqn:E; [|done]. intros _. bool_to_prop. split; [done|]. right. by left. }
  destruct (get_field _ SIGNATURES) as [sg|]; [|by destruct (includes ["constructor"; "__proto__"] (toLowerCase mimeType))].
  destruct (starts_with_any sg _) eqn:E; [|done]. intros _. split; [done|]. right. right. eauto.
Qed.

Lemma content_problem_text buffer mimeType p :
  content_validate buffer mimeType = Ok (Some p) → str_truthy p = true.
Proof.
  unfold content_validate. cbv zeta. intros H.
  repeat match type of H with
         | context [if ?b then _ else _] => destruct b
         | context [match ?o with Some _ => _ | None => _ end] => destruct o
         end; injection H as <- || discriminate H; reflexivity.
Qed.

Section policy.
Context (config : AttachmentConfig).

(** What the policy lets through. *)
Lemma policy_allowed input res :
  policy_validate config input = Ok res → pr_allowed res = true →
  mime_allowed config (pi_mimeType input) = true ∧ size_allowed config (pi_sizeBytes input) = true ∧
  genuine (pi_content input) (pi_mimeType input) ∧
  scan config (pi_content input) (pi_filename input) = Ok (pr_antivirus res) ∧
  pr_antivirus res ≠ AvInfected ∧
  (requireAntivirusScan config = true → pr_antivirus res = AvClean).
Proof.
  unfold policy_validate. intros H Ha. apply result_bind_ok in H as (problem & Hp & H).
  set (reasons := (_ ++ _ ++ _)%list) in H.
  apply result_bind_ok in H as (av & Hav & H). injection H as <-. cbn [pr_antivirus].
  unfold pr_allowed in Ha. cbn [pr_reasons] in Ha.
  destruct reasons as [|x reasons'] eqn:Er; [|done]. unfold reasons in Er.
  destruct (mime_allowed config _); [|done]. destruct (size_allowed config _); [|done].
  destruct problem as [p|].
  { apply content_problem_text in Hp. by rewrite Hp in Er. }
  apply content_validate_ok in Hp. split_and!; try done.
  - by destruct av.
  - intros Hreq. rewrite Hreq in Ha. by destruct av.
Qed.
End policy.

Section facts.
Context {Tbl : Type → Type} `{!Prisma Tbl}.
Context (config : AttachmentConfig).
Implicit Types (w : World Tbl).

(** ** Uploads *)

(** The ticket of an upload is one of the organization, and the one of its comment. *)
Definition ticket_linked w (tenantId : string) (commentId ticketId : option string) : Prop :=
  (∀ t, ticketId = Some t → t ≠ "" → ∃ r, rows_of d_tickets w !! t = Some r ∧ ti_tenantId r = tenantId) ∧
  (∀ c, commentId = Some c → c ≠ "" → ∃ r, rows_of d_comments w !! c = Some r ∧ co_tenantId r = tenantId ∧
     ticketId = Some (co_ticketId r)).

Lemma truthy_ne s : str_truthy s = true ↔ s ≠ "".
Proof. by destruct s. Qed.

Lemma checked_ticket_ok tenantId ticketId w o w' :
  checked_ticket tenantId ticketId w = (Ok o, w') →
  w' = w ∧ o = ticketId ∧
  ∀ t, ticketId = Some t → t ≠ "" → ∃ r, rows_of d_tickets w !! t = Some r ∧ ti_tenantId r = tenantId.
Proof.
  unfold checked_ticket. destruct ticketId as [t|]; [|intros [= <- <-]; naive_solver].
  destruct (str_truthy t) eqn:Ht; intros H.
  - apply M_bind_ok in H as (f & w1 & E & H). destruct f as [[j r]|]; [|done].
    apply find_first_some in E as (-> & Hr & Hp). bool_to_prop. unfold mret, M_ret in H. inv_ok.
    split; [done|]. split; [done|]. naive_solver.
  - unfold mret, M_ret in H. inv_ok. split; [done|]. split; [done|]. intros t' [= <-] Hne. by apply truthy_ne in Hne; congruence.
Qed.

Lemma resolveTicketId_ok data w o w' :
  resolveTicketId data w = (Ok o, w') →
  w' = w ∧ ticket_linked w (ud_tenantId data) (ud_commentId data) o.
Proof.
  unfold resolveTicketId. intros H. apply M_bind_ok in H as (t & w1 & E & H).
  assert (w1 = w ∧ ∀ c, ud_commentId data = Some c → c ≠ "" → ∃ r, rows_of d_comments w !! c = Some r ∧
            co_tenantId r = ud_tenantId data ∧ t = Some (co_ticketId r)) as [-> Hc].
  { destruct (ud_commentId data) as [c|]; [|unfold mret, M_ret in E; inv_ok; done].
    destruct (str_truthy c) eqn:Ht.
    - apply M_bind_ok in E as (f & w2 & E & E'). destruct f as [[j r]|]; [|done].
      apply find_first_some in E as (-> & Hr & Hp). bool_to_prop.
      destruct (_ && _); [done|]. unfold mret, M_ret in E'. inv_ok. split; [done|]. intros ? [= <-] _. eauto.
    - unfold mret, M_ret in E. inv_ok. split; [done|]. intros ? [= <-] Hne. apply truthy_ne in Hne. congruence. }
  apply checked_ticket_ok in H as (-> & -> & H). done.
Qed.

Context (storage : StorageProvider Tbl) `{!StorageLaws storage}.

(** C13: An upload that returns: the decoded file is of an allowed type and size, is what its
    type says, is no executable, was found clean where a scan is required, and is marked
    clean only if a scanner said so; its ticket and comment are of the organization; the
    file and its record are stored. *)
Theorem upload_accepts data w i row w' :
  uploadAttachment config storage data w = (Ok (i, row), w') →
  let buffer := decode_base64 (ud_base64Content data) in
  mime_allowed config (ud_mimeType data) = true ∧
  0 < str_length buffer <= maxFileSizeBytes config ∧
  genuine buffer (ud_mimeType data) ∧
  (∃ av, scan config buffer (ud_filename data) = Ok av ∧ av ≠ AvInfected ∧
     (requireAntivirusScan config = true → av = AvClean) ∧
     (Schema.at_status row = "CLEAN" ↔ av = AvClean)) ∧
  Schema.at_tenantId row = ud_tenantId data ∧
  ticket_linked w (ud_tenantId data) (ud_commentId data) (Schema.at_ticketId row) ∧
  attachments w' = <[i := row]> (attachments w) ∧
  ∃ key f, locate (at_storagePath row) = Some key ∧ w_files w' !! key = Some f ∧ sf_content f = buffer.
Proof using All.
  intros H buffer. unfold uploadAttachment in H. apply M_bind_ok in H as (t & w1 & E & H).
  apply resolveTicketId_ok in E as [-> Hlink]. apply M_bind_ok in H as (res & w1 & E & H).
  unfold lift in E. injection E as Hres <-. fold buffer in H, Hres.
  destruct (negb (pr_allowed res)) eqn:Ha; [done|]. apply negb_false_iff in Ha.
  apply (policy_allowed config) in Hres as (Hm & Hs & Hg & Hav & Hni & Hreq); [|done].
  cbn [pi_mimeType pi_sizeBytes pi_content pi_filename] in *.
  apply M_bind_ok in H as (up & w1 & E & H).
  pose proof (keeps_run (rows_of d_attachments) _ _ _ _ E ltac:(apply upload_frame; intros; unfold rows_of; by upd_simpl)) as Hrows.
  apply upload_stored in E as (key & f & Hkey & Hf & Hfiles).
  apply M_bind_ok in H as (i' & w2 & E & H).
  pose proof (keeps_run (rows_of d_attachments) _ _ _ _ E ltac:(keeps_tac)) as Hrows2.
  pose proof (keeps_run w_files _ _ _ _ E ltac:(keeps_tac)) as Hfiles2.
  apply M_bind_ok in H as (now & w3 & E3 & H). unfold get_now, gets in E3. injection E3 as <- <-.
  apply M_bind_ok in H as ([] & w4 & E4 & H). unfold mret, M_ret in H. injection H as <- <- <-.
  pose proof (keeps_run w_files _ _ _ _ E4 ltac:(keeps_tac)) as Hfiles4.
  apply (create_row_ok d_attachments) in E4 as (_ & _ & Hnew & _ & _).
  unfold size_allowed in Hs. cbn [Schema.at_status Schema.at_tenantId Schema.at_ticketId at_storagePath].
  split_and!; try done.
  - bool_to_prop. lia.
  - bool_to_prop. lia.
  - exists (pr_antivirus res). split_and!; try done.
    destruct (bool_decide_reflect (pr_antivirus res = AvClean)); split; intros Hx; (congruence || discriminate Hx || reflexivity).
  - rewrite Hnew. congruence.
  - exists key, f. split; [done|]. rewrite Hfiles4, Hfiles2, Hfiles. split; [apply lookup_insert_eq|done].
Qed.

(** ** Access *)

Lemma access_if_ok actor ticketId w w' :
  access_if actor ticketId w = (Ok tt, w') →
  w' = w ∧ ∀ t, ticketId = Some t → t ≠ "" →
    ∃ r, rows_of d_tickets w !! t = Some r ∧ ti_tenantId r = ta_tenantId actor ∧ may_see w actor r.
Proof.
  unfold access_if. destruct ticketId as [t|]; [|intros [= <-]; naive_solver].
  destruct (str_truthy t) eqn:Ht; intros H.
  2:{ unfold mret, M_ret in H. inv_ok. split; [done|]. intros ? [= <-] Hne. apply truthy_ne in Hne. congruence. }
  apply M_bind_ok in H as (tk & w1 & E & H). unfold mret, M_ret in H. injection H as <-.
  unfold assertCanAccess in E. apply M_bind_ok in E as (o & w2 & E & H).
  rewrite ticket_findById_run in E. injection E as <- <-.
  destruct (rows_of d_tickets w !! t) as [r|] eqn:Hr; [|done].
  case_bool_decide as Hten; [|done].
  apply M_bind_ok in H as (viewer & w2 & E & H). rewrite resolveViewer_run in E. injection E as <- <-.
  pose proof (canView_spec w actor r) as Hv.
  change (t_assignedAgentId (ticket_toDomain t r)) with (ti_assignedAgentId r) in H.
  change (t_customerId (ticket_toDomain t r)) with (ti_customerId r) in H.
  destruct (canView _ _ _) eqn:Ec; cbn [negb] in H; [|done]. unfold mret, M_ret in H. injection H as _ <-.
  split; [done|]. intros ? [= <-] _. exists r. split_and!; [done|done|by apply Hv].
Qed.

Lemma getAttachment_ok i tenantId w j a w' :
  getAttachment i tenantId w = (Ok (j, a), w') →
  w' = w ∧ j = i ∧ attachments w !! i = Some a ∧ Schema.at_tenantId a = tenantId.
Proof.
  unfold getAttachment. intros H. apply M_bind_ok in H as (o & w1 & E & H). destruct o as [[j' a']|]; [|done].
  unfold mret, M_ret in H. injection H as -> -> <-. apply find_first_some in E as (-> & Ha & Hp).
  bool_to_prop. by subst.
Qed.

(** Who may read an attachment: who may see its ticket; without a ticket, its uploader and
    the managers. *)
Definition may_read w (actor : TicketActor) (a : AttachmentRow) : Prop :=
  match Schema.at_ticketId a with
  | Some t => if str_truthy t
              then ∃ r, rows_of d_tickets w !! t = Some r ∧ ti_tenantId r = ta_tenantId actor ∧ may_see w actor r
              else at_uploadedById a = ta_id actor ∨ ta_role actor = "TENANT_MANAGER"
  | None => at_uploadedById a = ta_id actor ∨ ta_role actor = "TENANT_MANAGER"
  end.

Lemma assertCanReadAttachment_ok actor i w w' :
  assertCanReadAttachment actor i w = (Ok tt, w') →
  w' = w ∧ ∃ a, attachments w !! i = Some a ∧ Schema.at_tenantId a = ta_tenantId actor ∧ may_read w actor a.
Proof.
  unfold assertCanReadAttachment. intros H. apply M_bind_ok in H as ([j a] & w1 & E & H).
  apply getAttachment_ok in E as (-> & -> & Ha & Ht). unfold may_read.
  assert (∀ w1, (if negb (bool_decide (at_uploadedById a = ta_id actor)) && negb (bool_decide (ta_role actor = "TENANT_MANAGER"))
     then throw (ForbiddenError "You do not have access to this attachment") else mret ()) w = (Ok tt, w1) →
     w1 = w ∧ (at_uploadedById a = ta_id actor ∨ ta_role actor = "TENANT_MANAGER")) as Hown.
  { intros w2. destruct (bool_decide_reflect (at_uploadedById a = ta_id actor)); cbn;
      [intros [= <-]; auto|]. destruct (bool_decide_reflect (ta_role actor = "TENANT_MANAGER")); cbn; [intros [= <-]; auto|done]. }
  destruct (truthy (Schema.at_ticketId a)) eqn:E.
  - apply access_if_ok in H as [-> H]. split; [done|]. exists a. split_and!; [done|done|].
    destruct (Schema.at_ticketId a) as [t|]; [|done]. cbn in E. rewrite E. apply H; [done|]. by apply truthy_ne.
  - apply Hown in H as [-> H]. split; [done|]. exists a. split_and!; [done|done|].
    destruct (Schema.at_ticketId a) as [t|]; [|done]. cbn in E. by rewrite E.
Qed.

(** C27: A download link is given only to a reader of the attachment, in its organization, and
    only for a file that failed no check (and passed the scan, where one is required). *)
Theorem attachment_download_allowed actor i w url w' :
  controller_getDownloadUrl config storage actor i w = (Ok url, w') →
  ∃ a, attachments w !! i = Some a ∧ Schema.at_tenantId a = ta_tenantId actor ∧ may_read w actor a ∧
    at_status a ≠ "INFECTED" ∧ at_status a ≠ "REJECTED" ∧
    (requireAntivirusScan config = true → at_status a = "CLEAN").
Proof.
  unfold controller_getDownloadUrl, attachment_url. intros H. apply M_bind_ok in H as ([] & w1 & E & H).
  apply assertCanReadAttachment_ok in E as (-> & a & Ha & Ht & Hread).
  apply M_bind_ok in H as ([j a'] & w1 & E & H). apply getAttachment_ok in E as (-> & -> & Ha' & _). simplify_eq.
  destruct (_ || _) eqn:E1; [done|]. destruct (_ && _) eqn:E2; [done|]. bool_to_prop.
  exists a. split_and!; try done. intros Hreq. rewrite Hreq, andb_true_r in E2. by bool_to_prop.
Qed.
End facts.

(** ** A concrete desk *)

Definition storage_config : AttachmentConfig := mkAttachmentConfig ["text/plain"; "image/PNG"] 100 false None.

Definition desk : World (gmap string) :=
  world_of 1000 (empty_db
    <| d_tenants := {["t1" := mkTenantRecord "Acme" "acme" "ACTIVE" "pro" None None 5 100 10
                                (JObj []) None None 0 0]} |>
    <| d_tickets := {["k1" := mkTicketRow "t1" 1 "c1" (Some "u2") "u1" "Broken" "d" OPEN MEDIUM "billing" [] "WEB"
                       false None None None None None None false [] None 0 0]} |>
    <| d_comments := {["m1" := mkCommentRow "t1" "k1" "u2" "See the file" INTERNAL false None None [] 0 0]} |>
    <| d_attachments := {["a1" := mkAttachmentRow "t1" (Some "k1") None "u2" "f.txt" "f.txt" "text/plain" 5 "LOCAL"
                            "t1/tickets/k1/f.txt" "PENDING" 0]} |>).

Definition hello (commentId : option string) : UploadAttachmentDto :=
  mkUploadDto "hello.txt" "text/plain" "SGVsbG8=" None commentId.

Definition uploaded_data : UploadAttachmentData :=
  mkUploadData "t1" "u2" "hello.txt" "text/plain" "SGVsbG8=" (Some "k1") None.

Lemma upload_accepts_witness :
  ∃ i row w', uploadAttachment storage_config MemoryStorageProvider uploaded_data desk = (Ok (i, row), w') ∧
    rows_of d_attachments w' !! i = Some row ∧ genuine "Hello" "text/plain".
Proof.
  assert (∃ i row w', uploadAttachment storage_config MemoryStorageProvider uploaded_data desk = (Ok (i, row), w'))
    as (i & row & w' & E) by (eexists _, _, _; vm_compute; reflexivity).
  destruct (upload_accepts storage_config MemoryStorageProvider uploaded_data desk i row w' E)
    as (_ & _ & Hg & _ & _ & _ & Hw & _).
  exists i, row, w'. split; [exact E|]. split; [rewrite Hw; apply lookup_insert_eq|exact Hg].
Defined.

Lemma attachment_download_allowed_witness :
  ∃ url w', controller_getDownloadUrl storage_config MemoryStorageProvider (mkActor "u2" "AGENT" "" "t1") "a1" desk
    = (Ok url, w') ∧ ∃ a, rows_of d_attachments desk !! "a1" = Some a ∧ may_read desk (mkActor "u2" "AGENT" "" "t1") a.
Proof.
  assert (∃ url w', controller_getDownloadUrl storage_config MemoryStorageProvider
            (mkActor "u2" "AGENT" "" "t1") "a1" desk = (Ok url, w')) as (url & w' & E)
    by (eexists _, _; vm_compute; reflexivity).
  exists url, w'. split; [exact E|].
  destruct (attachment_download_allowed storage_config MemoryStorageProvider (mkActor "u2" "AGENT" "" "t1") "a1"
    desk url w' E) as (a & Ha & _ & Hr & _).
  exists a. split; [exact Ha|exact Hr].
Defined.

(** An agent who may not open the ticket adds a file to it through one of its comments: the
    answer is 403, and the file and its record stay. *)
Lemma refused_upload_stored :
  let '(res, w') := controller_upload storage_config MemoryStorageProvider (mkActor "u9" "AGENT" "" "t1")
                      (hello (Some "m1")) desk in
  res = Err (ForbiddenError "You do not have access to this ticket") ∧
  size (rows_of d_attachments w') = 2%nat ∧ size (w_files w') = 1%nat.
Proof. vm_compute. split; [reflexivity|split; reflexivity]. Qed.

(** A declared type that is the name of a member of every object is answered with an
    internal error instead of a rejection. *)
Lemma member_name_type_crashes :
  policy_validate storage_config (mkPolicyInput "f" "constructor" 5 "Hello") =
  Err (PlainError "signatures.some is not a function").
Proof. reflexivity. Qed.
