(* ===== verification/FeatureFlags.v ===== *)
(** * Feature flags

    [src/application/feature-flags]: a flag is decided by the environment, else by the
    organization's settings with a gradual rollout over hashed subjects, else by the
    caller's default.  The environment is a parameter, the hash is that of [Tokens.Crypto]. *)

From Stdlib Require Import Ascii String QArith.
From S2P Require Import Prelude Store Js Errors Domain Tenant Schema World Outbox Logs Frames Tokens.

#[local] Open Scope string_scope.
#[local] Open Scope Z_scope.
#[local] Set Default Proof Using "Type*".

(** [FeatureFlag] *)
Definition AI_CATEGORIZATION : string := "ai.categorization".
Definition AI_SENTIMENT : string := "ai.sentiment".
Definition AI_URGENCY : string := "ai.urgency".
Definition AI_RESPONSE_SUGGESTION : string := "ai.response_suggestion".
Definition AI_SUMMARY : string := "ai.summary".
Definition AI_RISK_SCORE : string := "ai.risk_score".
Definition AI_AUTO_ESCALATION : string := "ai.auto_escalation".

Record FeatureEvaluationContext := mkFeatureContext {
  fc_tenantId : option string;
  fc_subjectId : option string;
  fc_fallbackEnabled : bool;
}.

(** [!!value] *)
Definition json_truthy (j : Json) : bool :=
  match j with
  | JNull => false
  | JBool b => b
  | JNum q => negb (Qeq_bool q 0)
  | JStr s => str_truthy s
  | JArr _ | JObj _ => true
  end.

(** [value.key], of a value that is not [null]. *)
Definition member (key : string) (j : Json) : option Json :=
  match j with JObj fields => get_field key fields | _ => None end.

(** [parseInt(text, 16)] of the digits it starts with; [None] is [NaN]. *)
Definition hex_value (c : ascii) : option Z :=
  if is_digit c then Some (code c - 48)
  else if between 97 102 c then Some (code c - 87)
  else if between 65 70 c then Some (code c - 55) else None.

Fixpoint parse_hex_from (acc : option Z) (s : string) : option Z :=
  match s with
  | EmptyString => acc
  | String c s =>
      match hex_value c with
      | Some v => parse_hex_from (Some (16 * default 0 acc + v)) s
      | None => acc
      end
  end.
Definition parse_hex : string → option Z := parse_hex_from None.

(** [process.env[key]] of [FEATURE_FLAG_…] *)
Definition env_key (feature : string) : string :=
  "FEATURE_FLAG_" ++ replace_runs (λ c, negb (is_upper c || is_digit c)) "_" (toUpperCase feature).

Section flags.
Context {Tbl : Type → Type} `{!Prisma Tbl} `{!Crypto}.
Context (env : string → option string).

Definition getGlobalOverride (feature : string) : option bool :=
  match env (env_key feature) with
  | Some raw => if str_truthy raw then Some (includes ["1"; "true"; "yes"; "on"] (toLowerCase raw)) else None
  | None => None
  end.

Definition getRolloutBucket (subjectId : string) : Z :=
  match parse_hex (slice0 8 (sha256 subjectId)) with
  | Some n => n mod 100
  | None => 0
  end.

Definition evaluateDefinition (feature : string) (definition : Json) (context : FeatureEvaluationContext) : bool :=
  if negb (from_option json_truthy false (member "enabled" definition)) then false
  else match member "rolloutPercentage" definition with
       | Some (JNum rollout) =>
           if Qle_bool 100 rollout then true
           else if Qle_bool rollout 0 then false
           else
             let subject := default feature (fc_subjectId context ∪ fc_tenantId context) in
             negb (Qle_bool rollout (inject_Z (getRolloutBucket subject)))
       | _ => true
       end.

(** [PrismaFeatureFlagRepository] *)
Definition tenant_flags (settings : Json) : list (string * Json) :=
  match member "featureFlags" settings with Some (JObj flags) => flags | _ => [] end.

Definition getTenantFlags (tenantId : string) : W Tbl (list (string * Json)) :=
  tenant ← find_unique d_tenants tenantId;
  mret (match tenant with Some t => tenant_flags (nr_settings t) | None => [] end).

Definition isEnabled (feature : string) (context : FeatureEvaluationContext) : W Tbl bool :=
  match getGlobalOverride feature with
  | Some b => mret b
  | None =>
      match fc_tenantId context with
      | Some tenantId =>
          if str_truthy tenantId then
            tenantFlags ← getTenantFlags tenantId;
            match get_field feature tenantFlags with
            | Some definition =>
                if json_truthy definition then mret (evaluateDefinition feature definition context)
                else mret (fc_fallbackEnabled context)
            | None => mret (fc_fallbackEnabled context)
            end
          else mret (fc_fallbackEnabled context)
      | None => mret (fc_fallbackEnabled context)
      end
  end.

(** The two jsonb updates, of settings and flags that are objects. *)
Definition fields_of (j : Json) : list (string * Json) := match j with JObj fields => fields | _ => [] end.

Definition with_flag (feature : string) (definition : list (string * Json)) (settings : Json) : Json :=
  JObj (set_field "featureFlags" (JObj (set_field feature (JObj definition) (tenant_flags settings))) (fields_of settings)).

Definition without_flag (feature : string) (settings : Json) : Json :=
  match member "featureFlags" settings with
  | Some (JObj flags) =>
      JObj (set_field "featureFlags" (JObj (filter (λ kv, kv.1 ≠ feature) flags)) (fields_of settings))
  | _ => settings
  end.

Definition setTenantFlag (tenantId feature : string) (definition : list (string * Json)) : W Tbl unit :=
  now ← get_now;
  _ ← update_many d_tenants (λ i _, bool_decide (i = tenantId))
    (λ t, t <| nr_settings := with_flag feature (set_field "updatedAt" (jstr (toISOString now)) definition) (nr_settings t) |>
            <| nr_updatedAt := now |>);
  mret ().

Definition disableTenantFlag (tenantId feature : string) : W Tbl unit :=
  now ← get_now;
  _ ← update_many d_tenants (λ i _, bool_decide (i = tenantId))
    (λ t, t <| nr_settings := without_flag feature (nr_settings t) |> <| nr_updatedAt := now |>);
  mret ().
End flags.

(** ** Lemmas *)

Lemma get_field_snoc {A} key (l : list (string * A)) k v :
  get_field key (l ++ [(k, v)])%list = if bool_decide (k = key) then Some v else get_field key l.
Proof.
  induction l as [|[k' v'] l IH]; cbn [app get_field]; [done|]. rewrite IH. by case_bool_decide.
Qed.

Section facts.
Context {Tbl : Type → Type} `{!Prisma Tbl} `{!Crypto}.
Context (env : string → option string).
Implicit Types (w : World Tbl).

Lemma bucket_range s : 0 <= getRolloutBucket s < 100.
Proof. unfold getRolloutBucket. destruct (parse_hex _); [|lia]. apply Z.mod_pos_bound. lia. Qed.

Lemma isEnabled_keeps feature context : Keeps (λ w : World Tbl, w) (isEnabled env feature context).
Proof. keeps_tac. Qed.

(** Whether a flag is on for a context. *)
Definition enabled_in w feature context : bool :=
  match (isEnabled env feature context w).1 with Ok b => b | Err _ => false end.

Lemma isEnabled_run feature context w : isEnabled env feature context w = (Ok (enabled_in w feature context), w).
Proof.
  unfold enabled_in. destruct (isEnabled env feature context w) as [res w'] eqn:E.
  assert (w' = w) as -> by (apply (reads_only _ _ _ _ E), isEnabled_keeps).
  destruct res as [b|e]; [done|]. exfalso. revert E.
  unfold isEnabled, getTenantFlags, find_unique, gets, mbind, M_bind, mret, M_ret.
  repeat (case_match; try done).
Qed.

(** Widening a rollout takes the feature away from nobody. *)
Theorem rollout_monotone feature rest rollout rollout' context :
  let definition (q : Q) := JObj (rest ++ [("rolloutPercentage", JNum q)])%list in
  (rollout <= rollout')%Q →
  evaluateDefinition feature (definition rollout) context = true →
  evaluateDefinition feature (definition rollout') context = true.
Proof.
  cbv zeta. intros Hle. unfold evaluateDefinition, member.
  rewrite !get_field_snoc. rewrite !(bool_decide_eq_true_2 ("rolloutPercentage" = "rolloutPercentage")) by done.
  rewrite !(bool_decide_eq_false_2 ("rolloutPercentage" = "enabled")) by done.
  destruct (negb _); [done|].
  destruct (Qle_bool 100 rollout) eqn:E1.
  { apply Qle_bool_iff in E1. assert (100 <= rollout')%Q as E2%Qle_bool_iff by (by eapply Qle_trans). by rewrite E2. }
  destruct (Qle_bool rollout 0) eqn:E2; [done|].
  destruct (Qle_bool 100 rollout') eqn:E3; [done|].
  assert (Qle_bool rollout' 0 = false) as ->.
  { apply not_true_is_false. intros E4%Qle_bool_iff. apply not_true_iff_false in E2. apply E2, Qle_bool_iff. by eapply Qle_trans. }
  rewrite !negb_true_iff. set (b := inject_Z _). intros E4. apply not_true_is_false.
  intros E5%Qle_bool_iff. apply not_true_iff_false in E4. apply E4, Qle_bool_iff. by eapply Qle_trans.
Qed.
End facts.
