(* ===== verification/Ai.v ===== *)
(** * AI jobs

    [AIService] ([src/application/ai/services]) processes the jobs of the AI queue: it asks
    the provider about a ticket or a customer, stores the answer, and acts on it.  The
    provider, the number formats of its texts and the urgency threshold are parameters; the
    worker of the queue ([src/infrastructure/queue/workers/ai.worker.ts]) picks the job. *)

From Stdlib Require Import Ascii String QArith.
From S2P Require Import Prelude Store Js Errors Domain Ticket Customer Tenant User Permissions.
From S2P Require Import Json Schema World Outbox Logs Frames Tokens Repositories TicketService Notifications.
From S2P Require Import Customers FeatureFlags.

#[local] Open Scope string_scope.
#[local] Open Scope Z_scope.
#[local] Set Default Proof Using "Type*".

Record AIJobData := mkAIJob {
  jd_jobType : string;
  jd_tenantId : string;
  jd_ticketId : option string;
  jd_customerId : option string;
  jd_content : string;
}.

Record AICategorizationResult := mkCategorization {
  ca_category : string;
  ca_confidence : Q;
  ca_reasoning : string;
}.
Record AISentimentResult := mkSentiment {
  sr_score : Q;
  sr_label : string;
  sr_confidence : Q;
}.
Record AIUrgencyResult := mkUrgency {
  ur_score : Q;
  ur_recommendedPriority : string;
  ur_reasoning : string;
}.
Record AIResponseSuggestion := mkSuggestion {
  sg_content : string;
  sg_tone : string;
  sg_reasoning : string;
}.
Record AIResolutionSummary := mkSummary {
  su_summary : string;
  su_keyPoints : list string;
  su_resolutionType : string;
}.
Record AIRiskScore := mkRisk {
  rk_score : Q;
  rk_label : string;
  rk_factors : list string;
}.

(** [IAIProvider]: what the provider answers, or the error it throws. *)
Record AIProvider := mkAIProvider {
  categorizeTicket : string → string → result error AICategorizationResult;
  analyzeSentiment : string → result error AISentimentResult;
  predictUrgency : string → string → result error AIUrgencyResult;
  suggestResponse : string → string → result error AIResponseSuggestion;
  generateResolutionSummary : string → result error AIResolutionSummary;
  calculateRiskScore : string → result error AIRiskScore;
}.

(** The answers, as they are stored. *)
Definition categorization_json (r : AICategorizationResult) : Json :=
  JObj [("category", jstr (ca_category r)); ("confidence", JNum (ca_confidence r));
        ("reasoning", jstr (ca_reasoning r))].
Definition sentiment_json (r : AISentimentResult) : Json :=
  JObj [("score", JNum (sr_score r)); ("label", jstr (sr_label r)); ("confidence", JNum (sr_confidence r))].
Definition urgency_json (r : AIUrgencyResult) : Json :=
  JObj [("score", JNum (ur_score r)); ("recommendedPriority", jstr (ur_recommendedPriority r));
        ("reasoning", jstr (ur_reasoning r))].
Definition suggestion_json (r : AIResponseSuggestion) : Json :=
  JObj [("content", jstr (sg_content r)); ("tone", jstr (sg_tone r)); ("reasoning", jstr (sg_reasoning r))].
Definition summary_result_json (r : AIResolutionSummary) : Json :=
  JObj [("summary", jstr (su_summary r)); ("keyPoints", jstrs (su_keyPoints r));
        ("resolutionType", jstr (su_resolutionType r))].
Definition risk_json (r : AIRiskScore) : Json :=
  JObj [("score", JNum (rk_score r)); ("label", jstr (rk_label r)); ("factors", jstrs (rk_factors r))].

Definition newline : string := String (of_code 10) "".

Section ai.
Context {Tbl : Type → Type} `{!Prisma Tbl} `{!Crypto}.
Context (env : string → option string) (provider : AIProvider).
(** [String(x)] and [x.toFixed(n)] of a number, and [escalationUrgencyThreshold]. *)
Context (shown : Q → string) (fixed : nat → Q → string) (threshold : Q).

Definition ai_flag (feature : string) (data : AIJobData) (subjectId : string) : W Tbl bool :=
  isEnabled env feature (mkFeatureContext (Some (jd_tenantId data)) (Some subjectId) true).

Definition isAutoEscalationEnabled (tenantId : string) : W Tbl bool :=
  isEnabled env AI_AUTO_ESCALATION (mkFeatureContext (Some tenantId) None false).

(** [prisma.aIResult.create] *)
Definition save_result (data : AIJobData) (ticketId customerId : option string) (type : string)
    (result : Json) (confidence : option Q) (startTime : Z) (wasAccepted : option bool) : W Tbl string :=
  i ← draw;
  now ← get_now;
  _ ← create_row d_aiResults (λ _ _, false)
    (λ db, refers (d_tenants db) (Some (jd_tenantId data)) && refers (d_tickets db) ticketId
           && refers (d_customers db) customerId) i
    (mkAIResultRow (jd_tenantId data) ticketId customerId type "openai" "gpt-4o-mini" result confidence
       (Some (now - startTime)) wasAccepted None None now);
  mret i.

(** What the jobs about a ticket share: the ticket must exist inside the organization, the
    feature must be on, the content long enough; an error ends the job, and is logged. *)
Definition ticket_job (feature : string) (data : AIJobData) (work : string → TicketEntity → W Tbl unit)
  : W Tbl unit :=
  match jd_ticketId data with
  | Some ticketId =>
      if str_truthy ticketId then
        try_catch (
          ticket ← ticket_findById ticketId (jd_tenantId data);
          match ticket with
          | None => mret ()
          | Some ticket =>
              on ← ai_flag feature data ticketId;
              if negb on then mret ()
              else if negb (shouldProcess true true (str_length (jd_content data))) then mret ()
              else work ticketId ticket
          end)
          (λ _, mret ())
      else mret ()
  | None => mret ()
  end.

Definition processCategorizationJob (data : AIJobData) : W Tbl unit :=
  ticket_job AI_CATEGORIZATION data (λ ticketId ticket,
    startTime ← get_now;
    result ← lift (categorizeTicket provider (t_title ticket) (t_description ticket));
    _ ← save_result data (Some ticketId) None "CATEGORIZATION" (categorization_json result)
          (Some (ca_confidence result)) startTime None;
    _ ← (if Qle_bool (7 # 10) (ca_confidence result) then
           ticket ← lift (updateCategory (ca_category result) ticket);
           now ← get_now;
           _ ← check_category (t_category ticket);
           _ ← update_many d_tickets
                 (λ j r, bool_decide (j = ticketId) && bool_decide (ti_tenantId r = jd_tenantId data))
                 (λ r, r <| ti_category := t_category ticket |> <| ti_updatedAt := now |>);
           activity_create (mkActivity (jd_tenantId data) (Some ticketId) None None None "AI_CATEGORIZED"
             ("AI categorized ticket as " ++ ca_category result ++ " (confidence: "
              ++ fixed 0 (ca_confidence result * 100)%Q ++ "%)") None
             (Some [("category", jstr (ca_category result)); ("confidence", JNum (ca_confidence result))]))
         else mret ());
    push (ToTicket ticketId) "ai:categorized"
      [("ticketId", jstr ticketId); ("category", jstr (ca_category result));
       ("confidence", JNum (ca_confidence result))]).

Definition system_escalation (data : AIJobData) (ticketId reason : string) : W Tbl unit :=
  _ ← escalateTicket (mkEscalateTicketDto (jd_tenantId data) ticketId reason SYSTEM_ACTOR_ID "SYSTEM");
  mret ().

(** Escalation is for organizations that opted in. *)
Definition processSentimentJob (data : AIJobData) : W Tbl unit :=
  ticket_job AI_SENTIMENT data (λ ticketId _,
    startTime ← get_now;
    result ← lift (analyzeSentiment provider (jd_content data));
    _ ← save_result data (Some ticketId) None "SENTIMENT" (sentiment_json result)
          (Some (sr_confidence result)) startTime None;
    _ ← push (ToTicket ticketId) "ai:sentiment"
          [("ticketId", jstr ticketId); ("sentiment", sentiment_json result)];
    if bool_decide (sr_label result = "FRUSTRATED") && Qle_bool (8 # 10) (sr_confidence result) then
      auto ← isAutoEscalationEnabled (jd_tenantId data);
      if auto : bool then
        ticket ← ticket_findById ticketId (jd_tenantId data);
        match ticket with
        | Some ticket =>
            if negb (t_isEscalated ticket) && ticket_isActive ticket
            then system_escalation data ticketId
                   ("AI detected frustrated customer (sentiment score: " ++ fixed 2 (sr_score result) ++ ")")
            else mret ()
        | None => mret ()
        end
      else mret ()
    else mret ()).

Definition processUrgencyJob (data : AIJobData) : W Tbl unit :=
  ticket_job AI_URGENCY data (λ ticketId ticket,
    startTime ← get_now;
    result ← lift (predictUrgency provider (t_title ticket) (t_description ticket));
    _ ← save_result data (Some ticketId) None "URGENCY" (urgency_json result)
          (Some (ur_score result / 100)%Q) startTime None;
    auto ← (if Qle_bool threshold (ur_score result) && negb (t_isEscalated ticket) && ticket_isActive ticket
            then isAutoEscalationEnabled (jd_tenantId data) else mret false);
    _ ← (if auto : bool then
           _ ← system_escalation data ticketId
                 ("AI predicted high urgency score: " ++ shown (ur_score result) ++ "/100. " ++ ur_reasoning result);
           activity_create (mkActivity (jd_tenantId data) (Some ticketId) None None None "AI_ESCALATED"
             ("AI auto-escalated ticket due to urgency score: " ++ shown (ur_score result)) None
             (Some [("urgencyScore", JNum (ur_score result)); ("reasoning", jstr (ur_reasoning result))]))
         else mret ());
    push (ToTicket ticketId) "ai:urgency"
      [("ticketId", jstr ticketId); ("urgency", urgency_json result)]).

(** The public comments of a ticket, each with its author. *)
Definition public_comments (ticketId : string) (order : string * CommentRow → Z) (take_ : option nat)
  : W Tbl (list (CommentRow * UserRow)) :=
  comments ← find_many d_comments
    (λ _ r, bool_decide (co_ticketId r = ticketId) && bool_decide (co_type r = PUBLIC)) order take_;
  users ← gets (λ w, d_users (w_db w));
  mret (omap (λ '(_, c), pair c <$> findUnique (co_authorId c) users) comments).

Definition processSuggestResponseJob (data : AIJobData) : W Tbl unit :=
  ticket_job AI_RESPONSE_SUGGESTION data (λ ticketId ticket,
    recentComments ← public_comments ticketId (λ kr, - co_createdAt kr.2) (Some 5%nat);
    let conversationHistory := join (two_newlines)
      (map (λ '(c, u), us_firstName u ++ " (" ++ role_string (us_role u) ++ "): " ++ co_content c)
         (rev recentComments)) in
    let ticketContext := "Title: " ++ t_title ticket ++ newline ++ "Description: " ++ t_description ticket
      ++ newline ++ "Status: " ++ status_string (t_status ticket) ++ newline ++ "Category: " ++ t_category ticket in
    startTime ← get_now;
    result ← lift (suggestResponse provider ticketContext conversationHistory);
    i ← save_result data (Some ticketId) None "RESPONSE_SUGGESTION" (suggestion_json result) None startTime
          (Some false);
    match t_assignedAgentId ticket with
    | Some agent =>
        if str_truthy agent
        then push (ToUser agent) "ai:response-suggestion"
               [("ticketId", jstr ticketId); ("suggestionId", jstr i); ("suggestion", suggestion_json result)]
        else mret ()
    | None => mret ()
    end).

Definition processSummarizeJob (data : AIJobData) : W Tbl unit :=
  ticket_job AI_SUMMARY data (λ ticketId ticket,
    comments ← public_comments ticketId (λ kr, co_createdAt kr.2) None;
    let commentsText := join (two_newlines) (map (λ '(c, u), us_firstName u ++ ": " ++ co_content c) comments) in
    let fullContext := newline ++ "Ticket: " ++ t_title ticket ++ newline ++ "Description: " ++ t_description ticket
      ++ newline ++ "Category: " ++ t_category ticket ++ newline ++ "Priority: " ++ enum_string (t_priority ticket)
      ++ newline ++ "Conversation:" ++ newline ++ commentsText ++ newline ++ "      " in
    startTime ← get_now;
    result ← lift (generateResolutionSummary provider fullContext);
    _ ← save_result data (Some ticketId) None "RESOLUTION_SUMMARY" (summary_result_json result) None startTime None;
    activity_create (mkActivity (jd_tenantId data) (Some ticketId) None None None "AI_SUMMARY_GENERATED"
      "AI generated resolution summary" None (Some [("resolutionType", jstr (su_resolutionType result))]))).

(** The mean of the scores of sentiment results; 0 when there is none. *)
Definition score_of (r : AIResultRow) : Q :=
  match member "score" (ar_result r) with Some (JNum q) => q | _ => 0%Q end.

Definition avg_sentiment (recent : list AIResultRow) : Q :=
  match recent with
  | [] => 0%Q
  | _ => (foldl (λ sum r, sum + score_of r) 0 recent / inject_Z (Z.of_nat (length recent)))%Q
  end.

Definition customerContext (tickets : list TicketRow) (recentSentiments : list AIResultRow) : Json :=
  let unresolved := filter (λ t, ti_status t ≠ RESOLVED ∧ ti_status t ≠ CLOSED) tickets in
  let escalated := filter (λ t, ti_isEscalated t = true) tickets in
  JObj [("totalTickets", jnum (Z.of_nat (length tickets)));
        ("unresolvedTickets", jnum (Z.of_nat (length unresolved)));
        ("escalatedTickets", jnum (Z.of_nat (length escalated)));
        ("avgSentimentScore", JNum (Qred (avg_sentiment recentSentiments)));
        ("recentTicketPriorities", jstrs (map (λ t, enum_string (ti_priority t)) (take 5 tickets)))].

(** [prisma.aIResult.findMany] of the sentiment of a customer. *)
Definition recent_sentiments (data : AIJobData) (customerId : string) : W Tbl (list AIResultRow) :=
  rows ← find_many d_aiResults
    (λ _ r, bool_decide (ar_customerId r = Some customerId) && bool_decide (ar_type r = "SENTIMENT")
            && bool_decide (ar_tenantId r = jd_tenantId data))
    (λ kr, - ar_createdAt kr.2) (Some 10%nat);
  mret (map snd rows).

Definition processRiskScoreJob (data : AIJobData) : W Tbl unit :=
  match jd_customerId data with
  | Some customerId =>
      if str_truthy customerId then
        try_catch (
          on ← ai_flag AI_RISK_SCORE data customerId;
          if negb on then mret ()
          else if negb (shouldProcess true true (str_length (jd_content data))) then mret ()
          else
            customerData ← find_first d_customers
              (λ j r, bool_decide (j = customerId) && bool_decide (cu_tenantId r = jd_tenantId data));
            match customerData with
            | None => mret ()
            | Some _ =>
                tickets ← find_many d_tickets (λ _ r, bool_decide (ti_customerId r = customerId))
                  (λ kr, - ti_createdAt kr.2) (Some 20%nat);
                recentSentiments ← recent_sentiments data customerId;
                let context := stringify shown (customerContext (map snd tickets) recentSentiments) in
                startTime ← get_now;
                result ← lift (calculateRiskScore provider context);
                _ ← save_result data None (Some customerId) "RISK_SCORE" (risk_json result)
                      (Some (rk_score result / 100)%Q) startTime None;
                _ ← service_updateRiskScore (λ n, match n with Fin q => shown q | _ => "NaN" end)
                      customerId (jd_tenantId data) (Fin (rk_score result)) (rk_label result);
                mret ()
            end)
          (λ _, mret ())
      else mret ()
  | None => mret ()
  end.

(** ** Results *)

Definition findResultTicketId (resultId tenantId : string) : W Tbl (option string) :=
  result ← find_first d_aiResults (λ j r, bool_decide (j = resultId) && bool_decide (ar_tenantId r = tenantId));
  mret (match result with Some (_, r) => ar_ticketId r | None => None end).

Definition acceptResponseSuggestion (suggestionId tenantId acceptedById : string) : W Tbl unit :=
  now ← get_now;
  _ ← update_many d_aiResults
    (λ j r, bool_decide (j = suggestionId) && bool_decide (ar_tenantId r = tenantId))
    (λ r, r <| ar_wasAccepted := Some true |> <| ar_acceptedAt := Some now |>
            <| ar_acceptedById := Some acceptedById |>);
  mret ().

Definition getTicketAIResults (ticketId tenantId : string) : W Tbl (list (string * AIResultRow)) :=
  find_many d_aiResults
    (λ _ r, bool_decide (ar_ticketId r = Some ticketId) && bool_decide (ar_tenantId r = tenantId))
    (λ kr, - ar_createdAt kr.2) None.

(** ** The worker, and [AIController] *)

(** [startBackgroundProcessing] hands the jobs that name a ticket, or a customer, to the
    service; the others fail. *)
Definition withTicket (process : AIJobData → W Tbl unit) (data : AIJobData) : W Tbl unit :=
  if truthy (jd_ticketId data) then process data
  else throw (PlainError ("AI job " ++ jd_jobType data ++ " requires a ticketId")).

Definition withCustomer (process : AIJobData → W Tbl unit) (data : AIJobData) : W Tbl unit :=
  if truthy (jd_customerId data) then process data
  else throw (PlainError "AI job risk-score requires a customerId").

(** The handler of a job; an unknown type fails the job. *)
Definition run_ai_job (data : AIJobData) : W Tbl unit :=
  let jobType := jd_jobType data in
  if bool_decide (jobType = "categorize") then withTicket processCategorizationJob data
  else if bool_decide (jobType = "sentiment") then withTicket processSentimentJob data
  else if bool_decide (jobType = "urgency") then withTicket processUrgencyJob data
  else if bool_decide (jobType = "suggest-response") then withTicket processSuggestResponseJob data
  else if bool_decide (jobType = "summarize") then withTicket processSummarizeJob data
  else if bool_decide (jobType = "risk-score") then withCustomer processRiskScoreJob data
  else throw (PlainError ("No handler for AI job type: " ++ jobType)).

Definition MAX_AI_CONTENT_LENGTH : Z := 10000.

Definition queueTicketJob (actor : TicketActor) (jobType ticketId : string) (content : option string)
  : W Tbl unit :=
  ticket ← assertCanAccess actor ticketId;
  let text := or_else (trim <$> content) (t_title ticket ++ two_newlines ++ t_description ticket) in
  ai_add jobType (ta_tenantId actor) (Some (b_id (t_base ticket))) None (slice0 MAX_AI_CONTENT_LENGTH text) [].

Definition getTicketResults (actor : TicketActor) (ticketId : string) : W Tbl (list (string * AIResultRow)) :=
  _ ← assertCanAccess actor ticketId;
  getTicketAIResults ticketId (ta_tenantId actor).

Definition acceptSuggestion (actor : TicketActor) (resultId : string) : W Tbl unit :=
  ticketId ← findResultTicketId resultId (ta_tenantId actor);
  match ticketId with
  | Some t =>
      if str_truthy t then
        _ ← assertCanAccess actor t;
        acceptResponseSuggestion resultId (ta_tenantId actor) (ta_id actor)
      else throw (NotFoundError "AI result" (Some resultId))
  | None => throw (NotFoundError "AI result" (Some resultId))
  end.
End ai.
