(* ===== verification/AiFacts.v ===== *)
(** * What AI jobs may do

    A job never fails and touches no ticket but its own, of its own organization; without
    the organization's consent it changes nothing about a ticket but the category.  The
    sentiment of tickets never reaches the risk score of their customer. *)

From Stdlib Require Import Ascii String QArith.
From S2P Require Import Prelude Store Js Errors Domain Ticket Customer Tenant User Permissions.
From S2P Require Import Json Schema World Outbox Logs Frames Tokens Repositories TicketService Notifications.
From S2P Require Import Customers FeatureFlags Ai.

#[local] Open Scope string_scope.
#[local] Open Scope Z_scope.
#[local] Set Default Proof Using "Type*".

#[local] Notation tickets w := (rows_of d_tickets w).
#[local] Notation results w := (rows_of d_aiResults w).

Section facts.
Context {Tbl : Type → Type} `{!Prisma Tbl} {crypto : Crypto}.
Context (env : string → option string) (provider : AIProvider).
Context (shown : Q → string) (fixed : nat → Q → string) (threshold : Q).
Implicit Types (w : World Tbl).

#[local] Notation run := (run_ai_job env provider shown fixed threshold).

Lemma try_silent_ok (m : W Tbl unit) w : is_ok (try_catch m (λ _, mret ()) w).1 = true.
Proof. unfold try_catch. by destruct (m w) as [[[]|e] w1]. Qed.

Lemma ticket_job_ok feature data work w : is_ok (ticket_job env feature data work w).1 = true.
Proof.
  unfold ticket_job. destruct (jd_ticketId data); [|done]. destruct (str_truthy _); [|done]. apply try_silent_ok.
Qed.

Definition AI_JOB_TYPES : list string :=
  ["categorize"; "sentiment"; "urgency"; "suggest-response"; "summarize"; "risk-score"].

(** What holds of the six jobs and of an error holds of what the worker runs. *)
Lemma run_cases (P : W Tbl unit → Prop) data :
  P (processCategorizationJob env provider fixed data) → P (processSentimentJob env provider fixed data) →
  P (processUrgencyJob env provider shown threshold data) → P (processSuggestResponseJob env provider data) →
  P (processSummarizeJob env provider data) → P (processRiskScoreJob env provider shown data) →
  (∀ e, P (throw e)) → P (run data).
Proof.
  intros. unfold run_ai_job, withTicket, withCustomer. cbv zeta.
  repeat match goal with |- context [bool_decide (?x = ?y)] => destruct (bool_decide (x = y)) end;
    try destruct (truthy _); auto.
Qed.

Lemma risk_job_ok data w : is_ok (processRiskScoreJob env provider shown data w).1 = true.
Proof. unfold processRiskScoreJob. destruct (jd_customerId data); [|done]. destruct (str_truthy _); [|done]. apply try_silent_ok. Qed.

(** A job of a known type that names what it is about always succeeds, whatever the provider
    and the database do: the second attempt that the queue allows is never made. *)
Theorem ai_jobs_never_fail data w :
  jd_jobType data ∈ AI_JOB_TYPES →
  truthy (if bool_decide (jd_jobType data = "risk-score") then jd_customerId data else jd_ticketId data) = true →
  is_ok (run data w).1 = true.
Proof.
  intros Ht Hid. unfold AI_JOB_TYPES in Ht. rewrite !elem_of_cons in Ht.
  unfold run_ai_job, withTicket, withCustomer. cbv zeta.
  destruct (bool_decide_reflect (jd_jobType data = "risk-score")) as [Hr|Hr].
  - rewrite Hr, Hid. apply risk_job_ok.
  - rewrite Hid. repeat match goal with |- context [bool_decide (?x = ?y)] =>
      destruct (bool_decide_reflect (x = y)); [apply ticket_job_ok|] end.
    rewrite elem_of_nil in Ht. naive_solver.
Qed.
(** ** The ticket of a job *)

(** [m] leaves the row [j] of the tickets alone. *)
#[local] Notation spares j m := (Keeps (λ w : World Tbl, rows (d_tickets (w_db w)) !! j) m).

Lemma keeps_update_other i j d : j ≠ i → spares j (update_one d_tickets i d).
Proof.
  intros Hne w. destruct (update_one d_tickets i d w) as [[r|e] w'] eqn:E; cbn [snd].
  - destruct (update_one_ok d_tickets i d w w' r E) as (x & _ & _ & Hw & _).
    unfold rows_of in Hw. rewrite Hw. by apply lookup_insert_ne.
  - by rewrite (clean_update_one d_tickets i d w e w' E).
Qed.

Lemma getTicketOrThrow_id i t w k w' : getTicketOrThrow i t w = (Ok k, w') → w' = w ∧ b_id (t_base k) = i.
Proof.
  unfold getTicketOrThrow. intros H. apply M_bind_ok in H as (o & w1 & E & H).
  rewrite ticket_findById_run in E. injection E as <- <-. destruct (rows_of d_tickets w !! i); [|done].
  case_bool_decide; [|done]. unfold mret, M_ret in H. injection H as <- <-. by split.
Qed.

Lemma escalate_id rt reason by_ t t' : escalate rt reason by_ t = Ok t' → b_id (t_base t') = b_id (t_base t).
Proof. unfold escalate. destruct (t_isEscalated t); [done|]. intros H. inv_ok. by destruct t as [[] ]. Qed.

(** A bind whose second part may use what the first one returns. *)
Lemma keeps_bind_ok {X A B} (obs : World Tbl → X) (m : W Tbl A) (k : A → W Tbl B) :
  Keeps obs m → (∀ w a w1, m w = (Ok a, w1) → Keeps obs (k a)) → Keeps obs (m ≫= k).
Proof.
  intros Hm Hk w. specialize (Hm w). specialize (Hk w). unfold mbind, M_bind.
  destruct (m w) as [[a|e] w1]; cbn in *; [|done]. by rewrite (Hk a w1 eq_refl).
Qed.

Lemma escalateTicket_spares j dto : j ≠ es_ticketId dto → spares j (escalateTicket dto).
Proof.
  intros Hne. unfold escalateTicket. apply keeps_bind_ok; [keeps_tac|].
  intros w k w1 [_ Hid]%getTicketOrThrow_id. destruct (negb (canEscalate k)); [apply keeps_throw|].
  apply keeps_bind; [keeps_tac|]. intros rt. apply keeps_bind_ok; [apply keeps_lift|].
  intros w2 t w3 E. unfold lift in E. injection E as E _. apply escalate_id in E.
  assert (spares j (ticket_update (Tbl:=Tbl) t)) as Hu.
  { unfold ticket_update, or_infrastructure. apply keeps_try; [|intros e; keeps_tac].
    apply keeps_bind; [keeps_tac|]. intros now. apply keeps_bind; [keeps_tac|]. intros [].
    apply keeps_bind; [|intros r; keeps_tac]. apply keeps_update_other. unfold t_id. congruence. }
  apply keeps_bind; [|intros x; keeps_tac].
  apply (keeps_transaction_db (λ d : Db Tbl, rows (d_tickets d) !! j)). keeps_tac.
Qed.

Lemma keeps_update_many_other j p d : (∀ r, p j r = false) → spares j (update_many d_tickets p d).
Proof.
  intros Hp w. pose proof (update_many_rows d_tickets p d w j) as Hr. unfold rows_of in Hr. rewrite Hr.
  destruct (rows (d_tickets (w_db w)) !! j) as [r|]; [|done]. cbn. by rewrite Hp.
Qed.

Lemma ticket_job_spares feature data work j :
  (∀ i k, jd_ticketId data = Some i → i ≠ j → spares j (work i k)) →
  ∀ w r, tickets w !! j = Some r → (jd_ticketId data ≠ Some j ∨ ti_tenantId r ≠ jd_tenantId data) →
  tickets (ticket_job env feature data work w).2 !! j = Some r.
Proof.
  intros Hwork w r Hr Hne. unfold ticket_job. destruct (jd_ticketId data) as [i|]; [|done].
  destruct (str_truthy i); [|done]. destruct (decide (i = j)) as [->|Hij].
  - destruct Hne as [|Hne]; [done|]. unfold try_catch, mbind, M_bind. rewrite ticket_findById_run, Hr.
    by rewrite bool_decide_eq_false_2.
  - rewrite <-Hr. unfold rows_of.
    match goal with |- rows (d_tickets (w_db (?m w).2)) !! j = _ => enough (spares j m) as Hk by exact (Hk w) end.
    apply keeps_try; [|intros e; apply keeps_ret]. apply keeps_bind; [keeps_tac|]. intros [k|]; [|apply keeps_ret].
    apply keeps_bind; [keeps_tac|]. intros b. destruct (negb b); [apply keeps_ret|].
    destruct (negb _); [apply keeps_ret|]. by apply Hwork.
Qed.

#[local] Ltac spare := repeat first
  [ apply escalateTicket_spares; cbn; assumption | apply keeps_bind; [|intros ?]
  | apply keeps_update_many_other; intros; cbn; by rewrite bool_decide_eq_false_2
  | progress unfold system_escalation | case_match | solve [keeps_tac] ].

(** A job changes no ticket but its own, and that one only inside the organization that
    queued the job. *)
Theorem ai_tickets_isolated data w j r :
  tickets w !! j = Some r → (jd_ticketId data ≠ Some j ∨ ti_tenantId r ≠ jd_tenantId data) →
  tickets (run data w).2 !! j = Some r.
Proof.
  intros Hr Hne. apply (run_cases (λ m, tickets (m w).2 !! j = Some r));
    try (apply ticket_job_spares; [|done|done]; intros i k Hi Hij; assert (j ≠ i) as Hji by congruence; spare; fail).
  - enough (spares j (processRiskScoreJob env provider shown data)) as Hk; [|unfold processRiskScoreJob].
    { unfold rows_of. rewrite (Hk w). exact Hr. }
    case_match; [|apply keeps_ret]. case_match; [|apply keeps_ret]. apply keeps_try; [|intros; apply keeps_ret]. spare.
  - by intros e.
Qed.
(** ** Consent *)

Definition auto_escalation (tenantId : string) : FeatureEvaluationContext :=
  mkFeatureContext (Some tenantId) None false.

Lemma enabled_in_tenants feature context w w' :
  d_tenants (w_db w') = d_tenants (w_db w) → enabled_in env w' feature context = enabled_in env w feature context.
Proof.
  intros E. unfold enabled_in, isEnabled, getTenantFlags, find_unique, gets, mbind, M_bind, mret, M_ret.
  destruct (getGlobalOverride env feature); [done|]. destruct (fc_tenantId context) as [t|]; [|done].
  destruct (str_truthy t); [|done]. rewrite E.
  destruct (get_field _ _) as [d|]; [|done]. by destruct (json_truthy d).
Qed.

(** A ticket but for its category. *)
Definition uncategorized (r : TicketRow) : TicketRow := r <| ti_category := "" |> <| ti_updatedAt := 0 |>.

(** The organization has not opted in, and the ticket [j] is still what it was. *)
Definition not_opted tenantId j (c : option TicketRow) w : Prop :=
  enabled_in env w AI_AUTO_ESCALATION (auto_escalation tenantId) = false ∧
  uncategorized <$> (tickets w !! j) = c.

Lemma preserves_bind_ok {A B} (I : World Tbl → Prop) (m : W Tbl A) (k : A → W Tbl B) :
  preserves I m → (∀ w a w1, I w → m w = (Ok a, w1) → preserves I (k a)) → preserves I (m ≫= k).
Proof.
  intros Hm Hk w Hw. specialize (Hm w Hw). specialize (Hk w). unfold mbind, M_bind.
  destruct (m w) as [[a|e] w1]; cbn in *; [|done]. by apply (Hk a w1 Hw eq_refl).
Qed.

Lemma not_opted_keeps {A} t j c (m : W Tbl A) :
  Keeps (λ w : World Tbl, d_tenants (w_db w)) m → Keeps (λ w : World Tbl, d_tickets (w_db w)) m →
  preserves (not_opted t j c) m.
Proof.
  intros H1 H2 w [Ha Hc]. split; [by rewrite (enabled_in_tenants _ _ w) by apply H1|].
  unfold rows_of in *. by rewrite H2.
Qed.

Lemma not_opted_categorize t j c p category now :
  preserves (not_opted t j c)
    (update_many d_tickets p (λ r, r <| ti_category := category |> <| ti_updatedAt := now |>)).
Proof.
  intros w [Ha Hc]. split.
  - rewrite (enabled_in_tenants _ _ w); [done|].
    apply (keeps_update_many (λ w : World Tbl, d_tenants (w_db w)) d_tickets). frame_side.
  - rewrite (update_many_rows d_tickets). rewrite <-Hc.
    destruct (tickets w !! j) as [r|]; [|done]. cbn. f_equal. destruct (p j r); [by destruct r|done].
Qed.

#[local] Ltac consent := repeat first
  [ apply not_opted_categorize
  | apply not_opted_keeps; [solve [keeps_tac]|solve [keeps_tac]]
  | apply preserves_bind; [|intros ?]
  | case_match ].

Lemma ticket_job_consent feature data work t j c :
  (∀ i k, preserves (not_opted t j c) (work i k)) → preserves (not_opted t j c) (ticket_job env feature data work).
Proof.
  intros Hw. unfold ticket_job. destruct (jd_ticketId data) as [i|]; [|apply preserves_ret].
  destruct (str_truthy i); [|apply preserves_ret]. apply preserves_try; [|intros e; apply preserves_ret].
  apply preserves_bind; [apply not_opted_keeps; keeps_tac|]. intros [k|]; [|apply preserves_ret].
  apply preserves_bind; [apply not_opted_keeps; keeps_tac|]. intros b. destruct (negb b); [apply preserves_ret|].
  destruct (negb _); [apply preserves_ret|apply Hw].
Qed.

(** No consent, no automatic escalation. *)
Lemma auto_escalation_off data j c {B} (k : bool → W Tbl B) :
  preserves (not_opted (jd_tenantId data) j c) (k false) →
  preserves (not_opted (jd_tenantId data) j c) (isAutoEscalationEnabled env (jd_tenantId data) ≫= k).
Proof.
  intros Hk. apply preserves_bind_ok; [apply not_opted_keeps; keeps_tac|].
  intros w b w1 [Ha _] E. unfold isAutoEscalationEnabled in E. rewrite isEnabled_run in E.
  unfold auto_escalation in Ha. injection E as <- _. by rewrite Ha.
Qed.

(** The operator has switched automatic escalation on for everyone. *)
Definition forced_on : Prop :=
  ∃ raw, env "FEATURE_FLAG_AI_AUTO_ESCALATION" = Some raw ∧ toLowerCase raw ∈ ["1"; "true"; "yes"; "on"].

(** The settings of an organization hold its consent: an enabled flag, not rolled out to no
    one. *)
Definition consents (settings : Json) : Prop :=
  ∃ fields flags definition enabled,
    settings = JObj fields ∧ get_field "featureFlags" fields = Some (JObj flags) ∧
    get_field "ai.auto_escalation" flags = Some (JObj definition) ∧
    get_field "enabled" definition = Some enabled ∧ json_truthy enabled = true ∧
    (∀ q, get_field "rolloutPercentage" definition = Some (JNum q) → ¬ (q <= 0)%Q).

Lemma evaluate_consents fields flags definition context :
  get_field "featureFlags" fields = Some (JObj flags) →
  get_field "ai.auto_escalation" flags = Some definition →
  evaluateDefinition AI_AUTO_ESCALATION definition context = true → consents (JObj fields).
Proof.
  intros Hf Hd He. unfold evaluateDefinition in He.
  destruct (member "enabled" definition) as [enabled|] eqn:Hen; cbn [from_option] in He; [|done].
  destruct (json_truthy enabled) eqn:Ht; cbn [negb] in He; [|done].
  destruct definition as [| | | | |members]; try done. cbn [member] in *.
  exists fields, flags, members, enabled. split_and!; try done. intros q Hq Hle. rewrite Hq in He.
  destruct (Qle_bool 100 q) eqn:H100.
  - apply Qle_bool_iff in H100. pose proof (Qle_trans _ _ _ H100 Hle) as Habs. by apply Qle_bool_iff in Habs.
  - apply Qle_bool_iff in Hle. by rewrite Hle in He.
Qed.

Lemma no_consent tenantId w :
  ¬ forced_on → (∀ r, rows_of d_tenants w !! tenantId = Some r → ¬ consents (nr_settings r)) →
  enabled_in env w AI_AUTO_ESCALATION (auto_escalation tenantId) = false.
Proof.
  intros Hforced Horg. unfold enabled_in, isEnabled, getGlobalOverride.
  assert (env_key AI_AUTO_ESCALATION = "FEATURE_FLAG_AI_AUTO_ESCALATION") as -> by (vm_compute; reflexivity).
  destruct (env _) as [raw|] eqn:Hraw; [destruct (str_truthy raw)|].
  { cbn. destruct (includes _ _) eqn:Hin; [|done]. destruct Hforced. exists raw. split; [done|].
    unfold includes in Hin. by bool_to_prop. }
  all: cbn [fc_tenantId auto_escalation fc_fallbackEnabled]; destruct (str_truthy tenantId); [|done];
    unfold getTenantFlags, find_unique, gets, mbind, M_bind, mret, M_ret; rewrite findUnique_rows;
    fold (rows_of d_tenants w); destruct (rows_of d_tenants w !! tenantId) as [r|] eqn:Hr; [|done];
    specialize (Horg r eq_refl); unfold tenant_flags, member; destruct (nr_settings r) as [| | | | |fields]; try done;
    destruct (get_field "featureFlags" fields) as [[| | | | |flags]|] eqn:Hf; try done;
    destruct (get_field AI_AUTO_ESCALATION flags) as [definition|] eqn:Hd; [|done];
    destruct (json_truthy definition); [|done]; cbn;
    (destruct (evaluateDefinition _ _ _) eqn:He; [|done]); destruct Horg; by eapply evaluate_consents.
Qed.

(** C28: Whatever a customer writes and the provider answers, no job changes anything about a
    ticket but its category, as long as the operator has not switched automatic escalation on
    for everyone and the settings of the organization do not hold its consent. *)
Theorem ai_escalation_needs_consent data w :
  ¬ forced_on →
  (∀ r, rows_of d_tenants w !! jd_tenantId data = Some r → ¬ consents (nr_settings r)) →
  ∀ j, uncategorized <$> (tickets (run data w).2 !! j) = uncategorized <$> (tickets w !! j).
Proof.
  intros Hforced Horg j. pose proof (no_consent _ _ Hforced Horg) as Ha. enough (preserves (not_opted (jd_tenantId data) j (uncategorized <$> (tickets w !! j))) (run data)) as Hp.
  { by apply Hp. }
  apply run_cases.
  - apply ticket_job_consent. intros i k. consent.
  - apply ticket_job_consent. intros i k.
    do 4 (apply preserves_bind; [consent|intros ?]). destruct (_ && _); [|apply preserves_ret].
    apply auto_escalation_off. apply preserves_ret.
  - apply ticket_job_consent. intros i k.
    do 3 (apply preserves_bind; [consent|intros ?]). destruct (_ && _).
    + apply auto_escalation_off. consent.
    + apply preserves_bind_ok; [apply preserves_ret|]. intros w1 b w2 _ E. unfold mret, M_ret in E.
      injection E as <- _. consent.
  - apply ticket_job_consent. intros i k. consent.
  - apply ticket_job_consent. intros i k. consent.
  - apply not_opted_keeps; unfold processRiskScoreJob; keeps_tac.
  - intros e. apply preserves_throw.
Qed.

(** ** Sentiment and risk *)

(** No result about sentiment names a customer. *)
Definition sentiment_anonymous w : Prop :=
  ∀ i r, results w !! i = Some r → ar_type r = "SENTIMENT" → ar_customerId r = None.

Lemma anonymous_keeps {A} (m : W Tbl A) :
  Keeps (λ w : World Tbl, d_aiResults (w_db w)) m → preserves sentiment_anonymous m.
Proof. intros H w Hw. unfold sentiment_anonymous, rows_of in *. by rewrite H. Qed.

Lemma save_result_anonymous data t c ty res conf start acc :
  (ty = "SENTIMENT" → c = None) → preserves sentiment_anonymous (save_result data t c ty res conf start acc).
Proof.
  intros Hc. unfold save_result. apply preserves_bind; [apply anonymous_keeps; keeps_tac|]. intros i.
  apply preserves_bind; [apply anonymous_keeps; keeps_tac|]. intros now.
  apply preserves_bind; [|intros []; apply preserves_ret].
  intros w Hw. destruct (create_row _ _ _ _ _ w) as [[u|e] w'] eqn:E; cbn [snd].
  - apply (create_row_ok d_aiResults) in E as (_ & _ & Hrows & _).
    intros j r. rewrite Hrows. intros [[<- <-]|[_ Hj]]%lookup_insert_Some; [done|by eapply Hw].
  - by apply create_row_err in E as ->.
Qed.

#[local] Ltac anonymous := repeat first
  [ apply save_result_anonymous; intros; congruence
  | apply anonymous_keeps; solve [keeps_tac]
  | apply preserves_bind; [|intros ?]
  | apply preserves_try; [|intros ?]
  | case_match ].

Lemma ai_job_anonymous data : preserves sentiment_anonymous (run data).
Proof.
  apply run_cases; [unfold processCategorizationJob|unfold processSentimentJob|unfold processUrgencyJob
    |unfold processSuggestResponseJob|unfold processSummarizeJob|unfold processRiskScoreJob|intros e; apply preserves_throw];
    unfold ticket_job; anonymous.
Qed.

(** The jobs, in any order, on a deployment that starts without results; meanwhile
    anything else may happen that leaves the results alone, and suggestions be accepted. *)
Inductive ai_step : World Tbl → World Tbl → Prop :=
| ai_job data w : ai_step w (run data w).2
| ai_accept i t by_ w : ai_step w (acceptResponseSuggestion i t by_ w).2
| ai_other w w' : results w' = results w → ai_step w w'.

(** The risk job of a customer never finds a sentiment: the mean it reports is 0. *)
Theorem risk_ignores_sentiment data customerId w w' :
  results w = ∅ → rtc ai_step w w' → recent_sentiments data customerId w' = (Ok [], w').
Proof.
  intros He Hs. assert (sentiment_anonymous w') as Hw.
  { assert (sentiment_anonymous w) as Hw by (intros i r; rewrite He; by rewrite lookup_empty).
    clear He. induction Hs as [w|w1 w2 w3 Hs _ IH]; [done|]. apply IH. destruct Hs as [d w|i t b w|w w' E].
    - by apply ai_job_anonymous.
    - unfold acceptResponseSuggestion. intros j r. unfold mbind at 1, M_bind at 1, get_now, gets.
      unfold mbind, M_bind. destruct (update_many_run d_aiResults (λ j r0, bool_decide (j = i) && bool_decide (ar_tenantId r0 = t))
        (λ r0, r0 <| ar_wasAccepted := Some true |> <| ar_acceptedAt := Some (w_now w) |> <| ar_acceptedById := Some b |>) w)
        as (n & w1 & E & _).
      pose proof (update_many_rows d_aiResults (λ j r0, bool_decide (j = i) && bool_decide (ar_tenantId r0 = t))
        (λ r0, r0 <| ar_wasAccepted := Some true |> <| ar_acceptedAt := Some (w_now w) |> <| ar_acceptedById := Some b |>) w j) as Hr.
      rewrite E in Hr |- *. cbn in Hr |- *. rewrite Hr. destruct (results w !! j) as [x|] eqn:Ex; [|done]. cbn.
      intros [= <-]. specialize (Hw j x Ex). destruct (_ && _); [by destruct x|done].
    - intros i r. rewrite E. apply Hw. }
  unfold recent_sentiments, find_many, gets, mbind, M_bind, mret, M_ret. do 2 f_equal.
  match goal with |- map snd ?l = [] => destruct l as [|[i r] l'] eqn:El; [done|] end. exfalso.
  assert ((i, r) ∈ findMany (λ _ r0, bool_decide (ar_customerId r0 = Some customerId) && bool_decide (ar_type r0 = "SENTIMENT")
            && bool_decide (ar_tenantId r0 = jd_tenantId data)) (λ kr, - ar_createdAt kr.2) (Some 10%nat)
            (d_aiResults (w_db w'))) as Hin by (rewrite El; by left).
  apply findMany_elem in Hin as [Hi Hp]. bool_to_prop. specialize (Hw i r Hi). rewrite Hw in *; done.
Qed.
End facts.

(** ** A concrete job *)

Definition no_provider : AIProvider :=
  mkAIProvider (λ _ _, Ok (mkCategorization "BILLING" 1 "")) (λ _, Ok (mkSentiment (-1) "FRUSTRATED" 1))
    (λ _ _, Err (InfrastructureError "AI completion failed")) (λ _ _, Ok (mkSuggestion "" "" ""))
    (λ _, Ok (mkSummary "" [] "FIXED")) (λ _, Ok (mkRisk 10 "LOW" [])).

Definition shop_desk (settings : Json) : World (gmap string) :=
  world_of 1000 (empty_db
    <| d_tenants := {["t1" := mkTenantRecord "Acme" "acme" "ACTIVE" "pro" None None 5 100 10 settings None None 0 0]} |>
    <| d_tickets := {["k1" := mkTicketRow "t1" 1 "c1" (Some "u2") "u1" "Broken" "d" OPEN MEDIUM "GENERAL" [] "WEB"
                       false None None None None None None false [] None 0 0]} |>).

Definition sentiment_job : AIJobData := mkAIJob "sentiment" "t1" (Some "k1") None "I am furious".

Definition run_demo (data : AIJobData) : W (gmap string) unit :=
  run_ai_job (λ _, None) no_provider (λ _, "") (λ _ _, "") 85 data.

Definition opted_in : Json := JObj [("featureFlags", JObj [(AI_AUTO_ESCALATION, JObj [("enabled", JBool true)])])].
Definition escalated (w : World (gmap string)) : option bool := ti_isEscalated <$> (tickets w !! "k1").

(** The provider throws on an urgency job; the job succeeds nevertheless. *)
Lemma ai_jobs_never_fail_witness :
  is_ok (run_demo (mkAIJob "urgency" "t1" (Some "k1") None "please hurry up") (shop_desk opted_in)).1 = true.
Proof.
  apply (ai_jobs_never_fail (Tbl:=gmap string)); [cbn; unfold AI_JOB_TYPES; do 2 right; left|reflexivity].
Defined.

(** A job of another organization about the same ticket. *)
Lemma ai_tickets_isolated_witness :
  let data := mkAIJob "sentiment" "t2" (Some "k1") None "I am furious" in
  ∃ r, tickets (run_demo data (shop_desk opted_in)).2 !! "k1" = Some r ∧
       escalated (run_demo sentiment_job (shop_desk opted_in)).2 = Some true.
Proof.
  cbv zeta. assert (∃ r, tickets (shop_desk opted_in) !! "k1" = Some r ∧ ti_tenantId r = "t1") as (r & Hr & Ht)
    by (eexists; split; reflexivity).
  exists r. split; [apply (ai_tickets_isolated (Tbl:=gmap string)); [exact Hr|right; rewrite Ht; done]|].
  vm_compute; reflexivity.
Defined.

(** The same answer escalates the ticket of an organization that opted in only. *)
Lemma ai_escalation_needs_consent_witness :
  (uncategorized <$> (tickets (run_demo sentiment_job (shop_desk (JObj []))).2 !! "k1")
   = uncategorized <$> (tickets (shop_desk (JObj [])) !! "k1")) ∧
  escalated (run_demo sentiment_job (shop_desk opted_in)).2 = Some true.
Proof.
  split; [|vm_compute; reflexivity].
  apply (ai_escalation_needs_consent (Tbl:=gmap string)).
  - by intros (raw & E & _).
  - intros r Hr (fields & flags & definition & enabled & Hs & Hf & _).
    unfold rows_of in Hr. cbn in Hr. apply lookup_singleton_Some in Hr as [_ <-].
    cbn in Hs. by injection Hs as <-.
Defined.

(** After an analysis of the sentiment, whose result is stored. *)
Lemma risk_ignores_sentiment_witness :
  let w := (run_demo sentiment_job (shop_desk (JObj []))).2 in
  recent_sentiments (mkAIJob "risk-score" "t1" None (Some "c1") "the content") "c1" w = (Ok [], w) ∧
  length (map_to_list (results w)) = 1%nat.
Proof.
  cbv zeta. split; [|vm_compute; reflexivity].
  apply (risk_ignores_sentiment (Tbl:=gmap string) (λ _, None) no_provider (λ _, "") (λ _ _, "") 85%Q)
    with (w := shop_desk (JObj [])); [vm_compute; reflexivity|].
  eapply rtc_l; [apply ai_job|apply rtc_refl].
Defined.
