(* ===== verification/OAuth.v ===== *)
(** * Sign-in with Google

    [OAuthService] ([src/application/auth/services/oauth.service.ts]) and the callback of
    [AuthController]: a verified Google identity opens a session of an account that exists
    already, and is linked to it.  The Google client is a parameter. *)

From Stdlib Require Import Ascii String.
From S2P Require Import Prelude Store Js Errors Domain Ticket Customer Tenant User Schema World Logs Frames.
From S2P Require Import Json Tokens Auth.

#[local] Open Scope string_scope.
#[local] Open Scope Z_scope.
#[local] Set Default Proof Using "Type*".

(** The claims of an identity token, of which the library promises [sub] alone. *)
Record GooglePayload := mkGooglePayload {
  gp_sub : string;
  gp_email : option string;
  gp_given_name : option string;
  gp_family_name : option string;
  gp_picture : option string;
  gp_email_verified : option bool;
}.

(** [OAuth2Client]: the identity token that a code is exchanged for, and its claims. *)
Record GoogleClient := mkGoogleClient {
  getToken : string → result error (option string);
  verifyIdToken : string → result error (option GooglePayload);
}.

Record GoogleUserInfo := mkGoogleUser {
  gu_googleId : string;
  gu_email : string;
  gu_firstName : string;
  gu_lastName : string;
  gu_avatarUrl : option string;
  gu_emailVerified : bool;
}.

(** The result of the callback: the session, and the account it belongs to. *)
Record OAuthResult := mkOAuthResult {
  or_tokens : TokenPair;
  or_isNewUser : bool;
  or_id : string;
  or_user : UserRow;
}.

Section oauth.
Context {Tbl : Type → Type} `{!Prisma Tbl} {crypto : Crypto} (cfg : JwtConfig).
Context (google : GoogleClient).

Definition createState : W Tbl string := draw.

(** What the client returns for a code, up to the check of the e-mail address. *)
Definition google_user (code : string) : result error GoogleUserInfo :=
  idToken ← getToken google code;
  match idToken with
  | Some token =>
      if str_truthy token then
        payload ← verifyIdToken google token;
        match payload with
        | Some p =>
            if truthy (gp_email p) then
              let googleUser := mkGoogleUser (gp_sub p) (default "" (gp_email p)) (default "" (gp_given_name p))
                (default "" (gp_family_name p)) (gp_picture p) (default false (gp_email_verified p)) in
              if gu_emailVerified googleUser then Ok googleUser
              else Err (ForbiddenError "Your Google email address is not verified")
            else Err (UnauthorizedError "Invalid Google token payload")
        | None => Err (UnauthorizedError "Invalid Google token payload")
        end
      else Err (UnauthorizedError "Google did not return an identity token")
  | None => Err (UnauthorizedError "Google did not return an identity token")
  end.

Definition same_identity (googleId : string) (o : OAuthRow) : bool :=
  bool_decide (oa_provider o = "google") && bool_decide (oa_providerUid o = googleId).

Definition findOrCreateGoogleUser (googleUser : GoogleUserInfo) : W Tbl (string * UserRow * bool) :=
  existingOAuth ← find_first d_oauthAccounts (λ _ o, same_identity (gu_googleId googleUser) o);
  match existingOAuth with
  | Some (_, o) =>
      user ← find_unique d_users (oa_userId o);
      match user with
      | Some u => mret (oa_userId o, u, false)
      | None => throw (PlainError "Inconsistent query result: required relation is null")
      end
  | None =>
      existingUser ← findUserByEmail (toLowerCase (gu_email googleUser));
      match existingUser with
      | Some (i, u) =>
          j ← draw;
          now ← get_now;
          _ ← create_row d_oauthAccounts (λ _ o, same_identity (gu_googleId googleUser) o)
                (λ db, bool_decide (is_Some (findUnique i (d_users db)))) j
                (mkOAuthRow i "google" (gu_googleId googleUser) None None None (JObj []) now now);
          mret (i, u, false)
      | None => throw (ForbiddenError "No account exists for this Google identity")
      end
  end.

Definition handleGoogleCallback (code : string) (ipAddress userAgent : option string) : W Tbl OAuthResult :=
  googleUser ← lift (google_user code);
  '(i, user, isNewUser) ← findOrCreateGoogleUser googleUser;
  _ ← assertAccountUsable user;
  tokenPair ← createTokenPair cfg i (us_tenantId user) (role_string (us_role user)) (us_email user)
                ipAddress userAgent None;
  mret (mkOAuthResult tokenPair isNewUser i user).

(** [AuthController.googleCallback]: [expectedState] is the cookie of the browser. *)
Definition safeEqual (a b : string) : bool := bool_decide (a = b).

Definition googleCallback (code state expectedState ipAddress userAgent : option string) : W Tbl OAuthResult :=
  match code, state, expectedState with
  | Some code, Some state, Some expectedState =>
      if str_truthy code && str_truthy state && str_truthy expectedState && safeEqual state expectedState
      then handleGoogleCallback code ipAddress userAgent
      else throw (UnauthorizedError "Invalid OAuth state")
  | _, _, _ => throw (UnauthorizedError "Invalid OAuth state")
  end.

(** ** Lemmas *)

#[local] Notation users w := (rows_of d_users w).
#[local] Notation links w := (rows_of d_oauthAccounts w).
#[local] Notation sessions w := (rows_of d_refreshTokens w).
Implicit Types (w : World Tbl).

(** The account of an identity: the linked one, else the one with its address, which is
    linked. *)
Lemma findOrCreate_ok g w i u b w' :
  findOrCreateGoogleUser g w = (Ok (i, u, b), w') →
  b = false ∧ users w !! i = Some u ∧ users w' = users w ∧ d_tenants (w_db w') = d_tenants (w_db w) ∧
  d_refreshTokens (w_db w') = d_refreshTokens (w_db w) ∧ w_now w' = w_now w ∧
  ((∃ j o, links w !! j = Some o ∧ same_identity (gu_googleId g) o = true ∧ oa_userId o = i ∧ w' = w)
   ∨ ((∀ j o, links w !! j = Some o → same_identity (gu_googleId g) o = false) ∧
      us_email u = toLowerCase (gu_email g) ∧
      ∃ j o, links w' = <[j := o]> (links w) ∧ links w !! j = None ∧ same_identity (gu_googleId g) o = true ∧
             oa_userId o = i)).
Proof.
  unfold findOrCreateGoogleUser. intros H. apply M_bind_ok in H as (found & w1 & Hf & H).
  destruct found as [[j o]|].
  - apply (find_first_some d_oauthAccounts) in Hf as (-> & Hj & Hp).
    apply M_bind_ok in H as (ou & w2 & Hu & H). unfold find_unique, gets in Hu. rewrite findUnique_rows in Hu.
    simplify_eq. destruct (rows _ !! oa_userId o) as [x|] eqn:Ex; [|by inv_ok].
    unfold mret, M_ret in H. simplify_eq. split_and!; try done. left. by exists j, o.
  - apply (find_first_none d_oauthAccounts) in Hf as (-> & Hn).
    apply M_bind_ok in H as (ou & w2 & Hu & H).
    destruct (findUserByEmail_run (toLowerCase (gu_email g)) w) as (x & Hx & Hspec).
    rewrite Hx in Hu. simplify_eq. destruct ou as [[k r]|]; [|by inv_ok]. destruct Hspec as [Hk He].
    apply M_bind_ok in H as (j & w3 & Hd & H). apply draw_ok in Hd as [-> ->].
    apply M_bind_ok in H as (now & w4 & Hnow & H). unfold get_now, gets in Hnow. simplify_eq.
    apply M_bind_ok in H as ([] & w5 & Hc & H). unfold mret, M_ret in H. simplify_eq.
    apply (create_row_ok d_oauthAccounts) in Hc as (Hi & _ & Hr & _ & t & ->).
    unfold rows_of in *. upd_simpl in Hi. upd_simpl in Hr. upd_simpl. split_and!; try done.
    right. split_and!; [exact Hn|done|]. eexists _, _. rewrite Hr. split_and!; [done|done| |done].
    unfold same_identity. cbn. by rewrite !bool_decide_eq_true_2.
Qed.

(** A family that is not given is drawn first. *)
Lemma createTokenPair_fresh userId tenantId role email ip ua w pair w' :
  createTokenPair cfg userId tenantId role email ip ua None w = (Ok pair, w') →
  ∃ j r, sessions w !! j = None ∧ sessions w' = <[j := r]> (sessions w) ∧ rt_userId r = userId ∧
         rt_isRevoked r = false ∧ argon2_verify (rt_tokenHash r) (refreshToken pair) = true.
Proof.
  unfold createTokenPair. intros H. apply M_bind_ok in H as (f & w1 & Hd & H).
  apply draw_ok in Hd as [_ Hw1].
  match type of H with ?m w1 = _ => set (rest := m) in H end.
  assert (createTokenPair cfg userId tenantId role email ip ua (Some f) w1 = rest w1) as E by reflexivity.
  rewrite <-E in H. apply createTokenPair_ok in H as (j & r & Hj & Hr & Hu & _ & Hrev & _ & Hv & _).
  exists j, r. subst w1. unfold rows_of in *. upd_simpl in Hj. upd_simpl in Hr. by split_and!.
Qed.

(** A user of Google has a non-empty address that Google vouches for. *)
Lemma google_user_ok code g :
  google_user code = Ok g →
  ∃ token p email, getToken google code = Ok (Some token) ∧ verifyIdToken google token = Ok (Some p) ∧
    gp_email p = Some email ∧ email ≠ "" ∧ gp_email_verified p = Some true ∧
    gu_googleId g = gp_sub p ∧ gu_email g = email.
Proof.
  unfold google_user. destruct (getToken google code) as [[token|]|e]; cbn; [|done|done].
  destruct (str_truthy token); [|done]. destruct (verifyIdToken google token) as [[p|]|e] eqn:Ep; cbn; [|done|done].
  destruct (gp_email p) as [email|] eqn:Ee; cbn; [|done]. destruct (str_truthy email) eqn:Et; [|done].
  destruct (gp_email_verified p) as [[]|] eqn:Ev; cbn; [|done|done]. intros [= <-].
  exists token, p, email. split_and!; try done. by intros ->.
Qed.

(** C22: Signing in with Google creates no account and changes none.  A callback that
    succeeds comes from the browser that started it; Google vouches for the address; the
    session is opened for an existing account in good standing that was linked to this
    Google identity, or, when no account was, has that address and is linked now. *)
Theorem google_sign_in_existing code state expected ip ua w r w' :
  googleCallback code state expected ip ua w = (Ok r, w') →
  ∃ c token p email, code = Some c ∧ is_Some state ∧ state = expected ∧
    getToken google c = Ok (Some token) ∧ verifyIdToken google token = Ok (Some p) ∧
    gp_email p = Some email ∧ email ≠ "" ∧ gp_email_verified p = Some true ∧
    users w !! or_id r = Some (or_user r) ∧ users w' = users w ∧
    usable (w_now w) (rows_of d_tenants w) (or_user r) = true ∧
    (∃ j o, sessions w !! j = None ∧ sessions w' = <[j := o]> (sessions w) ∧ rt_userId o = or_id r) ∧
    (∃ j o, links w' !! j = Some o ∧ same_identity (gp_sub p) o = true ∧ oa_userId o = or_id r ∧
       (links w' = links w ∨
        us_email (or_user r) = toLowerCase email ∧ links w' = <[j := o]> (links w) ∧
        ∀ k x, links w !! k = Some x → same_identity (gp_sub p) x = false)).
Proof.
  unfold googleCallback. intros H.
  destruct code as [c|]; [|by inv_ok]. destruct state as [s|]; [|by inv_ok]. destruct expected as [s'|]; [|by inv_ok].
  destruct (_ && safeEqual s s') eqn:Eg; [|by inv_ok]. unfold safeEqual in Eg. bool_to_prop.
  unfold handleGoogleCallback in H. apply M_bind_ok in H as (g & w1 & Hg & H). unfold lift in Hg. injection Hg as Hg <-.
  apply google_user_ok in Hg as (token & p & email & Ht & Hp & He & Hne & Hv & Hid & Hem).
  apply M_bind_ok in H as ([[i u] b] & w1 & Hf & H). apply M_bind_ok in H as ([] & w2 & Ha & H).
  destruct (assertAccountUsable_run u w1) as (res & Hrun & Hus). rewrite Hrun in Ha. injection Ha as -> <-.
  apply M_bind_ok in H as (pair & w2 & Hc & H). unfold mret, M_ret in H. injection H as <- <-.
  pose proof (createTokenPair_users _ _ _ _ _ _ _ _ _ _ _ Hc) as Hcu.
  assert (d_oauthAccounts (w_db w2) = d_oauthAccounts (w_db w1)) as Hcl.
  { eapply (keeps_run (λ w, d_oauthAccounts (w_db w))); [exact Hc|]. unfold createTokenPair, generateRefreshToken,
      generateAccessToken, sign. keeps_tac. }
  apply createTokenPair_fresh in Hc as (j & o & Hj & Ho & Huo & _).
  apply findOrCreate_ok in Hf as (-> & Hu & Hu1 & Hte & Hse & Hnow & Hlink).
  unfold rows_of in Hus, Hj, Ho. rewrite Hte, Hnow in Hus. rewrite Hse in Hj, Ho.
  exists c, token, p, email. cbn [or_id or_user or_isNewUser]. split_and!; try done; try congruence.
  - exists j, o. by split_and!.
  - destruct Hlink as [(k & x & Hk & Hsame & <- & ->)|(Hn & Hmail & k & x & Hr & _ & Hsame & Hx)].
    + exists k, x. unfold rows_of in *. rewrite Hcl. split_and!; [done|by rewrite <-Hid|done|by left].
    + exists k, x. unfold rows_of in *. rewrite Hcl, Hr, lookup_insert_eq, <-Hid.
      split_and!; [done|done|done|]. right. split_and!; [by rewrite <-Hem|done|exact Hn].
Qed.
End oauth.

(** ** A concrete sign-in *)

Definition demo_google : GoogleClient :=
  mkGoogleClient (λ code, Ok (Some code))
    (λ token, Ok (Some (mkGooglePayload "g1" (Some "E") None None None (Some (bool_decide (token = "code")))))).

Definition demo_callback (code : string) : result error OAuthResult * World (gmap string) :=
  googleCallback (crypto:=demo_crypto) demo_cfg demo_google (Some code) (Some "s") (Some "s") None None
    (demo_office UActive).

(** The account with that address is linked to the identity. *)
Lemma google_sign_in_existing_witness :
  ∃ r w', demo_callback "code" = (Ok r, w') ∧ or_id r = "u" ∧
    (∃ j o, rows_of d_oauthAccounts w' !! j = Some o ∧ oa_userId o = or_id r) ∧
    is_ok (demo_callback "other").1 = false.
Proof.
  destruct (demo_callback "code") as [[r|e] w'] eqn:E; [|vm_compute in E; discriminate E].
  destruct (google_sign_in_existing (crypto:=demo_crypto) demo_cfg demo_google (Some "code") (Some "s") (Some "s") None None
              (demo_office UActive) r w' E) as (_ & _ & _ & _ & _ & _ & _ & _ & _ & _ & _ & _ & _ & _ & _ & _ & j & o & Hj & _ & Ho & _).
  exists r, w'. split_and!; [done| |by exists j, o|vm_compute; reflexivity].
  assert ((or_id <$> match (demo_callback "code").1 with Ok r => Some r | Err _ => None end) = Some "u") as Hid
    by (vm_compute; reflexivity). rewrite E in Hid. cbn in Hid. by injection Hid.
Defined.
