(* ===== verification/Search.v ===== *)
(** * Search

    [SearchService], the projections it asks and [SearchController]
    ([src/application/search], [src/application/projections]): full-text search over the
    tickets, customers and public comments of an organization.  Which rows a text matches,
    and how well, is PostgreSQL's: three parameters. *)

From stdpp Require Import pretty.
From Stdlib Require Import Ascii String QArith.
From S2P Require Import Prelude Store Js Errors Domain Ticket Customer Tenant User Permissions.
From S2P Require Import Schema World Outbox Logs Frames Repositories TicketService TicketFacts.

#[local] Open Scope string_scope.
#[local] Open Scope Z_scope.
#[local] Set Default Proof Using "Type*".

Inductive SearchType := SearchTicket | SearchCustomer | SearchComment.
#[export] Instance SearchType_eq_dec : EqDecision SearchType.
Proof. solve_decision. Defined.

Record SearchResult := mkSearchResult {
  sh_type : SearchType;
  sh_id : string;
  sh_title : string;
  sh_excerpt : string;
  sh_url : string;
  sh_metadata : list (string * Json);
  sh_rank : Q;
}.

Record SearchOptions := mkSearchOptions {
  so_tenantId : string;
  so_query : string;
  so_types : option (list string);
  so_limit : option Z;
  so_page : option Z;
  so_assignedAgentId : option string;
}.

(** [slice(start, end)] of an array. *)
Definition list_slice {A} (from upto : Z) (l : list A) : list A :=
  let n := Z.of_nat (length l) in
  let position z := Z.to_nat (if z <? 0 then Z.max (n + z) 0 else z) in
  drop (position from) (take (position upto) l).

(** Higher ranks first. *)
Definition ranked (a b : SearchResult) : Prop := Qle_bool (sh_rank b) (sh_rank a) = true.
#[local] Instance ranked_dec : RelDecision ranked.
Proof. intros a b. unfold ranked. apply _. Defined.

Section search.
Context {Tbl : Type → Type} `{!Prisma Tbl}.
(** The rank of a row for a text; [None] when it does not match. *)
Context (ticket_rank : string → TicketRow → option Q) (customer_rank : string → CustomerRow → option Q)
  (comment_rank : string → CommentRow → option Q).
(** The bullet between two spaces, which is not a Latin-1 character. *)
Context (bullet : string).
Implicit Types (w : World Tbl).

(** [AND t.assignedAgentId = …] when the scope names an agent. *)
Definition in_scope (assignedAgentId : option string) (t : TicketRow) : bool :=
  if truthy assignedAgentId then bool_decide (ti_assignedAgentId t = assignedAgentId) else true.

Definition ticket_result (i : string) (t : TicketRow) (rank : Q) : SearchResult :=
  mkSearchResult SearchTicket i ("#" ++ pretty (ti_ticketNumber t) ++ " - " ++ ti_title t)
    (slice0 200 (ti_description t)) ("/tickets/" ++ i)
    [("status", jstr (status_string (ti_status t))); ("priority", jstr (enum_string (ti_priority t)))] rank.

Definition customer_result (i : string) (c : CustomerRow) (rank : Q) : SearchResult :=
  mkSearchResult SearchCustomer i (cu_fullName c)
    (cu_email c ++ match cu_company c with
                   | Some company => if str_truthy company then bullet ++ company else ""
                   | None => "" end)
    ("/customers/" ++ i)
    [("email", jstr (cu_email c)); ("status", jstr (enum_string (cu_status c)))] rank.

Definition comment_result (i : string) (c : CommentRow) (t : TicketRow) (rank : Q) : SearchResult :=
  mkSearchResult SearchComment i ("Comment on #" ++ pretty (ti_ticketNumber t) ++ " - " ++ ti_title t)
    (slice0 200 (co_content c)) ("/tickets/" ++ co_ticketId c ++ "#comment-" ++ i)
    [("ticketId", jstr (co_ticketId c))] rank.

(** [ORDER BY "rank" DESC LIMIT limit] *)
Definition best (limit : nat) (found : list SearchResult) : list SearchResult :=
  take limit (merge_sort ranked found).

Definition searchTickets (tenantId query : string) (limit : nat) (assignedAgentId : option string)
  : W Tbl (list SearchResult) :=
  rows ← find_many d_tickets
    (λ _ t, bool_decide (ti_tenantId t = tenantId) && in_scope assignedAgentId t) (λ _, 0) None;
  mret (best limit (omap (λ '(i, t), ticket_result i t <$> ticket_rank query t) rows)).

Definition searchCustomers (tenantId query : string) (limit : nat) : W Tbl (list SearchResult) :=
  rows ← find_many d_customers (λ _ c, bool_decide (cu_tenantId c = tenantId)) (λ _, 0) None;
  mret (best limit (omap (λ '(i, c), customer_result i c <$> customer_rank query c) rows)).

(** [JOIN "tickets" t ON t.id = tc.ticketId AND t.tenantId = tc.tenantId] *)
Definition joined (tenantId query : string) (assignedAgentId : option string) (tickets : Tbl TicketRow)
    (i : string) (c : CommentRow) : option SearchResult :=
  match findUnique (co_ticketId c) tickets with
  | Some t => if bool_decide (ti_tenantId t = co_tenantId c) && in_scope assignedAgentId t
              then comment_result i c t <$> comment_rank query c else None
  | None => None
  end.

Definition searchComments (tenantId query : string) (limit : nat) (assignedAgentId : option string)
  : W Tbl (list SearchResult) :=
  tickets ← gets (λ w, d_tickets (w_db w));
  rows ← find_many d_comments
    (λ _ c, bool_decide (co_tenantId c = tenantId) && bool_decide (co_type c = PUBLIC)) (λ _, 0) None;
  mret (best limit (omap (λ '(i, c), joined tenantId query assignedAgentId tickets i c) rows)).

(** Everything found, the best first; [types] are the kinds asked for. *)
Definition all_results (options : SearchOptions) : W Tbl (list SearchResult) :=
  let types := default ["ticket"; "customer"; "comment"] (so_types options) in
  let searchText := slice0 200 (trim (so_query options)) in
  tickets ← (if includes types "ticket"
             then searchTickets (so_tenantId options) searchText 10 (so_assignedAgentId options) else mret []);
  customers ← (if includes types "customer"
               then searchCustomers (so_tenantId options) searchText 10 else mret []);
  comments ← (if includes types "comment"
              then searchComments (so_tenantId options) searchText 10 (so_assignedAgentId options) else mret []);
  mret (merge_sort ranked (tickets ++ customers ++ comments)%list).

Definition search (options : SearchOptions) : W Tbl (list SearchResult * Z) :=
  let limit := default 20 (so_limit options) in
  let page := default 1 (so_page options) in
  if negb (str_truthy (so_query options)) || (str_length (trim (so_query options)) <? 2) then mret ([], 0)
  else
    results ← all_results options;
    let start := (page - 1) * limit in
    mret (list_slice start (start + limit) results, Z.of_nat (length results)).

(** [SearchController]; [value] is the number in the query, [None] when it is no integer. *)
Definition clampInt (value : option Z) (fallback lo hi : Z) : Z :=
  match value with Some parsed => Z.min (Z.max parsed lo) hi | None => fallback end.

(** [types.split(',').map(trim).filter(Boolean)] *)
Definition parse_types (types : option string) : option (list string) :=
  match types with
  | Some s => if str_truthy s then Some (List.filter str_truthy (map trim (split_on "," s))) else None
  | None => None
  end.

Definition controller_search (actor : TicketActor) (q types : option string) (page limit : option Z)
  : W Tbl (list SearchResult * Z) :=
  search (mkSearchOptions (ta_tenantId actor) (default "" q) (parse_types types)
    (Some (clampInt limit 20 1 100)) (Some (clampInt page 1 1 1000))
    (if bool_decide (ta_role actor = "AGENT") then Some (ta_id actor) else None)).

(** ** Lemmas *)

#[local] Notation tickets w := (rows_of d_tickets w).
#[local] Notation customers w := (rows_of d_customers w).
#[local] Notation comments w := (rows_of d_comments w).

Lemma ranked_total : Total ranked.
Proof.
  intros a b. unfold ranked. rewrite !Qle_bool_iff.
  destruct (Qlt_le_dec (sh_rank a) (sh_rank b)) as [Hab|Hba]; [right; by apply Qlt_le_weak|by left].
Qed.

Lemma ranked_trans : Transitive ranked.
Proof. intros a b c. unfold ranked. rewrite !Qle_bool_iff. intros H1 H2. by eapply Qle_trans. Qed.

#[local] Existing Instance ranked_total.
#[local] Existing Instance ranked_trans.

Lemma best_elem n found x : x ∈ best n found → x ∈ found.
Proof.
  unfold best. intros (i & Hi%list_elem_of_lookup_2 & _)%elem_of_take. by rewrite merge_sort_Permutation in Hi.
Qed.

(** What is left out ranks no higher than anything that is kept, and the limit is reached. *)
Lemma best_complete n found x :
  x ∈ found → x ∈ best n found ∨ length (best n found) = n ∧ ∀ y, y ∈ best n found → ranked y x.
Proof.
  unfold best. intros Hx. assert (StronglySorted ranked (merge_sort ranked found)) as Hs by (apply StronglySorted_merge_sort; apply _).
  assert (x ∈ merge_sort ranked found) as Hm by (by rewrite merge_sort_Permutation).
  rewrite <-(take_drop n (merge_sort ranked found)) in Hm, Hs.
  apply elem_of_app in Hm as [Hm|Hm]; [by left|]. right. split.
  - apply length_take_le. apply list_elem_of_lookup_1 in Hm as [i Hi]. rewrite lookup_drop in Hi.
    apply lookup_lt_Some in Hi. lia.
  - intros y Hy. by eapply (StronglySorted_app_1_elem_of ranked).
Qed.

(** The rows a result may come from. *)
Definition found_in (tenantId : string) (agent : option string) w (x : SearchResult) : Prop :=
  match sh_type x with
  | SearchTicket => ∃ t, tickets w !! sh_id x = Some t ∧ ti_tenantId t = tenantId ∧ in_scope agent t = true
  | SearchCustomer => ∃ c, customers w !! sh_id x = Some c ∧ cu_tenantId c = tenantId
  | SearchComment => ∃ c t, comments w !! sh_id x = Some c ∧ co_tenantId c = tenantId ∧ co_type c = PUBLIC ∧
      tickets w !! co_ticketId c = Some t ∧ ti_tenantId t = tenantId ∧ in_scope agent t = true
  end.

#[local] Notation finds tenantId agent m :=
  (∀ w, ∃ l, m w = (Ok l, w) ∧ (length l <= 10)%nat ∧ ∀ x, x ∈ l → found_in tenantId agent w x).

Lemma best_length n found : (length (best n found) <= n)%nat.
Proof. unfold best. rewrite length_take. lia. Qed.

Lemma searchTickets_run tenantId query agent : finds tenantId agent (searchTickets tenantId query 10 agent).
Proof.
  intros w. eexists. split; [reflexivity|]. split; [apply best_length|].
  intros x ([i t] & Hin & Hx)%best_elem%list_elem_of_omap. apply findMany_elem in Hin as [Hi Hp].
  destruct (ticket_rank query t) as [rank|]; [|done]. injection Hx as <-. bool_to_prop. by exists t.
Qed.

Lemma searchCustomers_run tenantId query agent : finds tenantId agent (searchCustomers tenantId query 10).
Proof.
  intros w. eexists. split; [reflexivity|]. split; [apply best_length|].
  intros x ([i c] & Hin & Hx)%best_elem%list_elem_of_omap. apply findMany_elem in Hin as [Hi Hp].
  destruct (customer_rank query c) as [rank|]; [|done]. injection Hx as <-. bool_to_prop. by exists c.
Qed.

Lemma searchComments_run tenantId query agent : finds tenantId agent (searchComments tenantId query 10 agent).
Proof.
  intros w. eexists. split; [reflexivity|]. split; [apply best_length|].
  intros x ([i c] & Hin & Hx)%best_elem%list_elem_of_omap. apply findMany_elem in Hin as [Hi Hp].
  unfold joined in Hx. rewrite findUnique_rows in Hx. destruct (rows _ !! co_ticketId c) as [t|] eqn:Et; [|done].
  destruct (bool_decide (ti_tenantId t = co_tenantId c) && _) eqn:Es; [|done]. destruct (comment_rank query c) as [rank|]; [|done]. injection Hx as <-.
  bool_to_prop. exists c, t. split_and!; try done. congruence.
Qed.

(** Asking for some kinds only leaves the others out. *)
Lemma maybe_finds tenantId agent (b : bool) (m : W Tbl (list SearchResult)) :
  finds tenantId agent m → finds tenantId agent (if b then m else mret []).
Proof.
  intros Hm w. destruct b; [apply Hm|]. exists []. split_and!; [done|cbn; lia|]. by intros x ?%elem_of_nil.
Qed.

Lemma all_results_run options w :
  ∃ all, all_results options w = (Ok all, w) ∧ (length all <= 30)%nat ∧ StronglySorted ranked all ∧
    ∀ x, x ∈ all → found_in (so_tenantId options) (so_assignedAgentId options) w x.
Proof.
  unfold all_results. cbv zeta. set (ts := default _ (so_types options)). set (text := slice0 200 _).
  destruct (maybe_finds _ _ (includes ts "ticket") _ (searchTickets_run (so_tenantId options) text (so_assignedAgentId options)) w)
    as (l1 & E1 & H1 & F1).
  destruct (maybe_finds _ _ (includes ts "customer") _ (searchCustomers_run (so_tenantId options) text (so_assignedAgentId options)) w)
    as (l2 & E2 & H2 & F2).
  destruct (maybe_finds _ _ (includes ts "comment") _ (searchComments_run (so_tenantId options) text (so_assignedAgentId options)) w)
    as (l3 & E3 & H3 & F3).
  exists (merge_sort ranked (l1 ++ l2 ++ l3)). split_and!.
  - unfold mbind, M_bind. by rewrite E1, E2, E3.
  - rewrite merge_sort_Permutation, !length_app. lia.
  - apply StronglySorted_merge_sort; apply _.
  - intros x Hx. rewrite merge_sort_Permutation, !elem_of_app in Hx. naive_solver.
Qed.

Lemma list_slice_take {A} from upto (l : list A) :
  0 <= from → 0 <= upto → list_slice from upto l = drop (Z.to_nat from) (take (Z.to_nat upto) l).
Proof.
  intros H1 H2. unfold list_slice. cbv zeta.
  by rewrite (proj2 (Z.ltb_ge from 0)), (proj2 (Z.ltb_ge upto 0)) by lia.
Qed.

Definition searchable (query : string) : bool :=
  str_truthy query && negb (str_length (trim query) <? 2).

(** One page of the results. *)
Lemma search_run options w all :
  all_results options w = (Ok all, w) →
  search options w =
    (Ok (if searchable (so_query options)
         then (list_slice ((default 1 (so_page options) - 1) * default 20 (so_limit options))
                 ((default 1 (so_page options) - 1) * default 20 (so_limit options) + default 20 (so_limit options)) all,
               Z.of_nat (length all))
         else ([], 0)), w).
Proof.
  intros E. unfold search, searchable. cbv zeta.
  destruct (str_truthy _); cbn [negb orb andb]; [|done].
  destruct (str_length _ <? 2); cbn [negb]; [done|]. unfold mbind, M_bind. by rewrite E.
Qed.

(** C11: A search shows an agent or a manager nothing they could not open.  It changes
    nothing; every ticket it finds is one of the organization that the policy of the ticket
    routes lets them see, every comment is a public one of such a ticket, and every customer
    is one of the organization. *)
Theorem search_visible actor q types page limit w results total w' :
  ta_id actor ≠ "" → ta_role actor = "AGENT" ∨ ta_role actor = "TENANT_MANAGER" →
  controller_search actor q types page limit w = (Ok (results, total), w') →
  w' = w ∧ ∀ x, x ∈ results →
    match sh_type x with
    | SearchTicket => ∃ t, tickets w !! sh_id x = Some t ∧ ti_tenantId t = ta_tenantId actor ∧ may_see w actor t
    | SearchCustomer => ∃ c, customers w !! sh_id x = Some c ∧ cu_tenantId c = ta_tenantId actor
    | SearchComment => ∃ c t, comments w !! sh_id x = Some c ∧ co_tenantId c = ta_tenantId actor ∧ co_type c = PUBLIC ∧
        tickets w !! co_ticketId c = Some t ∧ ti_tenantId t = ta_tenantId actor ∧ may_see w actor t
    end.
Proof.
  intros Hid Hrole H. unfold controller_search in H.
  match type of H with search ?o _ = _ => destruct (all_results_run o w) as (all & E & _ & _ & Hin) end.
  rewrite (search_run _ _ _ E) in H. injection H as Hr <-. split; [done|]. intros x Hx.
  assert (x ∈ all) as Ha.
  { destruct (searchable _); [|injection Hr as <- _; by apply elem_of_nil in Hx]. injection Hr as <- _.
    unfold list_slice in Hx. by apply subseteq_drop, subseteq_take in Hx. }
  assert (∀ t, in_scope (if bool_decide (ta_role actor = "AGENT") then Some (ta_id actor) else None) t = true →
               may_see w actor t) as Hsee.
  { intros t Hs. unfold may_see, in_scope in *. destruct Hrole as [Hr0|Hr0]; rewrite Hr0 in *; [|by left]. right. left. split; [done|].
    destruct (truthy _) eqn:Et in Hs; [by bool_to_prop|]. exfalso. cbn in Et. unfold str_truthy in Et.
    by destruct (ta_id actor). }
  specialize (Hin x Ha). unfold found_in in Hin. cbn [so_tenantId so_assignedAgentId] in Hin.
  destruct (sh_type x); naive_solver.
Qed.

(** The pages of a search are its results, the best first, with none lost or repeated.
    At most thirty are found; a matching ticket is missing only when ten tickets that match
    at least as well are there. *)
Theorem search_complete options limit w :
  0 < limit → searchable (so_query options) = true →
  includes (default ["ticket"; "customer"; "comment"] (so_types options)) "ticket" = true →
  let at_page k := search (mkSearchOptions (so_tenantId options) (so_query options) (so_types options)
                             (Some limit) (Some k) (so_assignedAgentId options)) w in
  ∃ all : list SearchResult, StronglySorted ranked all ∧ (length all <= 30)%nat ∧
    (∀ k, ∃ l, at_page k = (Ok (l, Z.of_nat (length all)), w)) ∧
    concat (map (λ k, match (at_page (Z.of_nat k)).1 with Ok (l, _) => l | Err _ => [] end)
              (seq 1 (Z.to_nat (toTotalPages (Z.of_nat (length all)) limit)))) = all ∧
    (∀ i t rank, tickets w !! i = Some t → ti_tenantId t = so_tenantId options →
       in_scope (so_assignedAgentId options) t = true →
       ticket_rank (slice0 200 (trim (so_query options))) t = Some rank →
       ticket_result i t rank ∈ all ∨
       ∃ better, better ⊆+ all ∧ length better = 10%nat ∧
         ∀ y, y ∈ better → sh_type y = SearchTicket ∧ ranked y (ticket_result i t rank)).
Proof.
  intros Hl Hq Ht at_page. destruct (all_results_run options w) as (all & E & H30 & Hs & _).
  exists all. split; [done|]. split; [done|].
  assert (∀ k, at_page k = (Ok (list_slice ((k - 1) * limit) ((k - 1) * limit + limit) all, Z.of_nat (length all)), w)) as Hp.
  { intros k. unfold at_page.
    match goal with |- search ?o w = _ =>
      assert (all_results o w = (Ok all, w)) as E' by exact E; rewrite (search_run o w all E') end.
    cbn [so_query]. by rewrite Hq. }
  split; [intros k; rewrite Hp; eauto|]. split.
  - set (n := Z.to_nat limit). set (p := Z.to_nat (toTotalPages _ _)).
    transitivity (concat (map (λ k, drop ((k - 1) * n) (take (k * n) all)) (seq 1 p))).
    + f_equal. apply map_ext_in. intros k Hk%List.in_seq. rewrite Hp. cbn [fst].
      rewrite list_slice_take by nia.
      replace (Z.to_nat ((Z.of_nat k - 1) * limit)) with ((k - 1) * n)%nat by (unfold n; nia).
      by replace (Z.to_nat ((Z.of_nat k - 1) * limit + limit)) with (k * n)%nat by (unfold n; nia).
    + rewrite slices_take. apply take_ge. unfold n, p. destruct (toTotalPages_spec (Z.of_nat (length all)) limit) as [H|H]; nia.
  - intros i t rank Hi Hten Hsc Hrk. unfold all_results, searchTickets, find_many, gets, mbind, M_bind, mret, M_ret in E.
    rewrite Ht in E. cbv zeta beta in E.
    set (found := omap _ _) in E. destruct (best_complete 10 found (ticket_result i t rank)) as [Hin|[Hn Hb]].
    { apply list_elem_of_omap. exists (i, t). split; [|by rewrite Hrk].
      apply findMany_all. split; [exact Hi|]. by rewrite bool_decide_eq_true_2, Hsc. }
    + left. repeat (case_match; simplify_eq). all: rewrite merge_sort_Permutation, elem_of_app; by left.
    + right. exists (best 10 found).
      assert (∃ rest, all = merge_sort ranked (best 10 found ++ rest)) as [rest ->] by (repeat (case_match; simplify_eq); eauto).
      split; [rewrite merge_sort_Permutation; by apply submseteq_inserts_r|]. split; [done|]. intros y Hy.
      split; [|by apply Hb].
      apply best_elem, list_elem_of_omap in Hy as ([j u] & _ & Hu). destruct (ticket_rank _ u); [|done].
      by injection Hu as <-.
Qed.
End search.

(** ** A concrete search *)

(** A row matches with the length of its text as its rank. *)
Definition demo_ticket (agent title : string) : TicketRow :=
  mkTicketRow "t1" 1 "c1" (Some agent) "u1" title "d" OPEN MEDIUM "GENERAL" [] "WEB"
    false None None None None None None false [] None 0 0.
Definition demo_comment (ticketId : string) (type : CommentType) : CommentRow :=
  mkCommentRow "t1" ticketId "u1" "hello" type false None None [] 0 0.
Definition demo_desk : World (gmap string) :=
  world_of 1000 (empty_db
    <| d_tickets := {["k1" := demo_ticket "u2" "printer"; "k2" := demo_ticket "u3" "printer on fire"]} |>
    <| d_comments := {["m1" := demo_comment "k1" PUBLIC; "m2" := demo_comment "k1" INTERNAL]} |>).

Definition by_length (s : string) : option Q := Some (inject_Z (str_length s)).
#[local] Notation demo_search who := (controller_search (λ _ t, by_length (ti_title t)) (λ _ _, None) (λ _ c, by_length (co_content c)) "-"
    (mkActor "u2" who "e" "t1") (Some "printer") None None None demo_desk).

Definition hits (r : result error (list SearchResult * Z)) : list string :=
  match r with Ok (l, _) => map sh_id l | Err _ => [] end.

(** The agent of the first ticket finds it and its public comment, a manager both tickets. *)
Lemma search_visible_witness :
  ∃ results total w', demo_search "AGENT" = (Ok (results, total), w') ∧ w' = demo_desk ∧
    hits (demo_search "AGENT").1 = ["k1"; "m1"] ∧ hits (demo_search "TENANT_MANAGER").1 = ["k2"; "k1"; "m1"].
Proof.
  destruct (demo_search "AGENT") as [[[results total]|e] w'] eqn:E; [|vm_compute in E; discriminate E].
  exists results, total, w'. split; [reflexivity|]. split.
  - eapply (search_visible (Tbl:=gmap string)); [| |exact E]; [done|by left].
  - split; [rewrite <-E|]; vm_compute; reflexivity.
Defined.

Lemma search_complete_witness :
  ∃ all : list SearchResult, StronglySorted ranked all ∧ (length all <= 30)%nat.
Proof.
  destruct (search_complete (Tbl:=gmap string) (λ _ t, by_length (ti_title t)) (λ _ _, None) (λ _ c, by_length (co_content c)) "-"
    (mkSearchOptions "t1" "printer" None None None None) 1 demo_desk) as (all & Hs & Hl & _);
    [lia|vm_compute; reflexivity|vm_compute; reflexivity|].
  by exists all.
Defined.
