(* ===== verification/Analytics.v ===== *)
(** * Statistics

    [AnalyticsService] ([src/application/analytics/services/analytics.service.ts]): the
    dashboard of an organization, the number of tickets created per day, and the daily
    snapshot, from queries that count and group rows.  Results are computed; the cache in
    front of them is not modelled. *)

From stdpp Require Import pretty.
From Stdlib Require Import Ascii String QArith.
From S2P Require Import Prelude Store Js Errors Dates Domain Ticket Customer Tenant User Permissions.
From S2P Require Import Json Schema World Outbox Logs Frames.

#[local] Open Scope string_scope.
#[local] Open Scope Z_scope.
#[local] Set Default Proof Using "Type*".

Record AgentWorkload := mkWorkload {
  wl_agentId : string;
  wl_agentName : string;
  wl_openTickets : Z;
  wl_resolvedToday : Z;
}.

Record DashboardMetrics := mkMetrics {
  dm_totalTickets : Z;
  dm_openTickets : Z;
  dm_resolvedToday : Z;
  dm_criticalTickets : Z;
  dm_escalatedTickets : Z;
  dm_avgResolutionTimeHours : Q;
  dm_slaBreachRate : Q;
  dm_agentWorkload : list AgentWorkload;
  dm_ticketsByStatus : list (string * Z);
  dm_ticketsByPriority : list (string * Z);
  dm_ticketsByCategory : list (string * Z);
}.

Record TrendData := mkTrend {
  td_date : string;
  td_value : Z;
}.

Record PlatformMetrics := mkPlatformMetrics {
  pm_totalTenants : Z;
  pm_activeTenants : Z;
  pm_totalTickets : Z;
  pm_totalUsers : Z;
  pm_timestamp : Z;
}.

(** The rows of [groupBy({ by: [key], _count })]. *)
Definition group_counts (keys : list string) : list (string * Z) :=
  map (λ k, (k, Z.of_nat (length (filter (λ x, x = k) keys)))) (Js.dedup keys).

(** [rows.find((row) => row.key === key)?._count._all ?? 0] *)
Definition count_of (key : string) (groups : list (string * Z)) : Z :=
  match List.find (λ g, String.eqb g.1 key) groups with Some (_, n) => n | None => 0 end.

(** [groups.reduce((acc, r) => ({ ...acc, [r.key]: r._count }), {})] *)
Definition count_map (groups : list (string * Z)) : list (string * Z) := spread [] groups.

(** [toISOString().split('T')[0]] *)
Definition date_key (t : Z) : string := default "" (head (split_on "T" (toISOString t))).

(** [grouped[key] = (grouped[key] ?? 0) + 1] *)
Definition tally (keys : list string) : list (string * Z) :=
  foldl (λ grouped k, set_field k (default 0 (get_field k grouped) + 1) grouped) [] keys.

(** The mean of the times to resolution, of tickets that are resolved. *)
Definition resolution_time (t : TicketRow) : Z := default 0 (ti_resolvedAt t) - ti_createdAt t.
Definition mean_resolution (tickets : list TicketRow) : Q :=
  (inject_Z (foldl (λ sum t, sum + resolution_time t)%Z 0%Z tickets) / inject_Z (Z.of_nat (length tickets)))%Q.

Definition unresolved (t : TicketRow) : bool :=
  negb (bool_decide (ti_status t = RESOLVED)) && negb (bool_decide (ti_status t = CLOSED)).

(** [{ gte, lt }] on a date column. *)
Definition within (from upto : Z) (o : option Z) : bool :=
  match o with Some t => (from <=? t) && (t <? upto) | None => false end.

Section analytics.
Context {Tbl : Type → Type} `{!Prisma Tbl}.
Implicit Types (w : World Tbl).

Definition tickets_where (p : TicketRow → bool) : W Tbl (list TicketRow) :=
  rows ← find_many d_tickets (λ _ t, p t) (λ _, 0) None; mret (map snd rows).

Definition count_tickets (p : TicketRow → bool) : W Tbl Z := count d_tickets (λ _ t, p t).

Definition groupBy (key : TicketRow → string) (p : TicketRow → bool) : W Tbl (list (string * Z)) :=
  rows ← tickets_where p; mret (group_counts (map key rows)).

Definition assigned_to (agentIds : list string) (t : TicketRow) : bool :=
  match ti_assignedAgentId t with Some a => includes agentIds a | None => false end.
Definition assignee (t : TicketRow) : string := default "" (ti_assignedAgentId t).

Definition is_agent (tenantId : string) (_ : string) (u : UserRow) : bool :=
  bool_decide (us_tenantId u = Some tenantId) && bool_decide (us_role u = AGENT) && bool_decide (us_status u = UActive).

Definition computeDashboardMetrics (tenantId : string) : W Tbl DashboardMetrics :=
  now ← get_now;
  let todayStart := startOfUtcDay now in
  let mine t := bool_decide (ti_tenantId t = tenantId) in
  let resolved_today t := bool_decide (ti_status t = RESOLVED)
    && match ti_resolvedAt t with Some r => todayStart <=? r | None => false end in
  totalTickets ← count_tickets mine;
  ticketsByStatus ← groupBy (λ t, status_string (ti_status t)) mine;
  ticketsByPriority ← groupBy (λ t, priority_string (ti_priority t)) mine;
  ticketsByCategory ← groupBy ti_category mine;
  resolvedToday ← count_tickets (λ t, mine t && resolved_today t);
  escalatedTickets ← count_tickets (λ t, mine t && ti_isEscalated t && unresolved t);
  slaBreached ← count_tickets (λ t, mine t && ti_slaBreached t);
  agents ← find_many d_users (is_agent tenantId) (λ _, 0) None;
  resolvedWithTime ← find_many d_tickets
    (λ _ t, mine t && bool_decide (ti_status t = RESOLVED) && bool_decide (is_Some (ti_resolvedAt t)))
    (λ kr, - default 0 (ti_resolvedAt kr.2)) (Some 100%nat);
  let avgResolutionMs := match resolvedWithTime with [] => 0%Q | _ => mean_resolution (map snd resolvedWithTime) end in
  let agentIds := map fst agents in
  openByAgent ← groupBy assignee (λ t, mine t && assigned_to agentIds t && unresolved t);
  resolvedTodayByAgent ← groupBy assignee (λ t, mine t && assigned_to agentIds t && resolved_today t);
  let statusMap := count_map ticketsByStatus in
  let priorityMap := count_map ticketsByPriority in
  mret (mkMetrics totalTickets (default 0 (get_field "OPEN" statusMap)) resolvedToday
    (default 0 (get_field "CRITICAL" priorityMap)) escalatedTickets
    (avgResolutionMs / inject_Z (1000 * 60 * 60))%Q
    (if 0 <? totalTickets then inject_Z slaBreached / inject_Z totalTickets else 0)%Q
    (map (λ '(i, u), mkWorkload i (us_firstName u ++ " " ++ us_lastName u) (count_of i openByAgent)
                       (count_of i resolvedTodayByAgent)) agents)
    statusMap priorityMap (count_map ticketsByCategory)).

(** [for (let i = days; i >= 0; i--)] *)
Definition computeTicketTrends (tenantId : string) (days : Z) : W Tbl (list TrendData) :=
  now ← get_now;
  let today := startOfUtcDay now in
  let startDate := addDays today (- days) in
  tickets ← tickets_where (λ t, bool_decide (ti_tenantId t = tenantId) && (startDate <=? ti_createdAt t));
  let grouped := tally (map (λ t, date_key (ti_createdAt t)) tickets) in
  mret (map (λ k, let dateKey := date_key (addDays today (- (days - Z.of_nat k))) in
                  mkTrend dateKey (default 0 (get_field dateKey grouped)))
          (seq 0 (Z.to_nat (days + 1)))).

(** The columns of a snapshot of the day that starts at [dayStart]. *)
Definition snapshot_data (tenantId : string) (dayStart : Z) : W Tbl SnapshotRow :=
  now ← get_now;
  let dayEnd := addDays dayStart 1 in
  let during := within dayStart dayEnd in
  let mine t := bool_decide (ti_tenantId t = tenantId) in
  let created t := mine t && during (Some (ti_createdAt t)) in
  createdTickets ← count_tickets created;
  resolvedTickets ← count_tickets (λ t, mine t && during (ti_resolvedAt t));
  closedTickets ← count_tickets (λ t, mine t && during (ti_closedAt t));
  escalatedTickets ← count_tickets (λ t, mine t && during (ti_escalatedAt t));
  slaBreachedCount ← count_tickets (λ t, mine t && ti_slaBreached t && during (ti_dueAt t));
  openTickets ← count_tickets (λ t, mine t && unresolved t);
  byPriority ← groupBy (λ t, priority_string (ti_priority t)) created;
  byCategory ← groupBy ti_category created;
  totalCustomers ← count d_customers (λ _ c, bool_decide (cu_tenantId c = tenantId));
  activeAgents ← count d_users (is_agent tenantId);
  resolvedDuring ← tickets_where (λ t, mine t && during (ti_resolvedAt t));
  let avgResolutionTimeMs := match resolvedDuring with [] => None | _ => Some (round (mean_resolution resolvedDuring)) end in
  mret (mkSnapshotRow tenantId dayStart createdTickets openTickets resolvedTickets closedTickets escalatedTickets
    avgResolutionTimeMs slaBreachedCount (count_of "CRITICAL" byPriority) (count_of "HIGH" byPriority)
    (count_of "MEDIUM" byPriority) (count_of "LOW" byPriority) totalCustomers activeAgents byCategory now).

(** The row of a day; an update keeps [createdAt]. *)
Definition same_day (tenantId : string) (dayStart : Z) (_ : string) (r : SnapshotRow) : bool :=
  bool_decide (sn_tenantId r = tenantId) && bool_decide (sn_snapshotDate r = dayStart).

Definition with_createdAt (t : Z) (d : SnapshotRow) : SnapshotRow :=
  mkSnapshotRow (sn_tenantId d) (sn_snapshotDate d) (sn_totalTickets d) (sn_openTickets d) (sn_resolvedTickets d)
    (sn_closedTickets d) (sn_escalatedTickets d) (sn_avgResolutionTimeMs d) (sn_slaBreachedCount d)
    (sn_criticalTickets d) (sn_highTickets d) (sn_mediumTickets d) (sn_lowTickets d) (sn_totalCustomers d)
    (sn_activeAgents d) (sn_categoryDistribution d) t.

Definition upsert_snapshot (data : SnapshotRow) : W Tbl unit :=
  let key := same_day (sn_tenantId data) (sn_snapshotDate data) in
  existing ← find_first d_snapshots key;
  match existing with
  | Some _ => _ ← update_many d_snapshots key (λ r, with_createdAt (sn_createdAt r) data); mret ()
  | None =>
      i ← draw;
      create_row d_snapshots key (λ db, bool_decide (is_Some (findUnique (sn_tenantId data) (d_tenants db)))) i data
  end.

(** A failure is logged. *)
Definition generateDailySnapshot (tenantId : string) (day : option Z) : W Tbl unit :=
  now ← get_now;
  let day := default (addDays (startOfUtcDay now) (-1)) day in
  try_catch (data ← snapshot_data tenantId (startOfUtcDay day); upsert_snapshot data) (λ _, mret ()).

Definition getPlatformMetrics : W Tbl PlatformMetrics :=
  totalTenants ← count d_tenants (λ _ _, true);
  activeTenants ← count d_tenants (λ _ t, bool_decide (nr_status t = "ACTIVE"));
  totalTickets ← count_tickets (λ _, true);
  totalUsers ← count d_users (λ _ u, negb (bool_decide (us_role u = PLATFORM_ADMIN)));
  now ← get_now;
  mret (mkPlatformMetrics totalTenants activeTenants totalTickets totalUsers now).
End analytics.

(** ** Date keys

    The date part of [toISOString] names a UTC day: different days have different keys. *)

Definition digit_value (c : ascii) : Z := code c - 48.
Fixpoint decimal (acc : Z) (s : string) : Z :=
  match s with
  | EmptyString => acc
  | String c s => decimal (10 * acc + digit_value c) s
  end.

Lemma decimal_pretty_go x : ∀ s, decimal 0 (pretty_N_go x s) = decimal (Z.of_N x) s.
Proof.
  induction (N.lt_wf_0 x) as [x _ IH]. intros s. destruct (decide (x = 0)%N) as [->|Hx]; [by rewrite pretty_N_go_0|].
  rewrite pretty_N_go_step by lia. rewrite IH by (apply N.div_lt; lia). cbn [decimal].
  f_equal. pose proof (N.mod_lt x 10) as Hm. pose proof (N.div_mod x 10) as Hd.
  enough (digit_value (pretty_N_char (x mod 10)) = Z.of_N (x mod 10)) as -> by lia.
  assert ((x mod 10 < 10)%N) as Hlt by lia. generalize (x mod 10)%N, Hlt. clear.
  intros n Hn. assert (∃ k : nat, n = N.of_nat k ∧ (k < 10)%nat) as (k & -> & Hk) by (exists (N.to_nat n); lia).
  do 10 (destruct k as [|k]; [reflexivity|]). lia.
Qed.

Lemma digits_pretty_go x : ∀ s, str_forall is_digit s = true → str_forall is_digit (pretty_N_go x s) = true.
Proof.
  induction (N.lt_wf_0 x) as [x _ IH]. intros s Hs. destruct (decide (x = 0)%N) as [->|Hx]; [by rewrite pretty_N_go_0|].
  rewrite pretty_N_go_step by lia. apply IH; [apply N.div_lt; lia|]. cbn [str_forall]. rewrite Hs, andb_true_r.
  pose proof (N.mod_lt x 10) as Hm. assert ((x mod 10 < 10)%N) as Hlt by lia. generalize (x mod 10)%N, Hlt. clear.
  intros n Hn. assert (∃ k : nat, n = N.of_nat k ∧ (k < 10)%nat) as (k & -> & Hk) by (exists (N.to_nat n); lia).
  do 10 (destruct k as [|k]; [reflexivity|]). lia.
Qed.

Lemma pretty_N_facts n : decimal 0 (pretty n) = Z.of_N n ∧ str_forall is_digit (pretty n) = true.
Proof.
  unfold pretty, pretty_N. case_decide as H; [by subst|].
  by rewrite decimal_pretty_go, digits_pretty_go.
Qed.

Lemma zeros_facts n s :
  decimal 0 (String.concat "" (repeat "0" n) ++ s) = decimal 0 s ∧
  str_forall is_digit (String.concat "" (repeat "0" n) ++ s) = str_forall is_digit s.
Proof.
  assert (∀ m, String.concat "" (repeat "0" (S m)) = String "0" (String.concat "" (repeat "0" m))) as Hc
    by (intros [|m]; reflexivity).
  induction n as [|n IH]; [done|]. rewrite Hc. cbn. exact IH.
Qed.

Lemma zero_pad_facts n z :
  0 <= z → decimal 0 (zero_pad n z) = z ∧ str_forall is_digit (zero_pad n z) = true.
Proof.
  intros Hz. unfold zero_pad. cbv zeta. destruct (zeros_facts (n - String.length (pretty (Z.to_N z))) (pretty (Z.to_N z))) as [-> ->].
  destruct (pretty_N_facts (Z.to_N z)) as [-> ->]. by rewrite Z2N.id.
Qed.

Lemma zero_pad_inj n a b : 0 <= a → 0 <= b → zero_pad n a = zero_pad n b → a = b.
Proof.
  intros Ha Hb H. destruct (zero_pad_facts n a Ha) as [<- _], (zero_pad_facts n b Hb) as [<- _]. by rewrite H.
Qed.

Lemma zero_pad_2 z : 1 <= z <= 31 → String.length (zero_pad 2 z) = 2%nat.
Proof.
  intros Hz. assert (∃ k : nat, z = Z.of_nat k ∧ (k < 32)%nat) as (k & -> & Hk) by (exists (Z.to_nat z); lia). clear Hz.
  do 32 (destruct k as [|k]; [reflexivity|]). lia.
Qed.

Lemma string_length_app a b : String.length (a ++ b) = (String.length a + String.length b)%nat.
Proof. induction a as [|c a IH]; cbn; [done|]. by rewrite IH. Qed.

Lemma app_inj a b a' b' : String.length b = String.length b' → (a ++ b)%string = (a' ++ b')%string → a = a' ∧ b = b'.
Proof.
  intros Hl H. assert (String.length a = String.length a') as Ha.
  { apply (f_equal String.length) in H. rewrite !string_length_app in H. lia. }
  revert a' H Ha. induction a as [|c a IH]; intros [|c' a'] H Ha; cbn in *; try done.
  injection H as -> H. injection Ha as Ha. destruct (IH a' H Ha) as [-> ->]. done.
Qed.

(** The year: four digits, or a sign and six. *)
Definition year_text (y : Z) : string :=
  if (0 <=? y) && (y <=? 9999) then zero_pad 4 y else (if 0 <=? y then "+" else "-") ++ zero_pad 6 (Z.abs y).

Lemma year_text_inj a b : year_text a = year_text b → a = b.
Proof.
  unfold year_text. intros H.
  assert (∀ y c s, 0 <= y → zero_pad 4 y = String c s → is_digit c = true) as Hd.
  { intros y c s Hy E. destruct (zero_pad_facts 4 y Hy) as [_ Hf]. rewrite E in Hf. cbn in Hf. by apply andb_true_iff in Hf as [? _]. }
  destruct (Z.leb_spec 0 a), (Z.leb_spec a 9999), (Z.leb_spec 0 b), (Z.leb_spec b 9999); cbn [andb] in H; try lia;
    try (by apply zero_pad_inj in H; lia);
    try (injection H as H; apply zero_pad_inj in H; lia);
    try (discriminate H);
    try (symmetry in H; by apply Hd in H; [|lia]);
    by apply Hd in H; [|lia].
Qed.

Lemma split_head a rest :
  str_forall (λ c, negb (Ascii.eqb c "T")) a = true → head (split_on "T" (a ++ String "T" rest)) = Some a.
Proof.
  induction a as [|c a IH]; [done|]. cbn [str_forall append split_on]. intros [Hc Ha]%andb_true_iff.
  destruct (Ascii.eqb c "T"); [done|]. specialize (IH Ha).
  destruct (split_on "T" (a ++ String "T" rest)) as [|x l]; cbn in *; [done|]. by injection IH as ->.
Qed.

Lemma app_assoc_str a b c : ((a ++ b) ++ c = a ++ (b ++ c))%string.
Proof. induction a as [|x a IH]; cbn; [done|]. by rewrite IH. Qed.

Lemma calendar_fields t :
  MakeDay (getUTCFullYear t) (getUTCMonth t) (getUTCDate t) = utc_days t ∧
  0 <= getUTCMonth t <= 11 ∧ 1 <= getUTCDate t <= 31.
Proof. apply (calendar_roundtrip (utc_days t)). Qed.

Lemma date_key_text t :
  date_key t = (year_text (getUTCFullYear t) ++ "-" ++ zero_pad 2 (getUTCMonth t + 1) ++ "-" ++ zero_pad 2 (getUTCDate t))%string.
Proof.
  destruct (calendar_fields t) as (_ & Hm & Hd).
  assert (∀ n z, 0 <= z → str_forall (λ c, negb (Ascii.eqb c "T")) (zero_pad n z) = true) as Hz.
  { intros n z Hz. destruct (zero_pad_facts n z Hz) as [_ Hf]. revert Hf. apply str_forall_impl. intros c.
    destruct (Ascii.eqb_spec c "T") as [->|]; [by vm_compute|done]. }
  unfold date_key, toISOString. fold (year_text (getUTCFullYear t)).
  set (rest := (zero_pad 2 (getUTCHours t) ++ _)%string).
  change ("T" ++ rest)%string with (String "T" rest). rewrite <-!app_assoc_str, split_head; [by cbn|].
  rewrite !str_forall_app, !Hz by lia. cbn. rewrite !andb_true_r. unfold year_text.
  destruct (_ && _) eqn:E; [apply Hz; bool_to_prop; lia|]. rewrite str_forall_app, Hz by lia. by case_match.
Qed.

Lemma startOfUtcDay_days t : startOfUtcDay t = utc_days t * MS_PER_DAY.
Proof. unfold startOfUtcDay, Date_UTC. by destruct (calendar_fields t) as (-> & _). Qed.

(** What a date is written as determines its fields. *)
Lemma date_text_inj y m d y' m' d' :
  0 <= m <= 11 → 1 <= d <= 31 → 0 <= m' <= 11 → 1 <= d' <= 31 →
  (year_text y ++ "-" ++ zero_pad 2 (m + 1) ++ "-" ++ zero_pad 2 d)%string =
  (year_text y' ++ "-" ++ zero_pad 2 (m' + 1) ++ "-" ++ zero_pad 2 d')%string → y = y' ∧ m = m' ∧ d = d'.
Proof.
  intros Hm Hd Hm' Hd' H.
  apply app_inj in H as [Hy H]; [|rewrite !string_length_app, !zero_pad_2 by lia; done].
  apply app_inj in H as [_ H]; [|rewrite !string_length_app, !zero_pad_2 by lia; done].
  apply app_inj in H as [Hmm H]; [|rewrite !string_length_app, !zero_pad_2 by lia; done].
  apply app_inj in H as [_ H]; [|rewrite !zero_pad_2 by lia; done].
  apply year_text_inj in Hy. apply zero_pad_inj in Hmm; [|lia..]. apply zero_pad_inj in H; [|lia..]. lia.
Qed.

(** Two times have the same key exactly when they fall on the same UTC day. *)
Lemma date_key_day a b : date_key a = date_key b ↔ startOfUtcDay a = startOfUtcDay b.
Proof.
  rewrite !startOfUtcDay_days, !date_key_text. split.
  - intros H. destruct (calendar_fields a) as (Ha & Hma & Hda), (calendar_fields b) as (Hb & Hmb & Hdb).
    apply date_text_inj in H as (Hy & Hm & Hd); [|done..]. rewrite <-Ha, <-Hb. by rewrite Hy, Hm, Hd.
  - intros H. assert (utc_days a = utc_days b) as E by (unfold MS_PER_DAY in H; lia).
    unfold getUTCFullYear, getUTCMonth, getUTCDate. by rewrite E.
Qed.

(** ** Counting *)
Lemma tally_from k keys : ∀ g, NoDup g.*1 →
  default 0 (get_field k (foldl (λ grouped k, set_field k (default 0 (get_field k grouped) + 1) grouped) g keys))
  = default 0 (get_field k g) + Z.of_nat (length (filter (λ x, x = k) keys)).
Proof.
  induction keys as [|x keys IH]; intros g Hg; cbn [foldl]; [cbn; lia|].
  rewrite IH by by apply set_field_NoDup. rewrite filter_cons.
  destruct (decide (x = k)) as [->|Hne]; [rewrite get_set_field by done; cbn; lia|by rewrite get_set_other].
Qed.

Lemma tally_count k keys : default 0 (get_field k (tally keys)) = Z.of_nat (length (filter (λ x, x = k) keys)).
Proof. unfold tally. rewrite tally_from by apply NoDup_nil_2. cbn. lia. Qed.

(** Every element of a list falls into exactly one of the classes of a partition. *)
Lemma indicator_sum {B} `{!EqDecision B} (b : B) ks :
  NoDup ks → foldr Z.add 0 (map (λ k, if decide (b = k) then 1 else 0) ks) = if decide (b ∈ ks) then 1 else 0.
Proof.
  induction 1 as [|k ks Hk Hn IH]; [done|]. cbn [map foldr]. rewrite IH.
  destruct (decide (b = k)) as [->|Hne].
  - rewrite (decide_False (P:=k ∈ ks)), decide_True by set_solver. done.
  - destruct (decide (b ∈ ks)); [rewrite decide_True|rewrite decide_False]; set_solver.
Qed.

Lemma partition_count {A B} `{!EqDecision B} (f : A → B) (ks : list B) (l : list A) :
  NoDup ks → (∀ x, x ∈ l → f x ∈ ks) →
  foldr Z.add 0 (map (λ k, Z.of_nat (length (filter (λ x, f x = k) l))) ks) = Z.of_nat (length l).
Proof.
  intros Hn. induction l as [|x l IH]; intros Hin; cbn [length].
  - clear. induction ks as [|k ks IH]; [done|]. cbn. exact IH.
  - transitivity (foldr Z.add 0 (map (λ k, if decide (f x = k) then 1 else 0) ks)
                  + foldr Z.add 0 (map (λ k, Z.of_nat (length (filter (λ x, f x = k) l))) ks)).
    + clear. induction ks as [|k ks IH]; [done|]. cbn [map foldr]. rewrite IH, filter_cons.
      destruct (decide (f x = k)); cbn [length]; lia.
    + rewrite IH, indicator_sum, decide_True by set_solver. lia.
Qed.

Lemma filter_true {A} (l : list A) : filter (λ _, true = true) l = l.
Proof. induction l as [|x l IH]; [done|]. rewrite filter_cons_True by done. by rewrite IH. Qed.

Section facts.
Context {Tbl : Type → Type} `{!Prisma Tbl}.
Implicit Types (w : World Tbl).

#[local] Notation tickets w := (rows_of d_tickets w).
#[local] Notation snapshots w := (rows_of d_snapshots w).

(** The tickets that satisfy [p]. *)
Definition how_many (p : TicketRow → bool) w : Z := Z.of_nat (size (matching (λ _ t, p t) (tickets w))).

Lemma count_snd {A B} (q : B → bool) (l : list (A * B)) :
  length (filter (λ b, q b = true) (map snd l)) = length (filter (λ kr, q kr.2 = true) l).
Proof. induction l as [|[a b] l IH]; [done|]. cbn [map]. rewrite !filter_cons. cbn. destruct (decide _); cbn; by rewrite IH. Qed.

Lemma tickets_where_run p w :
  ∃ l, tickets_where p w = (Ok l, w) ∧
    (∀ t, t ∈ l → p t = true ∧ ∃ i, tickets w !! i = Some t) ∧
    ∀ q : TicketRow → bool, Z.of_nat (length (filter (λ t, q t = true) l)) = how_many (λ t, p t && q t) w.
Proof.
  set (found := findMany (λ _ t, p t) (λ _, 0) None (d_tickets (w_db w))).
  exists (map snd found). split; [reflexivity|].
  assert (found ≡ₚ map_to_list (matching (λ _ t, p t) (tickets w))) as Hp
    by exact (pick_all _ _ _ (findMany_rows (λ _ t, p t) (λ _, 0) None (d_tickets (w_db w)))).
  split.
  - intros t Ht. apply list_elem_of_fmap in Ht as ([i r] & -> & Hin). rewrite Hp in Hin.
    apply elem_of_map_to_list, matching_lookup in Hin as [Hi Hin]. by split; [|exists i].
  - intros q. rewrite count_snd. unfold how_many. rewrite <-length_map_to_list. f_equal. apply Permutation_length.
    rewrite Hp. apply NoDup_Permutation.
    + apply list.NoDup_filter, NoDup_map_to_list.
    + apply NoDup_map_to_list.
    + intros [i r]. rewrite list_elem_of_filter, !elem_of_map_to_list, !matching_lookup, andb_true_iff. naive_solver.
Qed.

Lemma how_many_ext p q w : (∀ t, p t = q t) → how_many p w = how_many q w.
Proof.
  intros H. unfold how_many. do 2 f_equal. apply map_eq. intros i. apply option_eq. intros t.
  by rewrite !matching_lookup, H.
Qed.

Lemma count_tickets_run p w : count_tickets p w = (Ok (how_many p w), w).
Proof.
  unfold count_tickets, count, find_many, gets, mbind, M_bind, mret, M_ret. do 3 f_equal.
  rewrite (pick_all _ _ _ (findMany_rows (λ _ t, p t) (λ _, 0) None (d_tickets (w_db w)))).
  by rewrite length_map_to_list.
Qed.

(** ** Tickets per day *)

(** The day [k] of a window of [days] days up to today. *)
Definition window_day (now days : Z) (k : nat) : Z := addDays (startOfUtcDay now) (- (days - Z.of_nat k)).

Lemma window_day_start now days k : startOfUtcDay (window_day now days k) = window_day now days k.
Proof.
  unfold window_day. rewrite !startOfUtcDay_floor. unfold addDays, MS_PER_DAY.
  pose proof (Z.mod_pos_bound now 86400000). Z.to_euclidean_division_equations. lia.
Qed.

Lemma window_day_inj now days j k : window_day now days j = window_day now days k → j = k.
Proof. unfold window_day, addDays. lia. Qed.

(** A time in the window falls on one of its days. *)
Lemma window_covers now days t :
  0 <= days → addDays (startOfUtcDay now) (- days) <= t < addDays (startOfUtcDay now) 1 →
  startOfUtcDay t ∈ map (window_day now days) (seq 0 (Z.to_nat (days + 1))).
Proof.
  intros Hd Ht. pose proof (startOfUtcDay_bounds t) as Hb. rewrite !startOfUtcDay_days in *. unfold addDays, MS_PER_DAY in *.
  apply list_elem_of_fmap. exists (Z.to_nat (utc_days t - utc_days now + days)). split.
  - unfold window_day, addDays. rewrite startOfUtcDay_days. unfold MS_PER_DAY. lia.
  - apply elem_of_seq. lia.
Qed.

(** The calendar is not computed with from here on. *)
#[local] Opaque date_key startOfUtcDay.

(** C31: The trend lists every day of the window once, in order, today last, each with the
    number of tickets the organization created on that UTC day; when no ticket is dated after
    today the values add up to the number of tickets created in the window. *)
Theorem trends_exact tenantId days w :
  0 <= days →
  let mine t := bool_decide (ti_tenantId t = tenantId) in
  let start := addDays (startOfUtcDay (w_now w)) (- days) in
  ∃ l, computeTicketTrends tenantId days w = (Ok l, w) ∧ length l = Z.to_nat (days + 1) ∧
    (∀ k, (k < length l)%nat → l !! k = Some (mkTrend (date_key (window_day (w_now w) days k))
       (how_many (λ t, mine t && bool_decide (startOfUtcDay (ti_createdAt t) = window_day (w_now w) days k)) w))) ∧
    ((∀ i t, tickets w !! i = Some t → ti_createdAt t < addDays (startOfUtcDay (w_now w)) 1) →
     foldr Z.add 0 (map td_value l) = how_many (λ t, mine t && (start <=? ti_createdAt t)) w).
Proof.
  intros Hd mine start. unfold computeTicketTrends. cbv zeta. fold start.
  destruct (tickets_where_run (λ t, mine t && (start <=? ti_createdAt t)) w) as (found & Hf & Hin & Hcount).
  unfold get_now, gets, mbind, M_bind. fold start. change (λ t, bool_decide (ti_tenantId t = tenantId) && _) with (λ t, mine t && (start <=? ti_createdAt t)).
  rewrite Hf.
  set (value k := how_many (λ t, mine t && bool_decide (startOfUtcDay (ti_createdAt t) = window_day (w_now w) days k)) w).
  assert (∀ k, default 0 (get_field (date_key (window_day (w_now w) days k)) (tally (map (λ t, date_key (ti_createdAt t)) found)))
               = Z.of_nat (length (filter (λ t, startOfUtcDay (ti_createdAt t) = window_day (w_now w) days k) found))) as Hval.
  { intros k. rewrite tally_count. f_equal. clear. induction found as [|t found IH]; [done|]. cbn [map]. rewrite !filter_cons.
    pose proof (date_key_day (ti_createdAt t) (window_day (w_now w) days k)) as Hk. rewrite window_day_start in Hk.
    repeat case_decide; cbn [length]; naive_solver. }
  assert (∀ k, Z.of_nat (length (filter (λ t, startOfUtcDay (ti_createdAt t) = window_day (w_now w) days k) found)) = value k) as Hk.
  { intros k. unfold value.
    rewrite (list_filter_iff _ (λ t, bool_decide (startOfUtcDay (ti_createdAt t) = window_day (w_now w) days k) = true))
      by (intros t; by rewrite bool_decide_eq_true).
    rewrite Hcount. apply how_many_ext. intros t. rewrite <-andb_assoc. f_equal.
    destruct (bool_decide_reflect (startOfUtcDay (ti_createdAt t) = window_day (w_now w) days k)) as [E|]; [|by rewrite andb_false_r].
    rewrite andb_true_r. apply Z.leb_le. pose proof (startOfUtcDay_bounds (ti_createdAt t)) as Hb. rewrite E in Hb.
    unfold window_day, start, addDays in *. lia. }
  exists (map (λ k, mkTrend (date_key (window_day (w_now w) days k)) (value k)) (seq 0 (Z.to_nat (days + 1)))).
  split.
  { unfold mret, M_ret. do 2 f_equal. apply map_ext. intros k. rewrite <-Hk, <-Hval.
    unfold window_day. reflexivity. }
  split; [by rewrite length_map, length_seq|]. split.
  - intros k Hlt. rewrite length_map, length_seq in Hlt. by rewrite list_lookup_fmap, lookup_seq_lt.
  - intros Hpast. rewrite map_map. cbn [td_value].
    rewrite <-(how_many_ext (λ t, mine t && (start <=? ti_createdAt t) && true)) by (intros t; apply andb_true_r).
    rewrite <-(Hcount (λ _, true)). rewrite filter_true.
    rewrite <-(partition_count (λ t, startOfUtcDay (ti_createdAt t)) (map (window_day (w_now w) days) (seq 0 (Z.to_nat (days + 1)))) found).
    + rewrite map_map. f_equal. apply map_ext. intros k. by rewrite Hk.
    + apply NoDup_fmap_2_strong; [|apply NoDup_seq]. intros j k _ _. apply window_day_inj.
    + intros t Ht. apply window_covers; [done|]. destruct (Hin t Ht) as [Hp [i Hi]]. bool_to_prop.
      split; [done|by eapply Hpast].
Qed.

(** ** The daily snapshot *)

(** The tables that a snapshot reads. *)
Definition read_by_snapshot w := (w_now w, d_tickets (w_db w), d_customers (w_db w), d_users (w_db w)).

Definition found p w : list TicketRow := map snd (findMany (λ _ t, p t) (λ _, 0) None (d_tickets (w_db w))).

Lemma tickets_where_found p w : tickets_where p w = (Ok (found p w), w).
Proof. reflexivity. Qed.

Lemma groupBy_run key p w : groupBy key p w = (Ok (group_counts (map key (found p w))), w).
Proof. reflexivity. Qed.

Lemma count_rows_run {R} (table : Db Tbl → Tbl R) p w :
  count table p w = (Ok (Z.of_nat (length (findMany p (λ _, 0) None (table (w_db w))))), w).
Proof. reflexivity. Qed.

Lemma snapshot_data_run tenantId dayStart w :
  let created t := bool_decide (ti_tenantId t = tenantId) && within dayStart (addDays dayStart 1) (Some (ti_createdAt t)) in
  ∃ d, snapshot_data tenantId dayStart w = (Ok d, w) ∧
    sn_tenantId d = tenantId ∧ sn_snapshotDate d = dayStart ∧ sn_totalTickets d = how_many created w ∧
    sn_createdAt d = w_now w ∧
    (∀ priority, count_of (priority_string priority) (group_counts (map (λ t, priority_string (ti_priority t)) (found created w)))
       = match priority with LOW => sn_lowTickets d | MEDIUM => sn_mediumTickets d | HIGH => sn_highTickets d
         | CRITICAL => sn_criticalTickets d end) ∧
    ∀ w', read_by_snapshot w' = read_by_snapshot w → snapshot_data tenantId dayStart w' = (Ok d, w').
Proof.
  intros created. unfold snapshot_data, get_now, gets, mbind, M_bind. cbv beta iota zeta.
  repeat (rewrite ?count_tickets_run, ?groupBy_run, ?count_rows_run, ?tickets_where_found; cbv beta iota).
  eexists. split; [reflexivity|]. split; [reflexivity|]. split; [reflexivity|]. split; [reflexivity|].
  split; [reflexivity|]. split; [by intros []|].
  intros w' [= Hn Ht Hc Hu]. cbv beta iota.
  repeat (rewrite ?count_tickets_run, ?groupBy_run, ?count_rows_run, ?tickets_where_found; cbv beta iota).
  unfold how_many, found, rows_of. by rewrite Hn, Ht, Hc, Hu.
Qed.

Lemma count_of_map k (c : string → Z) ks :
  count_of k (map (λ x, (x, c x)) ks) = if decide (k ∈ ks) then c k else 0.
Proof.
  unfold count_of. induction ks as [|x ks IH]; [done|]. cbn [map List.find fst].
  destruct (String.eqb_spec x k) as [->|Hne]; [by rewrite decide_True by left|]. rewrite IH.
  destruct (decide (k ∈ ks)); [rewrite decide_True|rewrite decide_False]; set_solver.
Qed.

Lemma count_of_groups k keys : count_of k (group_counts keys) = Z.of_nat (length (filter (λ x, x = k) keys)).
Proof.
  unfold group_counts. rewrite (count_of_map k (λ k, Z.of_nat (length (filter (λ x, x = k) keys)))).
  destruct (decide (k ∈ Js.dedup keys)) as [|Hk]; [done|]. rewrite elem_of_dedup in Hk.
  induction keys as [|x keys IH]; [done|]. apply not_elem_of_cons in Hk as [Hx Hk].
  rewrite filter_cons_False by congruence. by apply IH.
Qed.

(** The four priorities account for every ticket. *)
Lemma priorities_total (l : list TicketRow) :
  let groups := group_counts (map (λ t, priority_string (ti_priority t)) l) in
  count_of "CRITICAL" groups + count_of "HIGH" groups + count_of "MEDIUM" groups + count_of "LOW" groups
  = Z.of_nat (length l).
Proof.
  cbv zeta. rewrite !count_of_groups. induction l as [|t l IH]; [done|]. cbn [map].
  rewrite !filter_cons. destruct (ti_priority t); cbn [priority_string];
    repeat first [rewrite decide_True by done|rewrite decide_False by done]; cbn [length]; lia.
Qed.

(** One row per organization and day. *)
Definition one_per_day w : Prop :=
  ∀ i j r r', snapshots w !! i = Some r → snapshots w !! j = Some r' →
    sn_tenantId r = sn_tenantId r' → sn_snapshotDate r = sn_snapshotDate r' → i = j.

Definition same_but_snapshots w w' : Prop := read_by_snapshot w' = read_by_snapshot w ∧ d_tenants (w_db w') = d_tenants (w_db w).

Lemma create_row_success {R} (table : Db Tbl → Tbl R) {U : Update table} clash refs i r w :
  refs (w_db w) = true → rows_of table w !! i = None → matching clash (rows_of table w) = ∅ →
  ∃ w', create_row table clash refs i r w = (Ok tt, w').
Proof.
  intros Hr Hi Hc. destruct (create_fresh clash i r (table (w_db w)) Hi Hc) as [t Et].
  unfold create_row, mbind, M_bind, gets. rewrite Hr. cbn [negb]. rewrite Et. eexists. reflexivity.
Qed.

(** The row of the day is there afterwards, with the data; the others are left alone. *)
Lemma upsert_run data w :
  is_Some (rows_of d_tenants w !! sn_tenantId data) → one_per_day w →
  (∀ k, snapshots w !! w_uuid w k = None) ∨
    (∃ i r, snapshots w !! i = Some r ∧ same_day (sn_tenantId data) (sn_snapshotDate data) i r = true) →
  ∃ i w' created, upsert_snapshot data w = (Ok tt, w') ∧ same_but_snapshots w w' ∧
    snapshots w' = <[i := with_createdAt created data]> (snapshots w) ∧ one_per_day w' ∧
    (∀ r, snapshots w !! i = Some r → created = sn_createdAt r) ∧
    (∀ k, k ≠ i → ∀ r, snapshots w !! k = Some r → same_day (sn_tenantId data) (sn_snapshotDate data) k r = false).
Proof.
  intros Ht Hone Hfresh. unfold upsert_snapshot. set (key := same_day _ _).
  unfold mbind at 1, M_bind at 1. destruct (find_first d_snapshots key w) as [[[[i r]|]|e] w1] eqn:Ef.
  - apply (find_first_some d_snapshots) in Ef as (-> & Hi & Hp).
    set (d := λ r, with_createdAt (sn_createdAt r) data).
    destruct (update_many_run d_snapshots key d w) as (n & w' & E & _ & Hw).
    pose proof (update_many_rows d_snapshots key d w) as Hr. rewrite E in Hr. cbn [snd] in Hr.
    assert (∀ k r', snapshots w !! k = Some r' → key k r' = true → k = i) as Huniq.
    { intros k r' Hk Hkey. unfold key, same_day in Hkey, Hp. bool_to_prop.
      apply (Hone k i r' r Hk Hi); congruence. }
    assert (snapshots w' = <[i := with_createdAt (sn_createdAt r) data]> (snapshots w)) as Hrows.
    { apply map_eq. intros k. rewrite Hr. destruct (decide (k = i)) as [->|Hne].
      - rewrite lookup_insert_eq. fold (rows_of d_snapshots w) in Hi. rewrite Hi. cbn. by rewrite Hp.
      - rewrite lookup_insert_ne by done. destruct (snapshots w !! k) as [r'|] eqn:Ek; [|done]. cbn.
        destruct (key k r') eqn:Ekey; [|done]. by destruct (Hne (Huniq k r' Ek Ekey)). }
    exists i, w', (sn_createdAt r). unfold mbind, M_bind. rewrite E. split; [done|]. split.
    { rewrite Hw. unfold same_but_snapshots, read_by_snapshot. split; by upd_simpl. }
    split; [done|]. split.
    + intros j k rj rk. rewrite Hrows. unfold key, same_day in Hp. bool_to_prop.
      destruct (decide (j = i)) as [->|Hj], (decide (k = i)) as [->|Hk]; rewrite ?lookup_insert_eq, ?lookup_insert_ne by done;
        intros Hj' Hk' Ht' Hd'; simplify_eq; try done; cbn in *.
      * exfalso. apply Hk. apply (Hone k i rk r Hk' Hi); congruence.
      * exfalso. apply Hj. apply (Hone j i rj r Hj' Hi); congruence.
      * by apply (Hone j k rj rk).
    + split; [intros r' Hr'; rewrite Hr' in Hi; by injection Hi as ->|].
      intros k Hk r' Hr'. destruct (key k r') eqn:Ekey; [|done]. by destruct (Hk (Huniq k r' Hr' Ekey)).
  - apply (find_first_none d_snapshots) in Ef as (-> & Hn).
    unfold mbind at 1, M_bind at 1. destruct (draw w) as [[x|e] w1] eqn:Ed; [|discriminate Ed].
    apply draw_ok in Ed as [-> ->]. set (w1 := w <| w_draws ::= Nat.add 1 |>).
    assert (snapshots w1 = snapshots w ∧ d_tenants (w_db w1) = d_tenants (w_db w)) as [Hs1 Ht1]
      by (unfold rows_of, w1; split; by upd_simpl).
    destruct (create_row_success d_snapshots key (λ db, bool_decide (is_Some (findUnique (sn_tenantId data) (d_tenants db))))
                (w_uuid w (w_draws w + 0)%nat) data w1) as [w' E].
    { rewrite Ht1, findUnique_rows. by apply bool_decide_eq_true_2. }
    { rewrite Hs1. destruct Hfresh as [Hfresh|(k & r & Hk & Hkey)]; [apply Hfresh|]. exfalso.
      specialize (Hn k r Hk). unfold key in Hn. congruence. }
    { rewrite Hs1. apply map_eq. intros k. rewrite lookup_empty. apply eq_None_not_Some. intros [r Hk].
      apply matching_lookup in Hk as [Hk Hkey]. by rewrite (Hn k r Hk) in Hkey. }
    pose proof E as E'. apply (create_row_ok d_snapshots) in E as (Hnone & _ & Hrows & _ & t & Hw).
    rewrite Hs1 in Hrows. exists (w_uuid w (w_draws w + 0)%nat), w', (sn_createdAt data).
    assert (with_createdAt (sn_createdAt data) data = data) as -> by by destruct data.
    split; [exact E'|]. split.
    { rewrite Hw. unfold same_but_snapshots, read_by_snapshot, w1. split; by upd_simpl. }
    split; [done|]. split; [|split; [|intros k _ r Hk; by apply (Hn k r)]]; cycle 1.
    { intros r Hr. exfalso. rewrite <-Hs1, Hnone in Hr. discriminate Hr. }
    intros j k rj rk. rewrite Hrows. unfold key, same_day in Hn.
    destruct (decide (j = w_uuid w (w_draws w + 0)%nat)) as [->|Hj], (decide (k = w_uuid w (w_draws w + 0)%nat)) as [->|Hk];
      rewrite ?lookup_insert_eq, ?lookup_insert_ne by done; intros Hj' Hk' Ht' Hd'; simplify_eq; try done.
    + specialize (Hn k rk Hk'). rewrite Ht', Hd', !bool_decide_eq_true_2 in Hn by done. done.
    + specialize (Hn j rj Hj'). rewrite Ht', Hd', !bool_decide_eq_true_2 in Hn by done. done.
    + by apply (Hone j k rj rk).
  - exfalso. unfold find_first, find_many, gets, mbind, M_bind in Ef. discriminate Ef.
Qed.

(** The daily snapshot of an organization can be taken any number of times.  It always
    returns; there is one row for the day afterwards, of which a second run changes nothing;
    the row counts the tickets created that day, and its four priorities add up to them. *)
Theorem snapshot_idempotent tenantId day w :
  is_Some (rows_of d_tenants w !! tenantId) → one_per_day w → (∀ k, snapshots w !! w_uuid w k = None) →
  let dayStart := startOfUtcDay (default (addDays (startOfUtcDay (w_now w)) (-1)) day) in
  ∃ i r w1 w2,
    generateDailySnapshot tenantId day w = (Ok tt, w1) ∧ generateDailySnapshot tenantId day w1 = (Ok tt, w2) ∧
    snapshots w1 = <[i := r]> (snapshots w) ∧ sn_tenantId r = tenantId ∧ sn_snapshotDate r = dayStart ∧
    sn_totalTickets r = how_many (λ t, bool_decide (ti_tenantId t = tenantId)
                          && within dayStart (addDays dayStart 1) (Some (ti_createdAt t))) w ∧
    sn_criticalTickets r + sn_highTickets r + sn_mediumTickets r + sn_lowTickets r = sn_totalTickets r ∧
    one_per_day w1 ∧ snapshots w2 = snapshots w1.
Proof.
  intros Ht Hone Hfresh dayStart.
  destruct (snapshot_data_run tenantId dayStart w) as (d & Ed & Hten & Hday & Htotal & _ & Hprio & Hsame).
  rewrite <-Hten in Ht.
  destruct (upsert_run d w Ht Hone (or_introl Hfresh)) as (i & w1 & c & E1 & [Hs1 Ht1] & Hr1 & Hone1 & _ & _).
  pose proof Hs1 as [= Hnow _ _ _].
  assert (∀ v v' x, w_now v = w_now w → snapshot_data tenantId dayStart v = (Ok d, v) →
    upsert_snapshot d v = (x, v') → generateDailySnapshot tenantId day v = try_catch (λ _, (x, v')) (λ _, mret ()) v) as Hgen.
  { intros v v' x Hv Hd Hu. unfold generateDailySnapshot, get_now, gets, mbind, M_bind, try_catch. rewrite Hv.
    fold dayStart. by rewrite Hd, Hu. }
  assert (is_Some (rows_of d_tenants w1 !! sn_tenantId d)) as Ht1' by (unfold rows_of in *; by rewrite Ht1).
  destruct (upsert_run d w1 Ht1' Hone1) as (i2 & w2 & c2 & E2 & _ & Hr2 & _ & Hc2 & Hothers).
  { right. exists i, (with_createdAt c d). rewrite Hr1, lookup_insert_eq. split; [done|].
    unfold same_day. cbn. by rewrite !bool_decide_eq_true_2. }
  exists i, (with_createdAt c d), w1, w2. split; [by rewrite (Hgen w w1 _ eq_refl Ed E1)|].
  split; [by rewrite (Hgen w1 w2 _ Hnow (Hsame w1 Hs1) E2)|]. split_and!; try done.
  - pose proof (Hprio CRITICAL) as H1. pose proof (Hprio HIGH) as H2. pose proof (Hprio MEDIUM) as H3.
    pose proof (Hprio LOW) as H4. cbn [priority_string] in H1, H2, H3, H4. destruct d; cbn in Htotal, H1, H2, H3, H4 |- *.
    rewrite <-H1, <-H2, <-H3, <-H4, Htotal, priorities_total.
    pose proof (count_tickets_run (λ t, bool_decide (ti_tenantId t = tenantId)
                 && within dayStart (addDays dayStart 1) (Some (ti_createdAt t))) w) as Hct.
    unfold count_tickets in Hct. rewrite count_rows_run in Hct. injection Hct as Hct. cbn in Hct |- *.
    rewrite <-Hct. unfold found. by rewrite length_map.
  - assert (i2 = i) as ->.
    { destruct (decide (i = i2)) as [|Hne]; [done|]. exfalso.
      specialize (Hothers i Hne (with_createdAt c d)). rewrite Hr1, lookup_insert_eq in Hothers.
      specialize (Hothers eq_refl). unfold same_day in Hothers. cbn in Hothers.
      by rewrite !bool_decide_eq_true_2 in Hothers. }
    rewrite (Hc2 (with_createdAt c d)) in Hr2 by (by rewrite Hr1, lookup_insert_eq).
    rewrite Hr2, Hr1. cbn. by rewrite insert_insert_eq.
Qed.
End facts.
#[local] Transparent date_key startOfUtcDay.

(** ** Concrete figures *)

(** A ticket at noon of the first day of 1970 and one on the third. *)
Definition demo_tickets : World (gmap string) :=
  let ticket priority at_ := mkTicketRow "t1" 1 "c1" None "u1" "Broken" "d" OPEN priority "GENERAL" [] "WEB"
    false None None None None None None false [] None at_ at_ in
  world_of (2 * MS_PER_DAY + 1000) (empty_db
    <| d_tenants := {["t1" := mkTenantRecord "Acme" "acme" "ACTIVE" "pro" None None 5 100 10 (JObj []) None None 0 0]} |>
    <| d_tickets := {["k1" := ticket HIGH 43200000; "k2" := ticket LOW (2 * MS_PER_DAY)]} |>).

Definition trend_of (r : result error (list TrendData)) : list (string * Z) :=
  match r with Ok l => map (λ t, (td_date t, td_value t)) l | Err _ => [] end.

Lemma trends_exact_witness :
  ∃ l, computeTicketTrends "t1" 2 demo_tickets = (Ok l, demo_tickets) ∧ length l = 3%nat ∧
    trend_of (computeTicketTrends "t1" 2 demo_tickets).1 = [("1970-01-01", 1); ("1970-01-02", 0); ("1970-01-03", 1)].
Proof.
  destruct (trends_exact (Tbl:=gmap string) "t1" 2 demo_tickets) as (l & E & Hl & _); [lia|].
  exists l. split; [exact E|]. split; [exact Hl|vm_compute; reflexivity].
Defined.

Definition snapshot_of_day (w : World (gmap string)) : list (Z * Z * Z * Z) :=
  map (λ '(_, r), (sn_snapshotDate r, sn_totalTickets r, sn_highTickets r, sn_openTickets r)) (map_to_list (rows_of d_snapshots w)).

Lemma snapshot_idempotent_witness :
  (∃ i r w1 w2, generateDailySnapshot "t1" (Some 0) demo_tickets = (Ok tt, w1) ∧
     rows_of d_snapshots w1 = <[i := r]> ∅ ∧ generateDailySnapshot "t1" (Some 0) w1 = (Ok tt, w2) ∧
     rows_of d_snapshots w2 = rows_of d_snapshots w1) ∧
  snapshot_of_day (generateDailySnapshot "t1" (Some 0) demo_tickets).2 = [(0, 1, 1, 2)].
Proof.
  split; [|vm_compute; reflexivity].
  destruct (snapshot_idempotent (Tbl:=gmap string) "t1" (Some 0) demo_tickets)
    as (i & r & w1 & w2 & E1 & E2 & H1 & _ & _ & _ & _ & _ & H2).
  - vm_compute. eexists. reflexivity.
  - intros i j r r' H. unfold rows_of in H. cbn in H. by rewrite lookup_empty in H.
  - intros k. apply lookup_empty.
  - exists i, r, w1, w2. split; [exact E1|]. split; [exact H1|]. split; [exact E2|exact H2].
Defined.
