(* ===== verification/Jobs.v ===== *)
(** * Scheduled jobs

    The jobs of [src/infrastructure/scheduler]: the escalation of overdue tickets, the daily
    statistics, and the selection of the organizations to delete.  The first two walk through
    the pages of all organizations. *)

From Stdlib Require Import Ascii String.
From S2P Require Import Prelude Store Js Errors Dates Domain Ticket Customer Tenant User Permissions.
From S2P Require Import Schema World Outbox Logs Frames Repositories Accounts TicketService TicketCommits.
From S2P Require Import FeatureFlags Ai AiFacts Analytics.

#[local] Open Scope string_scope.
#[local] Open Scope Z_scope.
#[local] Set Default Proof Using "Type*".

Definition TENANT_PAGE_SIZE : Z := 200.
Definition no_tenant_filters : TenantFilters := mkTenantFilters None None None.

Section jobs.
Context {Tbl : Type → Type} `{!Prisma Tbl}.
Implicit Types (w : World Tbl).

(** A loop over [xs] whose body reports a number; the numbers are added. *)
Fixpoint sum_each {A} (body : A → W Tbl Z) (xs : list A) : W Tbl Z :=
  match xs with
  | [] => mret 0
  | x :: xs => n ← body x; m ← sum_each body xs; mret (n + m)
  end.

(** [for (let page = 1; ; page++)]; the fuel bounds the number of pages. *)
Fixpoint each_tenant (fuel : nat) (page : Z) (body : TenantEntity → W Tbl Z) : W Tbl Z :=
  match fuel with
  | O => throw (PlainError "out of fuel")
  | S fuel =>
      tenants ← tenant_findAll no_tenant_filters page TENANT_PAGE_SIZE;
      n ← sum_each body (pg_data tenants);
      if (pg_totalPages tenants <=? page) || bool_decide (pg_data tenants = []) then mret n
      else m ← each_tenant fuel (page + 1) body; mret (n + m)
  end.

(** ** Escalation of overdue tickets *)

Definition sweep_ticket (tenantId : string) (ticket : TicketEntity) : W Tbl unit :=
  _ ← repo_markSlaBreached (t_id ticket) tenantId;
  if negb (canEscalate ticket) then mret ()
  else
    _ ← escalateTicket (mkEscalateTicketDto tenantId (t_id ticket) "Automated SLA escalation" SYSTEM_ACTOR_ID "SYSTEM");
    mret ().

(** One failing ticket is counted, and does not stop the others. *)
Definition attempt (work : W Tbl unit) : W Tbl Z := try_catch (_ ← work; mret 0) (λ _, mret 1).

Definition sweep_tenant (tenant : TenantEntity) : W Tbl Z :=
  try_catch (
    overdueTickets ← findOverdueTickets (n_id tenant);
    sum_each (λ ticket, attempt (sweep_ticket (n_id tenant) ticket)) overdueTickets)
  (λ _, mret 1).

(** The number of failures, which is logged. *)
Definition ticketEscalationJob (fuel : nat) : W Tbl Z := each_tenant fuel 1 sweep_tenant.

(** ** Daily statistics *)

Definition analyticsRollupJob (fuel : nat) : W Tbl Z :=
  each_tenant fuel 1 (λ tenant, _ ← generateDailySnapshot (n_id tenant) None; mret 0).

(** ** Deletion of cancelled organizations

    [delete] is [TenantRepository.delete], which cascades inside the database. *)
Definition tenantCleanupJob (delete : string → W Tbl unit) : W Tbl unit :=
  tenants ← tenant_findAll (mkTenantFilters (Some "CANCELLED") None None) 1 1000;
  now ← get_now;
  let cutoff := now - 90 * 24 * 60 * 60 * 1000 in
  for_each (λ tenant, match n_suspendedAt tenant with
                      | Some t => if t <? cutoff then delete (n_id tenant) else mret ()
                      | None => mret ()
                      end) (pg_data tenants).

(** ** Walking through the pages *)

Lemma map_result_take {R A} (f : string → R → result error A) n l xs :
  map_result f l = Ok xs → map_result f (take n l) = Ok (take n xs).
Proof.
  revert n xs. induction l as [|[i r] l IH]; intros n xs; cbn [map_result].
  - intros [= <-]. by rewrite !take_nil.
  - destruct (f i r) as [x|e] eqn:E; [|done]. cbn. destruct (map_result f l) as [ys|e] eqn:El; [|done]. cbn.
    intros [= <-]. destruct n as [|n]; [done|]. cbn. rewrite E. cbn. by rewrite (IH n ys eq_refl).
Qed.

Lemma map_result_drop {R A} (f : string → R → result error A) n l xs :
  map_result f l = Ok xs → map_result f (drop n l) = Ok (drop n xs).
Proof.
  revert n xs. induction l as [|[i r] l IH]; intros n xs; cbn [map_result].
  - intros [= <-]. by rewrite !drop_nil.
  - destruct (f i r) as [x|e] eqn:E; [|done]. cbn. destruct (map_result f l) as [ys|e] eqn:El; [|done]. cbn.
    intros [= <-]. destruct n as [|n]; cbn; [by rewrite E; cbn; rewrite El|]. by apply IH.
Qed.

(** The newest organization first. *)
Definition all_tenants w : list (string * TenantRecord) :=
  findMany (tenant_where no_tenant_filters) (λ kr, - nr_createdAt kr.2) None (d_tenants (w_db w)).

(** No two organizations were created in the same millisecond, and every row is well formed:
    its entities are [tenants]. *)
Definition tenants_listed w (tenants : list TenantEntity) : Prop :=
  map_result tenant_toDomain (all_tenants w) = Ok tenants ∧
  ∀ i r j r', rows_of d_tenants w !! i = Some r → rows_of d_tenants w !! j = Some r' →
    nr_createdAt r = nr_createdAt r' → i = j.

Lemma tenant_page w tenants page :
  tenants_listed w tenants → 1 <= page →
  tenant_findAll no_tenant_filters page TENANT_PAGE_SIZE w =
  (Ok (mkPage (drop (Z.to_nat ((page - 1) * 200)) (take (Z.to_nat (page * 200)) tenants))
         (Z.of_nat (length tenants)) page 200 (toTotalPages (Z.of_nat (length tenants)) 200)), w).
Proof.
  intros [Hm Hinj] Hp. unfold tenant_findAll, or_infrastructure, try_catch.
  change (nf_status no_tenant_filters) with (@None string).
  unfold find_page_result, mbind, M_bind. cbv beta iota. unfold mret, M_ret. rewrite find_page_run. cbn [pg_data pg_total pg_page pg_limit pg_totalPages].
  rewrite findMany_take by (cbn; intros; eapply Hinj; eauto; lia).
  fold (all_tenants w). unfold TENANT_PAGE_SIZE, toSkip.
  replace (Z.to_nat ((Z.max page 1 - 1) * 200 + 200)) with (Z.to_nat (page * 200)) by lia.
  replace (Z.max page 1) with page by lia.
  assert (∀ l : list (string * TenantRecord), map (λ '(i, r), (i, r)) l = l) as Hid
    by (induction l as [|[] l IH]; cbn; congruence).
  rewrite Hid. unfold lift. rewrite (map_result_drop _ _ _ _ (map_result_take _ _ _ _ Hm)).
  assert (Z.of_nat (size (matching (tenant_where no_tenant_filters) (rows_of d_tenants w))) = Z.of_nat (length tenants)) as ->; [|done].
  f_equal. rewrite <-length_map_to_list. unfold rows_of.
  rewrite <-(pick_all _ _ _ (findMany_rows (tenant_where no_tenant_filters) (λ kr, - nr_createdAt kr.2) None (d_tenants (w_db w)))).
  fold (all_tenants w). revert Hm. generalize (all_tenants w) as l. generalize tenants as xs. clear.
  intros xs l. revert xs. induction l as [|[i r] l IH]; intros xs; cbn [map_result]; [by intros [= <-]|].
  destruct (tenant_toDomain i r); [|done]. cbn. destruct (map_result _ l) as [ys|]; [|done]. intros [= <-]. cbn. by rewrite (IH ys).
Qed.

Lemma sum_each_app {A} (body : A → W Tbl Z) l1 l2 w :
  sum_each body (l1 ++ l2)%list w = (n ← sum_each body l1; m ← sum_each body l2; mret (n + m)) w.
Proof.
  revert w. unfold mbind, M_bind, mret, M_ret. induction l1 as [|x l1 IH]; intros w; cbn [sum_each app].
  - unfold mbind, M_bind, mret, M_ret. destruct (sum_each body l2 w) as [[m|e] w1]; [|done]. by rewrite Z.add_0_l.
  - unfold mbind, M_bind, mret, M_ret. destruct (body x w) as [[n|e] w1]; [|done]. rewrite IH.
    destruct (sum_each body l1 w1) as [[n1|e] w2]; [|done]. destruct (sum_each body l2 w2) as [[m|e] w3]; [|done].
    do 2 f_equal. lia.
Qed.

Lemma keeps_sum_each {X A} (obs : World Tbl → X) (body : A → W Tbl Z) l :
  (∀ x, Keeps obs (body x)) → Keeps obs (sum_each body l).
Proof.
  intros Hb. induction l as [|x l IH]; cbn [sum_each]; [apply keeps_ret|].
  apply keeps_bind; [done|]. intros n. apply keeps_bind; [done|]. intros m. apply keeps_ret.
Qed.

Lemma tenants_listed_frame w w' tenants :
  d_tenants (w_db w') = d_tenants (w_db w) → tenants_listed w tenants → tenants_listed w' tenants.
Proof. intros E [Hm Hi]. unfold tenants_listed, all_tenants, rows_of in *. by rewrite E. Qed.

Lemma each_tenant_from body tenants fuel : ∀ k w,
  (∀ t, Keeps (λ w, d_tenants (w_db w)) (body t)) → tenants_listed w tenants → 1 <= k →
  (0 < fuel)%nat → Z.of_nat (length tenants) <= (k - 1 + Z.of_nat fuel) * 200 →
  each_tenant fuel k body w = sum_each body (drop (Z.to_nat ((k - 1) * 200)) tenants) w.
Proof.
  induction fuel as [|fuel IH]; intros k w Hb Hl Hk Hf Hn; [lia|]. cbn [each_tenant].
  unfold mbind at 1, M_bind at 1. rewrite (tenant_page w tenants k Hl Hk). cbn [pg_data pg_totalPages].
  set (page := drop _ (take _ tenants)). set (rest := drop (Z.to_nat (k * 200)) tenants).
  assert (drop (Z.to_nat ((k - 1) * 200)) tenants = (page ++ rest)%list) as Hsplit.
  { unfold page, rest. rewrite <-(take_drop (Z.to_nat (k * 200)) tenants) at 1.
    destruct (decide (Z.to_nat ((k - 1) * 200) <= length (take (Z.to_nat (k * 200)) tenants))%nat) as [Hle|Hgt].
    - by rewrite drop_app_le.
    - rewrite length_take in Hgt. rewrite (drop_ge tenants (Z.to_nat (k * 200))) by lia. by rewrite !app_nil_r. }
  rewrite Hsplit, sum_each_app. unfold mbind, M_bind.
  pose proof (keeps_sum_each (λ w, d_tenants (w_db w)) body page Hb w) as Hkeep.
  destruct (sum_each body page w) as [[n|e] w1]; [|done]. cbn [snd] in Hkeep.
  destruct (_ || _) eqn:Estop.
  - assert (rest = []) as ->; [|cbn; unfold mret, M_ret; by rewrite Z.add_0_r].
    unfold rest. apply drop_ge. apply orb_true_iff in Estop as [Hlast|Hempty]; bool_to_prop.
    + destruct (toTotalPages_spec (Z.of_nat (length tenants)) 200) as [H|H]; lia.
    + unfold page in Hempty. apply (f_equal length) in Hempty. rewrite length_drop, length_take in Hempty. cbn in Hempty. lia.
  - apply orb_false_iff in Estop as [Hmore _]. bool_to_prop.
    assert (k * 200 < Z.of_nat (length tenants)) as Hlt
      by (destruct (toTotalPages_spec (Z.of_nat (length tenants)) 200) as [H|H]; lia).
    unfold mbind, M_bind. rewrite (IH (k + 1) w1); [|done|by eapply tenants_listed_frame|lia|lia|lia].
    replace (k + 1 - 1) with k by lia. fold rest. by destruct (sum_each body rest w1) as [[m|e] w2].
Qed.

(** Walking through the pages visits every organization exactly once, in the order of the
    listing, whatever is done for each of them short of changing the organizations; a fuel of
    one more than a two-hundredth of their number is enough. *)
Theorem each_tenant_all body tenants fuel w :
  (∀ t, Keeps (λ w, d_tenants (w_db w)) (body t)) → tenants_listed w tenants →
  (length tenants < 200 * fuel)%nat →
  each_tenant fuel 1 body w = sum_each body tenants w.
Proof.
  intros Hb Hl Hf. rewrite (each_tenant_from body tenants fuel 1 w Hb Hl); [done|lia|lia|lia].
Qed.

(** ** What a sweep does to one ticket *)

#[local] Notation tickets w := (rows_of d_tickets w).
#[local] Notation spares j m := (Keeps (λ w : World Tbl, rows (d_tickets (w_db w)) !! j) m).

(** The ticket [j] of organization [T] is marked as late; with [e], it is escalated too. *)
Definition late (j T : string) (e : bool) w : Prop :=
  ∃ r, tickets w !! j = Some r ∧ ti_slaBreached r = true ∧ ti_tenantId r = T ∧ (e = true → ti_isEscalated r = true).

Lemma late_weaken j T e w : late j T true w → late j T e w.
Proof. intros (r & ? & ? & ? & He). exists r. split_and!; try done. intros _. by apply He. Qed.

Lemma late_spared {A} j T e (m : W Tbl A) : spares j m → preserves (late j T e) m.
Proof.
  intros Hm w (r & Hr & Hs). exists r. split; [|done]. unfold rows_of in *. by rewrite (Hm w).
Qed.

Lemma transaction_flagged {A} j T (m : W Tbl A) :
  preserves (late j T false) m → preserves (late j T false) (transaction m).
Proof.
  intros Hm w Hw. unfold transaction. destruct (w_inTransaction w); [by apply Hm|].
  specialize (Hm (w <| w_inTransaction := true |>)). unfold late, rows_of in *. upd_simpl in Hm. specialize (Hm Hw).
  destruct (m _) as [res w1]. cbn [snd] in *. upd_simpl. destruct (is_ok res); [by rewrite commit|by rewrite rollback].
Qed.

(** Writing an entity back keeps the flag the entity has. *)
Lemma ticket_update_late j T t : t_id t = j → t_slaBreached t = true → preserves (late j T false) (ticket_update t).
Proof.
  intros Hj Hs w Hw. destruct (ticket_update t w) as [[t'|e] w'] eqn:E; cbn [snd].
  - apply ticket_update_ok in E as (r & Hr & Hw' & _). destruct Hw as (r0 & Hr0 & _ & HT & _).
    rewrite Hj in *. assert (r0 = r) as -> by congruence.
    exists (ticket_update_data (Tbl:=Tbl) (w_now w) t r). rewrite Hw', lookup_insert_eq. split; [done|].
    destruct r; cbn in *. by rewrite Hs.
  - by rewrite (ticket_update_clean t w e w' E).
Qed.

Lemma escalate_fields rt reason by_ t t' :
  escalate rt reason by_ t = Ok t' →
  t_id t' = t_id t ∧ t_slaBreached t' = t_slaBreached t ∧ t_isEscalated t' = true.
Proof. unfold escalate. destruct (t_isEscalated t); [done|]. intros H. inv_ok. by destruct t as [[] ]. Qed.

Lemma escalateTicket_late j T dto : es_ticketId dto = j → preserves (late j T false) (escalateTicket dto).
Proof.
  intros Hj. unfold escalateTicket.
  apply preserves_bind_ok; [apply late_spared; keeps_tac|]. intros w k w1 Hw E.
  apply getTicketOrThrow_found in E as (_ & r & Hr & _ & Ek). destruct Hw as (r0 & Hr0 & Hs & _).
  assert (t_slaBreached k = true ∧ t_id k = j) as [Hks Hki]
    by (rewrite Hj in *; assert (r0 = r) as -> by congruence; by subst k).
  destruct (negb (canEscalate k)); [apply preserves_throw|].
  apply preserves_bind; [apply late_spared; keeps_tac|]. intros rt.
  apply preserves_bind_ok; [apply preserves_lift|]. intros w2 t w3 _ Et. unfold lift in Et. injection Et as Et _.
  apply escalate_fields in Et as (Hi & Hs' & _).
  apply preserves_bind; [|intros x; apply late_spared; keeps_tac].
  apply transaction_flagged. apply preserves_bind; [apply ticket_update_late; congruence|].
  intros x. apply late_spared; keeps_tac.
Qed.

(** A transaction that returns leaves the database its body left. *)
Lemma transaction_db {A} (m : W Tbl A) w a w' :
  transaction m w = (Ok a, w') → ∃ w0 w1, w_db w0 = w_db w ∧ m w0 = (Ok a, w1) ∧ w_db w' = w_db w1.
Proof.
  destruct (w_inTransaction w) eqn:Hf.
  - unfold transaction. rewrite Hf. intros E. by exists w, w'.
  - intros H. apply transaction_ok in H as (w1 & E & ->); [|done].
    exists (w <| w_inTransaction := true |>), w1. split; [by upd_simpl|]. split; [exact E|by upd_simpl].
Qed.

Lemma escalateTicket_escalates j T dto w x w' :
  es_ticketId dto = j → late j T false w → escalateTicket dto w = (Ok x, w') → late j T true w'.
Proof.
  intros Hj Hw H. pose proof (escalateTicket_late j T dto Hj w Hw) as Hl. rewrite H in Hl. cbn [snd] in Hl.
  destruct Hl as (r & Hr & Hs & HT & _). exists r. split_and!; [done|done|done|]. intros _.
  unfold escalateTicket in H. apply M_bind_ok in H as (k & w1 & Ek & H).
  apply getTicketOrThrow_found in Ek as (-> & r0 & _ & _ & Hk).
  destruct (negb (canEscalate k)); [by inv_ok|].
  apply M_bind_ok in H as (rt & w2 & _ & H). apply M_bind_ok in H as (t & w3 & Et & H). unfold lift in Et. injection Et as Et _.
  apply escalate_fields in Et as (Hi & _ & He).
  apply M_bind_ok in H as (u & w4 & Htx & H).
  assert (d_tickets (w_db w') = d_tickets (w_db w4)) as E4
    by (eapply (keeps_run (λ w, d_tickets (w_db w))); [exact H|]; keeps_tac).
  apply transaction_db in Htx as (v & v1 & _ & Ework & E5).
  apply M_bind_ok in Ework as (u1 & v2 & Eu & Ework). apply ticket_update_ok in Eu as (r1 & _ & Hrows & _).
  assert (d_tickets (w_db v1) = d_tickets (w_db v2)) as E6
    by (eapply (keeps_run (λ w, d_tickets (w_db w))); [exact Ework|]; keeps_tac).
  unfold rows_of in Hr, Hrows. rewrite E4, E5, E6, Hrows, Hi in Hr.
  assert (t_id k = j) as Hkj by (subst k; exact Hj). rewrite Hkj, lookup_insert_eq in Hr.
  injection Hr as <-. by destruct r1.
Qed.

(** ** The sweep of one organization *)

Definition overdue (now : Z) (r : TicketRow) : bool :=
  match ti_dueAt r with Some d => d <? now | None => false end
  && negb (bool_decide (ti_status r = RESOLVED)) && negb (bool_decide (ti_status r = CLOSED)) && negb (ti_slaBreached r).

Lemma sweep_ticket_spares j T t : t_id t ≠ j → spares j (sweep_ticket T t).
Proof.
  intros Hne. unfold sweep_ticket. apply keeps_bind.
  - unfold repo_markSlaBreached. apply keeps_bind; [keeps_tac|]. intros now. apply keeps_bind; [|intros; apply keeps_ret].
    apply keeps_update_many_other. intros r. by rewrite bool_decide_eq_false_2.
  - intros b. destruct (negb _); [apply keeps_ret|]. apply keeps_bind; [|intros; apply keeps_ret].
    by apply escalateTicket_spares.
Qed.

Lemma attempt_run (m : W Tbl unit) w : ∃ n, attempt m w = (Ok n, (m w).2) ∧ 0 <= n ∧ (n = 0 → ∃ a, m w = (Ok a, (m w).2)).
Proof.
  unfold attempt, try_catch, mbind, M_bind, mret, M_ret. destruct (m w) as [[a|e] w1]; cbn.
  - exists 0. split_and!; [done|lia|]. eauto.
  - exists 1. split_and!; [done|lia|]. lia.
Qed.

Lemma sla_mark_run j r w :
  tickets w !! j = Some r → ti_slaBreached r = false →
  ∃ b w' r', repo_markSlaBreached j (ti_tenantId r) w = (Ok b, w') ∧ tickets w' !! j = Some r' ∧
    ti_slaBreached r' = true ∧ ti_tenantId r' = ti_tenantId r ∧ ti_isEscalated r' = ti_isEscalated r.
Proof.
  intros Hr Hs. unfold repo_markSlaBreached, get_now, gets, mbind, M_bind.
  match goal with |- context [update_many d_tickets ?p ?d w] =>
    pose proof (update_many_rows d_tickets p d w j) as Hrow; destruct (update_many_run d_tickets p d w) as (n & w' & E & _) end.
  rewrite E in Hrow |- *. cbn [snd] in Hrow. rewrite Hr in Hrow. cbn in Hrow.
  rewrite !bool_decide_eq_true_2, Hs in Hrow by done. cbn in Hrow.
  eexists _, w', _. split; [reflexivity|]. split; [exact Hrow|]. by destruct r.
Qed.

Lemma attempt_late j r w :
  tickets w !! j = Some r → overdue (w_now w) r = true →
  ∃ n w', attempt (sweep_ticket (ti_tenantId r) (ticket_toDomain j r)) w = (Ok n, w') ∧ 0 <= n ∧
    late j (ti_tenantId r) (bool_decide (n = 0)) w'.
Proof.
  intros Hr Ho. set (T := ti_tenantId r). set (t := ticket_toDomain j r).
  destruct (attempt_run (sweep_ticket T t) w) as (n & En & Hn & Hok). exists n, (sweep_ticket T t w).2.
  split; [done|]. split; [done|]. unfold sweep_ticket in *. unfold mbind at 1, M_bind at 1 in Hok. unfold mbind at 1, M_bind at 1.
  assert (ti_slaBreached r = false) as Hs by (unfold overdue in Ho; bool_to_prop; done).
  destruct (sla_mark_run j r w Hr Hs) as (b & w1 & r1 & Em & Hr1 & Hs1 & HT1 & He1).
  change (t_id t) with j in *. fold T in Em. rewrite Em in Hok |- *.
  assert (late j T false w1) as Hl1 by (exists r1; by split_and!).
  destruct (negb (canEscalate t)) eqn:Ec.
  - cbn [snd mret M_ret]. apply late_weaken. exists r1. split_and!; try done. intros _. rewrite He1.
    unfold canEscalate in Ec. apply negb_true_iff, andb_false_iff in Ec as [Ec|Ec].
    + exfalso. unfold overdue in Ho. bool_to_prop. change (ticket_isActive t) with (status_isActive (ti_status r)) in Ec.
      by destruct (ti_status r).
    + by apply negb_false_iff in Ec.
  - unfold mbind, M_bind in Hok |- *.
    match type of Hok with context [escalateTicket ?dto w1] =>
      pose proof (escalateTicket_late j T dto eq_refl w1 Hl1) as Hl;
      destruct (escalateTicket dto w1) as [[x|e] w2] eqn:Ee; cbn [snd mret M_ret] in * end.
    + apply late_weaken. by eapply escalateTicket_escalates; [|exact Hl1|exact Ee].
    + destruct (bool_decide_reflect (n = 0)) as [->|]; [|done]. destruct (Hok eq_refl) as (a & Ha). discriminate Ha.
Qed.

(** The overdue tickets of an organization: those of the table, each once. *)
Lemma findOverdue_run T w :
  ∃ l, findOverdueTickets T w = (Ok l, w) ∧ NoDup (map t_id l) ∧
    (∀ t, t ∈ l → ∃ r, tickets w !! t_id t = Some r ∧ ti_tenantId r = T ∧ overdue (w_now w) r = true ∧
                       t = ticket_toDomain (t_id t) r) ∧
    (∀ j r, tickets w !! j = Some r → ti_tenantId r = T → overdue (w_now w) r = true → ticket_toDomain j r ∈ l).
Proof.
  unfold findOverdueTickets, get_now, find_many, gets, mbind, M_bind, mret, M_ret.
  match goal with |- context [findMany ?p _ _ _] => set (cond := p) end.
  set (found := findMany cond _ _ _).
  assert (∀ j r, cond j r = bool_decide (ti_tenantId r = T) && overdue (w_now w) r) as Hcond.
  { intros j r. unfold cond, overdue. by rewrite !andb_assoc. }
  eexists. split; [reflexivity|]. split_and!.
  - assert (NoDup found.*1) as Hn.
    { unfold found. rewrite (pick_all _ _ _ (findMany_rows cond (λ _, 0) None (d_tickets (w_db w)))). apply NoDup_fst_map_to_list. }
    assert (map t_id (map (λ '(i, r), ticket_toDomain i r) found) = found.*1) as Hids.
    { rewrite map_map. apply map_ext. by intros [i r]. }
    rewrite <-Hids in Hn. revert Hn. generalize (map (λ '(i, r), ticket_toDomain i r) found) as l. clear.
    induction l as [|t l IH]; [done|]. cbn [map]. intros [Hx Hn]%NoDup_cons. rewrite filter_cons.
    case_decide; [|by apply IH]. cbn [map]. apply NoDup_cons. split; [|by apply IH].
    intros (t' & Ht' & Hin)%list_elem_of_fmap. apply Hx. apply list_elem_of_filter in Hin as [_ Hin].
    apply list_elem_of_fmap. by exists t'.
  - intros t [_ Hin]%list_elem_of_filter. apply list_elem_of_fmap in Hin as ([i r] & -> & Hin).
    apply findMany_elem in Hin as [Hi Hc]. rewrite Hcond in Hc. apply andb_true_iff in Hc as [HT Ho]. bool_to_prop.
    by exists r.
  - intros j r Hj HT Ho. apply list_elem_of_filter. split.
    + unfold overdue_satisfied. change (t_dueAt (ticket_toDomain j r)) with (ti_dueAt r).
      change (ticket_isActive (ticket_toDomain j r)) with (status_isActive (ti_status r)).
      change (t_slaBreached (ticket_toDomain j r)) with (ti_slaBreached r).
      unfold overdue in Ho. destruct (ti_dueAt r) as [d|]; [|done]. bool_to_prop.
      apply andb_true_iff. split; [|by apply negb_true_iff]. apply andb_true_iff. split; [by apply Z.ltb_lt|].
      by destruct (ti_status r).
    + apply list_elem_of_fmap. exists (j, r). split; [done|]. apply findMany_all. split; [exact Hj|].
      by rewrite Hcond, bool_decide_eq_true_2.
Qed.

#[local] Notation sweep T := (λ ticket, attempt (sweep_ticket T ticket)).

Lemma attempt_spares j T t : t_id t ≠ j → spares j (attempt (sweep_ticket T t)).
Proof.
  intros Hne. unfold attempt. apply keeps_try; [|intros; apply keeps_ret]. apply keeps_bind; [by apply sweep_ticket_spares|].
  intros; apply keeps_ret.
Qed.

(** A loop of attempts returns the number of failures, and leaves alone what it is not about. *)
Lemma attempts_run T l w : ∃ n w', sum_each (sweep T) l w = (Ok n, w') ∧ 0 <= n ∧ w_now w' = w_now w ∧
  ∀ j, j ∉ map t_id l → tickets w' !! j = tickets w !! j.
Proof.
  revert w. induction l as [|t l IH]; intros w; cbn [sum_each].
  - exists 0, w. split_and!; try done. 
  - destruct (attempt_run (sweep_ticket T t) w) as (n & En & Hn & _).
    destruct (IH (sweep_ticket T t w).2) as (m & w' & Em & Hm & Hnow & Hrows).
    exists (n + m), w'. unfold mbind, M_bind. rewrite En, Em. split_and!; [done|lia| |].
    + rewrite Hnow. eapply (keeps_run (λ w, w_now w)); [exact En|]. unfold attempt, sweep_ticket, repo_markSlaBreached.
      unfold escalateTicket, inTransaction. keeps_tac.
    + intros j [Hj Hin]%not_elem_of_cons. rewrite (Hrows j Hin). unfold rows_of.
      by apply (keeps_run (λ w, rows (d_tickets (w_db w)) !! j) _ _ _ _ En), attempt_spares.
Qed.

(** Sweeping the organization [T]: an overdue ticket of it ends up late, and escalated unless
    there was a failure; no other ticket changes. *)
Lemma sweep_tenant_run tenant w :
  ∃ n w', sweep_tenant tenant w = (Ok n, w') ∧ 0 <= n ∧ w_now w' = w_now w ∧
    ∀ j r, tickets w !! j = Some r →
      if bool_decide (ti_tenantId r = n_id tenant) && overdue (w_now w) r
      then late j (ti_tenantId r) (bool_decide (n = 0)) w'
      else tickets w' !! j = Some r.
Proof.
  unfold sweep_tenant, try_catch, mbind, M_bind. set (T := n_id tenant).
  destruct (findOverdue_run T w) as (l & El & Hnd & Hsound & Hall). rewrite El.
  destruct (attempts_run T l w) as (n & w' & En & Hn & Hnow & Hrows). rewrite En.
  exists n, w'. split_and!; try done. intros j r Hj.
  destruct (bool_decide_reflect (ti_tenantId r = T)) as [HT|HT]; cbn [andb]; [destruct (overdue (w_now w) r) eqn:Ho|]; cycle 1.
  - rewrite Hrows; [done|]. intros (t & Ht & Hin)%list_elem_of_fmap. destruct (Hsound t Hin) as (r' & Hr' & _ & Ho' & _).
    rewrite <-Ht in Hr'. assert (r' = r) as -> by congruence. congruence.
  - rewrite Hrows; [done|]. intros (t & Ht & Hin)%list_elem_of_fmap. destruct (Hsound t Hin) as (r' & Hr' & HT' & _).
    rewrite <-Ht in Hr'. assert (r' = r) as -> by congruence. congruence.
  - destruct (list_elem_of_split l (ticket_toDomain j r) (Hall j r Hj HT Ho)) as (l1 & l2 & ->).
    rewrite map_app in Hnd. cbn [map] in Hnd. apply NoDup_app in Hnd as (_ & Hd1 & Hnd).
    apply NoDup_cons in Hnd as [Hd2 _]. change (t_id (ticket_toDomain j r)) with j in *.
    rewrite sum_each_app in En. unfold mbind, M_bind, mret, M_ret in En.
    destruct (attempts_run T l1 w) as (n1 & w1 & E1 & Hn1 & Hnow1 & Hr1). rewrite E1 in En. cbn [sum_each] in En.
    assert (tickets w1 !! j = Some r) as Hj1.
    { rewrite Hr1; [done|]. intros Hin. apply (Hd1 j Hin). by left. }
    rewrite <-Hnow1 in Ho. destruct (attempt_late j r w1 Hj1 Ho) as (n2 & w2 & E2 & Hn2 & Hlate). rewrite HT in E2, Hlate.
    unfold mbind, M_bind in En. rewrite E2 in En.
    destruct (attempts_run T l2 w2) as (n3 & w3 & E3 & Hn3 & _ & Hr3). rewrite E3 in En. unfold mret, M_ret in En.
    injection En as <- <-. rewrite HT. destruct Hlate as (r' & Hr' & Hs' & HT' & He').
    exists r'. rewrite Hr3 by done. split_and!; try done. intros Hz. apply He'. bool_to_prop.
    apply bool_decide_eq_true_2. lia.
Qed.

(** ** The job *)

Lemma late_zero j T n m w : 0 <= n → 0 <= m → late j T (bool_decide (n = 0)) w → late j T (bool_decide (n + m = 0)) w.
Proof.
  intros Hn Hm (r & Hr & Hs & HT & He). exists r. split_and!; try done. intros H. apply He. bool_to_prop.
  apply bool_decide_eq_true_2. lia.
Qed.

Lemma sweeps_run ts : ∀ w, NoDup (map n_id ts) →
  ∃ n w', sum_each sweep_tenant ts w = (Ok n, w') ∧ 0 <= n ∧ w_now w' = w_now w ∧
    ∀ j r, tickets w !! j = Some r →
      if bool_decide (ti_tenantId r ∈ map n_id ts) && overdue (w_now w) r
      then late j (ti_tenantId r) (bool_decide (n = 0)) w'
      else tickets w' !! j = Some r.
Proof.
  induction ts as [|t ts IH]; intros w Hn; cbn [sum_each map].
  - exists 0, w. split_and!; done.
  - apply NoDup_cons in Hn as [Ht Hn].
    destruct (sweep_tenant_run t w) as (n & w1 & E1 & Hn1 & Hnow1 & H1).
    destruct (IH w1 Hn) as (m & w2 & E2 & Hn2 & Hnow2 & H2).
    exists (n + m), w2. unfold mbind, M_bind. rewrite E1, E2. split_and!; [done|lia|congruence|].
    intros j r Hj. specialize (H1 j r Hj). rewrite Hnow1 in H2.
    destruct (bool_decide_reflect (ti_tenantId r = n_id t)) as [HT|HT]; cbn [andb] in H1.
    + rewrite bool_decide_eq_true_2 by (rewrite HT; by left). cbn [andb].
      assert (bool_decide (ti_tenantId r ∈ map n_id ts) = false) as Hout by (apply bool_decide_eq_false_2; by rewrite HT).
      destruct (overdue (w_now w) r) eqn:Ho.
      * destruct H1 as (r1 & Hr1 & Hs1 & HT1 & He1). specialize (H2 j r1 Hr1). rewrite HT1, Hout in H2.
        apply late_zero; [done..|]. by exists r1.
      * specialize (H2 j r H1). by rewrite Hout in H2.
    + specialize (H2 j r H1).
      assert (bool_decide (ti_tenantId r ∈ n_id t :: map n_id ts) = bool_decide (ti_tenantId r ∈ map n_id ts)) as ->
        by (apply bool_decide_ext; rewrite elem_of_cons; naive_solver).
      destruct (_ && _); [|done]. rewrite Z.add_comm. by apply late_zero.
Qed.

Lemma map_result_ids l tenants : map_result tenant_toDomain l = Ok tenants → map n_id tenants = l.*1.
Proof.
  revert tenants. induction l as [|[i r] l IH]; intros tenants; cbn [map_result]; [by intros [= <-]|].
  destruct (tenant_toDomain i r) as [t|e] eqn:E; [|done]. cbn.
  destruct (map_result tenant_toDomain l) as [ys|e]; [|done]. intros [= <-]. cbn. rewrite (IH ys eq_refl). f_equal.
  unfold tenant_toDomain, mapPrismaTenantToEntity in E. destruct (slug_create (nr_slug r)) as [s|e]; [|done]. cbn in E.
  destruct (tenant_status_create (nr_status r)) as [st|e]; [|done]. cbn in E. by injection E as <-.
Qed.

Lemma tenants_ids w tenants :
  tenants_listed w tenants →
  NoDup (map n_id tenants) ∧ ∀ T, is_Some (rows_of d_tenants w !! T) → T ∈ map n_id tenants.
Proof.
  intros [Hm _]. rewrite (map_result_ids _ _ Hm). unfold all_tenants. split.
  - rewrite (pick_all _ _ _ (findMany_rows (tenant_where no_tenant_filters) (λ kr, - nr_createdAt kr.2) None (d_tenants (w_db w)))).
    apply NoDup_fst_map_to_list.
  - intros T [r Hr]. apply list_elem_of_fmap. exists (T, r). split; [done|]. apply findMany_all. by split.
Qed.

Lemma keeps_sweep_tenants tenant : Keeps (λ w, d_tenants (w_db w)) (sweep_tenant tenant).
Proof.
  unfold sweep_tenant. apply keeps_try; [|intros; apply keeps_ret]. apply keeps_bind; [unfold findOverdueTickets; keeps_tac|].
  intros l. apply keeps_sum_each. intros t. unfold attempt, sweep_ticket, repo_markSlaBreached, escalateTicket, inTransaction. keeps_tac.
Qed.

(** C12: Where all organizations can be read and no two were created at the same time, a run of the
    escalation job returns, however many tickets fail on the way.  Every overdue ticket of an
    organization is marked as late, and when nothing failed it is escalated; every other
    ticket is left exactly as it was. *)
Theorem sla_sweep_complete fuel tenants w :
  tenants_listed w tenants → (length tenants < 200 * fuel)%nat →
  ∃ n w', ticketEscalationJob fuel w = (Ok n, w') ∧ 0 <= n ∧
    ∀ j r, tickets w !! j = Some r → is_Some (rows_of d_tenants w !! ti_tenantId r) →
      if overdue (w_now w) r then
        ∃ r', tickets w' !! j = Some r' ∧ ti_slaBreached r' = true ∧ ti_tenantId r' = ti_tenantId r ∧
              (n = 0 → ti_isEscalated r' = true)
      else tickets w' !! j = Some r.
Proof.
  intros Hl Hf. unfold ticketEscalationJob.
  rewrite (each_tenant_from _ tenants fuel 1 w keeps_sweep_tenants Hl) by lia. change (drop _ tenants) with tenants.
  destruct (tenants_ids w tenants Hl) as [Hnd Hin].
  destruct (sweeps_run tenants w Hnd) as (n & w' & E & Hn & _ & H). exists n, w'. split_and!; [done|done|].
  intros j r Hj HT. specialize (H j r Hj). rewrite bool_decide_eq_true_2 in H by by apply Hin. cbn [andb] in H.
  destruct (overdue _ r); [|done]. destruct H as (r' & Hr' & Hs & HT' & He). exists r'. split_and!; try done.
  intros ->. by apply He.
Qed.
End jobs.

(** ** A concrete sweep *)

Definition shop (createdAt : Z) (status : string) : TenantRecord :=
  mkTenantRecord "Acme" "acme" status "pro" None None 5 100 10 (JObj []) None None createdAt createdAt.
Definition late_ticket (T : string) (dueAt : Z) : TicketRow :=
  mkTicketRow T 1 "c1" None "u1" "Broken" "d" OPEN LOW "GENERAL" [] "WEB"
    false None None None None None (Some dueAt) false [] None 0 0.
Definition two_shops : World (gmap string) :=
  world_of 1000 (empty_db
    <| d_tenants := {["t1" := shop 5 "ACTIVE"; "t2" := shop 6 "ACTIVE"]} |>
    <| d_tickets := {["k1" := late_ticket "t1" 900; "k2" := late_ticket "t2" 1100]} |>).

Definition flags (w : World (gmap string)) (j : string) : option (bool * bool) :=
  (λ r, (ti_slaBreached r, ti_isEscalated r)) <$> (rows_of d_tickets w !! j).

Definition shops : list TenantEntity :=
  match map_result tenant_toDomain (all_tenants two_shops) with Ok l => l | Err _ => [] end.

Lemma shops_listed : tenants_listed two_shops shops.
Proof.
  split; [vm_compute; reflexivity|].
  intros i r j r'. unfold rows_of. cbn. rewrite !lookup_insert_Some, !lookup_singleton_Some. unfold shop. naive_solver congruence.
Qed.

Lemma each_tenant_all_witness :
  each_tenant 2 1 (λ t, mret (str_length (n_id t))) two_shops
  = sum_each (λ t, mret (str_length (n_id t))) shops two_shops ∧ length shops = 2%nat.
Proof.
  split; [|vm_compute; reflexivity]. apply (each_tenant_all (Tbl:=gmap string)); [intros t; apply keeps_ret|exact shops_listed|].
  vm_compute. lia.
Defined.

(** The first ticket is past its time, the second is not. *)
Lemma sla_sweep_complete_witness :
  ∃ n w', ticketEscalationJob 2 two_shops = (Ok n, w') ∧ 0 <= n ∧
    flags (ticketEscalationJob 2 two_shops).2 "k1" = Some (true, true) ∧
    flags (ticketEscalationJob 2 two_shops).2 "k2" = Some (false, false).
Proof.
  destruct (sla_sweep_complete (Tbl:=gmap string) 2 shops two_shops shops_listed) as (n & w' & E & Hn & _); [vm_compute; lia|].
  exists n, w'. split; [exact E|]. split; [exact Hn|]. split; vm_compute; reflexivity.
Defined.
